(* ===== verification/_CoqProject ===== *)
-Q . S2P
Prelude.v
Bitmap.v
Ids.v
LinkedList.v
StackList.v
SpinLock.v
Pmm.v
Buddy.v
BuddySim.v
BuddyBlocks.v
BuddyCorrect.v
BuddyInit.v
BuddyTheorems.v
BuddyLaws.v
PageFlags.v
Pages.v
Slab.v
SlabCorrect.v
SlabRepr.v
SlabTheorems.v
Heap.v
HeapTheorems.v
PageTable.v
PageTableCorrect.v
PageTableTheorems.v
Paging.v
BootMap.v
BootTheorems.v
KernelPages.v
KernelPagesTheorems.v
Bitfield.v
IoApic.v
IoApicCorrect.v
Idt.v
IrqTheorems.v
Hpet.v
HpetTheorems.v
Lapic.v
Acpi.v
AcpiTheorems.v
LapicTheorems.v
Layouts.v
Registers.v
Vmcb.v
Svm.v
SvmTheorems.v
DevicePages.v
Pcie.v
PcieTheorems.v
Xsdt.v
XsdtTheorems.v
Font.v
Logger.v
LoggerTheorems.v
Kmain.v
KmainTheorems.v
Events.v
EventsTheorems.v
LegacyTimers.v
LegacyTimersTheorems.v
MemCopy.v
Scheduler.v
SchedulerTheorems.v
