(* ===== verification/Prelude.v ===== *)
(** * Funderberker: a verification library

    Funderberker is a bare-metal x86-64 kernel (with the start of a hypervisor)
    written in Rust.  This library models its memory system, from the physical
    page allocator to the kernel heap, the collections and the lock these are
    built from, the programming of the APICs and of the HPET, the parsing of
    the ACPI tables, the discovery of PCIe devices, the log on the serial port
    and on the screen, and the set-up and run of a guest of the hypervisor, and
    proves them correct.  [kmain], the boot, composes the parts.

    ** The program and the files

    The kernel boots from Limine with a memory map and a higher half offset.
    [pmm::init_from_limine] builds the buddy allocator of physical pages in the
    first usable range that holds its bookkeeping; [init_vaa_from_limine] picks
    where kernel virtual addresses start; [paging::init_from_limine] builds the
    page tables with pages of the buddy allocator.  From then on
    [allocate_pages] takes a physical page, a virtual address and maps one to
    the other; the slab allocators grow by such pages, and the global heap is
    eight slab allocators.  [kmain] then installs the handlers of the
    exceptions and walks the ACPI tables, which start the interrupt controllers,
    the timers and the PCIe buses.

    - [Prelude]: the monad of panics ([res]), checked machine arithmetic, bit
      lemmas, tactics and hints shared by all files.
    - [Bitmap] (utils/src/collections/bitmap.rs), [Ids] (id/tracker.rs,
      id/hander.rs), [LinkedList] (linkedlist.rs) and [StackList]
      (stacklist.rs): the collections.  The two lists are over an explicit heap
      of nodes addressed by pointers; representation predicates relate them to
      plain lists.
    - [SpinLock] (sync/spinlock.rs): the lock as a step relation over any
      number of interleaved threads.
    - [Pmm] (pmm/src/lib.rs): the interface of the physical allocator, as a
      class of operations ([PmmAllocator]) and a class of laws ([PmmLaws]).
    - [Buddy] (pmm/src/buddy.rs): the buddy allocator as it is written, over
      the intrusive lists.  [BuddySim] relates it to the same algorithm over
      lists of block addresses; [BuddyBlocks] and [BuddyCorrect] prove that one
      correct against sets of free bytes; [BuddyInit] treats the construction
      from the memory map; [BuddyTheorems] states the results on the code and
      [BuddyLaws] discharges [PmmLaws] for it.
    - [PageFlags] (arch/x86_64/paging/flags.rs, page_size.rs, pat.rs and the
      flag and page size wrappers of kernel/src/mem/paging.rs).
    - [PageTable] (arch/x86_64/paging/mod.rs): entries and tables over a
      physical memory of frames, against any [PmmAllocator].
      [PageTableCorrect] and [PageTableTheorems] prove mapping, unmapping and
      translation correct from [PmmLaws].
    - [Paging] (kernel/src/mem/vaa.rs, kernel/src/mem/paging.rs, the paging part
      of arch/x86_64/mod.rs, the boot part of paging/mod.rs, cpu/msr.rs):
      virtual address allocation, [allocate_pages], [free_pages], [map_pages]
      and [init_from_limine].  [BootMap] and [BootTheorems] treat the boot,
      [KernelPages] and [KernelPagesTheorems] the page service after it.
    - [Pages]: the page service that the slab allocator uses, as a class of
      operations ([PageProvider]) and laws ([PageLaws]); [KernelPages]
      discharges the laws for the kernel's paging.
    - [Slab] (slab/src/internal.rs): the slab allocator, its free lists kept in
      the memory of the free objects.  [SlabCorrect], [SlabRepr] and
      [SlabTheorems] prove it correct from [PageLaws].
    - [Heap] (slab/src/heap.rs, slab/src/lib.rs) with [HeapTheorems]: the global
      heap of eight size classes and the typed allocator.
    - [Bitfield]: the interface of the bit field crate (not part of the
      repository) with its laws, 32-bit arithmetic and lemmas on bits.
    - [IoApic] (arch/x86_64/apic/ioapic.rs, apic/mod.rs, utils/src/mem/mmio.rs):
      redirection entries, IRQ overrides and the IRQ allocator over
      memory-mapped registers.  [IoApicCorrect] states what the data sheet says
      of the hardware ([IoApicHw]) and proves the operations from it.
    - [Idt] (arch/x86_64/interrupts.rs): gate descriptors, the installation of
      handlers and [register_irq], which ties the IDT to the IO APICs;
      [IrqTheorems] has the results on both.
    - [Hpet] (drivers/src/timer/hpet.rs) with [HpetTheorems]: the HPET and its
      timers, which take their interrupt lines from the IRQ allocator.
    - [Lapic] (arch/x86_64/apic/lapic.rs, drivers/src/timer/apic.rs) with
      [LapicTheorems]: the local APICs.
    - [Acpi] (boot/src/acpi/mod.rs, rsdp.rs, madt.rs, hpet.rs) with
      [AcpiTheorems]: checksums, and the MADT parser, which reads bytes and
      calls the two APIC drivers.
    - [Layouts]: structures of bit fields as lists of named widths, with the
      load and store of a field.  [Registers] (arch/x86_64/cpu/mod.rs,
      cpu/msr.rs, gdt.rs): the registers of the processor behind the class
      [Register], the MSRs and the lookup of a selector in the GDT.
    - [Vmcb] (hypervisor/src/svm/mod.rs, the structures): the control block of
      a guest and the exit codes.  [Svm] (the operations of the same file,
      svm/cpu.rs, hypervisor/src/lib.rs): the start of SVM on the host, the
      set-up, run and exit of a guest, the creation of a vessel, over the page
      service and the slab allocator; [SvmTheorems] has the results.
    - [Pcie] (drivers/src/bus/pcie.rs, boot/src/acpi/mcfg.rs): the scan of the
      configuration space, which maps a page per function, and the MCFG table
      that starts it.  [DevicePages] shows that mapping and unmapping pages of
      devices keeps the invariant of the page service; [PcieTheorems] has the
      results.
    - [Xsdt] (boot/src/acpi/mod.rs, xsdt.rs): from the RSDP over the XSDT to the
      tables that the kernel parses, each byte read through the page tables;
      [XsdtTheorems] relates it to the handlers of the tables.
    - [Font] (logger/src/font.rs) is the font as data.  [Logger]
      (logger/src/lib.rs, serial.rs, framebuffer.rs) with [LoggerTheorems]: the
      serial ports over the class of port access and the text on a framebuffer,
      which is a memory of words.
    - [Kmain] (boot/src/main.rs, boot/src/limine, lazy statics) with
      [KmainTheorems]: the boot from the answers of Limine to the halt loop.
    - [Events] (arch/x86_64/interrupts.rs, event.rs, drivers/src/timer/apic.rs)
      with [EventsTheorems]: the handlers of the exceptions, and the
      measurement of the local APIC timer against the HPET.
    - [LegacyTimers] (drivers/src/timer/pit.rs, rtc.rs, cmos.rs) with
      [LegacyTimersTheorems]: the drivers of the two old timers, which are not
      part of the build.
    - [MemCopy] (utils/src/mem/mod.rs): copying of memory byte by byte.
    - [Scheduler] (scheduler/src/lib.rs, constant.rs) with
      [SchedulerTheorems]: the trait of schedulers as a class, its constant
      instance, and what it does with the vessels of [Svm].

    ** How the code is modelled

    A [usize] or [u64] is a [Z] in range; arithmetic that Rust checks in the
    debug profile goes through [usize_add], [usize_mul] and the like, which
    panic on overflow; wrapping and bit operations are written out.  A Rust
    panic is [Panic] with its cause (the workspace aborts on panics, so none is
    caught); [Result] is [result].  Memory reached through raw pointers is an
    explicit map, and a dereference of a pointer that is not in it panics.
    Statics behind a lock (the allocator, the page tables, the address
    allocator) are explicit state that the operations take and return; the
    lock itself is modelled and proved in [SpinLock].  Loops over data are
    structural; a loop without a structural measure takes fuel, and the
    theorems that the operation returns a result show that the fuel chosen is
    enough: the number of list nodes for walks, the number of zones for
    splitting and merging, the number of pages of the range for
    [break_into_buckets_n_free] and [map_in_entry], the number of slabs for the
    slab lists.  The loop over
    the MADT takes a number of steps and answers [None] when it has not ended;
    more steps than entries are enough, and on a malformed table none are.  A
    loop that polls a clock takes rounds, and enough of them for the clock to
    reach the end are enough; [operation_loop] of the scheduler has no end, and
    is modelled by the state after any number of rounds.

    ** What is proved

    - Physical memory: from the memory map on, the free memory is exactly the
      usable memory without the bookkeeping; [allocate] takes exactly an aligned
      block that was free, and fails only if there is none; [free] makes exactly
      its block free and merges; allocating and freeing again is the identity.
      The pointer program implements memory as a set of free bytes
      ([buddy_refines_memory]): every permitted call answers as the
      specification says, each error for its reason.  No run of requests hands
      a byte out twice, and none panics unless the alignment asked for, in
      bytes, overflows, or the freelist runs low ([buddy_requests_safe]).
    - Page tables: [map_pages] and [unmap_pages] change [translate] exactly at
      the pages they are given, keep the invariant of the tables, undo each
      other, and refuse what they must.  At boot exactly the ranges of the
      memory map are mapped, each byte to its byte.
    - The page service: in a run of requests no address is handed out twice,
      not even after it was freed; a page handed out is mapped and its frame
      was free; freeing it makes the frame free and unmaps the address.
    - Slabs and heap: objects held are aligned, disjoint, inside pages of the
      allocator; [free] tells held, free and foreign pointers apart; the
      composition with the kernel's paging shows that every byte of a held
      object is mapped to a frame in use.
    - Collections: each refines its abstract data (a list of bits, a pool of
      ids, a list).  The lock excludes in every interleaving; it is taken
      again and again in every run that leaves critical sections, by whichever
      thread comes first; and a thread that locks it twice stops all.
    - Interrupts: registering a handler installs exactly one gate and routes
      exactly one pin; what overrides, the HPET (with legacy routing and without) and
      the LINT setup change of the registers, bit by bit, and what they leave.  Parsing the bytes of a MADT
      is the handlers applied to the entries it encodes.
    - Devices: the scan of the PCIe buses finds exactly the functions that
      answer and leaves exactly their pages mapped.
    - Guests: SVM is started exactly where the processor has it and the
      firmware leaves it on; each intercept is the bit whose number is its exit
      code; setting a guest up writes each field it names from the register
      it names and nothing else (of a segment, the descriptor that the code looks
      up, which is not the one of the selector), and intercepts exactly what
      the code says;
      the run of a guest handles the exit codes as written; no vessel can be
      created, because its slab has no room for an object.
    - Boot: from a machine as Limine hands it over (the record [boots]) [kmain]
      loads the handlers of all exceptions, builds the allocators and the page
      tables, and does what the ACPI tables ask for on a page service in order.
    - Log: a text written to a fresh screen of whole cells is drawn cell by
      cell, changes nothing else, and goes to the serial ports byte by byte.
    - Time and scheduling: what the measurement of the APIC timer, the rates of
      the RTC and the cycles of the PIT come to, and that the constant scheduler
      runs the same vessel in every round, which for a guest at an intercepted
      instruction is the same exit again.

    ** Bounds of the model

    The theorems on paging assume 4-level paging with every table in the
    higher half map, and physical memory below 2^52.  [SpinLock] is
    sequentially consistent.  Interrupt masking and the reentrancy of the
    allocators from interrupt handlers are not modelled.  Hardware registers
    change only by the driver's accesses; an IO APIC has at most 111 pins, so
    that the registers the driver selects are within its eight index bits.  The
    theorems on the boot take enough free pages for three tables per slot of
    2 MiB that is mapped ([tables_of]), and few enough pages of memory that the
    nodes of the buddy allocator suffice in every state ([enough_nodes]).  In
    [kmain] the frames of page tables, the bytes that the firmware left and the
    nodes of the allocator are separate views of physical memory.

    ** Not modelled

    What the processor does inside a guest: VMRUN is a parameter of [Svm].  The
    stubs of interrupt entry, which are assembly and call the handlers of
    [Events].  The formatting of log messages, which is that of core::fmt: the
    text is an argument, and the messages of the other parts are left out of
    their models, except in the handling of the exits of a guest.  The macros
    are expanded where they are used.  The NVMe driver
    (storage/nvme/pcie.rs) is unfinished: most of its functions have no body,
    and its module is commented out, as it names modules that do not exist;
    the hypervisor's mem.rs is not part of the build and does not parse.
    pit.rs, rtc.rs and cmos.rs are not part of the build either; what they
    call and the repository does not have (the stretch of code with interrupts
    disabled) is a parameter. *)

From Stdlib Require Export ZArith Lia.
From stdpp Require Export base option gmap numbers list.

#[global] Open Scope Z_scope.
#[global] Arguments Nat.div : simpl never.
#[global] Arguments Nat.modulo : simpl never.
#[global] Arguments Z.div : simpl never.
#[global] Arguments Z.modulo : simpl never.
#[global] Arguments Z.pow : simpl never.
#[global] Arguments Z.mul : simpl never.
#[global] Arguments Z.add : simpl never.
#[global] Arguments Z.sub : simpl never.
#[global] Arguments Z.of_nat : simpl never.

(** ** Outcomes

    A Rust function either returns or panics (the workspace sets
    [panic = "abort"], so a panic is never caught).  [res] is the monad of
    that; the argument of [Panic] says which check stopped the program. *)
Inductive panic :=
  | Overflow            (* checked arithmetic of the debug profile *)
  | DivByZero           (* [%] or [/] by zero *)
  | IndexOutOfBounds    (* slice or vector indexing *)
  | Unwrapped           (* [unwrap]/[expect] of [None] or [Err] *)
  | Unreached           (* [unreachable!()] *)
  | Asserted            (* [assert!], [sanity_assert!] or [panic!] *)
  | BadPointer.         (* dereference of a pointer to no live node *)

Inductive res (A : Type) :=
  | Done (a : A)
  | Panic (p : panic).
Arguments Done {A} a.
Arguments Panic {A} p.

(** Rust's [Result]. *)
Inductive result (A E : Type) :=
  | Ok (a : A)
  | Err (e : E).
Arguments Ok {A E} a.
Arguments Err {A E} e.

#[export] Instance panic_eq_dec : EqDecision panic.
Proof. solve_decision. Defined.
#[export] Instance res_eq_dec `{EqDecision A} : EqDecision (res A).
Proof. solve_decision. Defined.
#[export] Instance result_eq_dec `{EqDecision A, EqDecision E} : EqDecision (result A E).
Proof. solve_decision. Defined.

#[export] Instance res_ret : MRet res := fun A a => Done a.
#[export] Instance res_bind : MBind res :=
  fun A B f m => match m with Done a => f a | Panic p => Panic p end.

(** [Option::unwrap]/[expect], [Result::unwrap] and [assert!]. *)
Definition unwrap {A} (o : option A) : res A :=
  match o with Some a => Done a | None => Panic Unwrapped end.
Definition unwrap_ok {A E} (r : result A E) : res A :=
  match r with Ok a => Done a | Err _ => Panic Unwrapped end.
Definition assert_ (b : bool) : res unit :=
  if b then Done () else Panic Asserted.
Definition index {A} (l : list A) (i : nat) : res A :=
  match l !! i with Some a => Done a | None => Panic IndexOutOfBounds end.

(** A computation that may panic, or not end within the steps it was given. *)
Notation "'let*' x := e 'in' f" :=
  (match e with None => None | Some (Panic p) => Some (Panic p) | Some (Done x) => f end)
  (at level 10, x pattern, f at level 200).

(** ** 64-bit machine integers

    [usize], [u64] and pointers are integers of [0, 2^64).  [+], [-] and [*]
    are checked, as in the debug profile the Justfile builds by default. *)
Definition usize_MAX : Z := 2 ^ 64 - 1.
Definition is_usize (x : Z) : Prop := 0 <= x <= usize_MAX.

Definition usize_add (a b : Z) : res Z :=
  if a + b <=? usize_MAX then Done (a + b) else Panic Overflow.
Definition usize_sub (a b : Z) : res Z :=
  if b <=? a then Done (a - b) else Panic Overflow.
Definition usize_mul (a b : Z) : res Z :=
  if a * b <=? usize_MAX then Done (a * b) else Panic Overflow.
Definition usize_rem (a b : Z) : res Z :=
  if b =? 0 then Panic DivByZero else Done (a mod b).
(** [2_usize.pow(n)]. *)
Definition usize_pow2 (n : nat) : res Z :=
  if 2 ^ Z.of_nat n <=? usize_MAX then Done (2 ^ Z.of_nat n) else Panic Overflow.
(** [!x] at 64 bits. *)
Definition usize_not (x : Z) : Z := usize_MAX - x.
(** [x.is_power_of_two()]. *)
Definition is_power_of_two (x : Z) : bool := (0 <? x) && (2 ^ Z.log2 x =? x).
(** [x.checked_next_power_of_two()]. *)
Definition checked_next_power_of_two (x : Z) : option Z :=
  let p := 2 ^ Z.log2_up x in if p <=? usize_MAX then Some p else None.
(** [x.ilog2()], for the positive arguments it is called at. *)
Definition ilog2 (x : Z) : nat := Z.to_nat (Z.log2 x).
(** [x.div_ceil(d)]. *)
Definition div_ceil (x d : Z) : Z := (x + d - 1) / d.

Create HintDb usize.
#[export] Hint Unfold is_usize usize_MAX : usize.

(** ** The monad's laws and its inversion principle *)
Section res_laws.
Context {A B : Type}.

Lemma bind_Done (a : A) (f : A -> res B) : (Done a ≫= f) = f a.
Proof. reflexivity. Qed.

Lemma bind_Done_inv (m : res A) (f : A -> res B) b :
    (m ≫= f) = Done b -> exists a, m = Done a /\ f a = Done b.
Proof. destruct m; cbn; [eauto | discriminate]. Qed.

Lemma unwrap_Done_inv (o : option A) a : unwrap o = Done a -> o = Some a.
Proof. destruct o; cbn; congruence. Qed.

Lemma unwrap_ok_Done_inv {E} (r : result A E) a : unwrap_ok r = Done a -> r = Ok a.
Proof. destruct r; cbn; congruence. Qed.

Lemma assert_Done_inv b u : assert_ b = Done u -> b = true.
Proof. destruct b; cbn; congruence. Qed.

Lemma index_Done (l : list A) i a : index l i = Done a <-> l !! i = Some a.
Proof. unfold index. destruct (l !! i); naive_solver. Qed.
End res_laws.

(** [res_inv] inverts every hypothesis [m = Done _] whose head is a bind. *)
Ltac res_inv :=
  repeat match goal with
  | H : (_ ≫= _) = Done _ |- _ =>
      let a := fresh "v" in let H1 := fresh "Hm" in
      apply bind_Done_inv in H; destruct H as (a & H1 & H); cbn beta in H
  | H : Done _ = Done _ |- _ => injection H as H; subst
  | H : Panic _ = Done _ |- _ => discriminate H
  | H : unwrap _ = Done _ |- _ => apply unwrap_Done_inv in H
  | H : unwrap_ok _ = Done _ |- _ => apply unwrap_ok_Done_inv in H
  | H : assert_ _ = Done _ |- _ => apply assert_Done_inv in H
  | H : index _ _ = Done _ |- _ => apply index_Done in H
  end.

(** Boolean comparisons to propositions. *)
Ltac bool_to_prop :=
  repeat match goal with
  | H : (_ && _)%bool = true |- _ => apply andb_prop in H as [? ?]
  | H : (_ =? _) = true |- _ => apply Z.eqb_eq in H
  | H : (_ =? _) = false |- _ => apply Z.eqb_neq in H
  | H : (_ <=? _) = true |- _ => apply Z.leb_le in H
  | H : (_ <=? _) = false |- _ => apply Z.leb_gt in H
  | H : (_ <? _) = true |- _ => apply Z.ltb_lt in H
  | H : (_ <? _) = false |- _ => apply Z.ltb_ge in H
  | H : negb _ = true |- _ => apply negb_true_iff in H
  | H : negb _ = false |- _ => apply negb_false_iff in H
  end.

(** Case analysis on the first [if] of the goal, with arithmetic facts. *)
Ltac case_if :=
  match goal with
  | |- context [if ?b then _ else _] =>
      let E := fresh "Hif" in destruct b eqn:E; bool_to_prop
  end.

(** ** Checked arithmetic that does not overflow *)
Lemma usize_add_ok a b : a + b <= usize_MAX -> usize_add a b = Done (a + b).
Proof. unfold usize_add. case_if; [done | lia]. Qed.

Lemma usize_sub_ok a b : b <= a -> usize_sub a b = Done (a - b).
Proof. unfold usize_sub. case_if; [done | lia]. Qed.

Lemma usize_mul_ok a b : a * b <= usize_MAX -> usize_mul a b = Done (a * b).
Proof. unfold usize_mul. case_if; [done | lia]. Qed.

Lemma usize_rem_ok a b : 0 < b -> usize_rem a b = Done (a mod b).
Proof. unfold usize_rem. case_if; [lia | done]. Qed.

Lemma usize_add_Done_inv a b c : usize_add a b = Done c -> c = a + b /\ c <= usize_MAX.
Proof. unfold usize_add. case_if; intros [= <-]; lia. Qed.

Lemma usize_sub_Done_inv a b c : usize_sub a b = Done c -> c = a - b /\ b <= a.
Proof. unfold usize_sub. case_if; intros [= <-]; lia. Qed.

Lemma usize_mul_Done_inv a b c : usize_mul a b = Done c -> c = a * b /\ c <= usize_MAX.
Proof. unfold usize_mul. case_if; intros [= <-]; lia. Qed.

Lemma usize_rem_Done_inv a b c : usize_rem a b = Done c -> c = a mod b /\ b <> 0.
Proof. unfold usize_rem. case_if; intros [= <-]; lia. Qed.

Lemma usize_pow2_ok n : (n < 64)%nat -> usize_pow2 n = Done (2 ^ Z.of_nat n).
Proof.
  intros Hn. unfold usize_pow2. case_if; [done |].
  assert (2 ^ Z.of_nat n <= 2 ^ 63) by (apply Z.pow_le_mono_r; lia).
  change (2 ^ 63) with 9223372036854775808 in *. unfold usize_MAX in *. lia.
Qed.

Lemma usize_pow2_Done_inv n c : usize_pow2 n = Done c -> c = 2 ^ Z.of_nat n /\ (n < 64)%nat.
Proof.
  unfold usize_pow2. case_if; [intros [= <-] | discriminate].
  split; [done |]. destruct (decide (n < 64)%nat) as [| Hn]; [done | exfalso].
  assert (2 ^ 64 <= 2 ^ Z.of_nat n) by (apply Z.pow_le_mono_r; lia).
  unfold usize_MAX in *. lia.
Qed.

(** [usize_inv]: the facts behind every checked operation that returned. *)
Ltac usize_inv :=
  repeat match goal with
  | H : usize_add _ _ = Done _ |- _ => apply usize_add_Done_inv in H as [? ?]
  | H : usize_sub _ _ = Done _ |- _ => apply usize_sub_Done_inv in H as [? ?]
  | H : usize_mul _ _ = Done _ |- _ => apply usize_mul_Done_inv in H as [? ?]
  | H : usize_rem _ _ = Done _ |- _ => apply usize_rem_Done_inv in H as [? ?]
  | H : usize_pow2 _ = Done _ |- _ => apply usize_pow2_Done_inv in H as [? ?]
  end; subst.

Create Rewrite HintDb usize_ops.
#[export] Hint Rewrite usize_add_ok usize_sub_ok usize_mul_ok usize_rem_ok
  using (unfold usize_MAX in *; lia) : usize_ops.

(** ** Powers of two *)
Lemma pow2_pos n : 0 < 2 ^ Z.of_nat n.
Proof. apply Z.pow_pos_nonneg; lia. Qed.

Lemma pow2_S n : 2 ^ Z.of_nat (S n) = 2 * 2 ^ Z.of_nat n.
Proof. rewrite Nat2Z.inj_succ, Z.pow_succ_r; lia. Qed.

Lemma pow2_le_mono i j : (i <= j)%nat -> 2 ^ Z.of_nat i <= 2 ^ Z.of_nat j.
Proof. intros. apply Z.pow_le_mono_r; lia. Qed.

Lemma pow2_divide i j : (i <= j)%nat -> (2 ^ Z.of_nat i | 2 ^ Z.of_nat j).
Proof.
  intros. exists (2 ^ Z.of_nat (j - i)). rewrite <- Z.pow_add_r by lia. f_equal. lia.
Qed.

Lemma pow2_split i j : (i <= j)%nat ->
  2 ^ Z.of_nat j = 2 ^ Z.of_nat i * 2 ^ Z.of_nat (j - i).
Proof. intros. rewrite <- Z.pow_add_r by lia. f_equal. lia. Qed.

#[export] Hint Resolve pow2_pos pow2_le_mono pow2_divide : usize.

Lemma is_power_of_two_spec x :
  is_power_of_two x = true <-> exists n : nat, x = 2 ^ Z.of_nat n.
Proof.
  unfold is_power_of_two. rewrite andb_true_iff, Z.ltb_lt, Z.eqb_eq. split.
  - intros [Hx <-]. exists (Z.to_nat (Z.log2 x)).
    rewrite Z2Nat.id by apply Z.log2_nonneg. done.
  - intros [n ->]. split; [apply pow2_pos |]. rewrite Z.log2_pow2; lia.
Qed.

Lemma ilog2_pow2 (n : nat) : ilog2 (2 ^ Z.of_nat n) = n.
Proof. unfold ilog2. rewrite Z.log2_pow2 by lia. lia. Qed.

(** The next power of two is the least one above its argument. *)
Lemma next_power_of_two_spec x p : 0 < x -> checked_next_power_of_two x = Some p ->
  exists n : nat, (n < 64)%nat /\ p = 2 ^ Z.of_nat n /\ ilog2 p = n /\ x <= p /\
    (forall m : nat, x <= 2 ^ Z.of_nat m -> (n <= m)%nat).
Proof.
  unfold checked_next_power_of_two. intros Hx. case_if; intros [= <-].
  pose proof (Z.log2_up_nonneg x) as Hn. exists (Z.to_nat (Z.log2_up x)).
  rewrite Z2Nat.id by done. split_and!; [| done | | | ].
  - apply Nat2Z.inj_lt. rewrite Z2Nat.id by done.
    apply (Z.pow_lt_mono_r_iff 2); unfold usize_MAX in *; lia.
  - unfold ilog2. rewrite Z.log2_pow2; done.
  - destruct (decide (x = 1)) as [-> | ]; [done |].
    apply Z.log2_up_spec. lia.
  - intros m Hm. apply Nat2Z.inj_le. rewrite Z2Nat.id by done.
    apply Z.log2_up_le_pow2; lia.
Qed.

Lemma next_power_of_two_le x n : 0 < x <= 2 ^ Z.of_nat n -> (n < 64)%nat ->
  exists p, checked_next_power_of_two x = Some p /\ p <= 2 ^ Z.of_nat n.
Proof.
  intros [Hx Hle] Hn. unfold checked_next_power_of_two.
  assert (2 ^ Z.log2_up x <= 2 ^ Z.of_nat n) as Hp.
  { apply Z.pow_le_mono_r; [lia |]. apply Z.log2_up_le_pow2; lia. }
  assert (2 ^ Z.of_nat n <= 2 ^ 63) by (apply Z.pow_le_mono_r; lia).
  case_if; [eauto |]. change (2 ^ 63) with 9223372036854775808 in *.
  unfold usize_MAX in *. lia.
Qed.

Lemma next_power_of_two_pow2 n : (n < 64)%nat ->
  checked_next_power_of_two (2 ^ Z.of_nat n) = Some (2 ^ Z.of_nat n).
Proof.
  intros Hn. unfold checked_next_power_of_two. rewrite Z.log2_up_pow2 by lia.
  pose proof (usize_pow2_ok n Hn) as H. unfold usize_pow2 in H. case_if; done.
Qed.

(** ** Divisibility of aligned blocks *)
Lemma mod0_divide a b : 0 < b -> a mod b = 0 <-> (b | a).
Proof. intros. rewrite <- Z.mod_divide; lia. Qed.

(** Two multiples of [d] that differ by less than [d] are equal. *)
Lemma divide_between d a b : 0 < d -> (d | a) -> (d | b) -> a <= b < a + d -> a = b.
Proof.
  intros Hd [k ->] [m ->] H. assert (k <= m < k + 1) by nia. f_equal. lia.
Qed.

(** ** Bits of 64-bit words *)
Lemma usize_bits_above x n : is_usize x -> 64 <= n -> Z.testbit x n = false.
Proof.
  unfold is_usize, usize_MAX. intros Hx Hn.
  rewrite <- (Z.mod_small x (2 ^ 64)) by lia. apply Z.mod_pow2_bits_high. lia.
Qed.

Lemma bits_above_is_usize x : 0 <= x -> (forall n, 64 <= n -> Z.testbit x n = false) ->
  is_usize x.
Proof.
  intros Hx Hb. unfold is_usize, usize_MAX. split; [done |].
  assert (x = x mod 2 ^ 64) as ->; [| pose proof (Z.mod_pos_bound x (2 ^ 64)); lia].
  apply Z.bits_inj'. intros n Hn. destruct (decide (n < 64)).
  - rewrite Z.mod_pow2_bits_low; [done | lia].
  - rewrite Z.mod_pow2_bits_high by lia. apply Hb. lia.
Qed.

Lemma usize_not_testbit x i : is_usize x -> 0 <= i ->
  Z.testbit (usize_not x) i = (i <? 64) && negb (Z.testbit x i).
Proof.
  intros Hx Hi. unfold usize_not. change usize_MAX with (Z.ones 64).
  rewrite Z.sub_nocarry_ldiff.
  - rewrite Z.ldiff_spec. destruct (Z.ltb_spec i 64).
    + rewrite Z.ones_spec_low by lia. done.
    + rewrite Z.ones_spec_high by lia. done.
  - apply Z.bits_inj'. intros n Hn. rewrite Z.ldiff_spec, Z.bits_0.
    destruct (decide (n < 64)).
    + rewrite Z.ones_spec_low by lia. apply andb_false_r.
    + rewrite (usize_bits_above x n) by (done || lia). done.
Qed.

Lemma usize_not_is_usize x : is_usize x -> is_usize (usize_not x).
Proof. unfold is_usize, usize_not, usize_MAX. lia. Qed.

(** [a & !b] clears exactly the bits of [b]. *)
Lemma land_usize_not a b : is_usize a -> is_usize b ->
  Z.land a (usize_not b) = Z.ldiff a b.
Proof.
  intros Ha Hb. apply Z.bits_inj'. intros n Hn.
  rewrite Z.land_spec, Z.ldiff_spec, usize_not_testbit by done.
  destruct (Z.ltb_spec n 64); [done |]. by rewrite (usize_bits_above a n) by (done || lia).
Qed.
