(* ===== verification/Bitmap.v ===== *)
(** * The dynamic bitmap of [utils/src/collections/bitmap.rs]

    A bitmap is a vector of bytes and a count of used bits.  Its abstraction
    is the list of its used bits ([Bitmap_bits]); each operation is shown to
    act on that list as the list operation of the same name, on every branch,
    errors included.  [Bitmap_clean] says that the spare bits of the last byte
    are clear, which is what [grow] relies on to add cleared bits. *)

From S2P Require Import Prelude.

Record Bitmap := mkBitmap {
  entries : list Z;
  used_bits_count : Z;
}.

Inductive BitmapError :=
  | BitmapIndexOutOfBounds (index size : Z)
  | BitmapInvalidSize (size : Z).

#[export] Instance Bitmap_eq_dec : EqDecision Bitmap.
Proof. solve_decision. Defined.
#[export] Instance BitmapError_eq_dec : EqDecision BitmapError.
Proof. solve_decision. Defined.

Definition Bitmap_uninit : Bitmap := mkBitmap [] 0.

Definition Bitmap_new (used : Z) : Bitmap :=
  let entries_count := div_ceil used 8 in
  mkBitmap (replicate (Z.to_nat entries_count) 0) used.

(** [1 << (index % 8)] and [!(1 << (index % 8))] as bytes. *)
Definition bit_mask (index : Z) : Z := Z.shiftl 1 (index mod 8).
Definition byte_not (x : Z) : Z := 255 - x.

(** The bounds test and the read-modify-write of one byte that [set],
    [unset] and [flip] share. *)
Definition Bitmap_update (f : Z -> Z) (b : Bitmap) (index : Z)
    : res (result unit BitmapError * Bitmap) :=
  if used_bits_count b <=? index then
    Done (Err (BitmapIndexOutOfBounds index (used_bits_count b)), b)
  else
    let i := Z.to_nat (index / 8) in
    e ← Prelude.index (entries b) i;
    Done (Ok (), mkBitmap (<[i := f e]> (entries b)) (used_bits_count b)).

Definition Bitmap_set (b : Bitmap) (index : Z) :=
  Bitmap_update (fun e => Z.lor e (bit_mask index)) b index.

Definition Bitmap_unset (b : Bitmap) (index : Z) :=
  Bitmap_update (fun e => Z.land e (byte_not (bit_mask index))) b index.

Definition Bitmap_flip (b : Bitmap) (index : Z) :=
  Bitmap_update (fun e => Z.lxor e (bit_mask index)) b index.

Definition Bitmap_is_set (b : Bitmap) (index : Z) : res (result bool BitmapError) :=
  if used_bits_count b <=? index then
    Done (Err (BitmapIndexOutOfBounds index (used_bits_count b)))
  else
    e ← Prelude.index (entries b) (Z.to_nat (index / 8));
    Done (Ok (negb (Z.land e (bit_mask index) =? 0))).

(** [Vec::resize] to a larger length. *)
Definition Vec_grow (l : list Z) (n : nat) : list Z := l ++ replicate (n - length l) 0.

Definition Bitmap_grow (b : Bitmap) (new_size : Z) : result unit BitmapError * Bitmap :=
  if new_size <? used_bits_count b then (Err (BitmapInvalidSize new_size), b)
  else
    let new_entries_count := div_ceil new_size 8 in
    let es := if Z.of_nat (length (entries b)) <? new_entries_count
              then Vec_grow (entries b) (Z.to_nat new_entries_count) else entries b in
    (Ok (), mkBitmap es new_size).

Definition Bitmap_shrink (b : Bitmap) (new_size : Z) : result unit BitmapError * Bitmap :=
  if used_bits_count b <? new_size then (Err (BitmapInvalidSize new_size), b)
  else
    let new_entries_count := div_ceil new_size 8 in
    (Ok (), mkBitmap (take (Z.to_nat new_entries_count) (entries b)) new_size).

Definition Bitmap_clear (b : Bitmap) : Bitmap :=
  mkBitmap (map (fun _ => 0) (entries b)) (used_bits_count b).

(** [BitmapIterator] and [BitmapIntoIterator]: the bitmap and a cursor. *)
Record BitmapIterator := mkBitmapIterator { it_bitmap : Bitmap; current_index : Z }.

Definition Bitmap_iter (b : Bitmap) : BitmapIterator := mkBitmapIterator b 0.

Definition BitmapIterator_next (it : BitmapIterator) : res (option bool * BitmapIterator) :=
  if used_bits_count (it_bitmap it) <=? current_index it then Done (None, it)
  else
    r ← Bitmap_is_set (it_bitmap it) (current_index it);
    let result := match r with Ok b => b | Err _ => false end in
    Done (Some result, mkBitmapIterator (it_bitmap it) (current_index it + 1)).

(** [IntoIterator] for an owned bitmap: the same cursor over the moved value. *)
Definition Bitmap_into_iter (b : Bitmap) : BitmapIterator := mkBitmapIterator b 0.
Definition BitmapIntoIterator_next (it : BitmapIterator) : res (option bool * BitmapIterator) :=
  BitmapIterator_next it.

(** [Iterator::collect], with one unit of fuel per call of [next]. *)
Fixpoint BitmapIterator_collect (fuel : nat) (it : BitmapIterator) : res (list bool) :=
  match fuel with
  | O => Done []
  | S fuel =>
      '(o, it') ← BitmapIterator_next it;
      match o with
      | None => Done []
      | Some x => xs ← BitmapIterator_collect fuel it'; Done (x :: xs)
      end
  end.

(** ** Abstraction and invariant *)
Definition entry_bit (es : list Z) (i : nat) : bool :=
  Z.testbit (nth (i / 8) es 0) (Z.of_nat (i mod 8)).

Definition Bitmap_bits (b : Bitmap) : list bool :=
  map (entry_bit (entries b)) (seq 0 (Z.to_nat (used_bits_count b))).

Definition is_byte (e : Z) : Prop := 0 <= e < 256.

Record Bitmap_wf (b : Bitmap) : Prop := {
  wf_used : 0 <= used_bits_count b;
  wf_len : length (entries b) = Z.to_nat (div_ceil (used_bits_count b) 8);
  wf_bytes : Forall is_byte (entries b);
}.

Definition Bitmap_clean (b : Bitmap) : Prop :=
  forall i : nat, used_bits_count b <= Z.of_nat i -> entry_bit (entries b) i = false.

(** ** Bits of a byte *)
Lemma is_byte_testbit e n : is_byte e -> 8 <= n -> Z.testbit e n = false.
Proof.
  unfold is_byte. intros He Hn.
  rewrite <- (Z.mod_small e (2 ^ 8)) by lia. apply Z.mod_pow2_bits_high. lia.
Qed.

Lemma byte_bits e e' : is_byte e -> 0 <= e' ->
  (forall n, 8 <= n -> Z.testbit e' n = false) -> is_byte e'.
Proof.
  intros _ He Hb. unfold is_byte. split; [done |].
  assert (e' = e' mod 2 ^ 8) as ->; [| pose proof (Z.mod_pos_bound e' (2 ^ 8)); lia].
  apply Z.bits_inj'. intros n Hn. destruct (decide (n < 8)).
  - rewrite Z.mod_pow2_bits_low; [done | lia].
  - rewrite Z.mod_pow2_bits_high by lia. apply Hb. lia.
Qed.

Lemma bit_mask_testbit index n : 0 <= n ->
  Z.testbit (bit_mask index) n = (n =? index mod 8).
Proof.
  intros Hn. unfold bit_mask. pose proof (Z.mod_pos_bound index 8).
  rewrite Z.shiftl_spec by done. destruct (Z.eqb_spec n (index mod 8)) as [-> | Hne].
  - by rewrite Z.sub_diag.
  - destruct (decide (n < index mod 8)).
    + by rewrite Z.testbit_neg_r by lia.
    + apply (Z.bits_above_log2 1); cbn; lia.
Qed.

Lemma bit_mask_byte index : is_byte (bit_mask index).
Proof.
  apply (byte_bits 0); [by unfold is_byte | by apply Z.shiftl_nonneg |].
  intros n Hn. rewrite bit_mask_testbit by lia.
  pose proof (Z.mod_pos_bound index 8). apply Z.eqb_neq. lia.
Qed.

Lemma byte_not_testbit e n : is_byte e -> 0 <= n < 8 ->
  Z.testbit (byte_not e) n = negb (Z.testbit e n).
Proof.
  intros He Hn. unfold byte_not. change 255 with (Z.ones 8).
  rewrite Z.sub_nocarry_ldiff.
  - rewrite Z.ldiff_spec, Z.ones_spec_low by lia. done.
  - apply Z.bits_inj'. intros m Hm. rewrite Z.ldiff_spec, Z.bits_0.
    destruct (decide (m < 8)).
    + rewrite Z.ones_spec_low by lia. apply andb_false_r.
    + by rewrite (is_byte_testbit e m) by (done || lia).
Qed.

(** How the three byte updates act on bits; [g] is the bit operation. *)
Definition byte_op (f : Z -> Z) (g : bool -> bool) (index : Z) : Prop :=
  forall e, is_byte e -> is_byte (f e) /\
    forall n, 0 <= n < 8 ->
      Z.testbit (f e) n = if n =? index mod 8 then g (Z.testbit e n) else Z.testbit e n.

Lemma set_byte_op index : byte_op (fun e => Z.lor e (bit_mask index)) (fun _ => true) index.
Proof.
  intros e He. split.
  - apply (byte_bits e); [done | apply Z.lor_nonneg; split; [apply He | apply bit_mask_byte] |].
    intros n Hn. rewrite Z.lor_spec, !is_byte_testbit; auto using bit_mask_byte.
  - intros n Hn. rewrite Z.lor_spec, bit_mask_testbit by lia.
    case_if; [apply orb_true_r | apply orb_false_r].
Qed.

Lemma unset_byte_op index :
  byte_op (fun e => Z.land e (byte_not (bit_mask index))) (fun _ => false) index.
Proof.
  intros e He. split.
  - apply (byte_bits e); [done | apply Z.land_nonneg; left; apply He |].
    intros n Hn. rewrite Z.land_spec, (is_byte_testbit e); auto.
  - intros n Hn. rewrite Z.land_spec, byte_not_testbit, bit_mask_testbit;
      [| lia | apply bit_mask_byte | lia].
    case_if; cbn; [apply andb_false_r | apply andb_true_r].
Qed.

Lemma flip_byte_op index : byte_op (fun e => Z.lxor e (bit_mask index)) negb index.
Proof.
  intros e He. split.
  - apply (byte_bits e); [done | |].
    + apply Z.lxor_nonneg. split; intros _; [apply bit_mask_byte | apply He].
    + intros n Hn. rewrite Z.lxor_spec, !is_byte_testbit; auto using bit_mask_byte.
  - intros n Hn. rewrite Z.lxor_spec, bit_mask_testbit by lia.
    case_if; [apply xorb_true_r | apply xorb_false_r].
Qed.

(** ** Positions *)
Lemma pos_split (i : nat) : Z.of_nat i / 8 = Z.of_nat (i / 8) /\
  Z.of_nat i mod 8 = Z.of_nat (i mod 8).
Proof. rewrite Nat2Z.inj_div, Nat2Z.inj_mod. done. Qed.

Lemma div_ceil_bound u i : 0 <= i < u -> 0 <= i / 8 < div_ceil u 8.
Proof. unfold div_ceil. intros. Z.to_euclidean_division_equations. lia. Qed.

Lemma div_ceil_le u v : u <= v -> div_ceil u 8 <= div_ceil v 8.
Proof. unfold div_ceil. intros. apply Z.div_le_mono; lia. Qed.

Lemma Bitmap_index_ok b (i : nat) : Bitmap_wf b -> Z.of_nat i < used_bits_count b ->
  (i / 8 < length (entries b))%nat.
Proof.
  intros [Hu Hl _] Hi. rewrite Hl.
  pose proof (div_ceil_bound (used_bits_count b) (Z.of_nat i)).
  destruct (pos_split i) as [E _]. lia.
Qed.

Lemma Bitmap_bits_length b : length (Bitmap_bits b) = Z.to_nat (used_bits_count b).
Proof. unfold Bitmap_bits. by rewrite length_map, length_seq. Qed.

Lemma Bitmap_bits_lookup b i : Z.of_nat i < used_bits_count b ->
  Bitmap_bits b !! i = Some (entry_bit (entries b) i).
Proof.
  intros Hi. unfold Bitmap_bits. rewrite list_lookup_fmap.
  rewrite lookup_seq_lt by lia. done.
Qed.

Lemma bits_ext b l : length l = Z.to_nat (used_bits_count b) ->
  (forall i, Z.of_nat i < used_bits_count b -> l !! i = Some (entry_bit (entries b) i)) ->
  Bitmap_bits b = l.
Proof.
  intros Hl H. apply list_eq. intros i.
  destruct (decide (Z.of_nat i < used_bits_count b)).
  - by rewrite Bitmap_bits_lookup, H.
  - rewrite !lookup_ge_None_2; [done | lia | rewrite Bitmap_bits_length; lia].
Qed.

(** Every bit of a bitmap after [Bitmap_update] wrote bit [i]. *)
Lemma entry_bit_insert es f g (i j : nat) : Forall is_byte es -> (i / 8 < length es)%nat ->
  byte_op f g (Z.of_nat i) ->
  entry_bit (<[(i / 8)%nat := f (nth (i / 8) es 0)]> es) j =
    if decide (i = j) then g (entry_bit es j) else entry_bit es j.
Proof.
  intros Hb Hi Hf. unfold entry_bit.
  assert (is_byte (nth (i / 8) es 0)) as He.
  { destruct (lookup_lt_is_Some_2 es _ Hi) as [e He].
    rewrite (nth_lookup_Some _ _ _ _ He). by eapply Forall_lookup_1. }
  destruct (Hf _ He) as [_ Hbits]. destruct (pos_split i) as [_ Em].
  destruct (decide (i / 8 = j / 8)%nat) as [Ed | Ed].
  - rewrite <- Ed, (nth_lookup_Some _ _ 0 _ (list_lookup_insert_eq _ _ _ Hi)).
    assert (j mod 8 < 8)%nat by (by apply Nat.mod_upper_bound).
    rewrite Hbits, Em by lia.
    destruct (Z.eqb_spec (Z.of_nat (j mod 8)) (Z.of_nat (i mod 8))) as [E | E];
      destruct (decide (i = j)) as [-> | Hne]; try done.
    exfalso. apply Hne. rewrite (Nat.div_mod_eq i 8), (Nat.div_mod_eq j 8). lia.
  - rewrite decide_False by congruence. f_equal.
    rewrite !nth_lookup, list_lookup_insert_ne by done. done.
Qed.

(** [Bitmap_update] writes bit [i] and nothing else, and keeps the invariant. *)
Lemma Bitmap_update_ok f g b i : Bitmap_wf b -> Z.of_nat i < used_bits_count b ->
  byte_op f g (Z.of_nat i) ->
  exists b', Bitmap_update f b (Z.of_nat i) = Done (Ok (), b') /\ Bitmap_wf b' /\
    used_bits_count b' = used_bits_count b /\
    (Bitmap_clean b -> Bitmap_clean b') /\
    Bitmap_bits b' = alter g i (Bitmap_bits b).
Proof.
  intros Hwf Hi Hf. pose proof (Bitmap_index_ok b i Hwf Hi) as Hlt.
  destruct (lookup_lt_is_Some_2 _ _ Hlt) as [e He].
  unfold Bitmap_update. rewrite (proj2 (Z.leb_gt _ _)) by done.
  destruct (pos_split i) as [Ed _]. rewrite Ed, Nat2Z.id.
  unfold Prelude.index. rewrite He. cbn.
  pose proof (nth_lookup_Some _ _ 0 _ He) as Hn. rewrite <- Hn.
  destruct Hwf as [Hu Hl Hb].
  assert (is_byte (nth (i / 8) (entries b) 0)) as Hbe.
  { rewrite Hn. by eapply Forall_lookup_1. }
  eexists. split; [done |]. split_and!; cbn.
  - split; cbn; [done | by rewrite length_insert |]. apply Forall_insert; [done |].
    by apply Hf.
  - done.
  - intros Hc j Hj. cbn in *. rewrite (entry_bit_insert _ f g) by done.
    rewrite decide_False by lia. by apply Hc.
  - apply bits_ext; cbn; [by rewrite length_alter, Bitmap_bits_length |].
    intros j Hj. rewrite list_lookup_alter, (entry_bit_insert _ f g) by done.
    case_decide; subst; by rewrite Bitmap_bits_lookup.
Qed.

Lemma Bitmap_update_err f b index : used_bits_count b <= index ->
  Bitmap_update f b index = Done (Err (BitmapIndexOutOfBounds index (used_bits_count b)), b).
Proof. intros H. unfold Bitmap_update. by rewrite (proj2 (Z.leb_le _ _)). Qed.

Lemma alter_const_insert {A} (x : A) (l : list A) i : alter (fun _ => x) i l = <[i := x]> l.
Proof. revert i. induction l as [| y l IH]; intros [| i]; cbn; f_equal; auto. Qed.

Lemma Bitmap_is_set_ok b i : Bitmap_wf b -> Z.of_nat i < used_bits_count b ->
  Bitmap_is_set b (Z.of_nat i) = Done (Ok (entry_bit (entries b) i)).
Proof.
  intros Hwf Hi. pose proof (Bitmap_index_ok b i Hwf Hi) as Hlt.
  destruct (lookup_lt_is_Some_2 _ _ Hlt) as [e He].
  unfold Bitmap_is_set. rewrite (proj2 (Z.leb_gt _ _)) by done.
  destruct (pos_split i) as [Ed Em]. rewrite Ed, Nat2Z.id.
  unfold Prelude.index. rewrite He. cbn. do 2 f_equal. unfold entry_bit.
  rewrite (nth_lookup_Some _ _ 0 _ He), <- Em.
  pose proof (Z.mod_pos_bound (Z.of_nat i) 8).
  destruct (Z.eqb_spec (Z.land e (bit_mask (Z.of_nat i))) 0) as [E | E]; cbn; symmetry.
  - apply (f_equal (fun x => Z.testbit x (Z.of_nat i mod 8))) in E.
    rewrite Z.land_spec, bit_mask_testbit, Z.eqb_refl, andb_true_r, Z.bits_0 in E by lia.
    done.
  - destruct (Z.testbit e (Z.of_nat i mod 8)) eqn:Eb; [done |]. exfalso. apply E.
    apply Z.bits_inj'. intros n Hn. rewrite Z.land_spec, bit_mask_testbit, Z.bits_0 by done.
    destruct (Z.eqb_spec n (Z.of_nat i mod 8)) as [-> |]; [by rewrite Eb | apply andb_false_r].
Qed.

(** The same, read through the abstraction. *)
Lemma Bitmap_is_set_bits b i v : Bitmap_wf b -> Bitmap_bits b !! i = Some v ->
  Bitmap_is_set b (Z.of_nat i) = Done (Ok v).
Proof.
  intros Hwf Hv. assert (Z.of_nat i < used_bits_count b) as Hi.
  { apply lookup_lt_Some in Hv. rewrite Bitmap_bits_length in Hv. lia. }
  rewrite Bitmap_is_set_ok by done. rewrite Bitmap_bits_lookup in Hv by done. congruence.
Qed.

Lemma nth_replicate_0 n i : nth i (replicate n 0) 0 = 0.
Proof. revert i. induction n; intros [|]; cbn; auto. Qed.

Lemma Bitmap_new_ok used : 0 <= used ->
  Bitmap_wf (Bitmap_new used) /\ Bitmap_clean (Bitmap_new used) /\
  Bitmap_bits (Bitmap_new used) = replicate (Z.to_nat used) false.
Proof.
  intros Hu. split_and!.
  - split; cbn; [done | by rewrite length_replicate |].
    apply Forall_replicate. by unfold is_byte.
  - intros i _. unfold entry_bit. cbn. by rewrite nth_replicate_0, Z.bits_0.
  - apply bits_ext; cbn; [by rewrite length_replicate |]. intros i Hi.
    rewrite lookup_replicate_2 by lia. unfold entry_bit. cbn.
    by rewrite nth_replicate_0, Z.bits_0.
Qed.

(** Growing a clean bitmap appends cleared bits and keeps it clean. *)
Lemma entry_bit_Vec_grow es n i : entry_bit (Vec_grow es n) i = entry_bit es i.
Proof.
  unfold entry_bit, Vec_grow. destruct (decide (i / 8 < length es)%nat).
  - by rewrite app_nth1.
  - rewrite app_nth2 by lia. rewrite nth_replicate_0. rewrite nth_overflow by lia. done.
Qed.

Lemma Bitmap_grow_ok b new_size : Bitmap_wf b -> Bitmap_clean b ->
  used_bits_count b <= new_size ->
  exists b', Bitmap_grow b new_size = (Ok (), b') /\ Bitmap_wf b' /\ Bitmap_clean b' /\
    Bitmap_bits b' = Bitmap_bits b ++
      replicate (Z.to_nat (new_size - used_bits_count b)) false.
Proof.
  intros [Hu Hl Hb] Hc Hn. unfold Bitmap_grow. rewrite (proj2 (Z.ltb_ge _ _)) by done.
  match goal with |- context [mkBitmap ?e _] => set (es := e) end. eexists. split; [done |].
  assert (forall i, entry_bit es i = entry_bit (entries b) i) as Hes.
  { intros i. unfold es. destruct (_ <? _); [apply entry_bit_Vec_grow | done]. }
  assert (length es = Z.to_nat (div_ceil new_size 8)) as Hles.
  { pose proof (div_ceil_le _ _ Hn). unfold es. case_if; [| lia].
    unfold Vec_grow. rewrite length_app, length_replicate. lia. }
  split_and!.
  - split; cbn; [lia | done |]. unfold es. case_if; [| done].
    apply Forall_app. split; [done |]. apply Forall_replicate. by unfold is_byte.
  - intros i Hi. cbn in *. rewrite Hes. apply Hc. lia.
  - apply bits_ext; cbn.
    + rewrite length_app, length_replicate, Bitmap_bits_length. lia.
    + intros i Hi. rewrite Hes. destruct (decide (Z.of_nat i < used_bits_count b)).
      * rewrite lookup_app_l by (rewrite Bitmap_bits_length; lia).
        by apply Bitmap_bits_lookup.
      * rewrite lookup_app_r by (rewrite Bitmap_bits_length; lia).
        rewrite lookup_replicate_2 by (rewrite Bitmap_bits_length; lia).
        by rewrite Hc by lia.
Qed.

Lemma Bitmap_shrink_ok b new_size : Bitmap_wf b -> 0 <= new_size <= used_bits_count b ->
  exists b', Bitmap_shrink b new_size = (Ok (), b') /\ Bitmap_wf b' /\
    Bitmap_bits b' = take (Z.to_nat new_size) (Bitmap_bits b).
Proof.
  intros Hwf Hn. pose proof Hwf as [Hu Hl Hb]. unfold Bitmap_shrink.
  rewrite (proj2 (Z.ltb_ge _ _)) by lia. eexists. split; [done |]. split.
  - split; cbn; [lia | | by apply Forall_take].
    rewrite length_take. pose proof (div_ceil_le new_size (used_bits_count b)). lia.
  - apply bits_ext; cbn; [rewrite length_take, Bitmap_bits_length; lia |].
    intros i Hi. rewrite lookup_take_lt, Bitmap_bits_lookup by lia.
    unfold entry_bit. do 2 f_equal. rewrite !nth_lookup, lookup_take_lt; [done |].
    pose proof (div_ceil_bound new_size (Z.of_nat i)).
    destruct (pos_split i) as [E _]. lia.
Qed.

(** ** Properties *)

(** on a well-formed bitmap, [set], [unset] and [flip] at an index in
    range return [Ok], keep the bitmap well formed and act on its list of bits
    as the update of that one bit; [is_set] returns that bit; and at an index
    out of range all four return [IndexOutOfBounds] with the index and the
    size, and change nothing. *)
Theorem Bitmap_refines_bits b (i : nat) : Bitmap_wf b ->
  (Z.of_nat i < used_bits_count b ->
     (exists b', Bitmap_set b (Z.of_nat i) = Done (Ok (), b') /\ Bitmap_wf b' /\
        Bitmap_bits b' = <[i := true]> (Bitmap_bits b)) /\
     (exists b', Bitmap_unset b (Z.of_nat i) = Done (Ok (), b') /\ Bitmap_wf b' /\
        Bitmap_bits b' = <[i := false]> (Bitmap_bits b)) /\
     (exists b', Bitmap_flip b (Z.of_nat i) = Done (Ok (), b') /\ Bitmap_wf b' /\
        Bitmap_bits b' = alter negb i (Bitmap_bits b)) /\
     (exists v, Bitmap_bits b !! i = Some v /\
        Bitmap_is_set b (Z.of_nat i) = Done (Ok v))) /\
  (used_bits_count b <= Z.of_nat i ->
     let e := BitmapIndexOutOfBounds (Z.of_nat i) (used_bits_count b) in
     Bitmap_set b (Z.of_nat i) = Done (Err e, b) /\
     Bitmap_unset b (Z.of_nat i) = Done (Err e, b) /\
     Bitmap_flip b (Z.of_nat i) = Done (Err e, b) /\
     Bitmap_is_set b (Z.of_nat i) = Done (Err e)).
Proof.
  intros Hwf. split; intros Hi.
  - split_and!.
    + destruct (Bitmap_update_ok _ _ b i Hwf Hi (set_byte_op _)) as (b' & ? & ? & _ & _ & E).
      exists b'. by rewrite E, alter_const_insert.
    + destruct (Bitmap_update_ok _ _ b i Hwf Hi (unset_byte_op _)) as (b' & ? & ? & _ & _ & E).
      exists b'. by rewrite E, alter_const_insert.
    + destruct (Bitmap_update_ok _ _ b i Hwf Hi (flip_byte_op _)) as (b' & ? & ? & _ & _ & E).
      by exists b'.
    + exists (entry_bit (entries b) i). by rewrite Bitmap_bits_lookup, Bitmap_is_set_ok.
  - split_and!; try by apply Bitmap_update_err.
    unfold Bitmap_is_set. by rewrite (proj2 (Z.leb_le _ _)).
Qed.

Lemma BitmapIterator_collect_S n it : BitmapIterator_collect (S n) it =
  ('(o, it') ← BitmapIterator_next it;
   match o with
   | None => Done []
   | Some x => xs ← BitmapIterator_collect n it'; Done (x :: xs)
   end).
Proof. reflexivity. Qed.

Lemma BitmapIterator_collect_from b (i n : nat) : Bitmap_wf b ->
  (i + n = Z.to_nat (used_bits_count b))%nat ->
  BitmapIterator_collect (S n) (mkBitmapIterator b (Z.of_nat i)) =
    Done (drop i (Bitmap_bits b)).
Proof.
  intros Hwf. revert i. induction n as [| n IH]; intros i Hi;
    rewrite BitmapIterator_collect_S; unfold BitmapIterator_next;
    cbn [it_bitmap current_index].
  - rewrite (proj2 (Z.leb_le _ _)) by lia. rewrite drop_ge; [done |].
    rewrite Bitmap_bits_length. lia.
  - assert (Z.of_nat i < used_bits_count b) as Hlt by lia.
    rewrite (proj2 (Z.leb_gt _ _)), Bitmap_is_set_ok, !bind_Done by done.
    replace (Z.of_nat i + 1) with (Z.of_nat (S i)) by lia.
    rewrite (IH (S i)), bind_Done by lia. f_equal. symmetry.
    apply drop_S. by apply Bitmap_bits_lookup.
Qed.

(** Iterating over a well-formed bitmap, borrowed or owned, ends after
    [used_bits_count + 1] calls of [next] and yields exactly its bits, in
    order. *)
Theorem Bitmap_iter_yields_bits b : Bitmap_wf b ->
  BitmapIterator_collect (S (Z.to_nat (used_bits_count b))) (Bitmap_iter b) =
    Done (Bitmap_bits b).
Proof.
  intros Hwf. unfold Bitmap_iter. change 0 with (Z.of_nat 0).
  by rewrite (BitmapIterator_collect_from b 0).
Qed.

(** [grow] to a size that is not smaller appends cleared bits to a clean
    bitmap, [shrink] to a size that is not larger keeps the leading bits, and
    both refuse any other size with [InvalidSize] and change nothing. *)
Theorem Bitmap_resize_bits b new_size : Bitmap_wf b -> 0 <= new_size ->
  (used_bits_count b <= new_size -> Bitmap_clean b ->
     exists b', Bitmap_grow b new_size = (Ok (), b') /\ Bitmap_wf b' /\ Bitmap_clean b' /\
       Bitmap_bits b' = Bitmap_bits b ++
         replicate (Z.to_nat (new_size - used_bits_count b)) false) /\
  (new_size <= used_bits_count b ->
     exists b', Bitmap_shrink b new_size = (Ok (), b') /\ Bitmap_wf b' /\
       Bitmap_bits b' = take (Z.to_nat new_size) (Bitmap_bits b)) /\
  (new_size < used_bits_count b ->
     Bitmap_grow b new_size = (Err (BitmapInvalidSize new_size), b)) /\
  (used_bits_count b < new_size ->
     Bitmap_shrink b new_size = (Err (BitmapInvalidSize new_size), b)).
Proof.
  intros Hwf Hn. split_and!; intros.
  - by apply Bitmap_grow_ok.
  - by apply Bitmap_shrink_ok.
  - unfold Bitmap_grow. by rewrite (proj2 (Z.ltb_lt _ _)).
  - unfold Bitmap_shrink. by rewrite (proj2 (Z.ltb_lt _ _)).
Qed.

(** [shrink] leaves the bits it drops in the last byte, so that a later
    [grow] exposes them again: bit 7 of the bitmap below is set after
    shrinking to 4 bits and growing back to 8. *)
Example Bitmap_stale_bits :
  (b1 ← snd <$> (match Bitmap_set (Bitmap_new 8) 7 with Done r => Some r | _ => None end);
   Some (Bitmap_bits (snd (Bitmap_grow (snd (Bitmap_shrink b1 4)) 8)))) =
  Some [false; false; false; false; false; false; false; true].
Proof. vm_compute. reflexivity. Qed.

(** ** Witnesses *)
Definition sample_bitmap : Bitmap := Bitmap_new 10.

Lemma sample_bitmap_wf : Bitmap_wf sample_bitmap.
Proof. by apply Bitmap_new_ok. Qed.

Lemma Bitmap_refines_bits_witness : exists b',
  Bitmap_set sample_bitmap 3 = Done (Ok (), b') /\
  Bitmap_bits b' = <[3%nat := true]> (Bitmap_bits sample_bitmap).
Proof.
  destruct (Bitmap_refines_bits sample_bitmap 3 sample_bitmap_wf) as [H _].
  destruct (H eq_refl) as ((b' & ? & _ & ?) & _). by exists b'.
Defined.

Lemma Bitmap_iter_yields_bits_witness :
  BitmapIterator_collect 11 (Bitmap_iter sample_bitmap) = Done (replicate 10 false).
Proof. apply (Bitmap_iter_yields_bits sample_bitmap sample_bitmap_wf). Defined.

Lemma Bitmap_resize_bits_witness :
  exists b', Bitmap_shrink sample_bitmap 4 = (Ok (), b') /\
    Bitmap_bits b' = replicate 4 false.
Proof.
  destruct (Bitmap_resize_bits sample_bitmap 4 sample_bitmap_wf) as (_ & H & _); [lia |].
  destruct H as (b' & ? & _ & ?); [done |]. by exists b'.
Defined.
