(* ===== verification/Ids.v ===== *)
(** * ID allocators of [utils/src/collections/id]

    [IdHander] hands out ids from a growing pool and never takes one back;
    [IdTracker] tracks a finite pool with a bitmap.  An [Id] is its [usize]. *)

From S2P Require Import Prelude Bitmap.

Abbreviation Id := Z (only parsing).
Definition Id_MAX_ID : Id := usize_MAX.

(** ** [IdHander] ([hander.rs]) *)
Record IdHander := mkIdHander { hander_next : Id; hander_max : Id }.

Definition IdHander_uninit : IdHander := mkIdHander 0 0.
Definition IdHander_new_starting_from (start_id max_id : Id) : IdHander :=
  mkIdHander start_id max_id.
Definition IdHander_new (max_id : Id) : IdHander := IdHander_new_starting_from 0 max_id.

Definition IdHander_handout_and_skip (h : IdHander) (count : Z) : res (option Id * IdHander) :=
  if hander_max h <? hander_next h then Done (None, h)
  else
    let handed_out := hander_next h in
    next' ← usize_add (hander_next h) count;
    Done (Some handed_out, mkIdHander next' (hander_max h)).

Definition IdHander_handout (h : IdHander) : res (option Id * IdHander) :=
  IdHander_handout_and_skip h 1.

Definition IdHander_peek_next (h : IdHander) : Id := hander_next h.

(** ** [IdTracker] ([tracker.rs]) *)
Inductive IdTrackerError := OutOfIds | IdAlreadyFree | InvalidId | IdAlreadyTaken.

#[export] Instance IdTrackerError_eq_dec : EqDecision IdTrackerError.
Proof. solve_decision. Defined.

Record IdTracker := mkIdTracker { tracker_bitmap : Bitmap; tracker_min : Id }.

Definition IdTracker_uninit : IdTracker := mkIdTracker Bitmap_uninit 0.

Definition IdTracker_new (min max : Id) : res IdTracker :=
  d ← usize_sub max min;
  n ← usize_add d 1;
  Done (mkIdTracker (Bitmap_new n) min).

(** The body of the [for] loop of [allocate], from index [i] with [n]
    indices left. *)
Fixpoint IdTracker_allocate_from (t : IdTracker) (i : Z) (n : nat)
    : res (result Id IdTrackerError * IdTracker) :=
  match n with
  | O => Done (Err OutOfIds, t)
  | S n =>
      r ← Bitmap_is_set (tracker_bitmap t) i;
      match r with
      | Err _ => Done (Err InvalidId, t)
      | Ok true => IdTracker_allocate_from t (i + 1) n
      | Ok false =>
          id ← usize_add (tracker_min t) i;
          '(r, b) ← Bitmap_set (tracker_bitmap t) i;
          _ ← unwrap_ok r;
          Done (Ok id, mkIdTracker b (tracker_min t))
      end
  end.

Definition IdTracker_allocate (t : IdTracker) : res (result Id IdTrackerError * IdTracker) :=
  IdTracker_allocate_from t 0 (Z.to_nat (used_bits_count (tracker_bitmap t))).

(** The range test of [allocate_at] and [free]:
    [id < min || id > Id(min + used_bits_count - 1)]. *)
Definition IdTracker_out_of_range (t : IdTracker) (id : Id) : res bool :=
  if id <? tracker_min t then Done true
  else
    s ← usize_add (tracker_min t) (used_bits_count (tracker_bitmap t));
    last ← usize_sub s 1;
    Done (last <? id).

Definition IdTracker_allocate_at (t : IdTracker) (id : Id)
    : res (result unit IdTrackerError * IdTracker) :=
  bad ← IdTracker_out_of_range t id;
  if bad : bool then Done (Err InvalidId, t)
  else
    bit_index ← usize_sub id (tracker_min t);
    r ← Bitmap_is_set (tracker_bitmap t) bit_index;
    found ← unwrap_ok r;
    if found : bool then Done (Err IdAlreadyTaken, t)
    else
      '(r, b) ← Bitmap_set (tracker_bitmap t) bit_index;
      _ ← unwrap_ok r;
      Done (Ok (), mkIdTracker b (tracker_min t)).

Definition IdTracker_free (t : IdTracker) (id : Id)
    : res (result unit IdTrackerError * IdTracker) :=
  bad ← IdTracker_out_of_range t id;
  if bad : bool then Done (Err InvalidId, t)
  else
    bit_index ← usize_sub id (tracker_min t);
    r ← Bitmap_is_set (tracker_bitmap t) bit_index;
    found ← unwrap_ok r;
    if negb found then Done (Err IdAlreadyFree, t)
    else
      '(r, b) ← Bitmap_unset (tracker_bitmap t) bit_index;
      _ ← unwrap_ok r;
      Done (Ok (), mkIdTracker b (tracker_min t)).

(** ** Specification *)

(** The abstract tracker: a lowest id and one "taken" flag per id. *)
Record pool := mkPool { pool_min : Z; pool_taken : list bool }.

Definition pool_of (t : IdTracker) : pool :=
  mkPool (tracker_min t) (Bitmap_bits (tracker_bitmap t)).

(** The first index of a clear flag. *)
Fixpoint first_free (l : list bool) : option nat :=
  match l with
  | [] => None
  | false :: _ => Some O
  | true :: l => S <$> first_free l
  end.

Lemma first_free_lt l i : first_free l = Some i -> (i < length l)%nat.
Proof.
  revert i. induction l as [| [] l IH]; intros i; cbn; [done | |].
  - intros (j & E & ->)%fmap_Some. specialize (IH _ E). lia.
  - intros [= <-]. lia.
Qed.

Definition pool_allocate (p : pool) : result Id IdTrackerError * pool :=
  match first_free (pool_taken p) with
  | Some i => (Ok (pool_min p + Z.of_nat i), mkPool (pool_min p) (<[i := true]> (pool_taken p)))
  | None => (Err OutOfIds, p)
  end.

(** [allocate_at] and [free] set the flag to [v] when it was [negb v]. *)
Definition pool_switch (v : bool) (e : IdTrackerError) (p : pool) (id : Id)
    : result unit IdTrackerError * pool :=
  if (id <? pool_min p) then (Err InvalidId, p)
  else match pool_taken p !! Z.to_nat (id - pool_min p) with
       | None => (Err InvalidId, p)
       | Some b =>
           if Bool.eqb b v then (Err e, p)
           else (Ok (), mkPool (pool_min p)
                  (<[Z.to_nat (id - pool_min p) := v]> (pool_taken p)))
       end.

(** A tracker whose ids all fit in a [usize], and that has at least one id
    (an uninitialised tracker has none and its range test underflows). *)
Record IdTracker_wf (t : IdTracker) : Prop := {
  tracker_bitmap_wf : Bitmap_wf (tracker_bitmap t);
  tracker_min_nonneg : 0 <= tracker_min t;
  tracker_nonempty : 0 < used_bits_count (tracker_bitmap t);
  tracker_fits : tracker_min t + used_bits_count (tracker_bitmap t) <= usize_MAX;
}.

Lemma IdTracker_new_ok min max : 0 <= min <= max -> max < usize_MAX ->
  exists t, IdTracker_new min max = Done t /\ IdTracker_wf t /\
    pool_of t = mkPool min (replicate (Z.to_nat (max - min + 1)) false).
Proof.
  intros H1 H2. unfold IdTracker_new. rewrite usize_sub_ok by lia. cbn.
  rewrite usize_add_ok by lia. cbn. eexists. split; [done |].
  destruct (Bitmap_new_ok (max - min + 1)) as (Hwf & _ & Hb); [lia |].
  split; [split; cbn; (done || lia) |]. unfold pool_of. cbn. by rewrite Hb.
Qed.

(** A successful one-bit write of the tracker's bitmap. *)
Lemma tracker_write t b' v i : IdTracker_wf t ->
  Bitmap_wf b' -> used_bits_count b' = used_bits_count (tracker_bitmap t) ->
  Bitmap_bits b' = <[i := v]> (Bitmap_bits (tracker_bitmap t)) ->
  IdTracker_wf (mkIdTracker b' (tracker_min t)) /\
  pool_of (mkIdTracker b' (tracker_min t)) =
    mkPool (pool_min (pool_of t)) (<[i := v]> (pool_taken (pool_of t))).
Proof.
  intros [? ? ? ?] Hwf Hu Hb. split.
  - split; cbn; [done | done | lia | lia].
  - unfold pool_of. cbn. by rewrite Hb.
Qed.

Lemma IdTracker_set_ok t (i : nat) : IdTracker_wf t ->
  Z.of_nat i < used_bits_count (tracker_bitmap t) ->
  exists b', Bitmap_set (tracker_bitmap t) (Z.of_nat i) = Done (Ok (), b') /\
    IdTracker_wf (mkIdTracker b' (tracker_min t)) /\
    pool_of (mkIdTracker b' (tracker_min t)) =
      mkPool (pool_min (pool_of t)) (<[i := true]> (pool_taken (pool_of t))).
Proof.
  intros Hwf Hi.
  destruct (Bitmap_update_ok _ _ _ i (tracker_bitmap_wf _ Hwf) Hi (set_byte_op _))
    as (b' & ? & ? & ? & _ & E).
  exists b'. rewrite alter_const_insert in E. split; [done |]. by apply tracker_write.
Qed.

Lemma IdTracker_unset_ok t (i : nat) : IdTracker_wf t ->
  Z.of_nat i < used_bits_count (tracker_bitmap t) ->
  exists b', Bitmap_unset (tracker_bitmap t) (Z.of_nat i) = Done (Ok (), b') /\
    IdTracker_wf (mkIdTracker b' (tracker_min t)) /\
    pool_of (mkIdTracker b' (tracker_min t)) =
      mkPool (pool_min (pool_of t)) (<[i := false]> (pool_taken (pool_of t))).
Proof.
  intros Hwf Hi.
  destruct (Bitmap_update_ok _ _ _ i (tracker_bitmap_wf _ Hwf) Hi (unset_byte_op _))
    as (b' & ? & ? & ? & _ & E).
  exists b'. rewrite alter_const_insert in E. split; [done |]. by apply tracker_write.
Qed.

Lemma drop_cons_lookup {A} (l : list A) i x l' : drop i l = x :: l' -> l !! i = Some x.
Proof. intros H. rewrite <- (Nat.add_0_r i), <- lookup_drop, H. done. Qed.

Lemma drop_cons_S {A} (l : list A) i x l' : drop i l = x :: l' -> drop (S i) l = l'.
Proof. intros H. pose proof (drop_S l x i (drop_cons_lookup _ _ _ _ H)). congruence. Qed.

(** The loop of [allocate] takes the first clear flag at or after [i]. *)
Lemma IdTracker_allocate_from_ok t (i n : nat) : IdTracker_wf t ->
  (i + n = Z.to_nat (used_bits_count (tracker_bitmap t)))%nat ->
  match first_free (drop i (pool_taken (pool_of t))) with
  | Some k => exists t',
      IdTracker_allocate_from t (Z.of_nat i) n =
        Done (Ok (tracker_min t + Z.of_nat (i + k)), t') /\ IdTracker_wf t' /\
  pool_of t' = mkPool (tracker_min t) (<[(i + k)%nat := true]> (pool_taken (pool_of t)))
  | None => IdTracker_allocate_from t (Z.of_nat i) n = Done (Err OutOfIds, t)
  end.
Proof.
  intros Hwf. pose proof Hwf as [Hb Hm _ Hf]. revert i. induction n as [| n IH]; intros i Hi.
  - rewrite drop_ge; [done |]. cbn. rewrite Bitmap_bits_length. lia.
  - destruct (drop i (pool_taken (pool_of t))) as [| v l] eqn:E.
    { apply (f_equal length) in E. rewrite length_drop in E. cbn in E.
      rewrite Bitmap_bits_length in E. lia. }
    pose proof (drop_cons_lookup _ _ _ _ E) as Hv. apply drop_cons_S in E.
    cbn [IdTracker_allocate_from]. rewrite (Bitmap_is_set_bits _ _ v), bind_Done by done.
    destruct v.
    + replace (Z.of_nat i + 1) with (Z.of_nat (S i)) by lia.
      specialize (IH (S i) ltac:(lia)). rewrite E in IH. cbn [first_free].
      destruct (first_free l) as [k |]; cbn in *; [| done].
      by replace (i + S k)%nat with (S (i + k)) by lia.
    + rewrite usize_add_ok, bind_Done by lia. cbn.
      destruct (IdTracker_set_ok t i Hwf) as (b' & -> & Hwf' & Hp); [lia |].
      cbn. rewrite Nat.add_0_r. eauto.
Qed.

Lemma IdTracker_out_of_range_ok t id : IdTracker_wf t -> 0 <= id ->
  IdTracker_out_of_range t id =
    Done ((id <? tracker_min t) ||
          (tracker_min t + used_bits_count (tracker_bitmap t) <=? id)).
Proof.
  intros [Hb Hm Hn Hf] Hid. unfold IdTracker_out_of_range. case_if; [done |].
  rewrite usize_add_ok, bind_Done by lia. rewrite usize_sub_ok, bind_Done by lia.
  f_equal. apply eq_true_iff_eq. rewrite Z.ltb_lt. cbn. rewrite Z.leb_le. lia.
Qed.

(** [allocate_at] and [free] differ in the write and in the error. *)
Lemma IdTracker_switch_ok t id v e op : IdTracker_wf t -> 0 <= id ->
  (forall i : nat, Z.of_nat i < used_bits_count (tracker_bitmap t) ->
     exists b', op (tracker_bitmap t) (Z.of_nat i) = Done (Ok (), b') /\
  IdTracker_wf (mkIdTracker b' (tracker_min t)) /\
  pool_of (mkIdTracker b' (tracker_min t)) =
         mkPool (pool_min (pool_of t)) (<[i := v]> (pool_taken (pool_of t)))) ->
  exists r t',
    (bad ← IdTracker_out_of_range t id;
     if bad : bool then Done (Err InvalidId, t)
     else
       bit_index ← usize_sub id (tracker_min t);
       r ← Bitmap_is_set (tracker_bitmap t) bit_index;
       found ← unwrap_ok r;
       if Bool.eqb found v then Done (Err e, t)
       else
         '(r, b) ← op (tracker_bitmap t) bit_index;
         _ ← unwrap_ok (r : result unit BitmapError);
         Done (Ok (), mkIdTracker b (tracker_min t))) = Done (r, t') /\
  (r, pool_of t') = pool_switch v e (pool_of t) id /\ IdTracker_wf t'.
Proof.
  intros Hwf Hid Hop. rewrite IdTracker_out_of_range_ok by done. pose proof Hwf as [Hb Hm Hn Hf].
  unfold pool_switch. cbn [pool_of pool_min pool_taken].
  destruct (Z.ltb_spec id (tracker_min t)); cbn [orb]; [cbn; eauto |].
  set (i := Z.to_nat (id - tracker_min t)). rewrite bind_Done.
  destruct (Z.leb_spec (tracker_min t + used_bits_count (tracker_bitmap t)) id).
  - rewrite lookup_ge_None_2; [eauto |]. rewrite Bitmap_bits_length. lia.
  - assert (Z.of_nat i < used_bits_count (tracker_bitmap t)) as Hi by lia.
    rewrite usize_sub_ok, bind_Done by lia.
    replace (id - tracker_min t) with (Z.of_nat i) by lia.
    rewrite Bitmap_is_set_ok, Bitmap_bits_lookup, !bind_Done by done. cbn.
    destruct (Bool.eqb _ v); [eauto |].
    destruct (Hop i Hi) as (b' & -> & ? & Hp). cbn. do 2 eexists. split; [done |].
    by rewrite Hp.
Qed.

Lemma IdTracker_allocate_ok t : IdTracker_wf t ->
  exists r t', IdTracker_allocate t = Done (r, t') /\
    (r, pool_of t') = pool_allocate (pool_of t) /\ IdTracker_wf t'.
Proof.
  intros Hwf. pose proof (IdTracker_allocate_from_ok t 0 _ Hwf eq_refl) as H.
  unfold IdTracker_allocate, pool_allocate. cbn [pool_of pool_min pool_taken] in *.
  rewrite drop_0 in H. destruct (first_free _) as [k |]; [| eauto].
  destruct H as (t' & H & Hwf' & Hp). exists (Ok (tracker_min t + Z.of_nat k)), t'.
  split; [exact H |]. by rewrite Hp.
Qed.

Lemma IdTracker_allocate_at_ok t id : IdTracker_wf t -> 0 <= id ->
  exists r t', IdTracker_allocate_at t id = Done (r, t') /\
    (r, pool_of t') = pool_switch true IdAlreadyTaken (pool_of t) id /\ IdTracker_wf t'.
Proof.
  intros Hwf Hid. destruct (IdTracker_switch_ok t id true IdAlreadyTaken Bitmap_set Hwf Hid)
    as (r & t' & E & H); [intros; by apply IdTracker_set_ok |].
  exists r, t'. split; [| done]. rewrite <- E. unfold IdTracker_allocate_at.
  destruct (IdTracker_out_of_range t id) as [[] |]; try done. cbn.
  destruct (usize_sub _ _); [cbn | done]. destruct (Bitmap_is_set _ _) as [[[] |] |]; done.
Qed.

Lemma IdTracker_free_ok t id : IdTracker_wf t -> 0 <= id ->
  exists r t', IdTracker_free t id = Done (r, t') /\
    (r, pool_of t') = pool_switch false IdAlreadyFree (pool_of t) id /\ IdTracker_wf t'.
Proof.
  intros Hwf Hid. destruct (IdTracker_switch_ok t id false IdAlreadyFree Bitmap_unset Hwf Hid)
    as (r & t' & E & H); [intros; by apply IdTracker_unset_ok |].
  exists r, t'. split; [exact E | done].
Qed.

(** ** Properties *)

(** C39: on a tracker with at least one id, [allocate], [allocate_at] and
    [free] never panic, keep the tracker well formed and refine the abstract
    pool: [allocate] takes the lowest id that is not taken and fails with
    [OutOfIds] exactly when all are; [allocate_at] and [free] switch the one
    flag they name and fail, changing nothing, with [InvalidId] outside the
    range, [IdAlreadyTaken] on a taken id and [IdAlreadyFree] on a free one. *)
Theorem IdTracker_refines_pool t id : IdTracker_wf t -> 0 <= id ->
  (exists r t', IdTracker_allocate t = Done (r, t') /\
  (r, pool_of t') = pool_allocate (pool_of t) /\ IdTracker_wf t') /\
  (exists r t', IdTracker_allocate_at t id = Done (r, t') /\
  (r, pool_of t') = pool_switch true IdAlreadyTaken (pool_of t) id /\ IdTracker_wf t') /\
  (exists r t', IdTracker_free t id = Done (r, t') /\
  (r, pool_of t') = pool_switch false IdAlreadyFree (pool_of t) id /\ IdTracker_wf t').
Proof.
  intros Hwf Hid. split_and!; [by apply IdTracker_allocate_ok | by apply IdTracker_allocate_at_ok |].
  by apply IdTracker_free_ok.
Qed.

(** A sequence of [handout_and_skip] calls. *)
Fixpoint IdHander_run (h : IdHander) (counts : list Z) : res (list (option Id) * IdHander) :=
  match counts with
  | [] => Done ([], h)
  | c :: cs =>
      '(o, h1) ← IdHander_handout_and_skip h c;
      '(os, h2) ← IdHander_run h1 cs;
      Done (o :: os, h2)
  end.

Lemma IdHander_handout_inv h c o h' : IdHander_handout_and_skip h c = Done (o, h') ->
  (o = None /\ h' = h /\ hander_max h < hander_next h) \/
  (o = Some (hander_next h) /\ hander_next h <= hander_max h /\
   h' = mkIdHander (hander_next h + c) (hander_max h)).
Proof.
  unfold IdHander_handout_and_skip. case_if; intros H; res_inv; [by left |].
  usize_inv. by right.
Qed.

Lemma IdHander_run_bound counts : forall h os h', IdHander_run h counts = Done (os, h') ->
  Forall (fun c => 0 <= c) counts ->
  forall k id, os !! k = Some (Some id) -> hander_next h <= id <= hander_max h.
Proof.
  induction counts as [| c cs IH]; intros h os h' E Hc k id Hk; cbn in E; res_inv; [done |].
  destruct v as [o h1]. res_inv. destruct v as [os' h2]. res_inv.
  apply Forall_cons_1 in Hc as [Hc Hcs].
  apply IdHander_handout_inv in Hm as [(-> & -> & ?) | (-> & ? & ->)]; destruct k; cbn in Hk.
  - done.
  - by eapply IH.
  - simplify_eq. lia.
  - eapply IH in Hk; [| done | done]. cbn in Hk. lia.
Qed.

(** In any sequence of calls of [handout_and_skip], every id handed out
    is at most the maximum, and the ranges [id, id + count) that two calls
    hand out do not overlap: the later one starts at or after the end of the
    earlier one. *)
Theorem IdHander_ranges_disjoint h counts os h' :
  IdHander_run h counts = Done (os, h') -> Forall (fun c => 0 <= c) counts ->
  (forall k id, os !! k = Some (Some id) -> hander_next h <= id <= hander_max h) /\
  forall k1 k2 id1 id2 c1, (k1 < k2)%nat ->
    os !! k1 = Some (Some id1) -> os !! k2 = Some (Some id2) -> counts !! k1 = Some c1 ->
    id1 + c1 <= id2.
Proof.
  intros E Hc. split; [by eapply IdHander_run_bound |]. revert h os h' E Hc.
  induction counts as [| c cs IH]; intros h os h' E Hc k1 k2 id1 id2 c1 Hlt H1 H2 Hc1;
    cbn in E; res_inv; [done |].
  destruct v as [o h1]. res_inv. destruct v as [os' h2]. res_inv.
  apply Forall_cons_1 in Hc as [Hc Hcs]. destruct k2 as [| k2]; [lia |]. cbn in H2.
  destruct k1 as [| k1]; cbn in H1, Hc1; [| apply (IH _ _ _ Hm0 Hcs k1 k2 id1 id2 c1); done || lia]. simplify_eq.
  apply IdHander_handout_inv in Hm as [([=] & _) | ([= ->] & ? & ->)].
  eapply (IdHander_run_bound cs) in H2; [| done | done]. cbn in H2. lia.
Qed.

(** ** Witnesses *)
Definition sample_tracker : IdTracker := mkIdTracker (Bitmap_new 6) 10.

Lemma sample_tracker_wf : IdTracker_wf sample_tracker.
Proof. destruct (IdTracker_new_ok 10 15) as (t & [= <-] & ? & _); (lia || done). Qed.

Lemma IdTracker_refines_pool_witness : exists t',
  IdTracker_allocate sample_tracker = Done (Ok 10, t') /\ IdTracker_wf t'.
Proof.
  destruct (IdTracker_refines_pool sample_tracker 10 sample_tracker_wf) as [(r & t' & E & H & ?) _];
    [lia |].
  exists t'. vm_compute in H. injection H as -> _. done.
Defined.

Lemma IdHander_ranges_disjoint_witness : 0 + 3 <= 3.
Proof.
  apply (proj2 (IdHander_ranges_disjoint (IdHander_new 100) [3; 2]
    [Some 0; Some 3] (mkIdHander 5 100) eq_refl (ltac:(repeat constructor; lia)))
    0%nat 1%nat 0 3 3); done || lia.
Defined.
