(* ===== verification/LinkedList.v ===== *)
(** * The intrusive doubly linked list of [utils/src/collections/linkedlist.rs]

    The list is modelled over an explicit heap of nodes, because its users
    (the buddy allocator, the slab allocator) move nodes between lists and
    share one memory: a node is found by its address, every operation reads
    and writes the nodes its source writes, and following a pointer to no node
    is a [BadPointer] outcome.

    [dll h l xs] says that in heap [h] the list [l] is the doubly linked list
    of the nodes [xs], each an address with its data.  Each operation is shown
    to implement the operation on [xs] and to leave every other node alone
    ([same_off]). *)

From S2P Require Import Prelude.

Abbreviation ptr := Z (only parsing).

Record Node (T : Type) := mkNode {
  data : T;
  next : option ptr;
  prev : option ptr;
}.
Arguments mkNode {T} _ _ _.
Arguments data {T} _.
Arguments next {T} _.
Arguments prev {T} _.

Record LinkedList := mkLinkedList {
  head : option ptr;
  tail : option ptr;
  len : Z;
}.

Abbreviation heap T := (gmap Z (Node T)).

Section linked_list.
Context {T : Type}.
Implicit Types (h : heap T) (l : LinkedList) (p q : ptr).

(** ** Memory accesses *)
Definition with_next (v : option ptr) (n : Node T) : Node T := mkNode (data n) v (prev n).
Definition with_prev (v : option ptr) (n : Node T) : Node T := mkNode (data n) (next n) v.
Definition with_data (d : T) (n : Node T) : Node T := mkNode d (next n) (prev n).

(** [p.as_ref()] and a field update through [p.as_mut()]. *)
Definition deref h p : res (Node T) :=
  match h !! p with Some n => Done n | None => Panic BadPointer end.
Definition write h p (f : Node T -> Node T) : res (heap T) :=
  _ ← deref h p; Done (alter f p h).
(** The same through an [Option<NonNull<_>>], when it is [Some]. *)
Definition write_opt h (o : option ptr) (f : Node T -> Node T) : res (heap T) :=
  match o with Some p => write h p f | None => Done h end.

(** ** Operations *)
Definition Node_new (d : T) : Node T := mkNode d None None.
Definition Node_data (n : Node T) : T := data n.

Definition LinkedList_new : LinkedList := mkLinkedList None None 0.
Definition LinkedList_len l : Z := len l.
Definition LinkedList_is_empty l : bool := len l =? 0.

(** [front], [back] and their [_mut] versions: the node whose data is lent. *)
Definition LinkedList_front h l : res (option T) :=
  match head l with Some p => n ← deref h p; Done (Some (data n)) | None => Done None end.
Definition LinkedList_front_mut l : option ptr := head l.
Definition LinkedList_back h l : res (option T) :=
  match tail l with Some p => n ← deref h p; Done (Some (data n)) | None => Done None end.
Definition LinkedList_back_mut l : option ptr := tail l.

(** [push_front] and [push_back]: [node] is the address [Box::new] returned. *)
Definition LinkedList_push_front h l (node : ptr) (d : T) : res (heap T * LinkedList) :=
  let h := <[node := mkNode d (head l) None]> h in
  h ← write_opt h (head l) (with_prev (Some node));
  let tail' := match head l with Some _ => tail l | None => Some node end in
  len' ← usize_add (len l) 1;
  Done (h, mkLinkedList (Some node) tail' len').

Definition LinkedList_push_back h l (node : ptr) (d : T) : res (heap T * LinkedList) :=
  let h := <[node := mkNode d None (tail l)]> h in
  h ← write_opt h (tail l) (with_next (Some node));
  let head' := match tail l with Some _ => head l | None => Some node end in
  len' ← usize_add (len l) 1;
  Done (h, mkLinkedList head' (Some node) len').

(** [pop_front] and [pop_back] drop the box: its node leaves the heap. *)
Definition LinkedList_pop_front h l : res (option T * heap T * LinkedList) :=
  match head l with
  | None => Done (None, h, l)
  | Some node =>
      boxed ← deref h node;
      let h := delete node h in
      let head' := next boxed in
      h ← write_opt h head' (with_prev None);
      let tail' := match head' with Some _ => tail l | None => None end in
      len' ← usize_sub (len l) 1;
      Done (Some (data boxed), h, mkLinkedList head' tail' len')
  end.

Definition LinkedList_pop_back h l : res (option T * heap T * LinkedList) :=
  match tail l with
  | None => Done (None, h, l)
  | Some node =>
      boxed ← deref h node;
      let h := delete node h in
      let tail' := prev boxed in
      h ← write_opt h tail' (with_next None);
      let head' := match tail' with Some _ => head l | None => None end in
      len' ← usize_sub (len l) 1;
      Done (Some (data boxed), h, mkLinkedList head' tail' len')
  end.

Definition LinkedList_push_node_front h l (node : ptr) : res (heap T * LinkedList) :=
  h ← write h node (with_next (head l));
  h ← write h node (with_prev None);
  h ← write_opt h (head l) (with_prev (Some node));
  let tail' := match head l with Some _ => tail l | None => Some node end in
  len' ← usize_add (len l) 1;
  Done (h, mkLinkedList (Some node) tail' len').

Definition LinkedList_push_node_back h l (node : ptr) : res (heap T * LinkedList) :=
  h ← write h node (with_prev (tail l));
  h ← write h node (with_next None);
  h ← write_opt h (tail l) (with_next (Some node));
  let head' := match tail l with Some _ => head l | None => Some node end in
  len' ← usize_add (len l) 1;
  Done (h, mkLinkedList head' (Some node) len').

Definition LinkedList_pop_node_front h l : res (option ptr * heap T * LinkedList) :=
  match head l with
  | None => Done (None, h, l)
  | Some node =>
      n ← deref h node;
      let head' := next n in
      h ← write_opt h head' (with_prev None);
      let tail' := match head' with Some _ => tail l | None => None end in
      len' ← usize_sub (len l) 1;
      h ← write h node (with_next None);
      h ← write h node (with_prev None);
      Done (Some node, h, mkLinkedList head' tail' len')
  end.

Definition LinkedList_pop_node_back h l : res (option ptr * heap T * LinkedList) :=
  match tail l with
  | None => Done (None, h, l)
  | Some node =>
      n ← deref h node;
      let tail' := prev n in
      h ← write_opt h tail' (with_next None);
      let head' := match tail' with Some _ => head l | None => None end in
      len' ← usize_sub (len l) 1;
      h ← write h node (with_next None);
      h ← write h node (with_prev None);
      Done (Some node, h, mkLinkedList head' tail' len')
  end.

(** [clear] (and [Drop]): [while self.pop_front().is_some() {}], with one unit
    of fuel per iteration. *)
Fixpoint LinkedList_clear (fuel : nat) h l : res (heap T * LinkedList) :=
  match fuel with
  | O => Panic Unreached
  | S fuel =>
      '(o, h, l) ← LinkedList_pop_front h l;
      match o with
      | Some _ => LinkedList_clear fuel h l
      | None => Done (h, l)
      end
  end.

(** [for _ in 0..index { curr = curr.next? }]. *)
Fixpoint LinkedList_walk h (curr : ptr) (index : nat) : res (option ptr) :=
  match index with
  | O => Done (Some curr)
  | S index =>
      n ← deref h curr;
      match next n with
      | Some curr => LinkedList_walk h curr index
      | None => Done None
      end
  end.

Definition LinkedList_remove_at_node h l (index : nat) : res (option ptr * heap T * LinkedList) :=
  if len l <=? Z.of_nat index then Done (None, h, l)
  else match head l with
  | None => Done (None, h, l)
  | Some hd =>
      o ← LinkedList_walk h hd index;
      match o with
      | None => Done (None, h, l)
      | Some curr =>
          n ← deref h curr;
          h ← write_opt h (prev n) (with_next (next n));
          let head' := match prev n with Some _ => head l | None => next n end in
          n ← deref h curr;
          h ← write_opt h (next n) (with_prev (prev n));
          let tail' := match next n with Some _ => tail l | None => prev n end in
          len' ← usize_sub (len l) 1;
          h ← write h curr (with_next None);
          h ← write h curr (with_prev None);
          Done (Some curr, h, mkLinkedList head' tail' len')
      end
  end.

(** ** Iterators: [Iter], [IterMut], [IterNode] and [IterMutNode] *)
Record Iter := mkIter { iter_next_ptr : option ptr; iter_remaining : Z }.

Definition LinkedList_iter l : Iter := mkIter (head l) (len l).

Definition LinkedList_iter_nodes l : Iter := mkIter (head l) (len l).
Definition LinkedList_iter_mut l : Iter := mkIter (head l) (len l).
Definition LinkedList_iter_mut_node l : Iter := mkIter (head l) (len l).

(** The body of the four [next]s, which differ in what they [lend]. *)
Definition iter_advance {A} (lend : ptr -> Node T -> A) h (it : Iter) : res (option A * Iter) :=
  if iter_remaining it =? 0 then Done (None, it)
  else match iter_next_ptr it with
  | None => Done (None, it)
  | Some node =>
      n ← deref h node;
      remaining' ← usize_sub (iter_remaining it) 1;
      Done (Some (lend node n), mkIter (next n) remaining')
  end.

(** [Iter] lends the data (kept with its address here), [IterNode] the node,
    the two mutable iterators a place to write, so its address. *)
Definition Iter_next h (it : Iter) : res (option (ptr * T) * Iter) :=
  iter_advance (fun p n => (p, data n)) h it.
Definition IterNode_next h (it : Iter) : res (option (Node T) * Iter) :=
  iter_advance (fun _ n => n) h it.
Definition IterMut_next h (it : Iter) : res (option ptr * Iter) :=
  iter_advance (fun p _ => p) h it.
Definition IterMutNode_next h (it : Iter) : res (option ptr * Iter) :=
  iter_advance (fun p _ => p) h it.

Definition Iter_size_hint (it : Iter) : Z * option Z :=
  (iter_remaining it, Some (iter_remaining it)).

(** [it.enumerate().find(|x| f(x))], counting from [i]; evaluating the
    closure may panic. *)
Fixpoint Iter_find (fuel : nat) h (f : T -> res bool) (it : Iter) (i : nat)
    : res (option (nat * T)) :=
  match fuel with
  | O => Panic Unreached
  | S fuel =>
      '(o, it) ← Iter_next h it;
      match o with
      | None => Done None
      | Some (p, d) =>
          b ← f d;
          if b : bool then Done (Some (i, d)) else Iter_find fuel h f it (S i)
      end
  end.

(** [it.collect()]. *)
Fixpoint Iter_collect (fuel : nat) h (it : Iter) : res (list (ptr * T)) :=
  match fuel with
  | O => Panic Unreached
  | S fuel =>
      '(o, it) ← Iter_next h it;
      match o with
      | None => Done []
      | Some x => xs ← Iter_collect fuel h it; Done (x :: xs)
      end
  end.

(** Enough fuel for a list: one call of [next] per node and one more. *)
Definition LinkedList_fuel l : nat := S (Z.to_nat (len l)).

(** ** Representation *)

(** The node at position [i] of a list of addresses. *)
Definition node_at (ps : list ptr) (i : nat) (d : T) : Node T :=
  mkNode d (ps !! S i) (match i with O => None | S j => ps !! j end).

Record dll h l (xs : list (ptr * T)) : Prop := {
  dll_nodup : NoDup xs.*1;
  dll_head : head l = xs.*1 !! 0%nat;
  dll_tail : tail l = xs.*1 !! (length xs - 1)%nat;
  dll_len : len l = Z.of_nat (length xs);
  dll_nodes : forall i p d, xs !! i = Some (p, d) -> h !! p = Some (node_at xs.*1 i d);
}.

(** Two heaps agree off a set of addresses. *)
Definition same_off (ps : list ptr) (h h' : heap T) : Prop :=
  forall q, q ∉ ps -> h' !! q = h !! q.

Lemma dll_frame h h' l xs ps : dll h l xs -> same_off ps h h' ->
  (forall p, p ∈ xs.*1 -> p ∉ ps) -> dll h' l xs.
Proof.
  intros [? ? ? ? Hn] Hs Hd. split; try done. intros i p d Hi.
  rewrite Hs; [by apply Hn |]. apply Hd. apply list_elem_of_fmap.
  exists (p, d). split; [done |]. by eapply list_elem_of_lookup_2.
Qed.

Lemma dll_new h : dll h LinkedList_new [].
Proof. split; try done. apply NoDup_nil_2. Qed.

Lemma deref_ok h p n : h !! p = Some n -> deref h p = Done n.
Proof. intros H. unfold deref. by rewrite H. Qed.

Lemma write_ok h p n f : h !! p = Some n -> write h p f = Done (<[p := f n]> h).
Proof.
  intros H. unfold write. rewrite (deref_ok _ _ _ H). cbn. f_equal.
  by rewrite <- (insert_id h p n) at 1; [rewrite alter_insert_eq |].
Qed.

Lemma fst_lookup (xs : list (ptr * T)) i p d : xs !! i = Some (p, d) -> xs.*1 !! i = Some p.
Proof. intros H. by rewrite list_lookup_fmap, H. Qed.

Lemma fst_lookup_inv (xs : list (ptr * T)) i p : xs.*1 !! i = Some p ->
  exists d, xs !! i = Some (p, d).
Proof.
  rewrite list_lookup_fmap. destruct (xs !! i) as [[q d] |]; cbn; [| done].
  intros [= ->]. eauto.
Qed.

(** Distinct positions of a list hold distinct addresses. *)
Lemma dll_pos_inj h l xs i j p d d' : dll h l xs ->
  xs !! i = Some (p, d) -> xs !! j = Some (p, d') -> i = j.
Proof.
  intros [Hn _ _ _ _] Hi Hj. apply fst_lookup in Hi, Hj. by eapply NoDup_lookup.
Qed.

(** ** Linking and unlinking *)
Lemma dll_tail_pos h l xs t : dll h l xs -> tail l = Some t ->
  exists d, xs !! (length xs - 1)%nat = Some (t, d).
Proof. intros Hd Ht. rewrite (dll_tail _ _ _ Hd) in Ht. by apply fst_lookup_inv. Qed.

Lemma dll_tail_None h l xs : dll h l xs -> tail l = None -> xs = [].
Proof.
  intros Hd Ht. rewrite (dll_tail _ _ _ Hd) in Ht. apply lookup_ge_None in Ht.
  rewrite length_fmap in Ht. destruct xs; [done | cbn in Ht; lia].
Qed.

Lemma dll_head_None h l xs : dll h l xs -> head l = None -> xs = [].
Proof.
  intros Hd Ht. rewrite (dll_head _ _ _ Hd) in Ht. by destruct xs.
Qed.

(** [h'] is [h] with node [p] linked in after the tail. *)
Lemma dll_link_back h h' l xs p d : dll h l xs -> p ∉ xs.*1 ->
  h' !! p = Some (mkNode d None (tail l)) ->
  (forall t n, tail l = Some t -> h !! t = Some n -> h' !! t = Some (with_next (Some p) n)) ->
  (forall q, q <> p -> tail l <> Some q -> h' !! q = h !! q) ->
  dll h' (mkLinkedList (match tail l with Some _ => head l | None => Some p end)
            (Some p) (len l + 1)) (xs ++ [(p, d)]).
Proof.
  intros Hd Hp Hnew Htl Hoff. pose proof Hd as [Hnd Hh Ht Hl Hn].
  split; cbn [head tail len].
  - rewrite fmap_app. apply NoDup_app. split_and!; [done | set_solver | apply NoDup_singleton].
  - rewrite fmap_app. destruct (tail l) as [t |] eqn:Et.
    + destruct (dll_tail_pos _ _ _ _ Hd Et) as (dt & Hi).
      rewrite lookup_app_l; [done |]. rewrite length_fmap. apply lookup_lt_Some in Hi. lia.
    + by rewrite (dll_tail_None _ _ _ Hd Et).
  - rewrite fmap_app, lookup_app_r, length_fmap, length_app; rewrite ?length_fmap, ?length_app; cbn; [| lia].
    by replace (length xs + 1 - 1 - length xs)%nat with 0%nat by lia.
  - rewrite length_app, Hl. cbn. lia.
  - intros i q dq Hi. rewrite fmap_app. destruct (decide (i < length xs)%nat) as [Hlt | Hge].
    + rewrite lookup_app_l in Hi by done. pose proof (Hn _ _ _ Hi) as Hq.
      assert (q <> p) as Hqp.
      { intros ->. apply Hp. apply list_elem_of_lookup. exists i. by eapply fst_lookup. }
      assert (length xs.*1 = length xs) as El by apply length_fmap.
      destruct (decide (i = length xs - 1)%nat) as [-> | Hne].
      * assert (tail l = Some q) as Et by (rewrite Ht; by eapply fst_lookup).
        rewrite (Htl q _ Et Hq). unfold node_at, with_next. cbn. do 2 f_equal.
        -- rewrite lookup_app_r by lia. by replace (S _ - _)%nat with 0%nat by lia.
        -- destruct (length xs - 1)%nat eqn:E; [done |]. rewrite lookup_app_l by lia. done.
      * rewrite Hoff; [rewrite Hq | done |].
        -- unfold node_at. do 2 f_equal.
           ++ rewrite lookup_app_l by lia. done.
           ++ destruct i; [done |]. rewrite lookup_app_l by lia. done.
        -- intros Et. destruct (dll_tail_pos _ _ _ _ Hd Et) as (dt & Hi').
           apply Hne. by eapply dll_pos_inj.
    + rewrite lookup_app_r in Hi by lia. apply list_lookup_singleton_Some in Hi as [Ei [= <- <-]].
      assert (i = length xs) as -> by lia. rewrite Hnew. unfold node_at. do 2 f_equal.
      * symmetry. apply lookup_ge_None. rewrite length_app, length_fmap. cbn. lia.
      * rewrite Ht. assert (length xs.*1 = length xs) as El by apply length_fmap.
        destruct (length xs) as [| n] eqn:E; [apply lookup_ge_None; lia |].
        rewrite lookup_app_l by lia. f_equal. lia.
Qed.

(** The heap with node [p] taken out from between [prv] and [nxt]. *)
Definition unlink h (prv nxt : option ptr) p (d : T) : heap T :=
  let h := match prv with Some q => alter (with_next nxt) q h | None => h end in
  let h := match nxt with Some q => alter (with_prev prv) q h | None => h end in
  <[p := mkNode d None None]> h.

Lemma unlink_same_off h prv nxt p d :
  same_off (p :: option_list prv ++ option_list nxt) h (unlink h prv nxt p d).
Proof.
  intros q Hq. unfold unlink. rewrite lookup_insert_ne by set_solver.
  destruct nxt, prv; cbn in *; rewrite ?lookup_alter_ne by set_solver; done.
Qed.

Lemma unlink_lookup h prv nxt p d q n : q <> p -> h !! q = Some n ->
  unlink h prv nxt p d !! q =
    Some (mkNode (data n) (if decide (prv = Some q) then nxt else next n)
                          (if decide (nxt = Some q) then prv else prev n)).
Proof.
  intros Hq Hn. unfold unlink. rewrite lookup_insert_ne by done. destruct n as [dn nn pn].
  assert ((match prv with Some r => alter (with_next nxt) r h | None => h end) !! q =
    Some (mkNode dn (if decide (prv = Some q) then nxt else nn) pn)) as H.
  { destruct prv as [r |]; [| by rewrite decide_False].
    rewrite lookup_alter. repeat case_decide; simplify_eq; by rewrite Hn. }
  destruct nxt as [r |]; [| rewrite H; by rewrite (decide_False (P := None = Some q))].
  rewrite lookup_alter. destruct (decide (r = q)) as [-> | Hr].
  - rewrite H. cbn. by rewrite (decide_True (P := Some q = Some q)).
  - rewrite H. by rewrite (decide_False (P := Some r = Some q)) by congruence.
Qed.

Lemma fmap_delete_fst (xs : list (ptr * T)) k : (delete k xs).*1 = delete k xs.*1.
Proof. apply list_fmap_delete. Qed.

(** Taking out the node at position [k] deletes position [k]. *)
Lemma dll_unlink h l xs k p d : dll h l xs -> xs !! k = Some (p, d) ->
  let prv := prev (node_at xs.*1 k d) in
  let nxt := next (node_at xs.*1 k d) in
  dll (unlink h prv nxt p d)
    (mkLinkedList (match prv with Some _ => head l | None => nxt end)
       (match nxt with Some _ => tail l | None => prv end) (len l - 1))
    (delete k xs).
Proof.
  intros Hd Hk prv nxt. pose proof Hd as [Hnd Hh Ht Hl Hn].
  assert (k < length xs)%nat as Hlt by (by eapply lookup_lt_Some).
  assert (length xs.*1 = length xs) as El by apply length_fmap.
  assert (length (delete k xs) = length xs - 1)%nat as Ed.
  { rewrite length_delete by eauto. done. }
  split; cbn [head tail len]; rewrite ?fmap_delete_fst.
  - eapply sublist_NoDup; [done | apply sublist_delete].
  - unfold prv, nxt, node_at. cbn. destruct k as [| j].
    + rewrite list_lookup_delete_ge by lia. done.
    + rewrite list_lookup_delete_lt by lia.
      destruct (lookup_lt_is_Some_2 xs.*1 j) as [q ->]; [lia | done].
  - rewrite Ed. unfold prv, nxt, node_at. cbn.
    destruct (decide (S k < length xs)%nat) as [Hk' | Hk'].
    + destruct (lookup_lt_is_Some_2 xs.*1 (S k)) as [q ->]; [lia |].
      rewrite list_lookup_delete_ge, Ht by lia. f_equal. lia.
    + rewrite (lookup_ge_None_2 xs.*1 (S k)) by lia. destruct k as [| j].
      * symmetry. apply lookup_ge_None. rewrite length_delete; [lia |].
        apply lookup_lt_is_Some. lia.
      * rewrite list_lookup_delete_lt by lia. f_equal. lia.
  - rewrite Ed, Hl. lia.
  - intros i q dq Hi.
    assert (exists i', xs !! i' = Some (q, dq) /\ i' <> k /\
      i' = if decide (i < k)%nat then i else S i) as (i' & Hi' & Hik & Ei).
    { case_decide.
      - exists i. rewrite list_lookup_delete_lt in Hi by done. split_and!; [done | lia | done].
      - exists (S i). rewrite list_lookup_delete_ge in Hi by lia. split_and!; [done | lia | done]. }
    assert (q <> p) as Hqp by (intros ->; apply Hik; by eapply dll_pos_inj).
    assert (forall j o, xs.*1 !! j = Some o -> o = q <-> j = i') as Hpos.
    { intros j o Hj. apply fst_lookup_inv in Hj as [dj Hj]. split.
      - intros ->. by eapply dll_pos_inj.
      - intros ->. congruence. }
    rewrite (unlink_lookup _ _ _ _ _ _ _ Hqp (Hn _ _ _ Hi')).
    unfold node_at. cbn [data next prev]. f_equal.
    assert (prv = Some q <-> S i' = k) as Hprv.
    { unfold prv, node_at. cbn. destruct k as [| j]; [split; [done | lia] |]. split.
      - intros E. apply Hpos in E. f_equal. symmetry. by apply E.
      - intros [= ->]. by eapply fst_lookup. }
    assert (nxt = Some q <-> i' = S k) as Hnxt.
    { unfold nxt, node_at. cbn. split.
      - intros E. apply Hpos in E. symmetry. by apply E.
      - intros ->. by eapply fst_lookup. }
    rewrite !list_lookup_delete.
    assert ((if decide (prv = Some q) then nxt else xs.*1 !! S i') =
      xs.*1 !! (if decide (S i < k)%nat then S i else S (S i))) as ->.
    { destruct (decide (prv = Some q)) as [A | A]; rewrite Hprv in A.
      - unfold nxt, node_at. cbn. f_equal. repeat case_decide; lia.
      - f_equal. repeat case_decide; lia. }
    f_equal. destruct (decide (nxt = Some q)) as [A | A]; rewrite Hnxt in A.
    + assert (i = k) as -> by (case_decide; lia). unfold prv, node_at. cbn.
      destruct k as [| j]; [done |]. rewrite list_lookup_delete_lt by lia. done.
    + subst i'. destruct (decide (i < k)%nat), i as [| i]; [done | | lia |].
      * rewrite list_lookup_delete_lt by lia. done.
      * rewrite list_lookup_delete_ge by lia. done.
Qed.

(** [h'] is [h] with node [p] linked in before the head. *)
Lemma dll_link_front h h' l xs p d : dll h l xs -> p ∉ xs.*1 ->
  h' !! p = Some (mkNode d (head l) None) ->
  (forall t n, head l = Some t -> h !! t = Some n -> h' !! t = Some (with_prev (Some p) n)) ->
  (forall q, q <> p -> head l <> Some q -> h' !! q = h !! q) ->
  dll h' (mkLinkedList (Some p) (match head l with Some _ => tail l | None => Some p end)
            (len l + 1)) ((p, d) :: xs).
Proof.
  intros Hd Hp Hnew Hhd Hoff. pose proof Hd as [Hnd Hh Ht Hl Hn].
  split; cbn [head tail len].
  - by apply NoDup_cons.
  - done.
  - destruct (head l) as [t |] eqn:Et; cbn.
    + rewrite Ht. destruct xs as [| x xs]; [done |]. cbn. by rewrite Nat.sub_0_r.
    + by rewrite (dll_head_None _ _ _ Hd Et).
  - rewrite Hl. cbn. lia.
  - intros [| i] q dq Hi; cbn in Hi.
    + injection Hi as <- <-. rewrite Hnew. unfold node_at. cbn. by rewrite Hh.
    + pose proof (Hn _ _ _ Hi) as Hq. pose proof (fst_lookup _ _ _ _ Hi) as Hi1.
      assert (q <> p) as Hqp by (intros ->; apply Hp; by eapply list_elem_of_lookup_2).
      destruct i as [| i].
      * rewrite (Hhd q _ ltac:(by rewrite Hh) Hq). done.
      * rewrite Hoff, Hq; [done | done |]. rewrite Hh. intros E.
        by pose proof (NoDup_lookup _ _ _ _ Hnd E Hi1).
Qed.

(** ** The writes of the operations *)
Lemma write_alter h p f : is_Some (h !! p) -> write h p f = Done (alter f p h).
Proof. intros [n Hn]. unfold write. by rewrite (deref_ok _ _ _ Hn). Qed.

Lemma write_opt_alter h o f : (forall p, o = Some p -> is_Some (h !! p)) ->
  write_opt h o f = Done (match o with Some p => alter f p h | None => h end).
Proof. destruct o; cbn; intros H; [by apply write_alter, H | done]. Qed.

Lemma write_twice_ok h p n f g : h !! p = Some n ->
  (h1 ← write h p f; write h1 p g) = Done (<[p := g (f n)]> h).
Proof.
  intros Hn. rewrite (write_ok _ _ _ _ Hn). cbn.
  rewrite (write_ok _ _ (f n)) by apply lookup_insert_eq. by rewrite insert_insert_eq.
Qed.

Lemma bind_assoc_res {A B C} (m : res A) (f : A -> res B) (g : B -> res C) :
  (m ≫= f) ≫= g = m ≫= (fun a => f a ≫= g).
Proof. by destruct m. Qed.

Lemma write_twice_bind {B} h p n f g (k : heap T -> res B) : h !! p = Some n ->
  (h1 ← write h p f; h2 ← write h1 p g; k h2) = k (<[p := g (f n)]> h).
Proof.
  intros Hn. change (k (<[p:=g (f n)]> h)) with (Done (<[p:=g (f n)]> h) ≫= k).
  rewrite <- (write_twice_ok _ _ _ f g Hn). by rewrite bind_assoc_res.
Qed.

(** The neighbours a node of a list points to are nodes of the list. *)
Lemma dll_neighbour h l xs i p d q : dll h l xs -> xs !! i = Some (p, d) ->
  next (node_at xs.*1 i d) = Some q \/ prev (node_at xs.*1 i d) = Some q ->
  q ∈ xs.*1 /\ q <> p /\ is_Some (h !! q).
Proof.
  intros Hd Hi Hq. pose proof Hd as [Hnd _ _ _ Hn].
  assert (exists j, j <> i /\ xs.*1 !! j = Some q) as (j & Hj & Hjq).
  { destruct Hq as [Hq | Hq]; cbn in Hq; [exists (S i); split; [lia | done] |].
    destruct i as [| i]; [done |]. exists i. split; [lia | done]. }
  split_and!; [by eapply list_elem_of_lookup_2 | | ].
  - intros ->. apply Hj. eapply NoDup_lookup; [done | done |]. by eapply fst_lookup.
  - apply fst_lookup_inv in Hjq as [dq Hjq]. rewrite (Hn _ _ _ Hjq). done.
Qed.

Lemma dll_unlink_same_off h l xs k p d : dll h l xs -> xs !! k = Some (p, d) ->
  same_off xs.*1 h
    (unlink h (prev (node_at xs.*1 k d)) (next (node_at xs.*1 k d)) p d).
Proof.
  intros Hd Hk q Hq. apply unlink_same_off.
  pose proof (fun r => dll_neighbour _ _ _ _ _ _ r Hd Hk) as Hnb.
  rewrite elem_of_cons, elem_of_app. intros [-> | [H | H]].
  - apply Hq. eapply list_elem_of_lookup_2. by eapply fst_lookup.
  - destruct (prev _) as [r |] eqn:E; cbn in H; [| set_solver].
    apply list_elem_of_singleton in H as ->. apply Hq, Hnb. auto.
  - destruct (next _) as [r |] eqn:E; cbn in H; [| set_solver].
    apply list_elem_of_singleton in H as ->. apply Hq, Hnb. auto.
Qed.

(** ** Specifications of the operations *)
Lemma push_node_back_spec h l xs p n : dll h l xs -> h !! p = Some n -> p ∉ xs.*1 ->
  Z.of_nat (length xs) < usize_MAX ->
  exists h' l', LinkedList_push_node_back h l p = Done (h', l') /\
    dll h' l' (xs ++ [(p, data n)]) /\ same_off (p :: xs.*1) h h'.
Proof.
  intros Hd Hn Hp Hlen. unfold LinkedList_push_node_back.
  rewrite (write_twice_bind _ _ _ _ _ _ Hn).
  assert (forall t, tail l = Some t -> t ∈ xs.*1 /\ t <> p /\ is_Some (h !! t)) as Ht.
  { intros t Et. destruct (dll_tail_pos _ _ _ _ Hd Et) as (dt & Hi).
    pose proof (list_elem_of_lookup_2 _ _ _ (fst_lookup _ _ _ _ Hi)).
    split_and!; [done | congruence |]. rewrite (dll_nodes _ _ _ Hd _ _ _ Hi). done. }
  rewrite write_opt_alter, bind_Done.
  2:{ intros t Et. rewrite lookup_insert_ne; apply Ht in Et; naive_solver. }
  rewrite usize_add_ok, bind_Done by (rewrite (dll_len _ _ _ Hd); lia).
  do 2 eexists. split; [done |]. split.
  - apply (dll_link_back h); try done.
    + destruct (tail l) as [t |] eqn:Et; [rewrite lookup_alter_ne by naive_solver |];
        by rewrite lookup_insert_eq.
    + intros t m Et Hm. rewrite Et, lookup_alter_eq, lookup_insert_ne, Hm by naive_solver.
      done.
    + intros q Hqp Hq. destruct (tail l) as [t |] eqn:Et;
        rewrite ?lookup_alter_ne by congruence; by rewrite lookup_insert_ne.
  - intros q Hq. destruct (tail l) as [t |] eqn:Et.
    + rewrite lookup_alter_ne, lookup_insert_ne; [done | set_solver |].
      intros ->. apply Hq. right. naive_solver.
    + rewrite lookup_insert_ne; [done | set_solver].
Qed.

Lemma push_node_front_spec h l xs p n : dll h l xs -> h !! p = Some n -> p ∉ xs.*1 ->
  Z.of_nat (length xs) < usize_MAX ->
  exists h' l', LinkedList_push_node_front h l p = Done (h', l') /\
    dll h' l' ((p, data n) :: xs) /\ same_off (p :: xs.*1) h h'.
Proof.
  intros Hd Hn Hp Hlen. unfold LinkedList_push_node_front.
  rewrite (write_twice_bind _ _ _ _ _ _ Hn).
  assert (forall t, head l = Some t -> t ∈ xs.*1 /\ t <> p /\ is_Some (h !! t)) as Ht.
  { intros t Et. rewrite (dll_head _ _ _ Hd) in Et.
    pose proof (list_elem_of_lookup_2 _ _ _ Et). apply fst_lookup_inv in Et as [dt Et].
    split_and!; [done | congruence |]. rewrite (dll_nodes _ _ _ Hd _ _ _ Et). done. }
  rewrite write_opt_alter, bind_Done.
  2:{ intros t Et. rewrite lookup_insert_ne; apply Ht in Et; naive_solver. }
  rewrite usize_add_ok, bind_Done by (rewrite (dll_len _ _ _ Hd); lia).
  do 2 eexists. split; [done |]. split.
  - apply (dll_link_front h); try done.
    + destruct (head l) as [t |] eqn:Et; [rewrite lookup_alter_ne by naive_solver |];
        by rewrite lookup_insert_eq.
    + intros t m Et Hm. rewrite Et, lookup_alter_eq, lookup_insert_ne, Hm by naive_solver.
      done.
    + intros q Hqp Hq. destruct (head l) as [t |] eqn:Et;
        rewrite ?lookup_alter_ne by congruence; by rewrite lookup_insert_ne.
  - intros q Hq. destruct (head l) as [t |] eqn:Et.
    + rewrite lookup_alter_ne, lookup_insert_ne; [done | set_solver |].
      intros ->. apply Hq. right. naive_solver.
    + rewrite lookup_insert_ne; [done | set_solver].
Qed.

(** The common end of the pops: the links of [p] are cleared after its
    neighbours were joined. *)
Lemma clear_links_bind {B} h p d (n : Node T) (k : heap T -> res B) :
  h !! p = Some n -> data n = d ->
  (h1 ← write h p (with_next None); h2 ← write h1 p (with_prev None); k h2) =
    k (<[p := mkNode d None None]> h).
Proof. intros Hn <-. by rewrite (write_twice_bind _ _ _ _ _ _ Hn). Qed.

Lemma pop_node_back_nil h l : dll h l [] ->
  LinkedList_pop_node_back h l = Done (None, h, l).
Proof. intros Hd. unfold LinkedList_pop_node_back. by rewrite (dll_tail _ _ _ Hd). Qed.

Lemma pop_node_front_nil h l : dll h l [] ->
  LinkedList_pop_node_front h l = Done (None, h, l).
Proof. intros Hd. unfold LinkedList_pop_node_front. by rewrite (dll_head _ _ _ Hd). Qed.

Lemma dll_len_sub h l (xs : list (ptr * T)) k x : dll h l xs -> xs !! k = Some x ->
  usize_sub (len l) 1 = Done (len l - 1).
Proof.
  intros Hd Hk. apply usize_sub_ok. rewrite (dll_len _ _ _ Hd).
  apply lookup_lt_Some in Hk. lia.
Qed.

Lemma delete_last_app {A} (xs : list A) x : delete (length xs) (xs ++ [x]) = xs.
Proof. induction xs as [| y xs IH]; cbn; [done | by f_equal]. Qed.

Lemma pop_node_back_spec h l xs p d : dll h l (xs ++ [(p, d)]) ->
  exists h' l', LinkedList_pop_node_back h l = Done (Some p, h', l') /\
    dll h' l' xs /\ h' !! p = Some (mkNode d None None) /\
    same_off (p :: xs.*1) h h'.
Proof.
  intros Hd. set (ys := xs ++ [(p, d)]) in *.
  assert (ys !! length xs = Some (p, d)) as Hk.
  { unfold ys. rewrite lookup_app_r by lia. by rewrite Nat.sub_diag. }
  assert (next (node_at ys.*1 (length xs) d) = None) as Hnx.
  { cbn. apply lookup_ge_None. unfold ys. rewrite length_fmap, length_app. cbn. lia. }
  assert (tail l = Some p) as Et.
  { rewrite (dll_tail _ _ _ Hd).
    replace (length ys - 1)%nat with (length xs); [by eapply fst_lookup |].
    unfold ys. rewrite length_app. cbn. lia. }
  pose proof (dll_nodes _ _ _ Hd _ _ _ Hk) as Hp.
  pose proof (fun q => dll_neighbour _ _ _ _ _ _ q Hd Hk) as Hnb.
  unfold LinkedList_pop_node_back. rewrite Et, (deref_ok _ _ _ Hp), bind_Done.
  rewrite write_opt_alter, bind_Done by (intros q Hq; apply Hnb; auto).
  rewrite (dll_len_sub _ _ _ _ _ Hd Hk), bind_Done.
  rewrite (clear_links_bind _ _ d (node_at ys.*1 (length xs) d)); [| | done].
  2:{ destruct (prev _) as [q |] eqn:Eq; [| done]. rewrite lookup_alter_ne; naive_solver. }
  do 2 eexists. split; [done |].
  pose proof (dll_unlink _ _ _ _ _ _ Hd Hk) as Hu. cbn zeta in Hu. rewrite Hnx in Hu.
  rewrite (delete_last_app xs (p, d) : delete (length xs) ys = xs) in Hu.
  pose proof (dll_unlink_same_off _ _ _ _ _ _ Hd Hk) as Hso. rewrite Hnx in Hso.
  unfold unlink in Hu, Hso. split_and!.
  - destruct (prev _) as [q |] eqn:Eq; exact Hu.
  - apply lookup_insert_eq.
  - intros q Hq. apply Hso. unfold ys. rewrite fmap_app. set_solver.
Qed.

Lemma pop_node_front_spec h l xs p d : dll h l ((p, d) :: xs) ->
  exists h' l', LinkedList_pop_node_front h l = Done (Some p, h', l') /\
    dll h' l' xs /\ h' !! p = Some (mkNode d None None) /\
    same_off (p :: xs.*1) h h'.
Proof.
  intros Hd. set (ys := (p, d) :: xs) in *.
  assert (ys !! 0%nat = Some (p, d)) as Hk by done.
  pose proof (dll_nodes _ _ _ Hd _ _ _ Hk) as Hp.
  pose proof (fun q => dll_neighbour _ _ _ _ _ _ q Hd Hk) as Hnb.
  assert (head l = Some p) as Eh by apply (dll_head _ _ _ Hd).
  unfold LinkedList_pop_node_front. rewrite Eh.
  rewrite (deref_ok _ _ _ Hp), bind_Done.
  rewrite write_opt_alter, bind_Done by (intros q Hq; apply Hnb; auto).
  rewrite (dll_len_sub _ _ _ _ _ Hd Hk), bind_Done.
  rewrite (clear_links_bind _ _ d (node_at ys.*1 0 d)); [| | done].
  2:{ destruct (next _) as [q |] eqn:Eq; [| done]. rewrite lookup_alter_ne; naive_solver. }
  do 2 eexists. split; [done |].
  pose proof (dll_unlink _ _ _ _ _ _ Hd Hk) as Hu.
  pose proof (dll_unlink_same_off _ _ _ _ _ _ Hd Hk) as Hso.
  unfold unlink in Hu, Hso. cbn zeta in Hu. cbn [prev node_at] in Hu, Hso. split_and!.
  - exact Hu.
  - apply lookup_insert_eq.
  - exact Hso.
Qed.

Lemma LinkedList_walk_ok h l xs i j p d q dq : dll h l xs ->
  xs !! i = Some (p, d) -> xs !! (i + j)%nat = Some (q, dq) ->
  LinkedList_walk h p j = Done (Some q).
Proof.
  intros Hd. revert i p d. induction j as [| j IH]; intros i p d Hi Hj; cbn.
  - rewrite Nat.add_0_r in Hj. congruence.
  - rewrite (deref_ok _ _ _ (dll_nodes _ _ _ Hd _ _ _ Hi)), bind_Done. cbn.
    destruct (lookup_lt_is_Some_2 xs (S i)) as [[r dr] Hr].
    { apply lookup_lt_Some in Hj. lia. }
    rewrite (fst_lookup _ _ _ _ Hr). apply (IH (S i) r dr); [done |].
    by replace (S i + j)%nat with (i + S j)%nat by lia.
Qed.

Lemma remove_at_node_none h l xs k : dll h l xs -> xs !! k = None ->
  LinkedList_remove_at_node h l k = Done (None, h, l).
Proof.
  intros Hd Hk. unfold LinkedList_remove_at_node. rewrite (dll_len _ _ _ Hd).
  apply lookup_ge_None in Hk. by rewrite (proj2 (Z.leb_le _ _)) by lia.
Qed.

Lemma remove_at_node_spec h l xs k p d : dll h l xs -> xs !! k = Some (p, d) ->
  exists h' l', LinkedList_remove_at_node h l k = Done (Some p, h', l') /\
    dll h' l' (delete k xs) /\ h' !! p = Some (mkNode d None None) /\
    same_off xs.*1 h h'.
Proof.
  intros Hd Hk. pose proof (dll_nodes _ _ _ Hd _ _ _ Hk) as Hp.
  pose proof (fun q => dll_neighbour _ _ _ _ _ _ q Hd Hk) as Hnb.
  unfold LinkedList_remove_at_node. pose proof (lookup_lt_Some _ _ _ Hk).
  rewrite (proj2 (Z.leb_gt _ _)) by (rewrite (dll_len _ _ _ Hd); lia).
  destruct (lookup_lt_is_Some_2 xs 0) as [[h0 d0] H0]; [lia |].
  rewrite (dll_head _ _ _ Hd), (fst_lookup _ _ _ _ H0).
  rewrite (LinkedList_walk_ok _ _ _ 0 k _ _ _ _ Hd H0 Hk), bind_Done.
  rewrite (deref_ok _ _ _ Hp), bind_Done.
  rewrite write_opt_alter, bind_Done by (intros q Hq; apply Hnb; auto).
  set (h1 := match prev (node_at xs.*1 k d) with
             | Some q => alter (with_next (next (node_at xs.*1 k d))) q h
             | None => h end).
  assert (h1 !! p = Some (node_at xs.*1 k d)) as Hp1.
  { unfold h1. destruct (prev _) as [q |] eqn:Eq; [| done].
    rewrite lookup_alter_ne; naive_solver. }
  rewrite (deref_ok _ _ _ Hp1), bind_Done, write_opt_alter, bind_Done.
  2:{ intros q Hq. unfold h1. destruct (prev _) as [r |] eqn:Er; [| apply Hnb; auto].
      rewrite lookup_alter. destruct (Hnb q ltac:(auto)) as (_ & _ & [n Hn]).
      case_decide; subst; rewrite Hn; eauto. }
  rewrite (dll_len_sub _ _ _ _ _ Hd Hk), bind_Done.
  rewrite (clear_links_bind _ _ d (node_at xs.*1 k d)); [| | done].
  2:{ destruct (next _) as [q |] eqn:Eq; [| done]. rewrite lookup_alter_ne; naive_solver. }
  do 2 eexists. split; [done |].
  pose proof (dll_unlink _ _ _ _ _ _ Hd Hk) as Hu.
  rewrite (dll_head _ _ _ Hd), (fst_lookup _ _ _ _ H0) in Hu.
  split_and!; [exact Hu | apply lookup_insert_eq | by apply (dll_unlink_same_off _ _ _ _ _ _ Hd Hk)].
Qed.

(** The boxed operations: the node enters or leaves the heap. *)
Lemma dll_fresh h l xs p : dll h l xs -> h !! p = None -> p ∉ xs.*1.
Proof.
  intros Hd Hp Hin. apply list_elem_of_lookup in Hin as [i Hi].
  apply fst_lookup_inv in Hi as [d Hi]. rewrite (dll_nodes _ _ _ Hd _ _ _ Hi) in Hp. done.
Qed.

Lemma dll_end_live h l xs t : dll h l xs -> head l = Some t \/ tail l = Some t ->
  t ∈ xs.*1 /\ is_Some (h !! t).
Proof.
  intros Hd Ht. assert (exists i, xs.*1 !! i = Some t) as [i Hi].
  { destruct Ht as [Ht | Ht]; [rewrite (dll_head _ _ _ Hd) in Ht |
      rewrite (dll_tail _ _ _ Hd) in Ht]; eauto. }
  split; [by eapply list_elem_of_lookup_2 |]. apply fst_lookup_inv in Hi as [d Hi].
  rewrite (dll_nodes _ _ _ Hd _ _ _ Hi). done.
Qed.

Lemma push_back_spec h l xs p d : dll h l xs -> h !! p = None ->
  Z.of_nat (length xs) < usize_MAX ->
  exists h' l', LinkedList_push_back h l p d = Done (h', l') /\ dll h' l' (xs ++ [(p, d)]).
Proof.
  intros Hd Hp Hlen. unfold LinkedList_push_back.
  pose proof (fun t => dll_end_live _ _ _ t Hd) as Hend.
  assert (forall t, tail l = Some t -> t <> p) as Hne.
  { intros t Et ->. destruct (Hend p ltac:(auto)) as [_ [? ?]]. congruence. }
  rewrite write_opt_alter, bind_Done.
  2:{ intros t Et. rewrite lookup_insert_ne by naive_solver. apply Hend. auto. }
  rewrite usize_add_ok, bind_Done by (rewrite (dll_len _ _ _ Hd); lia).
  do 2 eexists. split; [done |]. apply (dll_link_back h); try done.
  - by eapply dll_fresh.
  - destruct (tail l) as [t |]; [rewrite lookup_alter_ne by naive_solver |];
      by rewrite lookup_insert_eq.
  - intros t n Et Hn. rewrite Et, lookup_alter_eq, lookup_insert_ne, Hn by naive_solver. done.
  - intros q Hqp Hq. destruct (tail l); rewrite ?lookup_alter_ne by congruence;
      by rewrite lookup_insert_ne.
Qed.

Lemma push_front_spec h l xs p d : dll h l xs -> h !! p = None ->
  Z.of_nat (length xs) < usize_MAX ->
  exists h' l', LinkedList_push_front h l p d = Done (h', l') /\ dll h' l' ((p, d) :: xs).
Proof.
  intros Hd Hp Hlen. unfold LinkedList_push_front.
  pose proof (fun t => dll_end_live _ _ _ t Hd) as Hend.
  assert (forall t, head l = Some t -> t <> p) as Hne.
  { intros t Et ->. destruct (Hend p ltac:(auto)) as [_ [? ?]]. congruence. }
  rewrite write_opt_alter, bind_Done.
  2:{ intros t Et. rewrite lookup_insert_ne by naive_solver. apply Hend. auto. }
  rewrite usize_add_ok, bind_Done by (rewrite (dll_len _ _ _ Hd); lia).
  do 2 eexists. split; [done |]. apply (dll_link_front h); try done.
  - by eapply dll_fresh.
  - destruct (head l) as [t |]; [rewrite lookup_alter_ne by naive_solver |];
      by rewrite lookup_insert_eq.
  - intros t n Et Hn. rewrite Et, lookup_alter_eq, lookup_insert_ne, Hn by naive_solver. done.
  - intros q Hqp Hq. destruct (head l); rewrite ?lookup_alter_ne by congruence;
      by rewrite lookup_insert_ne.
Qed.

Lemma unlink_delete h prv nxt p d : prv <> Some p -> nxt <> Some p ->
  same_off [p] (unlink h prv nxt p d)
    (let h := delete p h in
     let h := match prv with Some q => alter (with_next nxt) q h | None => h end in
     match nxt with Some q => alter (with_prev prv) q h | None => h end).
Proof.
  intros H1 H2 q Hq. assert (q <> p) by set_solver. unfold unlink.
  rewrite lookup_insert_ne by done.
  destruct prv as [r |], nxt as [t |]; cbn zeta; rewrite ?lookup_alter;
    repeat case_decide; subst; rewrite ?lookup_alter; repeat case_decide; subst;
    rewrite ?lookup_delete_ne by congruence; done.
Qed.

Lemma pop_front_spec h l xs p d : dll h l ((p, d) :: xs) ->
  exists h' l', LinkedList_pop_front h l = Done (Some d, h', l') /\
    dll h' l' xs /\ h' !! p = None.
Proof.
  intros Hd. set (ys := (p, d) :: xs) in *. assert (ys !! 0%nat = Some (p, d)) as Hk by done.
  assert (head l = Some p) as Eh by apply (dll_head _ _ _ Hd).
  pose proof (dll_nodes _ _ _ Hd _ _ _ Hk) as Hp.
  pose proof (fun q => dll_neighbour _ _ _ _ _ _ q Hd Hk) as Hnb.
  pose proof (dll_unlink _ _ _ _ _ _ Hd Hk) as Hu.
  unfold LinkedList_pop_front. rewrite Eh, (deref_ok _ _ _ Hp), bind_Done. cbv zeta in Hu |- *.
  rewrite write_opt_alter, bind_Done.
  2:{ intros q Hq. destruct (Hnb q ltac:(auto)) as (_ & ? & ?). by rewrite lookup_delete_ne. }
  rewrite (dll_len_sub _ _ _ _ _ Hd Hk), bind_Done. do 2 eexists. split; [done |].
  assert (NoDup ys.*1) as Hnd by apply (dll_nodup _ _ _ Hd). split.
  - eapply dll_frame; [exact Hu | apply (unlink_delete h None) |].
    + done.
    + intros E. by destruct (Hnb p ltac:(auto)) as (_ & ? & _).
    + intros q Hq. cbn in Hnd. apply NoDup_cons in Hnd as [Hnd _]. set_solver.
  - destruct (next _) as [q |] eqn:E; [| apply lookup_delete_eq].
    rewrite lookup_alter_ne by naive_solver. apply lookup_delete_eq.
Qed.

Lemma pop_back_spec h l xs p d : dll h l (xs ++ [(p, d)]) ->
  exists h' l', LinkedList_pop_back h l = Done (Some d, h', l') /\
    dll h' l' xs /\ h' !! p = None.
Proof.
  intros Hd. set (ys := xs ++ [(p, d)]) in *.
  assert (ys !! length xs = Some (p, d)) as Hk.
  { unfold ys. rewrite lookup_app_r by lia. by rewrite Nat.sub_diag. }
  assert (next (node_at ys.*1 (length xs) d) = None) as Hnx.
  { cbn. apply lookup_ge_None. unfold ys. rewrite length_fmap, length_app. cbn. lia. }
  assert (tail l = Some p) as Et.
  { rewrite (dll_tail _ _ _ Hd).
    replace (length ys - 1)%nat with (length xs); [by eapply fst_lookup |].
    unfold ys. rewrite length_app. cbn. lia. }
  pose proof (dll_nodes _ _ _ Hd _ _ _ Hk) as Hp.
  pose proof (fun q => dll_neighbour _ _ _ _ _ _ q Hd Hk) as Hnb.
  pose proof (dll_unlink _ _ _ _ _ _ Hd Hk) as Hu. cbv zeta in Hu. rewrite Hnx in Hu.
  rewrite (delete_last_app xs (p, d) : delete (length xs) ys = xs) in Hu.
  unfold LinkedList_pop_back. rewrite Et, (deref_ok _ _ _ Hp), bind_Done.
  rewrite write_opt_alter, bind_Done.
  2:{ intros q Hq. destruct (Hnb q ltac:(auto)) as (_ & ? & ?). by rewrite lookup_delete_ne. }
  rewrite (dll_len_sub _ _ _ _ _ Hd Hk), bind_Done. do 2 eexists. split; [done |].
  assert (NoDup ys.*1) as Hnd by apply (dll_nodup _ _ _ Hd). split.
  - eapply dll_frame; [exact Hu | apply (unlink_delete h _ None) |].
    + intros E. by destruct (Hnb p ltac:(auto)) as (_ & ? & _).
    + done.
    + intros q Hq. unfold ys in Hnd. rewrite fmap_app in Hnd.
      apply NoDup_app in Hnd as (_ & Hnd & _). set_solver.
  - destruct (prev _) as [q |] eqn:E; [| apply lookup_delete_eq].
    rewrite lookup_alter_ne by naive_solver. apply lookup_delete_eq.
Qed.

Lemma LinkedList_clear_spec xs : forall h l fuel, dll h l xs -> (length xs < fuel)%nat ->
  exists h' l', LinkedList_clear fuel h l = Done (h', l') /\ dll h' l' [].
Proof.
  induction xs as [| [p d] xs IH]; intros h l [| fuel] Hd Hf; cbn in *; try lia.
  - unfold LinkedList_pop_front. rewrite (dll_head _ _ _ Hd). cbn. eauto.
  - destruct (pop_front_spec _ _ _ _ _ Hd) as (h1 & l1 & -> & Hd1 & _). cbn.
    apply IH; [done | lia].
Qed.

(** ** Iteration *)
Lemma iter_advance_ok {A} (lend : ptr -> Node T -> A) h l xs i p d : dll h l xs -> xs !! i = Some (p, d) ->
  iter_advance lend h (mkIter (xs.*1 !! i) (Z.of_nat (length xs - i))) =
    Done (Some (lend p (node_at xs.*1 i d)), mkIter (xs.*1 !! S i) (Z.of_nat (length xs - S i))).
Proof.
  intros Hd Hi. pose proof (lookup_lt_Some _ _ _ Hi). unfold iter_advance. cbn.
  rewrite (proj2 (Z.eqb_neq _ _)) by lia. rewrite (fst_lookup _ _ _ _ Hi).
  rewrite (deref_ok _ _ _ (dll_nodes _ _ _ Hd _ _ _ Hi)), bind_Done.
  rewrite usize_sub_ok, bind_Done by lia. do 3 f_equal. lia.
Qed.

Lemma Iter_next_ok h l xs i p d : dll h l xs -> xs !! i = Some (p, d) ->
  Iter_next h (mkIter (xs.*1 !! i) (Z.of_nat (length xs - i))) =
    Done (Some (p, d), mkIter (xs.*1 !! S i) (Z.of_nat (length xs - S i))).
Proof. apply iter_advance_ok. Qed.

(** Writing a node's data in place keeps the list. *)
Lemma dll_write_data h l xs i p d d' : dll h l xs -> xs !! i = Some (p, d) ->
  exists h', write h p (with_data d') = Done h' /\ dll h' l (<[i := (p, d')]> xs) /\ same_off [p] h h'.
Proof.
  intros Hd Hi. pose proof (dll_nodes _ _ _ Hd _ _ _ Hi) as Hp. pose proof (lookup_lt_Some _ _ _ Hi).
  rewrite (write_ok _ _ _ _ Hp). eexists. split; [done |].
  assert ((<[i := (p, d')]> xs).*1 = xs.*1) as E.
  { rewrite list_fmap_insert. apply list_insert_id. by apply fst_lookup in Hi. }
  split.
  - destruct Hd as [Hnd Hh Ht Hl Hn]. split; rewrite ?E, ?length_insert; try done.
    intros j q c Hj. destruct (decide (i = j)) as [<- | Hne].
    + rewrite list_lookup_insert_eq in Hj by done. injection Hj as <- <-. by rewrite lookup_insert_eq.
    + rewrite list_lookup_insert_ne in Hj by done. rewrite lookup_insert_ne; [by apply Hn |].
      intros <-. apply Hne. eapply NoDup_lookup; [exact Hnd | by eapply fst_lookup | by eapply fst_lookup].
  - intros q Hq. apply lookup_insert_ne. set_solver.
Qed.

Lemma Iter_next_end h o : Iter_next h (mkIter o 0) = Done (None, mkIter o 0).
Proof. done. Qed.

(** [find] on the abstract list: the first position whose data satisfies [f]. *)
Fixpoint find_pos (f : T -> res bool) (ds : list T) (i : nat) : res (option (nat * T)) :=
  match ds with
  | [] => Done None
  | d :: ds => b ← f d; if b : bool then Done (Some (i, d)) else find_pos f ds (S i)
  end.

Lemma Iter_find_from h l xs f : dll h l xs -> forall i fuel, (length xs - i < fuel)%nat ->
  Iter_find fuel h f (mkIter (xs.*1 !! i) (Z.of_nat (length xs - i))) i =
    find_pos f (drop i xs).*2 i.
Proof.
  intros Hd i fuel. revert i. induction fuel as [| fuel IH]; intros i Hf; [lia |]. cbn.
  destruct (drop i xs) as [| [p d] ys] eqn:E.
  - apply (f_equal length) in E. rewrite length_drop in E. cbn in E.
    replace (Z.of_nat (length xs - i)) with 0 by lia. done.
  - assert (xs !! i = Some (p, d)) as Hi.
    { rewrite <- (Nat.add_0_r i), <- lookup_drop, E. done. }
    rewrite (Iter_next_ok _ _ _ _ _ _ Hd Hi), bind_Done. cbn. destruct (f d) as [[] |]; [done | cbn | done].
    apply lookup_lt_Some in Hi as Hlt. rewrite IH by lia. f_equal.
    pose proof (drop_S _ _ _ Hi) as Hs. rewrite E in Hs. by injection Hs as ->.
Qed.

Lemma Iter_find_spec h l xs f : dll h l xs ->
  Iter_find (LinkedList_fuel l) h f (LinkedList_iter l) 0 = find_pos f xs.*2 0.
Proof.
  intros Hd. pose proof (Iter_find_from _ _ _ f Hd 0 (LinkedList_fuel l)) as H.
  unfold LinkedList_iter, LinkedList_fuel in *. rewrite (dll_head _ _ _ Hd), (dll_len _ _ _ Hd) in *.
  rewrite Nat.sub_0_r, drop_0 in H. apply H. lia.
Qed.

Lemma Iter_collect_from h l xs : dll h l xs -> forall i fuel, (length xs - i < fuel)%nat ->
  Iter_collect fuel h (mkIter (xs.*1 !! i) (Z.of_nat (length xs - i))) = Done (drop i xs).
Proof.
  intros Hd i fuel. revert i. induction fuel as [| fuel IH]; intros i Hf; [lia |]. cbn.
  destruct (drop i xs) as [| [p d] ys] eqn:E.
  - apply (f_equal length) in E. rewrite length_drop in E. cbn in E.
    replace (Z.of_nat (length xs - i)) with 0 by lia. done.
  - assert (xs !! i = Some (p, d)) as Hi.
    { rewrite <- (Nat.add_0_r i), <- lookup_drop, E. done. }
    rewrite (Iter_next_ok _ _ _ _ _ _ Hd Hi), bind_Done. cbn.
    apply lookup_lt_Some in Hi as Hlt. rewrite IH by lia. cbn. f_equal.
    pose proof (drop_S _ _ _ Hi). congruence.
Qed.
End linked_list.

(** ** The contract of the list *)

(** A node pushed at either end joins the list at that end, keeping the
    order and the nodes of everything else, and no memory off the list and
    the node is written. *)
Theorem LinkedList_pushes_refine {T} (h : heap T) l xs p n :
  dll h l xs -> h !! p = Some n -> p ∉ xs.*1 -> Z.of_nat (length xs) < usize_MAX ->
  (exists h' l', LinkedList_push_node_back h l p = Done (h', l') /\
     dll h' l' (xs ++ [(p, data n)]) /\ same_off (p :: xs.*1) h h') /\
  (exists h' l', LinkedList_push_node_front h l p = Done (h', l') /\
     dll h' l' ((p, data n) :: xs) /\ same_off (p :: xs.*1) h h').
Proof. intros. split; [by apply push_node_back_spec | by apply push_node_front_spec]. Qed.

(** removal by position, and at either end, takes out exactly that node,
    returns it unlinked with its data, and keeps the rest in order; on a
    position that is not there nothing changes. *)
Theorem LinkedList_removals_refine {T} (h : heap T) l xs : dll h l xs ->
  (forall k, match xs !! k with
     | None => LinkedList_remove_at_node h l k = Done (None, h, l)
     | Some (p, d) => exists h' l', LinkedList_remove_at_node h l k = Done (Some p, h', l') /\
         dll h' l' (delete k xs) /\ h' !! p = Some (mkNode d None None) /\ same_off xs.*1 h h'
     end) /\
  match xs with
  | [] => LinkedList_pop_node_front h l = Done (None, h, l)
  | (p, d) :: ys => exists h' l', LinkedList_pop_node_front h l = Done (Some p, h', l') /\
      dll h' l' ys /\ h' !! p = Some (mkNode d None None) /\ same_off xs.*1 h h'
  end /\
  (forall ys p d, xs = ys ++ [(p, d)] ->
     exists h' l', LinkedList_pop_node_back h l = Done (Some p, h', l') /\
       dll h' l' ys /\ h' !! p = Some (mkNode d None None) /\ same_off (p :: ys.*1) h h').
Proof.
  intros Hd. split_and!.
  - intros k. destruct (xs !! k) as [[p d] |] eqn:E.
    + by apply remove_at_node_spec.
    + by eapply remove_at_node_none.
  - destruct xs as [| [p d] ys]; [by apply pop_node_front_nil | by apply pop_node_front_spec].
  - intros ys p d ->. by apply pop_node_back_spec.
Qed.

(** Iterating yields the nodes of the list in order and stops; clearing
    (and dropping) the list ends with every node removed. *)
Theorem LinkedList_iteration_complete {T} (h : heap T) l xs : dll h l xs ->
  Iter_collect (LinkedList_fuel l) h (LinkedList_iter l) = Done xs /\
  exists h' l', LinkedList_clear (LinkedList_fuel l) h l = Done (h', l') /\ dll h' l' [].
Proof.
  intros Hd. unfold LinkedList_iter, LinkedList_fuel. rewrite (dll_len _ _ _ Hd), Nat2Z.id. split.
  - pose proof (Iter_collect_from _ _ _ Hd 0 (S (length xs))) as H.
    rewrite Nat.sub_0_r, drop_0 in H. rewrite (dll_head _ _ _ Hd). apply H. lia.
  - apply LinkedList_clear_spec with (xs := xs); [done | lia].
Qed.

Definition sample_heap : heap Z :=
  <[8 := mkNode 1 (Some 16) None]> (<[16 := mkNode 2 None (Some 8)]> (<[24 := mkNode 3 None None]> ∅)).
Definition sample_list : LinkedList := mkLinkedList (Some 8) (Some 16) 2.

Lemma sample_dll : dll sample_heap sample_list [(8, 1); (16, 2)].
Proof.
  split; try done.
  - apply NoDup_cons. split; [set_solver | apply NoDup_singleton].
  - intros [| [| i]] p d; cbn; [intros [= <- <-]; done | intros [= <- <-]; done | done].
Qed.

Lemma LinkedList_pushes_refine_witness :
  exists h' l', LinkedList_push_node_back sample_heap sample_list 24 = Done (h', l') /\
    dll h' l' ([(8, 1); (16, 2)] ++ [(24, 3)]) /\ same_off (24 :: [8; 16]) sample_heap h'.
Proof.
  exact (proj1 (LinkedList_pushes_refine sample_heap sample_list [(8, 1); (16, 2)] 24
    (mkNode 3 None None) sample_dll eq_refl ltac:(set_solver) ltac:(by vm_compute))).
Defined.

Lemma LinkedList_removals_refine_witness :
  exists h' l', LinkedList_remove_at_node sample_heap sample_list 1 = Done (Some 16, h', l') /\
    dll h' l' [(8, 1)] /\ h' !! 16 = Some (mkNode 2 None None) /\ same_off [8; 16] sample_heap h'.
Proof.
  exact (proj1 (LinkedList_removals_refine sample_heap sample_list _ sample_dll) 1%nat).
Defined.

Lemma LinkedList_iteration_complete_witness :
  Iter_collect 3 sample_heap (LinkedList_iter sample_list) = Done [(8, 1); (16, 2)].
Proof.
  exact (proj1 (LinkedList_iteration_complete sample_heap sample_list _ sample_dll)).
Defined.
