(* ===== verification/StackList.v ===== *)
(** * The stack list of [utils/src/collections/stacklist.rs]

    A singly linked list of nodes in a heap, with the operations at the level
    of pointers.  [Box::new] takes the address of the node it allocates as an
    argument.  [stack h l xs] says that [l] holds the nodes [xs] (address and
    data, top first) in [h]; the specifications are about [xs]. *)

From S2P Require Import Prelude.

Abbreviation sptr := Z (only parsing).

Record SNode (T : Type) := mkSNode { sdata : T; snext : option sptr }.
Arguments mkSNode {T}.
Arguments sdata {T}.
Arguments snext {T}.

Abbreviation sheap T := (gmap Z (SNode T)) (only parsing).

Record StackList := mkStackList { shead : option sptr; slen : Z }.

(** The iterators [Iter], [IterMut], [NodeIter] and [NodeIterMut]. *)
Record SIter := mkSIter { scurrent : option sptr; sremaining : Z }.

(** Where the cursor of [retain] points: at [self.head] or at a node's [next]. *)
Inductive cursor := AtHead | AtNext (p : sptr).

Section stack_list.
Context {T : Type}.
Implicit Types (h : sheap T) (l : StackList) (xs : list (sptr * T)).

Definition SNode_new (d : T) : SNode T := mkSNode d None.
Definition sderef h (p : sptr) : res (SNode T) :=
  match h !! p with Some n => Done n | None => Panic BadPointer end.
Definition SNode_next h (n : SNode T) : res (option (SNode T)) :=
  match snext n with None => Done None | Some p => m ← sderef h p; Done (Some m) end.
Definition set_next h (p : sptr) (v : option sptr) : res (sheap T) :=
  n ← sderef h p; Done (<[p := mkSNode (sdata n) v]> h).

Definition StackList_new : StackList := mkStackList None 0.

Definition StackList_push_node h l (node : sptr) : res (sheap T * StackList) :=
  h ← set_next h node (shead l);
  len' ← usize_add (slen l) 1;
  Done (h, mkStackList (Some node) len').

Definition StackList_push h l (node : sptr) (d : T) : res (sheap T * StackList) :=
  StackList_push_node (<[node := SNode_new d]> h) l node.

Definition StackList_pop_node h l : res (option sptr * sheap T * StackList) :=
  match shead l with
  | None => Done (None, h, l)
  | Some node =>
      n ← sderef h node;
      h ← set_next h node None;
      len' ← usize_sub (slen l) 1;
      Done (Some node, h, mkStackList (snext n) len')
  end.

(** [pop] reads the data out of the node and leaves the node allocated. *)
Definition StackList_pop h l : res (option T * sheap T * StackList) :=
  '(o, h, l) ← StackList_pop_node h l;
  match o with
  | None => Done (None, h, l)
  | Some node => n ← sderef h node; Done (Some (sdata n), h, l)
  end.

Definition StackList_peek h l : res (option T) :=
  match shead l with None => Done None | Some p => n ← sderef h p; Done (Some (sdata n)) end.
Definition StackList_peek_mut l : option sptr := shead l.

(** [for _ in 0..k { current = current.next? }]. *)
Fixpoint StackList_walk h (current : sptr) (k : nat) : res (option sptr) :=
  match k with
  | O => Done (Some current)
  | S k =>
      n ← sderef h current;
      match snext n with
      | None => Done None
      | Some current => StackList_walk h current k
      end
  end.

Definition StackList_remove_at h l (index : nat) : res (option sptr * sheap T * StackList) :=
  if slen l <=? Z.of_nat index then Done (None, h, l) else
  match index with
  | O => StackList_pop_node h l
  | S i =>
      match shead l with
      | None => Done (None, h, l)
      | Some current =>
          o ← StackList_walk h current i;
          match o with
          | None => Done (None, h, l)
          | Some current =>
              c ← sderef h current;
              match snext c with
              | None => Done (None, h, l)
              | Some node_to_remove =>
                  n ← sderef h node_to_remove;
                  h ← set_next h current (snext n);
                  len' ← usize_sub (slen l) 1;
                  Done (Some node_to_remove, h, mkStackList (shead l) len')
              end
          end
      end
  end.

(** [get_mut] lends the node, [get] its data. *)
Definition StackList_get_mut h l (index : nat) : res (option sptr) :=
  if slen l <=? Z.of_nat index then Done None else
  match shead l with
  | None => Done None
  | Some current => StackList_walk h current index
  end.

Definition StackList_get h l (index : nat) : res (option T) :=
  o ← StackList_get_mut h l index;
  match o with
  | None => Done None
  | Some p => n ← sderef h p; Done (Some (sdata n))
  end.

Definition StackList_is_empty l : bool := match shead l with None => true | Some _ => false end.
Definition StackList_len l : Z := slen l.

(** [while self.pop().is_some() {}]: also [Drop]. *)
Fixpoint StackList_clear (fuel : nat) h l : res (sheap T * StackList) :=
  match fuel with
  | O => Panic Unreached
  | S fuel =>
      '(o, h, l) ← StackList_pop h l;
      match o with Some _ => StackList_clear fuel h l | None => Done (h, l) end
  end.

Definition StackList_iter l : SIter := mkSIter (shead l) (slen l).

Definition StackList_iter_mut l : SIter := mkSIter (shead l) (slen l).
Definition StackList_iter_node l : SIter := mkSIter (shead l) (slen l).
Definition StackList_iter_node_mut l : SIter := mkSIter (shead l) (slen l).

(** The body of the four [next]s, which differ in what they [lend]. *)
Definition siter_advance {A} (lend : sptr -> SNode T -> A) h (it : SIter) : res (option A * SIter) :=
  if sremaining it =? 0 then Done (None, it) else
  match scurrent it with
  | None => Done (None, it)
  | Some current =>
      n ← sderef h current;
      rem' ← usize_sub (sremaining it) 1;
      Done (Some (lend current n), mkSIter (snext n) rem')
  end.

(** [Iter] lends the data (kept with its address here), the others a place,
    so its address. *)
Definition SIter_next h (it : SIter) : res (option (sptr * T) * SIter) :=
  siter_advance (fun p n => (p, sdata n)) h it.
Definition SIterMut_next h (it : SIter) : res (option sptr * SIter) :=
  siter_advance (fun p _ => p) h it.
Definition SNodeIter_next h (it : SIter) : res (option sptr * SIter) :=
  siter_advance (fun p _ => p) h it.
Definition SNodeIterMut_next h (it : SIter) : res (option sptr * SIter) :=
  siter_advance (fun p _ => p) h it.
(** [IntoIter] owns the list and pops it. *)
Definition SIntoIter_next h l : res (option T * sheap T * StackList) := StackList_pop h l.

Definition SIter_size_hint (it : SIter) : Z * option Z := (sremaining it, Some (sremaining it)).

Fixpoint SIter_collect (fuel : nat) h (it : SIter) : res (list (sptr * T)) :=
  match fuel with
  | O => Panic Unreached
  | S fuel =>
      '(o, it) ← SIter_next h it;
      match o with
      | None => Done []
      | Some x => xs ← SIter_collect fuel h it; Done (x :: xs)
      end
  end.

(** [while let Some(item) = self.pop() { vec.push(item) }]; also the consuming
    iterator [IntoIter], whose [next] is [pop]. *)
Fixpoint StackList_drain (fuel : nat) h l : res (list T * sheap T * StackList) :=
  match fuel with
  | O => Panic Unreached
  | S fuel =>
      '(o, h, l) ← StackList_pop h l;
      match o with
      | None => Done ([], h, l)
      | Some item =>
          '(items, h, l) ← StackList_drain fuel h l;
          Done (item :: items, h, l)
      end
  end.

Definition StackList_into_vec (fuel : nat) h l : res (list T) :=
  '(items, _, _) ← StackList_drain fuel h l; Done (rev items).

(** [extend] and [from_iter]: push the items one after the other; the items
    come with the addresses of their nodes. *)
Fixpoint StackList_extend h l (items : list (sptr * T)) : res (sheap T * StackList) :=
  match items with
  | [] => Done (h, l)
  | (p, d) :: items => '(h, l) ← StackList_push h l p d; StackList_extend h l items
  end.

Definition StackList_from_iter h (items : list (sptr * T)) : res (sheap T * StackList) :=
  StackList_extend h StackList_new items.

(** [clone]: the data in reverse, pushed on a new list; [ps] are the addresses
    of the new nodes. *)
Definition StackList_clone (fuel : nat) h l (ps : list sptr) : res (sheap T * StackList) :=
  items ← SIter_collect fuel h (StackList_iter l);
  StackList_extend h StackList_new (zip ps (rev items.*2)).

Definition StackList_eq `{EqDecision T} (fuel : nat) h l l' : res bool :=
  if slen l =? slen l' then
    xs ← SIter_collect fuel h (StackList_iter l);
    ys ← SIter_collect fuel h (StackList_iter l');
    Done (bool_decide (xs.*2 = ys.*2))
  else Done false.

(** [*current] and [*current = v] through the cursor. *)
Definition cursor_get h l (c : cursor) : res (option sptr) :=
  match c with AtHead => Done (shead l) | AtNext p => n ← sderef h p; Done (snext n) end.
Definition cursor_set h l (c : cursor) (v : option sptr) : res (sheap T * StackList) :=
  match c with
  | AtHead => Done (h, mkStackList v (slen l))
  | AtNext p => h ← set_next h p v; Done (h, l)
  end.

(** [retain], with the state of the [FnMut] closure threaded; a node that is
    not kept is given back to the heap ([Box::from_raw], dropped). *)
Fixpoint StackList_retain {F} (f : F -> T -> bool * F) (fuel : nat) (st : F) h l (current : cursor)
    : res (F * sheap T * StackList) :=
  match fuel with
  | O => Panic Unreached
  | S fuel =>
      o ← cursor_get h l current;
      match o with
      | None => Done (st, h, l)
      | Some node_ptr =>
          node ← sderef h node_ptr;
          let '(keep, st) := f st (sdata node) in
          if keep : bool then StackList_retain f fuel st h l (AtNext node_ptr)
          else
            '(h, l) ← cursor_set (delete node_ptr h) l current (snext node);
            len' ← usize_sub (slen l) 1;
            StackList_retain f fuel st h (mkStackList (shead l) len') current
      end
  end.
End stack_list.

(** ** Representation *)
Section repr.
Context {T : Type}.
Implicit Types (h : sheap T) (l : StackList) (xs ys : list (sptr * T)) (o : option sptr).

(** A segment of nodes from [o], whose last node points to [e]. *)
Fixpoint lseg h o xs (e : option sptr) : Prop :=
  match xs with
  | [] => o = e
  | (p, d) :: xs => o = Some p /\ exists nx, h !! p = Some (mkSNode d nx) /\ lseg h nx xs e
  end.

Record stack h l xs : Prop := {
  st_seg : lseg h (shead l) xs None;
  st_nodup : NoDup xs.*1;
  st_len : slen l = Z.of_nat (length xs);
}.

Definition stack_fuel l : nat := S (Z.to_nat (slen l)).

Lemma lseg_app h xs ys : forall o e, lseg h o (xs ++ ys) e <-> exists m, lseg h o xs m /\ lseg h m ys e.
Proof.
  induction xs as [| [p d] xs IH]; intros o e; cbn.
  - naive_solver.
  - setoid_rewrite IH. naive_solver.
Qed.

Lemma lseg_frame h h' xs : forall o e, lseg h o xs e -> (forall p, p ∈ xs.*1 -> h' !! p = h !! p) ->
  lseg h' o xs e.
Proof.
  induction xs as [| [p d] xs IH]; intros o e; cbn; [done |].
  intros [-> (nx & Hp & Hs)] Hf. split; [done |]. exists nx. split.
  - rewrite Hf; [done | by left].
  - apply IH; [done |]. intros q Hq. apply Hf. by right.
Qed.

Lemma lseg_live h xs : forall o e p, lseg h o xs e -> p ∈ xs.*1 -> is_Some (h !! p).
Proof.
  induction xs as [| [q d] xs IH]; intros o e p; cbn; [by intros _ ?%not_elem_of_nil |].
  intros [_ (nx & Hq & Hs)] [-> | Hp]%elem_of_cons; [eauto | by eapply IH].
Qed.

(** Redirecting the last node of a segment. *)
Lemma lseg_redirect h o xs p d e e' : NoDup (xs ++ [(p, d)]).*1 -> lseg h o (xs ++ [(p, d)]) e ->
  lseg (<[p := mkSNode d e']> h) o (xs ++ [(p, d)]) e'.
Proof.
  rewrite fmap_app, NoDup_app. intros (_ & Hnd & _) (m & H1 & [-> (nx & Hp & ->)])%lseg_app.
  apply lseg_app. exists (Some p). split.
  - eapply lseg_frame; [exact H1 |]. intros q Hq. apply lookup_insert_ne. intros <-.
    apply (Hnd p Hq). by left.
  - cbn. split; [done |]. exists e'. by rewrite lookup_insert_eq.
Qed.

Lemma set_next_ok h p d nx v : h !! p = Some (mkSNode d nx) ->
  set_next h p v = Done (<[p := mkSNode d v]> h).
Proof. intros H. unfold set_next, sderef. by rewrite H. Qed.

Lemma sderef_ok h p n : h !! p = Some n -> sderef h p = Done n.
Proof. intros H. unfold sderef. by rewrite H. Qed.

(** ** The operations on the list of nodes *)
Lemma stack_nil h : stack h StackList_new [].
Proof. split; [done | constructor | done]. Qed.

Lemma push_node_ok h l xs p n : stack h l xs -> h !! p = Some n -> p ∉ xs.*1 ->
  Z.of_nat (length xs) < usize_MAX ->
  exists h' l', StackList_push_node h l p = Done (h', l') /\ stack h' l' ((p, sdata n) :: xs) /\
    (forall q, q <> p -> h' !! q = h !! q).
Proof.
  intros [Hs Hnd Hl] Hp Hni Hlen. unfold StackList_push_node. destruct n as [d nx].
  rewrite (set_next_ok _ _ _ _ _ Hp), bind_Done, usize_add_ok, bind_Done by lia.
  do 2 eexists. split; [done |]. split; [split; cbn |].
  - split; [done |]. exists (shead l). split; [apply lookup_insert_eq |].
    eapply lseg_frame; [exact Hs |]. intros q Hq. apply lookup_insert_ne. by intros <-.
  - by apply NoDup_cons.
  - lia.
  - intros q Hq. by apply lookup_insert_ne.
Qed.

Lemma spush_ok h l xs p d : stack h l xs -> h !! p = None -> Z.of_nat (length xs) < usize_MAX ->
  exists h' l', StackList_push h l p d = Done (h', l') /\ stack h' l' ((p, d) :: xs).
Proof.
  intros Hst Hp Hlen. unfold StackList_push.
  assert (p ∉ xs.*1) as Hni.
  { intros Hin. destruct (lseg_live _ _ _ _ _ (st_seg _ _ _ Hst) Hin) as [? E]. by rewrite Hp in E. }
  destruct (push_node_ok (<[p := SNode_new d]> h) l xs p (SNode_new d)) as (h' & l' & -> & Hs & _);
    [| apply lookup_insert_eq | done | done | eauto].
  destruct Hst as [Hs Hnd Hl]. split; [| done | done].
  eapply lseg_frame; [exact Hs |]. intros q Hq. apply lookup_insert_ne. by intros <-.
Qed.

Lemma pop_node_nil h l : stack h l [] -> StackList_pop_node h l = Done (None, h, l).
Proof. intros [Hs _ _]. unfold StackList_pop_node. cbn in Hs. by rewrite Hs. Qed.

Lemma pop_node_ok h l p d xs : stack h l ((p, d) :: xs) ->
  exists l', StackList_pop_node h l = Done (Some p, <[p := mkSNode d None]> h, l') /\
    stack (<[p := mkSNode d None]> h) l' xs.
Proof.
  intros [[Eh (nx & Hp & Hs)] [Hni Hnd]%NoDup_cons Hl]. unfold StackList_pop_node. cbn [length] in Hl.
  rewrite Eh, (sderef_ok _ _ _ Hp), bind_Done, (set_next_ok _ _ _ _ _ Hp), bind_Done.
  rewrite usize_sub_ok, bind_Done by lia. cbn [snext]. eexists. split; [done |]. split; cbn.
  - eapply lseg_frame; [exact Hs |]. intros q Hq. apply lookup_insert_ne. by intros <-.
  - done.
  - lia.
Qed.

Lemma pop_nil h l : stack h l [] -> StackList_pop h l = Done (None, h, l).
Proof. intros H. unfold StackList_pop. by rewrite (pop_node_nil _ _ H). Qed.

Lemma spop_ok h l p d xs : stack h l ((p, d) :: xs) ->
  exists l', StackList_pop h l = Done (Some d, <[p := mkSNode d None]> h, l') /\
    stack (<[p := mkSNode d None]> h) l' xs.
Proof.
  intros H. unfold StackList_pop. destruct (pop_node_ok _ _ _ _ _ H) as (l' & -> & Hs).
  rewrite bind_Done, (sderef_ok _ _ _ (lookup_insert_eq _ _ _)), bind_Done. eauto.
Qed.

Lemma walk_ok h e xs : forall o p k, lseg h o xs e -> o = Some p -> (k < length xs)%nat ->
  exists q, StackList_walk h p k = Done (Some q) /\ xs.*1 !! k = Some q.
Proof.
  induction xs as [| [q d] xs IH]; intros o p k; cbn; [lia |].
  intros [-> (nx & Hq & Hs)] [= ->] Hk. destruct k as [| k]; cbn; [eauto |].
  rewrite (sderef_ok _ _ _ Hq), bind_Done. cbn [snext].
  destruct xs as [| [r c] xs]; [cbn in Hk; lia |].
  pose proof Hs as [-> _]. by apply (IH (Some r)); [| | cbn in *; lia].
Qed.

Lemma lseg_lookup h o xs e k p d : lseg h o xs e -> xs !! k = Some (p, d) ->
  exists nx, h !! p = Some (mkSNode d nx) /\ lseg h o (take k xs) (Some p) /\
    lseg h nx (drop (S k) xs) e.
Proof.
  intros Hs Hk. rewrite <- (take_drop_middle xs k (p, d) Hk) in Hs.
  apply lseg_app in Hs as (m & H1 & [-> (nx & Hp & H2)]). eauto.
Qed.

Lemma get_mut_ok h l xs k : stack h l xs -> StackList_get_mut h l k = Done (xs.*1 !! k).
Proof.
  intros [Hs Hnd Hl]. unfold StackList_get_mut. rewrite Hl.
  destruct (Z.leb_spec (Z.of_nat (length xs)) (Z.of_nat k)).
  - rewrite lookup_ge_None_2; [done | rewrite length_fmap; lia].
  - destruct xs as [| [p d] xs]; [cbn in *; lia |]. pose proof Hs as [E _]. rewrite E.
    destruct (walk_ok h None ((p, d) :: xs) (shead l) p k Hs E ltac:(lia)) as (q & -> & ->). done.
Qed.

Lemma get_ok h l xs k : stack h l xs -> StackList_get h l k = Done (xs.*2 !! k).
Proof.
  intros Hst. unfold StackList_get. rewrite (get_mut_ok _ _ _ _ Hst), bind_Done, !list_lookup_fmap.
  destruct (xs !! k) as [[p d] |] eqn:E; [| done].
  destruct (lseg_lookup _ _ _ _ _ _ _ (st_seg _ _ _ Hst) E) as (nx & Hp & _).
  cbn [fmap option_fmap option_map fst snd]. by rewrite (sderef_ok _ _ _ Hp), bind_Done.
Qed.

(** [remove_at]: the node before the removed one is redirected; the removed
    node keeps its stale [next], unless it was the top. *)
Lemma remove_at_none h l xs k : stack h l xs -> xs !! k = None ->
  StackList_remove_at h l k = Done (None, h, l).
Proof.
  intros [_ _ Hl] Hk. apply lookup_ge_None in Hk. unfold StackList_remove_at.
  by rewrite (proj2 (Z.leb_le _ _)) by lia.
Qed.

Lemma remove_at_ok h l xs k p d : stack h l xs -> xs !! k = Some (p, d) ->
  exists h' l', StackList_remove_at h l k = Done (Some p, h', l') /\ stack h' l' (delete k xs) /\
    sdata <$> h' !! p = Some d.
Proof.
  intros Hst Hk. pose proof Hst as [Hs Hnd Hl]. pose proof (lookup_lt_Some _ _ _ Hk) as Hlt.
  unfold StackList_remove_at. rewrite (proj2 (Z.leb_gt _ _)) by lia. destruct k as [| k].
  { destruct xs as [| [q c] xs]; [done |]. injection Hk as -> ->.
    destruct (pop_node_ok _ _ _ _ _ Hst) as (l' & -> & Hs'). do 2 eexists.
    split_and!; [done | done |]. by rewrite lookup_insert_eq. }
  destruct xs as [| [q c] xs'] eqn:Exs; [done |]. rewrite <- Exs in *.
  assert (shead l = Some q) as Eh by (rewrite Exs in Hs; apply Hs). rewrite Eh.
  destruct (walk_ok h None xs (shead l) q k Hs Eh ltac:(lia)) as (r & -> & Hr). rewrite bind_Done.
  rewrite list_lookup_fmap in Hr. destruct (xs !! k) as [[r' dr] |] eqn:Ek; [| done]. injection Hr as ->.
  destruct (lseg_lookup _ _ _ _ _ _ _ Hs Ek) as (nr & Hr & H1 & H2).
  assert (drop (S k) xs = (p, d) :: drop (S (S k)) xs) as Ed by (by apply drop_S).
  rewrite Ed in H2. destruct H2 as [-> (nx & Hp & H3)].
  rewrite (sderef_ok _ _ _ Hr), bind_Done. cbn [snext].
  rewrite (sderef_ok _ _ _ Hp), bind_Done, (set_next_ok _ _ _ _ _ Hr), bind_Done. cbn [snext].
  rewrite usize_sub_ok, bind_Done by lia. do 2 eexists. split; [done |].
  assert (xs = (take k xs ++ [(r, dr)]) ++ (p, d) :: drop (S (S k)) xs) as Esplit.
  { rewrite <- Ed, <- app_assoc. cbn. by rewrite take_drop_middle. }
  assert (delete (S k) xs = (take k xs ++ [(r, dr)]) ++ drop (S (S k)) xs) as Edel.
  { rewrite delete_take_drop. f_equal. by rewrite (take_S_r _ _ _ Ek). }
  pose proof Hnd as Hnd'. rewrite Esplit, fmap_app in Hnd'. cbn in Hnd'.
  apply NoDup_app in Hnd' as (Hn1 & Hn2 & [Hn3 Hn4]%NoDup_cons).
  assert (r ∈ (take k xs ++ [(r, dr)]).*1) as Hrin.
  { rewrite fmap_app, elem_of_app. right. by left. }
  assert (r <> p) as Hrp by (intros ->; apply (Hn2 p Hrin); by left).
  split; [split; cbn |].
  - rewrite Edel. apply lseg_app. exists nx. split.
    + apply lseg_redirect with (e := Some p); [done |]. apply lseg_app. exists (Some r).
      split; [by rewrite <- Eh |]. cbn. split; [done |]. eauto.
    + eapply lseg_frame; [exact H3 |]. intros s Hs'. apply lookup_insert_ne. intros <-.
      apply (Hn2 r Hrin). by right.
  - rewrite Edel, fmap_app. apply NoDup_app. split_and!; [done | | done].
    intros s Hs1 Hs2. apply (Hn2 s Hs1). by right.
  - rewrite length_delete by eauto. lia.
  - rewrite lookup_insert_ne by done. by rewrite Hp.
Qed.

(** Iteration. *)
Lemma collect_ok h xs : forall o fuel, lseg h o xs None -> (length xs < fuel)%nat ->
  SIter_collect fuel h (mkSIter o (Z.of_nat (length xs))) = Done xs.
Proof.
  induction xs as [| [p d] xs IH]; intros o fuel Hs Hf; (destruct fuel as [| fuel]; [lia |]); cbn; [done |].
  destruct Hs as [-> (nx & Hp & Hs)]. unfold SIter_next, siter_advance. cbn [sremaining scurrent length] in *.
  destruct (Z.eqb_spec (Z.of_nat (S (length xs))) 0); [lia |].
  rewrite (sderef_ok _ _ _ Hp), bind_Done, usize_sub_ok, !bind_Done by lia. cbn [sdata snext].
  replace (Z.of_nat (S (length xs)) - 1) with (Z.of_nat (length xs)) by lia.
  by rewrite (IH nx fuel Hs) by lia.
Qed.

Lemma drain_ok xs : forall h l fuel, stack h l xs -> (length xs < fuel)%nat ->
  exists h' l', StackList_drain fuel h l = Done (xs.*2, h', l') /\ stack h' l' [].
Proof.
  induction xs as [| [p d] xs IH]; intros h l fuel Hst Hf; (destruct fuel as [| fuel]; [lia |]);
    cbn [StackList_drain].
  - rewrite (pop_nil _ _ Hst), bind_Done. eauto.
  - destruct (spop_ok _ _ _ _ _ Hst) as (l1 & -> & Hs1). rewrite bind_Done.
    destruct (IH _ _ fuel Hs1 ltac:(cbn in Hf; lia)) as (h2 & l2 & -> & Hs2). rewrite bind_Done. eauto.
Qed.

Lemma clear_ok xs : forall h l fuel, stack h l xs -> (length xs < fuel)%nat ->
  exists h' l', StackList_clear fuel h l = Done (h', l') /\ stack h' l' [].
Proof.
  induction xs as [| [p d] xs IH]; intros h l fuel Hst Hf; (destruct fuel as [| fuel]; [lia |]);
    cbn [StackList_clear].
  - rewrite (pop_nil _ _ Hst), bind_Done. eauto.
  - destruct (spop_ok _ _ _ _ _ Hst) as (l1 & -> & Hs1). rewrite bind_Done.
    apply (IH _ _ fuel Hs1). cbn in Hf. lia.
Qed.

(** Pushing items one after the other puts them on top in reverse. *)
Lemma extend_ok items : forall h l xs, stack h l xs -> NoDup items.*1 ->
  (forall p, p ∈ items.*1 -> h !! p = None) ->
  Z.of_nat (length items + length xs) <= usize_MAX ->
  exists h' l', StackList_extend h l items = Done (h', l') /\ stack h' l' (rev items ++ xs) /\
    (forall q, q ∉ items.*1 -> h' !! q = h !! q).
Proof.
  induction items as [| [p d] items IH]; intros h l xs Hst Hnd Hfresh Hlen; cbn [StackList_extend];
    [eauto |].
  apply NoDup_cons in Hnd as [Hni Hnd]. cbn [length] in Hlen.
  assert (p ∉ xs.*1) as Hnx.
  { intros Hin. destruct (lseg_live _ _ _ _ _ (st_seg _ _ _ Hst) Hin) as [? E].
    by rewrite Hfresh in E by (by left). }
  destruct (push_node_ok (<[p := SNode_new d]> h) l xs p (SNode_new d)) as (h1 & l1 & E & Hs1 & Hoff).
  { destruct Hst as [Hs Hn Hl]. split; [| done | done].
    eapply lseg_frame; [exact Hs |]. intros q Hq. apply lookup_insert_ne. by intros <-. }
  { apply lookup_insert_eq. } { done. } { lia. }
  unfold StackList_push. rewrite E, bind_Done.
  destruct (IH h1 l1 ((p, d) :: xs) Hs1 Hnd) as (h2 & l2 & -> & Hs2 & Hoff2).
  - intros q Hq. rewrite Hoff by (by intros ->). rewrite lookup_insert_ne by (by intros ->).
    apply Hfresh. by right.
  - cbn [length]. lia.
  - exists h2, l2. split_and!; [done | cbn; by rewrite <- app_assoc |].
    intros q [Hqp Hq]%not_elem_of_cons. rewrite Hoff2, Hoff, lookup_insert_ne; done.
Qed.

(** [retain]. *)
Definition cursor_at (c : cursor) ys : Prop :=
  match c with AtHead => ys = [] | AtNext p => exists ys' d, ys = ys' ++ [(p, d)] end.

Lemma cursor_get_ok h l c ys xs : stack h l (ys ++ xs) -> cursor_at c ys ->
  exists o, cursor_get h l c = Done o /\ lseg h (shead l) ys o /\ lseg h o xs None.
Proof.
  intros [Hs _ _] Hc. apply lseg_app in Hs as (o & H1 & H2). exists o. split_and!; try done.
  destruct c as [| p]; cbn in *; [by subst ys; cbn in H1; subst |].
  destruct Hc as (ys' & d & ->). apply lseg_app in H1 as (m & _ & [-> (nx & Hp & ->)]).
  by rewrite (sderef_ok _ _ _ Hp), bind_Done.
Qed.

(** Unlinking the node under the cursor. *)
Lemma cursor_unlink h l c ys p d nx xs : stack h l (ys ++ (p, d) :: xs) -> cursor_at c ys ->
  h !! p = Some (mkSNode d nx) -> lseg h nx xs None ->
  exists h' l', cursor_set (delete p h) l c nx = Done (h', l') /\ slen l' = slen l /\
    lseg h' (shead l') (ys ++ xs) None.
Proof.
  intros [Hs Hnd Hl] Hc Hp Hx. rewrite fmap_app in Hnd. cbn in Hnd.
  apply NoDup_app in Hnd as (Hn1 & Hn2 & [Hn3 Hn4]%NoDup_cons).
  apply lseg_app in Hs as (m & H1 & [-> _]).
  assert (lseg (delete p h) nx xs None) as Hx'.
  { eapply lseg_frame; [exact Hx |]. intros q Hq. apply lookup_delete_ne. by intros <-. }
  assert (lseg (delete p h) (shead l) ys (Some p)) as H1'.
  { eapply lseg_frame; [exact H1 |]. intros q Hq. apply lookup_delete_ne. intros <-.
    apply (Hn2 p Hq). by left. }
  destruct c as [| r]; cbn in *; [subst ys; eauto |]. destruct Hc as (ys' & dr & ->).
  pose proof H1' as (m & _ & [-> (nr & Hr & ->)])%lseg_app.
  rewrite (set_next_ok _ _ _ _ _ Hr), bind_Done. do 2 eexists. split_and!; [done | done |].
  apply lseg_app. exists nx. split; [by eapply lseg_redirect |].
  eapply lseg_frame; [exact Hx' |]. intros q Hq. apply lookup_insert_ne. intros <-.
  apply (Hn2 r); [rewrite fmap_app, elem_of_app; right; by left | by right].
Qed.

Section retain.
Context {F : Type} (f : F -> T -> bool * F).

(** What [retain] keeps: the elements the closure accepts, asked in order. *)
Fixpoint retained (st : F) xs : list (sptr * T) * F :=
  match xs with
  | [] => ([], st)
  | (p, d) :: xs =>
      let '(keep, st1) := f st d in
      let '(ys, st2) := retained st1 xs in
      (if keep then (p, d) :: ys else ys, st2)
  end.

Lemma retain_from xs : forall ys h l c st fuel, stack h l (ys ++ xs) -> cursor_at c ys ->
  (length xs < fuel)%nat ->
  exists h' l', StackList_retain f fuel st h l c = Done ((retained st xs).2, h', l') /\
    stack h' l' (ys ++ (retained st xs).1).
Proof.
  induction xs as [| [p d] xs IH]; intros ys h l c st fuel Hst Hc Hf;
    (destruct fuel as [| fuel]; [lia |]); cbn [StackList_retain retained];
    destruct (cursor_get_ok h l c _ _ Hst Hc) as (o & -> & H1 & H2); rewrite bind_Done.
  - cbn in H2. subst o. eauto.
  - destruct H2 as [-> (nx & Hp & H2)]. rewrite (sderef_ok _ _ _ Hp), bind_Done. cbn [sdata snext].
    destruct (f st d) as [keep st1]. destruct keep.
    + destruct (IH (ys ++ [(p, d)]) h l (AtNext p) st1 fuel) as (h' & l' & -> & Hs').
      { by rewrite <- app_assoc. } { by exists ys, d. } { cbn in Hf; lia. }
      destruct (retained st1 xs) as [zs st2]. exists h', l'. split; [done |].
      by rewrite <- app_assoc in Hs'.
    + destruct (cursor_unlink h l c ys p d nx xs Hst Hc Hp H2) as (h1 & l1 & -> & El & Hs1).
      rewrite bind_Done. destruct Hst as [Hs Hnd Hl]. rewrite length_app in Hl. cbn [length] in Hl.
      rewrite usize_sub_ok, bind_Done by lia.
      destruct (IH ys h1 (mkStackList (shead l1) (slen l1 - 1)) c st1 fuel) as (h' & l' & -> & Hs').
      { split; cbn; [done | | rewrite length_app; lia]. rewrite fmap_app in *. cbn in Hnd.
        apply NoDup_app in Hnd as (Hn1 & Hn2 & [Hn3 Hn4]%NoDup_cons). apply NoDup_app.
        split_and!; [done | | done]. intros q Hq1 Hq2. apply (Hn2 q Hq1). by right. }
      { done. } { cbn in Hf; lia. }
      destruct (retained st1 xs) as [zs st2]. eauto.
Qed.
End retain.
End repr.

(** ** The contract of the stack *)

(** the stack holds exactly what was pushed, last in first out, and
    removal, access and emptiness by position agree with the list of its
    nodes; positions off the end report [None] and change nothing. *)
Theorem StackList_refines_list {T} (h : sheap T) l xs : stack h l xs ->
  (forall p d, h !! p = None -> Z.of_nat (length xs) < usize_MAX ->
     exists h' l', StackList_push h l p d = Done (h', l') /\ stack h' l' ((p, d) :: xs)) /\
  match xs with
  | [] => StackList_pop h l = Done (None, h, l)
  | (p, d) :: ys => exists h' l', StackList_pop h l = Done (Some d, h', l') /\ stack h' l' ys
  end /\
  (forall k, StackList_get h l k = Done (xs.*2 !! k)) /\
  (forall k, match xs !! k with
     | None => StackList_remove_at h l k = Done (None, h, l)
     | Some (p, d) => exists h' l', StackList_remove_at h l k = Done (Some p, h', l') /\
         stack h' l' (delete k xs) /\ sdata <$> h' !! p = Some d
     end) /\
  StackList_is_empty l = bool_decide (xs = []).
Proof.
  intros Hst. split_and!.
  - intros. by apply spush_ok.
  - destruct xs as [| [p d] ys]; [by apply pop_nil |].
    destruct (spop_ok _ _ _ _ _ Hst) as (l' & -> & Hs). eauto.
  - intros k. by apply get_ok.
  - intros k. destruct (xs !! k) as [[p d] |] eqn:E; [by apply remove_at_ok | by eapply remove_at_none].
  - destruct Hst as [Hs _ _]. unfold StackList_is_empty.
    destruct xs as [| [p d] ys]; [cbn in Hs; by rewrite Hs | destruct Hs as [-> _]; done].
Qed.

(** [retain] asks the closure once per element, in order, and leaves
    exactly the elements it accepted, in their order. *)
Theorem StackList_retain_filters {T F} (f : F -> T -> bool * F) (st : F) (h : sheap T) l xs :
  stack h l xs ->
  exists h' l', StackList_retain f (stack_fuel l) st h l AtHead = Done ((retained f st xs).2, h', l') /\
    stack h' l' (retained f st xs).1.
Proof.
  intros Hst. apply (retain_from f xs [] h l AtHead st (stack_fuel l)); [done | done |].
  unfold stack_fuel. rewrite (st_len _ _ _ Hst). lia.
Qed.

(** Round trips: collecting a stack built from a sequence yields the
    sequence reversed, [into_vec] gives the sequence back in its order, and
    [clone] builds a stack equal to the original. *)
Theorem StackList_round_trips {T} (h : sheap T) items ps :
  NoDup (items.*1 ++ ps) -> (forall p, p ∈ items.*1 ++ ps -> h !! p = None) ->
  length ps = length items -> Z.of_nat (length items) <= usize_MAX ->
  exists h1 l1, StackList_from_iter h items = Done (h1, l1) /\
    SIter_collect (stack_fuel l1) h1 (StackList_iter l1) = Done (rev items) /\
    StackList_into_vec (stack_fuel l1) h1 l1 = Done items.*2 /\
    exists h2 l2, StackList_clone (stack_fuel l1) h1 l1 ps = Done (h2, l2) /\
      stack h2 l2 (rev (zip ps items.*2)).
Proof.
  intros Hnd Hfresh Hlen Hmax. apply NoDup_app in Hnd as (Hn1 & Hn2 & Hn3).
  destruct (extend_ok items h StackList_new [] (stack_nil h) Hn1) as (h1 & l1 & E1 & Hs1 & Hoff).
  { intros p Hp. apply Hfresh, elem_of_app. by left. }
  { rewrite Nat.add_0_r. lia. }
  rewrite app_nil_r in Hs1. exists h1, l1. split; [done |].
  assert (length (rev items) < stack_fuel l1)%nat as Hfuel.
  { unfold stack_fuel. rewrite (st_len _ _ _ Hs1). lia. }
  assert (SIter_collect (stack_fuel l1) h1 (StackList_iter l1) = Done (rev items)) as Ec.
  { unfold StackList_iter. rewrite (st_len _ _ _ Hs1). apply collect_ok; [apply Hs1 | done]. }
  split; [done |]. assert ((rev items).*2 = rev items.*2) as Er by apply map_rev. split.
  - unfold StackList_into_vec. destruct (drain_ok _ _ _ _ Hs1 Hfuel) as (h2 & l2 & -> & _).
    rewrite bind_Done, Er. by rewrite rev_involutive.
  - unfold StackList_clone. rewrite Ec, bind_Done, Er, rev_involutive.
    assert ((zip ps items.*2).*1 = ps) as Ez by (apply fst_zip; rewrite length_fmap; lia).
    destruct (extend_ok (zip ps items.*2) h1 StackList_new [] (stack_nil h1)) as (h2 & l2 & -> & Hs2 & _).
    + by rewrite Ez.
    + rewrite Ez. intros p Hp. rewrite Hoff; [apply Hfresh, elem_of_app; by right |].
      intros Hin. by apply (Hn2 p).
    + rewrite length_zip, Nat.add_0_r. lia.
    + rewrite app_nil_r in Hs2. eauto.
Qed.

Definition sample_stack_heap : sheap Z :=
  <[8 := mkSNode 1 (Some 16)]> (<[16 := mkSNode 2 None]> ∅).
Definition sample_stack : StackList := mkStackList (Some 8) 2.

Lemma sample_stack_ok : stack sample_stack_heap sample_stack [(8, 1); (16, 2)].
Proof.
  split; [| apply NoDup_cons; split; [set_solver | apply NoDup_singleton] | done].
  cbn. split; [done |]. exists (Some 16). split; [done |]. split; [done |]. exists None. done.
Qed.

Lemma StackList_refines_list_witness :
  exists h' l', StackList_pop sample_stack_heap sample_stack = Done (Some 1, h', l') /\
    stack h' l' [(16, 2)].
Proof.
  exact (proj1 (proj2 (StackList_refines_list sample_stack_heap sample_stack _ sample_stack_ok))).
Defined.

Lemma StackList_retain_filters_witness :
  exists h' l', StackList_retain (fun n d => (n =? 0, n + d)) 3 1 sample_stack_heap sample_stack AtHead
      = Done (4, h', l') /\ stack h' l' [].
Proof.
  exact (StackList_retain_filters (fun n d => (n =? 0, n + d)) 1 sample_stack_heap sample_stack
    _ sample_stack_ok).
Defined.

Lemma StackList_round_trips_witness :
  exists h1 l1, StackList_from_iter (∅ : sheap Z) [(8, 1); (16, 2)] = Done (h1, l1) /\
    SIter_collect (stack_fuel l1) h1 (StackList_iter l1) = Done [(16, 2); (8, 1)] /\
    StackList_into_vec (stack_fuel l1) h1 l1 = Done [1; 2] /\
    exists h2 l2, StackList_clone (stack_fuel l1) h1 l1 [24; 32] = Done (h2, l2) /\
      stack h2 l2 [(32, 2); (24, 1)].
Proof.
  apply (StackList_round_trips (∅ : sheap Z) [(8, 1); (16, 2)] [24; 32]);
    [| intros; apply lookup_empty | done | by vm_compute].
  apply (bool_decide_eq_true_1 _). reflexivity.
Defined.
