(* ===== verification/SpinLock.v ===== *)
(** * The spinlock of [utils/src/sync/spinlock.rs]

    Any number of threads contend for one lock.  The atomic steps are the ones
    the source makes: the [swap] of the spin loop, each access to the data
    through the guard, the call of [custom_unlock] in the guard's [drop], and
    the final [store].  A thread that holds the guard remembers (as ghost
    state) the data it found and the accesses it made, so that the atomicity
    of critical sections can be stated.  It may also call [lock] once more,
    which the types of the source allow: it then spins while it holds the
    guard.

    The results are mutual exclusion in every interleaving, that the lock is
    taken again and again in every run that leaves critical sections, and that
    a thread that locks twice stops every thread that wants the lock. *)

From S2P Require Import Prelude.

Section spinlock.
Context {T : Type}.

(** [SpinLockable::custom_unlock] of the type the lock protects. *)
Variable custom_unlock : T -> T.

Inductive thread :=
  | Outside
  | Spinning                                  (* in the loop of [lock] *)
  | Guarded (found : T) (accesses : list (T -> T))
  | Unlocking (found : T) (accesses : list (T -> T)) (* in [drop], after [custom_unlock] *)
  | Relocking (found : T) (accesses : list (T -> T)) (* in the loop of a second [lock], with the guard *)
  | Twice (found found' : T).                  (* two guards of one lock: no run gets here *)

Record SpinLock := mkSpinLock { lock_flag : bool; lock_data : T; threads : gmap nat thread }.

Definition SpinLock_new (d : T) (ts : gmap nat thread) : SpinLock := mkSpinLock false d ts.

Definition thread_of (s : SpinLock) (i : nat) : thread := default Outside (threads s !! i).

Definition with_thread (s : SpinLock) (i : nat) (t : thread) : SpinLock :=
  mkSpinLock (lock_flag s) (lock_data s) (<[i := t]> (threads s)).

(** [self.lock.swap(true, Acquire)]: the old value and the new state. *)
Definition swap_true (s : SpinLock) : bool * SpinLock :=
  (lock_flag s, mkSpinLock true (lock_data s) (threads s)).

(** [self.lock.store(false, Release)]. *)
Definition SpinLock_unlock (s : SpinLock) : SpinLock :=
  mkSpinLock false (lock_data s) (threads s).

(** One iteration of [spin_until!(!self.lock.swap(true, ..))]. *)
Definition SpinLock_lock_step (s : SpinLock) (i : nat) : SpinLock :=
  let '(old, s) := swap_true s in
  if old then s else with_thread s i (Guarded (lock_data s) []).

(** The iteration of a thread that has the guard of its first [lock]. *)
Definition SpinLock_relock_step (s : SpinLock) (i : nat) (found : T) : SpinLock :=
  let '(old, s) := swap_true s in
  if old then s else with_thread s i (Twice found (lock_data s)).

Inductive action := Call | Spin | Access (f : T -> T) | CustomUnlock | Store.

Definition spin_step (s : SpinLock) (i : nat) (a : action) : option SpinLock :=
  match thread_of s i, a with
  | Outside, Call => Some (with_thread s i Spinning)
  | Spinning, Spin => Some (SpinLock_lock_step s i)
  | Guarded d fs, Access f =>
      Some (mkSpinLock (lock_flag s) (f (lock_data s)) (<[i := Guarded d (fs ++ [f])]> (threads s)))
  | Guarded d fs, CustomUnlock =>
      Some (mkSpinLock (lock_flag s) (custom_unlock (lock_data s)) (<[i := Unlocking d fs]> (threads s)))
  | Unlocking d fs, Store => Some (with_thread (SpinLock_unlock s) i Outside)
  | Guarded d fs, Call => Some (with_thread s i (Relocking d fs))
  | Relocking d fs, Spin => Some (SpinLock_relock_step s i d)
  | _, _ => None
  end.

Inductive steps : SpinLock -> SpinLock -> Prop :=
  | steps_refl s : steps s s
  | steps_step s s' s'' i a : steps s s' -> spin_step s' i a = Some s'' -> steps s s''.

Definition owns (s : SpinLock) (i : nat) : Prop :=
  match thread_of s i with Outside | Spinning => False | _ => True end.

#[export] Instance owns_dec s i : Decision (owns s i).
Proof. unfold owns. destruct (thread_of s i); apply _. Defined.

(** The data a section left: its accesses applied in order to what it found. *)
Definition section_data (found : T) (accesses : list (T -> T)) : T :=
  foldl (fun d f => f d) found accesses.

Record lock_inv (s : SpinLock) : Prop := {
  li_unique i j : owns s i -> owns s j -> i = j;
  li_flag : lock_flag s = true <-> exists i, owns s i;
  li_guarded i d fs : thread_of s i = Guarded d fs -> lock_data s = section_data d fs;
  li_unlocking i d fs : thread_of s i = Unlocking d fs ->
    lock_data s = custom_unlock (section_data d fs);
  li_relocking i d fs : thread_of s i = Relocking d fs -> lock_data s = section_data d fs;
  li_once i d d' : thread_of s i <> Twice d d';
}.

Lemma thread_of_with_eq f d ts i t : thread_of (mkSpinLock f d (<[i := t]> ts)) i = t.
Proof. unfold thread_of. cbn. by rewrite lookup_insert_eq. Qed.

Lemma thread_of_with_ne f d ts i j t : i <> j ->
  thread_of (mkSpinLock f d (<[i := t]> ts)) j = thread_of (mkSpinLock f d ts) j.
Proof. intros H. unfold thread_of. cbn. by rewrite lookup_insert_ne. Qed.

Lemma owns_with_ne f d ts i j t : i <> j ->
  owns (mkSpinLock f d (<[i := t]> ts)) j <-> owns (mkSpinLock f d ts) j.
Proof. intros H. unfold owns. by rewrite thread_of_with_ne. Qed.

(** The data is what the thread's section makes of what it found. *)
Definition data_ok (d : T) (t : thread) : Prop :=
  match t with
  | Guarded d0 fs | Relocking d0 fs => d = section_data d0 fs
  | Unlocking d0 fs => d = custom_unlock (section_data d0 fs)
  | _ => False
  end.

Lemma inv_own s i t d : (forall j, owns s j -> j = i) -> data_ok d t ->
  lock_inv (mkSpinLock true d (<[i := t]> (threads s))).
Proof.
  intros Hno Hd.
  assert (forall j, owns (mkSpinLock true d (<[i := t]> (threads s))) j -> j = i) as Hu.
  { intros j Hj. destruct (decide (i = j)) as [| Hne]; [done |]. apply Hno.
    by apply (owns_with_ne _ _ _ i) in Hj. }
  assert (forall j t', thread_of (mkSpinLock true d (<[i := t]> (threads s))) j = t' ->
    match t' with Outside | Spinning => False | _ => True end -> t' = t) as Ht.
  { intros j t' E Ho. assert (j = i) as -> by (apply Hu; unfold owns; by rewrite E).
    by rewrite thread_of_with_eq in E. }
  split.
  - intros j k Hj Hk. rewrite (Hu j Hj). by rewrite (Hu k Hk).
  - split; [intros _ | done]. exists i. unfold owns. rewrite thread_of_with_eq. by destruct t.
  - intros j d0 fs E. specialize (Ht j _ E I). by subst t.
  - intros j d0 fs E. specialize (Ht j _ E I). by subst t.
  - intros j d0 fs E. specialize (Ht j _ E I). by subst t.
  - intros j d0 d' E. specialize (Ht j _ E I). by subst t.
Qed.

Lemma inv_none s i t f d : (forall j, owns s j -> j = i) -> f = false ->
  match t with Outside | Spinning => True | _ => False end ->
  lock_inv (mkSpinLock f d (<[i := t]> (threads s))).
Proof.
  intros Hno -> Ht.
  assert (forall j, ~ owns (mkSpinLock false d (<[i := t]> (threads s))) j) as Hu.
  { intros j Hj. destruct (decide (i = j)) as [-> | Hne].
    - unfold owns in Hj. rewrite thread_of_with_eq in Hj. by destruct t.
    - apply (owns_with_ne _ _ _ i) in Hj; [| done]. by rewrite (Hno j Hj) in Hne. }
  split.
  - intros j k Hj. by destruct (Hu j).
  - split; [done | intros [j Hj]; by destruct (Hu j)].
  - intros j d0 fs E. destruct (Hu j). unfold owns. by rewrite E.
  - intros j d0 fs E. destruct (Hu j). unfold owns. by rewrite E.
  - intros j d0 fs E. destruct (Hu j). unfold owns. by rewrite E.
  - intros j d0 d' E. destruct (Hu j). unfold owns. by rewrite E.
Qed.

Lemma inv_call s i t : lock_inv s -> ~ owns s i ->
  match t with Outside | Spinning => True | _ => False end -> lock_inv (with_thread s i t).
Proof.
  intros Hinv Hno Ht. destruct s as [f d ts].
  assert (forall j, owns (mkSpinLock f d (<[i := t]> ts)) j <-> owns (mkSpinLock f d ts) j) as Ho.
  { intros j. destruct (decide (i = j)) as [<- | Hne]; [| by apply owns_with_ne].
    split; [| done]. unfold owns. rewrite thread_of_with_eq. by destruct t. }
  assert (forall j t', thread_of (mkSpinLock f d (<[i := t]> ts)) j = t' ->
    match t' with Outside | Spinning => False | _ => True end ->
    thread_of (mkSpinLock f d ts) j = t') as Hth.
  { intros j t' E Hg. destruct (decide (i = j)) as [<- | Hne].
    - rewrite thread_of_with_eq in E. subst t'. by destruct t.
    - by rewrite thread_of_with_ne in E. }
  destruct Hinv as [Hu Hf Hg Hul Hrl Hon]. split.
  - intros j k Hj Hk. apply Hu; by apply Ho.
  - rewrite Hf. split; intros [j Hj]; exists j; by apply Ho.
  - intros j d0 fs E. apply (Hg j), (Hth j _ E). done.
  - intros j d0 fs E. apply (Hul j), (Hth j _ E). done.
  - intros j d0 fs E. apply (Hrl j), (Hth j _ E). done.
  - intros j d0 d' E. apply (Hon j d0 d'), (Hth j _ E). done.
Qed.

Lemma owner_step s i t d : lock_inv s -> owns s i -> data_ok d t ->
  lock_inv (mkSpinLock (lock_flag s) d (<[i := t]> (threads s))).
Proof.
  intros Hinv Ho Hd. rewrite (proj2 (li_flag _ Hinv) (ex_intro _ i Ho)).
  apply inv_own; [intros j Hj; by apply (li_unique _ Hinv) | done].
Qed.

Lemma swap_taken s : lock_flag s = true -> mkSpinLock true (lock_data s) (threads s) = s.
Proof. intros E. destruct s; cbn in *; congruence. Qed.

Lemma spin_step_inv s i a s' : lock_inv s -> spin_step s i a = Some s' -> lock_inv s'.
Proof.
  intros Hinv. pose proof Hinv as [Hu Hf Hg Hul Hrl Hon]. unfold spin_step.
  destruct (thread_of s i) as [| | d fs | d fs | d fs | d d'] eqn:Et; destruct a as [| | f | |]; intros [= <-].
  - apply inv_call; [done | unfold owns; rewrite Et; tauto | done].
  - unfold SpinLock_lock_step, swap_true. destruct (lock_flag s) eqn:Ef; [by rewrite swap_taken |].
    apply inv_own; [| done]. cbn. intros j Hj. discriminate (proj2 Hf (ex_intro _ j Hj)).
  - apply owner_step; [done | unfold owns; by rewrite Et | by apply (Hg i)].
  - apply owner_step; [done | unfold owns; by rewrite Et |].
    cbn. rewrite (Hg i d fs Et). unfold section_data. by rewrite foldl_app.
  - apply owner_step; [done | unfold owns; by rewrite Et |]. cbn. by rewrite (Hg i d fs Et).
  - apply inv_none; [| done | done]. intros j Hj. apply Hu; [done |]. unfold owns. by rewrite Et.
  - unfold SpinLock_relock_step, swap_true. rewrite (proj2 Hf); [| exists i; unfold owns; by rewrite Et].
    rewrite swap_taken; [done |]. apply Hf. exists i. unfold owns. by rewrite Et.
Qed.

Lemma new_inv d : lock_inv (SpinLock_new d ∅).
Proof.
  assert (forall i, thread_of (SpinLock_new d ∅) i = Outside) as H.
  { intros i. unfold thread_of. cbn. by rewrite lookup_empty. }
  assert (forall i, ~ owns (SpinLock_new d ∅) i) as Ho.
  { intros i. unfold owns. rewrite H. tauto. }
  split.
  - intros i j Hi. by destruct (Ho i).
  - split; [done | intros [i Hi]; by destruct (Ho i)].
  - intros i d0 fs E. by rewrite H in E.
  - intros i d0 fs E. by rewrite H in E.
  - intros i d0 fs E. by rewrite H in E.
  - intros i d0 d' E. by rewrite H in E.
Qed.

Lemma steps_inv s s' : steps s s' -> lock_inv s -> lock_inv s'.
Proof.
  induction 1 as [| s s' s'' i a _ IH Hst]; [done |]. intros Hi.
  by apply (spin_step_inv s' i a); [apply IH |].
Qed.
End spinlock.

(** C29: in every state reachable from a fresh lock, at most one thread holds
    the guard, the flag is set exactly while one does, and the data is what
    the holder's own accesses made of what it found: nothing another thread
    does in between is visible, so critical sections are atomic.  No thread
    ever gets a second guard. *)
Theorem spinlock_mutual_exclusion {T} (custom_unlock : T -> T) d s :
  steps custom_unlock (SpinLock_new d ∅) s ->
  (forall i j, owns s i -> owns s j -> i = j) /\
  (lock_flag s = true <-> exists i, owns s i) /\
  (forall i d0 fs, thread_of s i = Guarded d0 fs -> lock_data s = section_data d0 fs) /\
  (forall i d0 fs, thread_of s i = Unlocking d0 fs ->
     lock_data s = custom_unlock (section_data d0 fs)) /\
  (forall i d0 fs, thread_of s i = Relocking d0 fs -> lock_data s = section_data d0 fs) /\
  (forall i d0 d', thread_of s i <> Twice d0 d').
Proof.
  intros Hs. destruct (steps_inv custom_unlock _ _ Hs (new_inv custom_unlock d))
    as [? ? ? ? ? ?]. done.
Qed.

(** ** Progress *)
Section progress.
Context {T : Type} (custom_unlock : T -> T).
Implicit Types s : SpinLock (T := T).

(** A thread that spins at [s] has the guard at [s']. *)
Definition takes_lock s s' : Prop := exists j, thread_of s j = Spinning /\ owns s' j.

Lemma thread_of_insert_ne f d i t s j : i <> j ->
  thread_of (mkSpinLock f d (<[i := t]> (threads s))) j = thread_of s j.
Proof. intros Hne. unfold thread_of. cbn. by rewrite lookup_insert_ne. Qed.

(** A step changes the state of the thread that makes it only. *)
Lemma spin_step_others s i a s' j : spin_step custom_unlock s i a = Some s' -> i <> j -> thread_of s' j = thread_of s j.
Proof.
  intros E Hne. unfold spin_step, SpinLock_lock_step, SpinLock_relock_step, swap_true in E.
  destruct (thread_of s i), a; try done; try destruct (lock_flag s); injection E as <-; try done;
    unfold with_thread; cbn; unfold thread_of; cbn; by rewrite lookup_insert_ne.
Qed.

(** Who has the guard after a step had it before, or has just taken the lock. *)
Lemma spin_step_owns s i a s' : spin_step custom_unlock s i a = Some s' ->
  takes_lock s s' \/ forall j, owns s' j -> owns s j.
Proof.
  intros E. destruct (decide (owns s i)) as [Hi | Hi]; [| destruct (decide (owns s' i)) as [Ho | Ho]].
  2: { left. exists i. split; [| done]. unfold spin_step, owns in *. destruct (thread_of s i) eqn:Et; try tauto.
       destruct a; try done. injection E as <-. unfold with_thread in Ho. by rewrite thread_of_with_eq in Ho. }
  all: right; intros j Hj; destruct (decide (i = j)) as [<- | Hne]; [done |].
  all: unfold owns in *; by rewrite (spin_step_others _ _ _ _ _ E Hne) in Hj.
Qed.

Lemma spin_step_spinning s i a s' j : spin_step custom_unlock s i a = Some s' -> thread_of s j = Spinning ->
  takes_lock s s' \/ thread_of s' j = Spinning.
Proof.
  intros E Hj. destruct (decide (i = j)) as [-> | Hne]; [| right; by rewrite (spin_step_others _ _ _ _ _ E Hne)].
  unfold spin_step in E. rewrite Hj in E. destruct a; try done. injection E as <-.
  unfold SpinLock_lock_step, swap_true. destruct (lock_flag s); [by right |]. left. exists j. split; [done |].
  unfold owns, with_thread. by rewrite thread_of_with_eq.
Qed.

(** An infinite run: in state [run k] thread [fst (sched k)] makes the step. *)
Variables (run : nat -> SpinLock (T := T)) (sched : nat -> nat * action (T := T)).
Hypothesis run_steps : forall k, spin_step custom_unlock (run k) (sched k).1 (sched k).2 = Some (run (S k)).

Lemma run_inv k : lock_inv custom_unlock (run 0) -> lock_inv custom_unlock (run k).
Proof. intros H0. induction k as [| k IH]; [done |]. by apply (spin_step_inv _ _ _ _ _ IH (run_steps k)). Qed.

(** As long as nobody takes the lock, nobody new has it and who spins spins. *)
Lemma run_waits n i k : thread_of (run n) i = Spinning ->
  (exists m, (n <= m < n + k)%nat /\ takes_lock (run m) (run (S m))) \/
  thread_of (run (n + k)) i = Spinning /\ forall j, owns (run (n + k)) j -> owns (run n) j.
Proof.
  intros Hi. induction k as [| k IH]; [right; by rewrite Nat.add_0_r |].
  destruct IH as [(m & Hm & Ht) | [Hs Ho]]; [left; exists m; split; [lia | done] |].
  pose proof (run_steps (n + k)) as E. rewrite Nat.add_succ_r.
  destruct (spin_step_owns _ _ _ _ E) as [Ht | Ho']; [left; exists (n + k)%nat; split; [lia | done] |].
  destruct (spin_step_spinning _ _ _ _ _ E Hs) as [Ht | Hs']; [left; exists (n + k)%nat; split; [lia | done] |].
  right. split; [done |]. intros j Hj. by apply Ho, Ho'.
Qed.

Lemma flag_free s : lock_inv custom_unlock s -> (forall j, ~ owns s j) -> lock_flag s = false.
Proof. intros Hinv Hn. destruct (lock_flag s) eqn:E; [| done]. apply (li_flag _ _ Hinv) in E as [j Hj]. by destruct (Hn j). Qed.

(** A free lock is taken when the thread that spins has its turn. *)
Lemma run_free n i : lock_inv custom_unlock (run 0) -> thread_of (run n) i = Spinning -> (forall j, ~ owns (run n) j) ->
  (forall k, exists m, (k <= m)%nat /\ (sched m).1 = i) ->
  exists m, (n <= m)%nat /\ takes_lock (run m) (run (S m)).
Proof.
  intros H0 Hi Hn Hf. destruct (Hf n) as (m & Hm & Ei).
  destruct (run_waits n i (m - n) Hi) as [(m' & ? & ?) | [Hs Ho]]; [exists m'; split; [lia | done] |].
  replace (n + (m - n))%nat with m in * by lia. exists m. split; [done |]. exists i. split; [done |].
  pose proof (run_steps m) as E. rewrite Ei in E. unfold spin_step in E. rewrite Hs in E.
  destruct (sched m).2; try done. injection E as <-. unfold SpinLock_lock_step, swap_true.
  rewrite (flag_free _ (run_inv m H0)) by (intros j Hj; by apply (Hn j), Ho).
  unfold owns, with_thread. by rewrite thread_of_with_eq.
Qed.
End progress.

(** C40: no run starves the lock: in every infinite run in which threads leave
    the critical sections they enter, and the thread that spins has its turn
    again and again, some thread that spins takes the lock, from every point
    on.  (Which one is up to the interleaving: the lock is not fair.) *)
Theorem spinlock_progress {T} (custom_unlock : T -> T) d run sched n i :
  steps custom_unlock (SpinLock_new d ∅) (run 0%nat) ->
  (forall k, spin_step custom_unlock (run k) (sched k).1 (sched k).2 = Some (run (S k))) ->
  (forall k j, owns (run k) j -> exists m, (k <= m)%nat /\ ~ owns (run m) j) ->
  thread_of (run n) i = Spinning -> (forall k, exists m, (k <= m)%nat /\ (sched m).1 = i) ->
  exists m, (n <= m)%nat /\ takes_lock (run m) (run (S m)).
Proof.
  intros H0 Hrun Hleave Hi Hf. pose proof (steps_inv custom_unlock _ _ H0 (new_inv custom_unlock d)) as Hinv.
  destruct (lock_flag (run n)) eqn:Ef.
  - pose proof (run_inv _ _ _ Hrun n Hinv) as Hn. apply (li_flag _ _ Hn) in Ef as [j Hj].
    destruct (Hleave n j Hj) as (m & Hm & Hno).
    destruct (run_waits _ _ _ Hrun n i (m - n) Hi) as [(m' & ? & ?) | [Hs Ho]]; [exists m'; split; [lia | done] |].
    replace (n + (m - n))%nat with m in * by lia.
    destruct (run_free _ _ _ Hrun m i Hinv Hs) as (m' & ? & Ht); [| done | exists m'; split; [lia | done]].
    intros j' Hj'. by rewrite (li_unique _ _ Hn j' j (Ho _ Hj') Hj) in Hj'.
  - apply (run_free _ _ _ Hrun n i Hinv Hi); [| done]. intros j Hj.
    by rewrite (proj2 (li_flag _ _ (run_inv _ _ _ Hrun n Hinv)) (ex_intro _ j Hj)) in Ef.
Qed.

(** C22: a thread that calls [lock] while it has the guard never returns: from
    then on, in every interleaving, it spins, the flag stays set, the data is
    never touched again, and no other thread ever has the lock. *)
Theorem spinlock_relock_deadlocks {T} (custom_unlock : T -> T) d s s' i d0 fs :
  steps custom_unlock (SpinLock_new d ∅) s -> thread_of s i = Relocking d0 fs -> steps custom_unlock s s' ->
  thread_of s' i = Relocking d0 fs /\ lock_flag s' = true /\ lock_data s' = lock_data s /\
  (forall j, owns s' j -> j = i).
Proof.
  intros Hs Hi Hs'. assert (lock_inv custom_unlock s') as Hinv'.
  { apply (steps_inv _ _ _ Hs'), (steps_inv _ _ _ Hs), new_inv. }
  assert (thread_of s' i = Relocking d0 fs /\ lock_data s' = section_data d0 fs) as [Ht Hd].
  { revert Hi. pose proof (steps_inv custom_unlock _ _ Hs (new_inv _ _)) as Hinv. clear Hs Hinv'.
    induction Hs' as [s | s s1 s2 j a Hs1 IH E]; intros Hi; [split; [done | by apply (li_relocking _ _ Hinv i)] |].
    destruct (IH Hinv Hi) as [Ht Hd]. pose proof (steps_inv _ _ _ Hs1 Hinv) as H1.
    assert (thread_of s2 i = Relocking d0 fs) as Ht'; [| split; [done |]].
    - destruct (decide (j = i)) as [-> | Hne]; [| by rewrite (spin_step_others _ _ _ _ _ _ E Hne)].
      unfold spin_step in E. rewrite Ht in E. destruct a; try done. injection E as <-.
      unfold SpinLock_relock_step, swap_true. rewrite (proj2 (li_flag _ _ H1)); [done |].
      exists i. unfold owns. by rewrite Ht.
    - by apply (li_relocking _ _ (spin_step_inv _ _ _ _ _ H1 E) i). }
  assert (owns s' i) as Ho by (unfold owns; by rewrite Ht). split_and!.
  - done.
  - apply (li_flag _ _ Hinv'). by exists i.
  - rewrite Hd. symmetry. by apply (li_relocking _ _ (steps_inv custom_unlock _ _ Hs (new_inv _ _)) i).
  - intros j Hj. by apply (li_unique _ _ Hinv').
Qed.

(** Two threads and a counter: thread 0 enters, increments and leaves, thread 1
    spins meanwhile. *)
Definition sample_run (s : SpinLock (T := Z)) (acts : list (nat * action)) : option (SpinLock (T := Z)) :=
  foldl (fun o '(i, a) => s ← o; spin_step (fun d => d) s i a) (Some s) acts.

Lemma sample_run_steps acts : forall s s0 s', steps (fun d => d) s0 s ->
  sample_run s acts = Some s' -> steps (fun d => d) s0 s'.
Proof.
  unfold sample_run. induction acts as [| [i a] acts IH]; intros s s0 s' Hs; cbn; [by intros [= <-] |].
  destruct (spin_step (fun d => d) s i a) as [s1 |] eqn:E.
  - apply IH. by eapply steps_step.
  - intros H. exfalso. clear -H. induction acts as [| [j b] acts IH]; cbn in H; [done | auto].
Qed.

Definition sample_acts : list (nat * action (T := Z)) :=
  [(0%nat, Call); (1%nat, Call); (0%nat, Spin); (1%nat, Spin); (0%nat, Access (Z.add 1))].
Definition sample_lock : SpinLock :=
  default (SpinLock_new 0 ∅) (sample_run (SpinLock_new 0 ∅) sample_acts).

Lemma sample_lock_steps : steps (fun d => d) (SpinLock_new 0 ∅) sample_lock.
Proof. apply (sample_run_steps sample_acts (SpinLock_new 0 ∅)); [apply steps_refl | reflexivity]. Qed.

Lemma spinlock_mutual_exclusion_witness :
  (forall i j, owns sample_lock i -> owns sample_lock j -> i = j) /\ thread_of sample_lock 0 = Guarded 0 [Z.add 1] /\
  lock_data sample_lock = 1.
Proof.
  destruct (spinlock_mutual_exclusion (fun d => d) 0 sample_lock sample_lock_steps) as (Hu & _ & Hg & _).
  split; [exact Hu |]. split; [reflexivity |]. exact (Hg 0%nat 0 [Z.add 1] eq_refl).
Defined.

(** Two threads that take turns for ever: 0 takes the lock while 1 spins. *)
Definition turns : list (nat * action (T := Z)) :=
  [(0%nat, Call); (1%nat, Call); (0%nat, Spin); (1%nat, Spin); (0%nat, CustomUnlock); (0%nat, Store);
   (1%nat, Spin); (1%nat, CustomUnlock); (1%nat, Store)].
Definition idle_lock : SpinLock := default (SpinLock_new 0 ∅) (sample_run (SpinLock_new 0 ∅) turns).
Definition turn_run (n : nat) : SpinLock := default idle_lock (sample_run idle_lock (take (n mod 9)%nat turns)).
Definition turn_sched (n : nat) : nat * action (T := Z) := nth (n mod 9)%nat turns (0%nat, Call).

Lemma turn_cases (n : nat) (P : nat -> nat -> Prop) :
  P 0%nat 1%nat -> P 1%nat 2%nat -> P 2%nat 3%nat -> P 3%nat 4%nat -> P 4%nat 5%nat -> P 5%nat 6%nat -> P 6%nat 7%nat ->
  P 7%nat 8%nat -> P 8%nat 0%nat -> P (n mod 9)%nat (S n mod 9)%nat.
Proof.
  intros. pose proof (Nat.mod_upper_bound n 9 ltac:(lia)) as Hb.
  assert (S n mod 9 = if decide (n mod 9 = 8) then 0 else S (n mod 9))%nat as ->.
  { pose proof (Nat.div_mod n 9 ltac:(lia)) as E. case_decide as E8.
    - replace (S n) with ((n / 9 + 1) * 9)%nat by lia. by apply Nat.Div0.mod_mul.
    - symmetry. apply (Nat.mod_unique _ _ (n / 9)); lia. }
  assert (n mod 9 = 0 \/ n mod 9 = 1 \/ n mod 9 = 2 \/ n mod 9 = 3 \/ n mod 9 = 4 \/ n mod 9 = 5 \/ n mod 9 = 6 \/
    n mod 9 = 7 \/ n mod 9 = 8)%nat as Hc by lia.
  by repeat destruct Hc as [-> | Hc]; [.. | rewrite Hc].
Qed.

Lemma turn_steps k : spin_step (fun d => d) (turn_run k) (turn_sched k).1 (turn_sched k).2 = Some (turn_run (S k)).
Proof.
  unfold turn_run, turn_sched. apply (turn_cases k (fun a b => spin_step _ (default idle_lock (sample_run idle_lock (take a turns)))
    (nth a turns (0%nat, Call)).1 (nth a turns (0%nat, Call)).2 = Some (default idle_lock (sample_run idle_lock (take b turns)))));
    reflexivity.
Qed.

Lemma turn_back k r : (r < 9)%nat -> exists m, (k <= m)%nat /\ (m mod 9 = r)%nat.
Proof.
  intros Hr. exists (k * 9 + r)%nat. split; [lia |]. rewrite Nat.add_comm, Nat.Div0.mod_add. by apply Nat.mod_small.
Qed.

Lemma spinlock_progress_witness : exists m, (4 <= m)%nat /\ takes_lock (turn_run m) (turn_run (S m)).
Proof.
  apply (spinlock_progress (fun d => d) 0 turn_run turn_sched 4 1).
  - apply (sample_run_steps turns (SpinLock_new 0 ∅)); [apply steps_refl | reflexivity].
  - exact turn_steps.
  - intros k j Hj. destruct (turn_back k 0 ltac:(lia)) as (m & Hm & E). exists m. split; [done |].
    unfold turn_run. rewrite E. change (default idle_lock _) with idle_lock. unfold owns, thread_of.
    change (threads idle_lock) with (<[0%nat := Outside (T := Z)]> (<[1%nat := Outside]> (∅ : gmap nat thread))).
    destruct (decide (0%nat = j)) as [<- | H0]; [by rewrite lookup_insert_eq; tauto |]. rewrite lookup_insert_ne by done.
    destruct (decide (1%nat = j)) as [<- | H1]; [rewrite lookup_insert_eq | rewrite lookup_insert_ne, lookup_empty by done]; tauto.
  - reflexivity.
  - intros k. destruct (turn_back k 1 ltac:(lia)) as (m & Hm & E). exists m. split; [done |].
    unfold turn_sched. by rewrite E.
Defined.

(** Thread 0 locks again: thread 1 spins for ever. *)
Definition relocked : SpinLock :=
  default (SpinLock_new 0 ∅) (sample_run (SpinLock_new 0 ∅) (sample_acts ++ [(0%nat, Call)])).
Definition relocked_later : SpinLock :=
  default (SpinLock_new 0 ∅) (sample_run relocked [(0%nat, Spin); (1%nat, Spin); (2%nat, Call); (2%nat, Spin)]).

Lemma spinlock_relock_deadlocks_witness :
  thread_of relocked_later 0 = Relocking 0 [Z.add 1] /\ lock_data relocked_later = 1 /\ ~ owns relocked_later 1.
Proof.
  destruct (spinlock_relock_deadlocks (fun d => d) 0 relocked relocked_later 0 0 [Z.add 1]) as (Ht & _ & Hd & Ho).
  - apply (sample_run_steps (sample_acts ++ [(0%nat, Call)]) (SpinLock_new 0 ∅)); [apply steps_refl | reflexivity].
  - reflexivity.
  - apply (sample_run_steps [(0%nat, Spin); (1%nat, Spin); (2%nat, Call); (2%nat, Spin)] relocked); [apply steps_refl | reflexivity].
  - split; [exact Ht |]. split; [exact Hd |]. intros H1. discriminate (Ho 1%nat H1).
Defined.
