(* ===== verification/Pmm.v ===== *)
(** * The physical memory manager's interface ([pmm/src/lib.rs])

    The page size, the errors, the trait [PmmAllocator] as a type class over
    the allocator's state, and the page count of the boot loader's memory
    map.  The laws a client of the allocator relies on are the class
    [PmmLaws]; the buddy allocator is the instance. *)

From S2P Require Import Prelude.

(** Physical and virtual addresses ([utils/src/mem/mod.rs]) are their
    [usize]; [HHDM_OFFSET] is read through [hhdm]. *)
Abbreviation PhysAddr := Z (only parsing).
Abbreviation VirtAddr := Z (only parsing).

Definition PhysAddr_add_hhdm_offset (hhdm : Z) (a : PhysAddr) : res VirtAddr := usize_add a hhdm.
Definition VirtAddr_subtract_hhdm_offset (hhdm : Z) (a : VirtAddr) : res PhysAddr := usize_sub a hhdm.

Definition BASIC_PAGE_SIZE : Z := 0x1000.

Inductive PmmError :=
  | OutOfBounds
  | NoAvailableBlock
  | FreeOfAlreadyFree
  | InvalidAlignment
  | InvalidAddress
  | EmptyAllocation
  | EmptyFree
  | TooBigAllocation.

#[export] Instance PmmError_eq_dec : EqDecision PmmError.
Proof. solve_decision. Defined.

Class PmmAllocator (P : Type) := {
  pmm_allocate : P -> Z -> Z -> res (result PhysAddr PmmError * P);
  pmm_allocate_at : P -> PhysAddr -> Z -> res (result unit PmmError * P);
  pmm_free : P -> PhysAddr -> Z -> res (result unit PmmError * P);
  pmm_is_page_free : P -> PhysAddr -> Z -> res (result bool PmmError);
}.

(** The memory map entries of the boot loader, with the fields and the entry
    types the sources name. *)
Inductive EntryType :=
  | USABLE
  | RESERVED_ENTRY
  | ACPI_RECLAIMABLE
  | ACPI_NVS
  | BAD_MEMORY
  | BOOTLOADER_RECLAIMABLE
  | EXECUTABLE_AND_MODULES
  | FRAMEBUFFER.

#[export] Instance EntryType_eq_dec : EqDecision EntryType.
Proof. solve_decision. Defined.

Record MemEntry := mkMemEntry { base : Z; length_ : Z; entry_type : EntryType }.

Definition entry_counts_as_memory (e : MemEntry) : bool :=
  match entry_type e with
  | USABLE | BOOTLOADER_RECLAIMABLE | ACPI_RECLAIMABLE | EXECUTABLE_AND_MODULES => true
  | _ => false
  end.

(** [mem_map.iter().rev().find(..).unwrap()], then the end of that entry. *)
Definition get_page_count_from_mem_map (mem_map : list MemEntry) : res Z :=
  last_descr ← unwrap (List.find entry_counts_as_memory (rev mem_map));
  e ← usize_add (base last_descr) (length_ last_descr);
  Done (e / BASIC_PAGE_SIZE).

(** The pages of [page_count] rounded up to a power of two. *)
Definition rounded (page_count : Z) : Z := 2 ^ Z.log2_up page_count.

(** What a client that works with single pages relies on.  [pmm_free_page p a]
    says that the page at [a] is free in state [p], [pmm_taken p a] that it is
    in use and may be freed; [pmm_ready] is the allocator's own invariant with
    room for its bookkeeping. *)
Class PmmLaws (P : Type) `{PmmAllocator P} := {
  pmm_ready : P -> Prop;
  pmm_free_page : P -> PhysAddr -> Prop;
  pmm_taken : P -> PhysAddr -> Prop;
  pmm_page_bounds p a : pmm_ready p -> pmm_free_page p a ->
    (BASIC_PAGE_SIZE | a) /\ 0 <= a < 2 ^ 63;
  pmm_allocate_page p : pmm_ready p ->
    (exists r p', pmm_allocate p 1 1 = Done (Ok r, p') /\ pmm_ready p' /\ pmm_free_page p r /\
       (forall a, pmm_free_page p' a <-> pmm_free_page p a /\ a <> r) /\
       pmm_taken p' r /\ (forall a, pmm_taken p a -> pmm_taken p' a)) \/
    (pmm_allocate p 1 1 = Done (Err NoAvailableBlock, p) /\ forall a, ~ pmm_free_page p a);
  pmm_free_taken p a : pmm_ready p -> pmm_taken p a ->
    exists p', pmm_free p a 1 = Done (Ok (), p') /\ pmm_ready p' /\
      (forall b, pmm_free_page p' b <-> pmm_free_page p b \/ b = a) /\
      (forall b, pmm_taken p b -> b <> a -> pmm_taken p' b);
  pmm_taken_used p a : pmm_ready p -> pmm_taken p a -> ~ pmm_free_page p a /\ (BASIC_PAGE_SIZE | a) /\ 0 <= a < 2 ^ 63;
}.

(** The end of the last usable entry, in pages. *)
Lemma page_count_covers mem_map n :
  get_page_count_from_mem_map mem_map = Done n ->
  exists e, In e mem_map /\ entry_counts_as_memory e = true /\
    n = (base e + length_ e) / BASIC_PAGE_SIZE.
Proof.
  unfold get_page_count_from_mem_map. intros H. res_inv. usize_inv.
  apply find_some in Hm as [Hin Hc]. exists v. split_and!; [by apply in_rev | done | done].
Qed.
