(* ===== verification/Buddy.v ===== *)
(** * The buddy allocator of [pmm/src/buddy.rs]: definitions and the zone interface

    The allocator is written over [ZoneOps], the four accesses it makes to its
    zones: scanning a zone, taking a node out of a zone into the freelist,
    moving a node of the freelist into a zone.  Two instances implement it:

    - [BuddyAllocator], the state of the source: the zones and the freelist as
      intrusive linked lists ([LinkedList.v]) over one heap of nodes;
    - [ZoneModel], plain lists of block addresses and a count of free nodes.

    [BuddySim.v] relates the two; [BuddyBlocks.v] and [BuddyCorrect.v] reason
    on the second. *)

From S2P Require Import Prelude LinkedList Pmm.

Class ZoneOps (S : Type) := {
  (** [self.zones.len()] *)
  zones_len : S -> nat;
  (** [self.zones[i].iter_nodes().enumerate().find(..)]: position and data *)
  zone_find : S -> nat -> (Z -> res bool) -> res (option (nat * Z));
  (** [self.pop_from_zone(zone_index, node_index)] *)
  pop_from_zone : S -> nat -> nat -> res S;
  (** [self.push_to_zone(buddy_addr, zone_index)] *)
  push_to_zone : S -> Z -> nat -> res S;
}.

(** ** The source's state *)
Record BuddyAllocator := mkBuddyAllocator {
  mem : heap PhysAddr;
  zones : list LinkedList;
  freelist : LinkedList;
}.

Definition BuddyAllocator_uninit : BuddyAllocator := mkBuddyAllocator ∅ [] LinkedList_new.

Definition BuddyAllocator_zone_find (b : BuddyAllocator) (i : nat) (f : Z -> res bool)
    : res (option (nat * Z)) :=
  z ← index (zones b) i;
  Iter_find (LinkedList_fuel z) (mem b) f (LinkedList_iter z) 0.

Definition BuddyAllocator_pop_from_zone (b : BuddyAllocator) (zone_index node_index : nat)
    : res BuddyAllocator :=
  z ← index (zones b) zone_index;
  '(o, h, z) ← LinkedList_remove_at_node (mem b) z node_index;
  node ← unwrap o;
  '(h, fl) ← LinkedList_push_node_back h (freelist b) node;
  Done (mkBuddyAllocator h (<[zone_index := z]> (zones b)) fl).

Definition BuddyAllocator_push_to_zone (b : BuddyAllocator) (buddy_addr : Z) (zone_index : nat)
    : res BuddyAllocator :=
  '(o, h, fl) ← LinkedList_pop_node_back (mem b) (freelist b);
  buddy ← unwrap o;
  h ← write h buddy (with_data buddy_addr);
  z ← index (zones b) zone_index;
  '(h, z) ← LinkedList_push_node_back h z buddy;
  Done (mkBuddyAllocator h (<[zone_index := z]> (zones b)) fl).

#[export] Instance BuddyAllocator_ops : ZoneOps BuddyAllocator := {
  zones_len b := length (zones b);
  zone_find := BuddyAllocator_zone_find;
  pop_from_zone := BuddyAllocator_pop_from_zone;
  push_to_zone := BuddyAllocator_push_to_zone;
}.

(** ** The model's state: block addresses per zone, nodes in the freelist *)
Record ZoneModel := mkZoneModel { zlists : list (list Z); free_nodes : nat }.

#[export] Instance ZoneModel_eq_dec : EqDecision ZoneModel.
Proof. solve_decision. Defined.

Definition ZoneModel_zone_find (m : ZoneModel) (i : nat) (f : Z -> res bool)
    : res (option (nat * Z)) :=
  z ← index (zlists m) i; find_pos f z 0.

Definition ZoneModel_pop_from_zone (m : ZoneModel) (zone_index node_index : nat) : res ZoneModel :=
  z ← index (zlists m) zone_index;
  _ ← unwrap (z !! node_index);
  Done (mkZoneModel (<[zone_index := delete node_index z]> (zlists m)) (S (free_nodes m))).

Definition ZoneModel_push_to_zone (m : ZoneModel) (addr : Z) (zone_index : nat) : res ZoneModel :=
  match free_nodes m with
  | O => Panic Unwrapped
  | S n =>
      z ← index (zlists m) zone_index;
      Done (mkZoneModel (<[zone_index := z ++ [addr]]> (zlists m)) n)
  end.

#[export] Instance ZoneModel_ops : ZoneOps ZoneModel := {
  zones_len m := length (zlists m);
  zone_find := ZoneModel_zone_find;
  pop_from_zone := ZoneModel_pop_from_zone;
  push_to_zone := ZoneModel_push_to_zone;
}.

(** ** The allocator, over either state *)
Definition MIN_ZONE_LEVEL : nat := 12.

Definition get_buddy_addr (addr : PhysAddr) (zone_index : nat) : res PhysAddr :=
  bucket_size ← usize_pow2 (zone_index + MIN_ZONE_LEVEL);
  r ← usize_rem addr bucket_size;
  _ ← assert_ (r =? 0);
  two ← usize_mul bucket_size 2;
  r ← usize_rem addr two;
  if r =? 0 then usize_add addr bucket_size else usize_sub addr bucket_size.

Definition determine_next_bucket_addr (addr buddy_addr : PhysAddr) : PhysAddr :=
  Z.min addr buddy_addr.

Section buddy.
Context {S : Type} `{ZoneOps S}.

(** The closures of the scans. *)
Definition aligned_to (alignment : Z) (d : PhysAddr) : res bool :=
  m ← usize_mul BASIC_PAGE_SIZE alignment;
  r ← usize_rem d m;
  Done (r =? 0).

Definition bucket_contains (addr bucket_size : Z) (d : PhysAddr) : res bool :=
  if d <=? addr then e ← usize_add d bucket_size; Done (addr <? e) else Done false.

(** [for i in start_index..self.zones.len()]: [n] zones are left from [i]. *)
Fixpoint find_bucket_from (s : S) (alignment : Z) (i n : nat)
    : res (result (PhysAddr * nat) PmmError * S) :=
  match n with
  | O => Done (Err NoAvailableBlock, s)
  | Datatypes.S n =>
      o ← zone_find s i (aligned_to alignment);
      match o with
      | Some (k, ret) => s ← pop_from_zone s i k; Done (Ok (ret, i), s)
      | None => find_bucket_from s alignment (Datatypes.S i) n
      end
  end.

Definition find_bucket (s : S) (alignment : Z) (start_index : nat) :=
  find_bucket_from s alignment start_index (zones_len s - start_index).

Fixpoint find_bucket_at_from (s : S) (addr : PhysAddr) (i n : nat)
    : res (result nat PmmError * S) :=
  match n with
  | O => Done (Err NoAvailableBlock, s)
  | Datatypes.S n =>
      p ← usize_pow2 i;
      bucket_size ← usize_mul p BASIC_PAGE_SIZE;
      o ← zone_find s i (bucket_contains addr bucket_size);
      match o with
      | Some (k, _) => s ← pop_from_zone s i k; Done (Ok i, s)
      | None => find_bucket_at_from s addr (Datatypes.S i) n
      end
  end.

Definition find_bucket_at (s : S) (addr : PhysAddr) (start_index : nat) :=
  find_bucket_at_from s addr start_index (zones_len s - start_index).

(** [for i in start_index..used_index], with [n] levels left from [i]. *)
Fixpoint disband_from (s : S) (addr : PhysAddr) (i n : nat) : res S :=
  match n with
  | O => Done s
  | Datatypes.S n =>
      buddy_addr ← get_buddy_addr addr i;
      s ← push_to_zone s buddy_addr i;
      disband_from s (determine_next_bucket_addr addr buddy_addr) (Datatypes.S i) n
  end.

Definition disband (s : S) (addr : PhysAddr) (start_index used_index : nat) : res S :=
  disband_from s addr start_index (used_index - start_index).

Fixpoint coalesce_from (s : S) (addr : PhysAddr) (i n : nat) : res S :=
  match n with
  | O => Panic Unreached
  | Datatypes.S n =>
      buddy_addr ← get_buddy_addr addr i;
      o ← zone_find s i (fun d => Done (d =? buddy_addr));
      match o with
      | Some (k, _) =>
          s ← pop_from_zone s i k;
          coalesce_from s (determine_next_bucket_addr addr buddy_addr) (Datatypes.S i) n
      | None => push_to_zone s addr i
      end
  end.

Definition coalesce (s : S) (addr : PhysAddr) (start_index : nat) : res S :=
  coalesce_from s addr start_index (zones_len s - start_index).

Definition BuddyAllocator_allocate (s : S) (alignment page_count : Z)
    : res (result PhysAddr PmmError * S) :=
  if page_count =? 0 then Done (Err EmptyAllocation, s) else
  max ← usize_pow2 (zones_len s);
  if max <? page_count then Done (Err TooBigAllocation, s) else
  if negb (is_power_of_two alignment) then Done (Err InvalidAlignment, s) else
  match checked_next_power_of_two page_count with
  | None => Done (Err NoAvailableBlock, s)
  | Some page_count =>
      let start_index := ilog2 page_count in
      '(r, s) ← find_bucket s alignment start_index;
      match r with
      | Err e => Done (Err e, s)
      | Ok (used_addr, used_index) =>
          s ← disband s used_addr start_index used_index;
          Done (Ok used_addr, s)
      end
  end.

Definition BuddyAllocator_allocate_at (s : S) (addr : PhysAddr) (page_count : Z)
    : res (result unit PmmError * S) :=
  if page_count =? 0 then Done (Err EmptyAllocation, s) else
  max ← usize_pow2 (zones_len s);
  if max <? page_count then Done (Err TooBigAllocation, s) else
  m ← usize_mul BASIC_PAGE_SIZE page_count;
  r ← usize_rem addr m;
  if negb (r =? 0) then Done (Err InvalidAlignment, s) else
  match checked_next_power_of_two page_count with
  | None => Done (Err NoAvailableBlock, s)
  | Some page_count =>
      let start_index := ilog2 page_count in
      '(r, s) ← find_bucket_at s addr start_index;
      match r with
      | Err e => Done (Err e, s)
      | Ok used_index =>
          s ← disband s addr start_index used_index;
          Done (Ok (), s)
      end
  end.

(** The scan of [is_page_free] over the zones from [i]. *)
Fixpoint is_page_free_from (s : S) (addr : PhysAddr) (i n : nat) : res bool :=
  match n with
  | O => Done false
  | Datatypes.S n =>
      p ← usize_pow2 i;
      bucket_size ← usize_mul p BASIC_PAGE_SIZE;
      o ← zone_find s i (bucket_contains addr bucket_size);
      match o with
      | Some _ => Done true
      | None => is_page_free_from s addr (Datatypes.S i) n
      end
  end.

Definition BuddyAllocator_is_page_free (s : S) (addr : PhysAddr) (page_count : Z)
    : res (result bool PmmError) :=
  if page_count =? 0 then Done (Err EmptyAllocation) else
  m ← usize_mul BASIC_PAGE_SIZE page_count;
  r ← usize_rem addr m;
  if negb (r =? 0) then Done (Err InvalidAlignment) else
  match checked_next_power_of_two page_count with
  | None => Done (Err NoAvailableBlock)
  | Some page_count =>
      let start_index := ilog2 page_count in
      b ← is_page_free_from s addr start_index (zones_len s - start_index);
      Done (Ok b)
  end.

Definition BuddyAllocator_free (s : S) (addr : PhysAddr) (page_count : Z)
    : res (result unit PmmError * S) :=
  if page_count =? 0 then Done (Err EmptyFree, s) else
  r ← BuddyAllocator_is_page_free s addr page_count;
  match r with
  | Err e => Done (Err e, s)
  | Ok true => Done (Err FreeOfAlreadyFree, s)
  | Ok false =>
      match checked_next_power_of_two page_count with
      | None => Done (Err NoAvailableBlock, s)
      | Some page_count =>
          let zone_index := ilog2 page_count in
          s ← coalesce s addr zone_index;
          Done (Ok (), s)
      end
  end.

(** [for i in (0..self.zones.len()).rev()]: the largest bucket that fits at
    [addr_id], among the zones below [n]. *)
Fixpoint largest_bucket (addr_id total_page_count : Z) (n : nat) : res (option Z) :=
  match n with
  | O => Done None
  | Datatypes.S i =>
      page_count ← usize_pow2 i;
      r ← usize_rem addr_id page_count;
      if (r =? 0) && (page_count <=? total_page_count) then Done (Some page_count)
      else largest_bucket addr_id total_page_count i
  end.

(** ['outer: loop], with one unit of fuel per iteration. *)
Fixpoint break_from (fuel : nat) (s : S) (addr_id total_page_count : Z) : res S :=
  if total_page_count =? 0 then Done s else
  match fuel with
  | O => Panic Unreached
  | Datatypes.S fuel =>
      o ← largest_bucket addr_id total_page_count (zones_len s);
      match o with
      | None => Panic Unreached
      | Some page_count =>
          addr ← usize_mul addr_id BASIC_PAGE_SIZE;
          '(r, s) ← BuddyAllocator_free s addr page_count;
          _ ← unwrap_ok r;
          total' ← usize_sub total_page_count page_count;
          addr_id' ← usize_add addr_id page_count;
          break_from fuel s addr_id' total'
      end
  end.

Definition break_into_buckets_n_free (s : S) (addr : PhysAddr) (total_page_count : Z) : res S :=
  break_from (Z.to_nat total_page_count) s (addr / BASIC_PAGE_SIZE) total_page_count.

#[export] Instance BuddyAllocator_pmm : PmmAllocator S := {
  pmm_allocate := BuddyAllocator_allocate;
  pmm_allocate_at := BuddyAllocator_allocate_at;
  pmm_free := BuddyAllocator_free;
  pmm_is_page_free := BuddyAllocator_is_page_free;
}.
End buddy.
