(* ===== verification/BuddySim.v ===== *)
(** * The source's zones simulate the model's

    [ZoneSim R] states that two implementations of [ZoneOps] make the same
    observations and stay related by [R].  Every operation of the allocator is
    shown to preserve such an [R], panics included, from those four facts
    alone; and [buddy_repr], which says that the zones and the freelist of a
    [BuddyAllocator] are disjoint linked lists of one heap with the addresses
    of a [ZoneModel], is shown to be one.  What is proved of the model
    therefore holds of the source's state. *)

From S2P Require Import Prelude LinkedList Pmm Buddy.

(** ** Related outcomes *)
Definition res_rel {A B} (R : A -> B -> Prop) (x : res A) (y : res B) : Prop :=
  match x, y with
  | Done a, Done b => R a b
  | Panic p, Panic q => p = q
  | _, _ => False
  end.

Lemma res_rel_eq {A} (x : res A) : res_rel eq x x.
Proof. by destruct x. Qed.

Lemma res_rel_bind {A B A' B'} (R : A -> B -> Prop) (Q : A' -> B' -> Prop) x y f g :
  res_rel R x y -> (forall a b, R a b -> res_rel Q (f a) (g b)) ->
  res_rel Q (x ≫= f) (y ≫= g).
Proof. destruct x, y; cbn; naive_solver. Qed.

Lemma res_rel_bind_eq {A A' B'} (Q : A' -> B' -> Prop) (x : res A) f g :
  (forall a, res_rel Q (f a) (g a)) -> res_rel Q (x ≫= f) (x ≫= g).
Proof. intros H. apply (res_rel_bind eq); [apply res_rel_eq | by intros ? ? ->]. Qed.

Lemma res_rel_Done_inv {A B} (R : A -> B -> Prop) x b :
  res_rel R x (Done b) -> exists a, x = Done a /\ R a b.
Proof. destruct x; cbn; [eauto | done]. Qed.

(** Results paired with related states. *)
Definition with_state {A S1 S2} (R : S1 -> S2 -> Prop) (x : A * S1) (y : A * S2) : Prop :=
  fst x = fst y /\ R (snd x) (snd y).

Class ZoneSim {S1 S2 : Type} `{ZoneOps S1, ZoneOps S2} (R : S1 -> S2 -> Prop) := {
  sim_len s m : R s m -> zones_len s = zones_len m;
  sim_find s m i f : R s m -> res_rel eq (zone_find s i f) (zone_find m i f);
  sim_pop s m i k : R s m -> res_rel R (pop_from_zone s i k) (pop_from_zone m i k);
  sim_push s m a i : R s m -> res_rel R (push_to_zone s a i) (push_to_zone m a i);
}.

(** Follow two runs of the same code over related states. *)
Ltac sim_step :=
  match goal with
  | |- res_rel _ (zone_find _ _ _ ≫= _) _ =>
      eapply res_rel_bind; [by eapply sim_find | intros ? ? <-]
  | |- res_rel _ (pop_from_zone _ _ _ ≫= _) _ =>
      eapply res_rel_bind; [by eapply sim_pop | intros ? ? ?]
  | |- res_rel _ (push_to_zone _ _ _ ≫= _) _ =>
      eapply res_rel_bind; [by eapply sim_push | intros ? ? ?]
  | |- res_rel _ (push_to_zone _ _ _) _ => by eapply sim_push
  | |- res_rel _ (?x ≫= _) (?x ≫= _) => apply res_rel_bind_eq; intros ?
  | |- res_rel _ (if ?b then _ else _) _ => destruct b
  | |- res_rel _ (match ?o with _ => _ end) _ => destruct o
  | |- res_rel _ (Done _) (Done _) =>
      solve [assumption | cbn; unfold with_state; cbn; split; done]
  | |- with_state _ _ _ => solve [split; done]
  | |- res_rel _ (Panic _) (Panic _) => reflexivity
  end.
Ltac sim := repeat sim_step.

Section sim.
Context {S1 S2 : Type} `{ZoneOps S1, ZoneOps S2} (R : S1 -> S2 -> Prop) `{!ZoneSim R}.
Implicit Types (s : S1) (m : S2).

Lemma find_bucket_sim s m alignment i : R s m ->
  res_rel (with_state R) (find_bucket s alignment i) (find_bucket m alignment i).
Proof.
  intros HR. unfold find_bucket. rewrite (sim_len s m HR).
  generalize (zones_len m - i)%nat as n. intros n. revert s m i HR.
  induction n as [| n IH]; intros s m i HR; cbn; sim. by apply IH.
Qed.

Lemma find_bucket_at_sim s m addr i : R s m ->
  res_rel (with_state R) (find_bucket_at s addr i) (find_bucket_at m addr i).
Proof.
  intros HR. unfold find_bucket_at. rewrite (sim_len s m HR).
  generalize (zones_len m - i)%nat as n. intros n. revert s m i HR.
  induction n as [| n IH]; intros s m i HR; cbn; sim. by apply IH.
Qed.

Lemma disband_sim s m addr i j : R s m -> res_rel R (disband s addr i j) (disband m addr i j).
Proof.
  intros HR. unfold disband. generalize (j - i)%nat as n. intros n. revert s m addr i HR.
  induction n as [| n IH]; intros s m addr i HR; cbn; [done |]. sim. by apply IH.
Qed.

Lemma coalesce_sim s m addr i : R s m -> res_rel R (coalesce s addr i) (coalesce m addr i).
Proof.
  intros HR. unfold coalesce. rewrite (sim_len s m HR).
  generalize (zones_len m - i)%nat as n. intros n. revert s m addr i HR.
  induction n as [| n IH]; intros s m addr i HR; cbn; [done |]. sim. by apply IH.
Qed.

Lemma allocate_sim s m alignment page_count : R s m ->
  res_rel (with_state R) (BuddyAllocator_allocate s alignment page_count)
    (BuddyAllocator_allocate m alignment page_count).
Proof.
  intros HR. unfold BuddyAllocator_allocate. rewrite (sim_len s m HR). sim.
  eapply res_rel_bind; [by apply find_bucket_sim |].
  intros [r1 s1] [r2 m1] [Hr HR1]; cbn in *. subst r2. destruct r1 as [[ua uj] | ue]; [| by split].
  eapply res_rel_bind; [by apply disband_sim |]. intros. by split.
Qed.

Lemma allocate_at_sim s m addr page_count : R s m ->
  res_rel (with_state R) (BuddyAllocator_allocate_at s addr page_count)
    (BuddyAllocator_allocate_at m addr page_count).
Proof.
  intros HR. unfold BuddyAllocator_allocate_at. rewrite (sim_len s m HR). sim.
  eapply res_rel_bind; [by apply find_bucket_at_sim |].
  intros [r1 s1] [r2 m1] [Hr HR1]; cbn in *. subst r2. destruct r1 as [uj | ue]; [| by split].
  eapply res_rel_bind; [by apply disband_sim |]. intros. by split.
Qed.

Lemma is_page_free_sim s m addr page_count : R s m ->
  BuddyAllocator_is_page_free s addr page_count = BuddyAllocator_is_page_free m addr page_count.
Proof.
  intros HR. unfold BuddyAllocator_is_page_free. rewrite (sim_len s m HR).
  assert (forall n i, is_page_free_from s addr i n = is_page_free_from m addr i n) as E.
  { induction n as [| n IH]; intros i; cbn; [done |].
    destruct (usize_pow2 i); cbn; [| done]. destruct (usize_mul _ _); cbn; [| done].
    pose proof (sim_find s m i (bucket_contains addr a0) HR) as Hf.
    destruct (zone_find s i _), (zone_find m i _); cbn in *; subst; try done.
    destruct a2; [done | apply IH]. }
  repeat case_match; try done. destruct (usize_mul _ _); cbn; [| done].
  destruct (usize_rem _ _); cbn; [| done]. destruct (negb _); [done |].
  destruct (checked_next_power_of_two _); [| done]. by rewrite E.
Qed.

Lemma free_sim s m addr page_count : R s m ->
  res_rel (with_state R) (BuddyAllocator_free s addr page_count)
    (BuddyAllocator_free m addr page_count).
Proof.
  intros HR. unfold BuddyAllocator_free. rewrite (is_page_free_sim s m _ _ HR). sim.
  eapply res_rel_bind; [by apply coalesce_sim |]. intros. by split.
Qed.

Lemma break_sim s m addr total : R s m ->
  res_rel R (break_into_buckets_n_free s addr total) (break_into_buckets_n_free m addr total).
Proof.
  unfold break_into_buckets_n_free. generalize (Z.to_nat total) as fuel.
  generalize (addr / BASIC_PAGE_SIZE) as id. intros id fuel. revert s m id total.
  induction fuel as [| fuel IH]; intros s m id total HR; cbn;
    (destruct (total =? 0); [done |]); [done |].
  rewrite (sim_len s m HR). sim.
  eapply res_rel_bind; [by apply free_sim |].
  intros [r1 s1] [r2 m1] [Hr HR1]; cbn in *. subst r2. sim. by apply IH.
Qed.
End sim.

(** ** The source's state represents the model's *)

(** The addresses of the nodes of the freelist and of each zone. *)
Definition node_lists (fs : list (ptr * Z)) (zs : list (list (ptr * Z))) : list (list ptr) :=
  fs.*1 :: ((fun xs => xs.*1) <$> zs).

Record buddy_lists (b : BuddyAllocator) (fs : list (ptr * Z)) (zs : list (list (ptr * Z)))
    : Prop := {
  bl_free : dll (mem b) (freelist b) fs;
  bl_zones : Forall2 (dll (mem b)) (zones b) zs;
  bl_nodup : NoDup (concat (node_lists fs zs));
  bl_few : Z.of_nat (length (concat (node_lists fs zs))) < usize_MAX;
}.

Definition buddy_repr (b : BuddyAllocator) (m : ZoneModel) : Prop :=
  exists fs zs, buddy_lists b fs zs /\
    zlists m = (fun xs => xs.*2) <$> zs /\ free_nodes m = length fs.

(** *** Lists of lists without repetition *)
Section concat.
Context {A : Type}.
Implicit Types (L : list (list A)).

Lemma concat_lookup_perm L i a : L !! i = Some a -> concat L ≡ₚ a ++ concat (delete i L).
Proof.
  revert i. induction L as [| b L IH]; intros [| i] H; cbn in *; try done.
  - by injection H as ->.
  - rewrite (IH _ H). by rewrite !app_assoc, (Permutation_app_comm b a).
Qed.

Lemma delete_insert_list L i a : delete i (<[i := a]> L) = delete i L.
Proof. revert i. induction L as [| b L IH]; intros [| i]; cbn; f_equal; auto. Qed.

Lemma concat_insert_perm L i a a' : L !! i = Some a ->
  concat (<[i := a']> L) ≡ₚ a' ++ concat (delete i L).
Proof.
  intros H. rewrite (concat_lookup_perm _ i a'), delete_insert_list; [done |].
  apply list_lookup_insert_eq. by eapply lookup_lt_Some.
Qed.

Lemma concat_disjoint L i j a b x : NoDup (concat L) -> L !! i = Some a -> L !! j = Some b ->
  i <> j -> x ∈ a -> x ∉ b.
Proof.
  intros Hnd Hi Hj Hij Hx Hy. rewrite (concat_lookup_perm _ _ _ Hi) in Hnd.
  apply NoDup_app in Hnd as (_ & Hd & _). apply (Hd x Hx).
  apply list_elem_of_In, in_concat. exists b. split; [| by apply list_elem_of_In].
  apply list_elem_of_In, list_elem_of_lookup.
  destruct (decide (j < i)%nat) as [Hlt | Hge].
  - exists j. rewrite list_lookup_delete. by rewrite decide_True.
  - exists (j - 1)%nat. rewrite list_lookup_delete. rewrite decide_False by lia.
    by replace (S (j - 1)) with j by lia.
Qed.
End concat.

Lemma NoDup_concat_at {A} (L : list (list A)) i a : NoDup (concat L) -> L !! i = Some a -> NoDup a.
Proof.
  intros Hnd Hi. rewrite (concat_lookup_perm _ _ _ Hi) in Hnd. by apply NoDup_app in Hnd as [? _].
Qed.

Lemma node_lists_free fs zs : node_lists fs zs !! 0%nat = Some fs.*1.
Proof. done. Qed.

Lemma node_lists_zone fs zs i xs : zs !! i = Some xs -> node_lists fs zs !! S i = Some xs.*1.
Proof. intros H. unfold node_lists. rewrite lookup_cons. by rewrite list_lookup_fmap, H. Qed.

(** Moving one node between the freelist and zone [i] keeps the nodes. *)
Lemma node_lists_move fs zs fs' i xs xs' : zs !! i = Some xs ->
  fs'.*1 ++ xs'.*1 ≡ₚ fs.*1 ++ xs.*1 ->
  concat (node_lists fs' (<[i := xs']> zs)) ≡ₚ concat (node_lists fs zs).
Proof.
  intros Hi Hp. unfold node_lists. rewrite !concat_cons, list_fmap_insert.
  set (Z := (fun xs => xs.*1) <$> zs).
  assert (Z !! i = Some xs.*1) as HZ by (unfold Z; by rewrite list_lookup_fmap, Hi).
  rewrite (concat_insert_perm Z i _ _ HZ), (concat_lookup_perm Z i _ HZ).
  by rewrite !app_assoc, Hp.
Qed.

Lemma delete_perm {A} (l : list A) k x : l !! k = Some x -> l ≡ₚ x :: delete k l.
Proof.
  revert k. induction l as [| y l IH]; intros [| k] H; cbn in *; try done.
  - by injection H as ->.
  - rewrite (IH _ H) at 1. apply Permutation_swap.
Qed.

(** The lists off the freelist and zone [i] survive a change off their nodes. *)
Lemma buddy_lists_update b fs zs i xs h' fl' z' fs' xs' :
  buddy_lists b fs zs -> zs !! i = Some xs ->
  same_off (fs.*1 ++ xs.*1) (mem b) h' ->
  dll h' fl' fs' -> dll h' z' xs' -> fs'.*1 ++ xs'.*1 ≡ₚ fs.*1 ++ xs.*1 ->
  buddy_lists (mkBuddyAllocator h' (<[i := z']> (zones b)) fl') fs' (<[i := xs']> zs).
Proof.
  intros [Hf Hz Hnd Hfew] Hi Hso Hf' Hz' Hp.
  pose proof (node_lists_move fs zs fs' i xs xs' Hi Hp) as Hmv. split; cbn.
  - done.
  - apply Forall2_same_length_lookup. split.
    { rewrite !length_insert. by eapply Forall2_length. }
    intros j l ys Hl Hys. destruct (decide (i = j)) as [<- | Hij].
    + apply list_lookup_insert_Some in Hl as [(_ & <- & _) | (? & _)]; [| done].
      apply list_lookup_insert_Some in Hys as [(_ & <- & _) | (? & _)]; done.
    + rewrite list_lookup_insert_ne in Hl by done.
      rewrite list_lookup_insert_ne in Hys by done.
      eapply dll_frame; [by eapply (Forall2_lookup_lr _ _ _ _ _ _ Hz) | done |].
      intros p Hpy. rewrite elem_of_app. intros [Hpf | Hpx].
      * apply (concat_disjoint _ 0 (S j) _ _ p Hnd (node_lists_free fs zs)
          (node_lists_zone _ _ _ _ Hys)); done.
      * apply (concat_disjoint _ (S i) (S j) _ _ p Hnd (node_lists_zone _ _ _ _ Hi)
          (node_lists_zone _ _ _ _ Hys)); done || lia.
  - by rewrite Hmv.
  - by rewrite Hmv.
Qed.

Lemma buddy_zone b fs zs i : buddy_lists b fs zs ->
  match zs !! i with
  | Some xs => exists z, index (zones b) i = Done z /\ dll (mem b) z xs /\
      (forall p, p ∈ fs.*1 -> p ∉ xs.*1) /\ Z.of_nat (length xs) < usize_MAX
  | None => index (zones b) i = Panic IndexOutOfBounds
  end.
Proof.
  intros [Hf Hz Hnd Hfew]. unfold index. destruct (zs !! i) as [xs |] eqn:Hi.
  - destruct (Forall2_lookup_r _ _ _ _ _ Hz Hi) as (z & -> & Hd). exists z.
    split_and!; [done | done | |].
    + intros p. apply (concat_disjoint _ 0 (S i) _ _ p Hnd (node_lists_free fs zs)
        (node_lists_zone _ _ _ _ Hi)). done.
    + pose proof (Permutation_length
        (concat_lookup_perm _ _ _ (node_lists_zone fs zs i xs Hi))) as E.
      rewrite length_app in E. assert (length xs.*1 = length xs) by apply length_fmap. lia.
  - assert (zones b !! i = None) as ->; [| done]. apply lookup_ge_None in Hi.
    apply lookup_ge_None. by rewrite (Forall2_length _ _ _ Hz).
Qed.

Lemma buddy_pop_sim b m i k : buddy_repr b m ->
  res_rel buddy_repr (BuddyAllocator_pop_from_zone b i k) (ZoneModel_pop_from_zone m i k).
Proof.
  intros (fs & zs & Hbl & Hzl & Hfn).
  unfold BuddyAllocator_pop_from_zone, ZoneModel_pop_from_zone.
  unfold index at 2. rewrite Hzl, list_lookup_fmap. pose proof (buddy_zone b fs zs i Hbl) as Hz.
  destruct (zs !! i) as [xs |] eqn:Hi; cbn; [| by rewrite Hz].
  destruct Hz as (z & -> & Hd & Hdj & Hlen). rewrite bind_Done, list_lookup_fmap.
  destruct (xs !! k) as [[p d] |] eqn:Hk.
  2:{ by rewrite (remove_at_node_none _ _ _ _ Hd Hk). }
  destruct (remove_at_node_spec _ _ _ _ _ _ Hd Hk) as (h1 & z1 & -> & Hd1 & Hp1 & Hso1).
  rewrite !bind_Done. cbn [unwrap]. rewrite !bind_Done.
  pose proof (list_elem_of_lookup_2 _ _ _ (fst_lookup _ _ _ _ Hk)) as Hpx.
  assert (xs.*1 ≡ₚ p :: (delete k xs).*1) as Hperm.
  { rewrite (delete_perm _ _ _ Hk) at 1. done. }
  assert (p ∉ (delete k xs).*1) as Hpd.
  { pose proof (dll_nodup _ _ _ Hd) as Hnd. rewrite Hperm in Hnd. by apply NoDup_cons in Hnd as [? _]. }
  assert (dll h1 (freelist b) fs) as Hf1.
  { eapply dll_frame; [apply Hbl | done |]. intros q Hq Hqx. by apply (Hdj q). }
  assert (p ∉ fs.*1) as Hpf by (intros Hq; by apply (Hdj p)).
  destruct (push_node_back_spec h1 (freelist b) fs p _ Hf1 Hp1 Hpf) as (h2 & fl2 & -> & Hf2 & Hso2).
  { pose proof (bl_few _ _ _ Hbl) as Hfew. unfold node_lists in Hfew.
    rewrite concat_cons, length_app, length_fmap in Hfew. lia. }
  rewrite bind_Done. cbn. exists (fs ++ [(p, d)]), (<[i := delete k xs]> zs). split_and!.
  - eapply buddy_lists_update; [done | done | | done | |].
    + intros q Hq. rewrite elem_of_app in Hq. rewrite Hso2, Hso1; [done | tauto |].
      rewrite elem_of_cons. intros [-> |]; tauto.
    + eapply dll_frame; [exact Hd1 | exact Hso2 |]. intros q Hq. rewrite elem_of_cons.
      intros [-> | Hqf]; [done |]. apply (Hdj q Hqf). rewrite Hperm. by right.
    + rewrite fmap_app, Hperm. cbn. by rewrite <- app_assoc.
  - by rewrite list_fmap_insert, list_fmap_delete.
  - rewrite length_app, Hfn. cbn. lia.
Qed.

Lemma buddy_push_sim b m a i : buddy_repr b m ->
  res_rel buddy_repr (BuddyAllocator_push_to_zone b a i) (ZoneModel_push_to_zone m a i).
Proof.
  intros (fs & zs & Hbl & Hzl & Hfn).
  unfold BuddyAllocator_push_to_zone, ZoneModel_push_to_zone. rewrite Hfn.
  destruct (decide (fs = [])) as [-> | Hne].
  { rewrite (pop_node_back_nil _ _ (bl_free _ _ _ Hbl)). done. }
  destruct (exists_last Hne) as (fs' & [p d] & ->). rewrite length_app, Nat.add_1_r.
  destruct (pop_node_back_spec _ _ _ _ _ (bl_free _ _ _ Hbl)) as (h1 & fl1 & -> & Hf1 & Hp1 & Hso1).
  rewrite bind_Done. cbn [unwrap]. rewrite bind_Done, (write_ok _ _ _ _ Hp1), bind_Done.
  unfold index at 2. rewrite Hzl, list_lookup_fmap.
  pose proof (buddy_zone b _ zs i Hbl) as Hz. destruct (zs !! i) as [xs |] eqn:Hi; [| by rewrite Hz].
  destruct Hz as (z & -> & Hd & Hdj & Hlen). rewrite bind_Done. cbn [fmap option_fmap option_map].
  rewrite bind_Done. set (h2 := <[p := _]> h1).
  assert ((fs' ++ [(p, d)]).*1 = fs'.*1 ++ [p]) as Efs by (by rewrite fmap_app).
  rewrite Efs in Hdj.
  assert (same_off (fs'.*1 ++ [p]) (mem b) h2) as Hso2.
  { intros q Hq. unfold h2. rewrite lookup_insert_ne by set_solver. apply Hso1. set_solver. }
  assert (p ∉ fs'.*1) as Hpf.
  { pose proof (dll_nodup _ _ _ (bl_free _ _ _ Hbl)) as Hnd. rewrite Efs in Hnd.
    apply NoDup_app in Hnd as (_ & Hnd & _). set_solver. }
  assert (p ∉ xs.*1) as Hpx by (apply Hdj; set_solver).
  assert (dll h2 z xs) as Hd2.
  { eapply dll_frame; [exact Hd | exact Hso2 |]. intros q Hq Hqf. by apply (Hdj q). }
  destruct (push_node_back_spec h2 z xs p _ Hd2 (lookup_insert_eq _ _ _) Hpx Hlen)
    as (h3 & z3 & -> & Hd3 & Hso3).
  rewrite bind_Done. cbn in Hd3 |- *. exists fs', (<[i := xs ++ [(p, a)]]> zs). split_and!.
  - eapply buddy_lists_update; [done | done | | | done |].
    + intros q Hq. rewrite Efs in Hq. rewrite Hso3, Hso2; [done | set_solver | set_solver].
    + apply (dll_frame h1 _ _ _ (p :: xs.*1)); [exact Hf1 | |].
      * intros q Hq. rewrite Hso3 by exact Hq. apply not_elem_of_cons in Hq as [Hqp _].
        unfold h2. by rewrite lookup_insert_ne.
      * intros q Hq. rewrite elem_of_cons. intros [-> | Hqx]; [done |].
        apply (Hdj q); [apply elem_of_app; by left | done].
    + rewrite Efs, fmap_app. cbn. rewrite <- app_assoc. apply Permutation_app_head.
      by rewrite Permutation_app_comm.
  - rewrite list_fmap_insert, fmap_app. done.
  - done.
Qed.

#[export] Instance buddy_sim : ZoneSim buddy_repr.
Proof.
  split.
  - intros b m (fs & zs & Hbl & Hzl & _). cbn. rewrite Hzl, length_fmap.
    by apply (Forall2_length _ _ _ (bl_zones _ _ _ Hbl)).
  - intros b m i f (fs & zs & Hbl & Hzl & _). cbn.
    unfold BuddyAllocator_zone_find, ZoneModel_zone_find.
    unfold index at 2. rewrite Hzl, list_lookup_fmap. pose proof (buddy_zone b fs zs i Hbl) as Hz.
    destruct (zs !! i) as [xs |] eqn:Hi; [| by rewrite Hz].
    destruct Hz as (z & -> & Hd & _). cbn [fmap option_fmap option_map]. rewrite bind_Done, (Iter_find_spec _ _ _ f Hd).
    apply res_rel_eq.
  - intros b m i k HR. by apply buddy_pop_sim.
  - intros b m a i HR. by apply buddy_push_sim.
Qed.
