(* ===== verification/BuddyBlocks.v ===== *)
(** * Blocks of a buddy system

    The free blocks of the allocator as a list of pairs (level, address), the
    number of blocks that cover a byte, and the arithmetic of halves and
    buddies.  [halves a i n] are the [n] blocks that splitting the block of
    level [i + n] around [a] leaves behind: [disband] adds exactly those and
    [coalesce] removes exactly those, so each of the two is characterised once
    and the invariant is shown to survive splitting and merging. *)

From S2P Require Import Prelude LinkedList Pmm Buddy BuddySim.

#[export] Instance Z_divide_dec a b : Decision (a | b).
Proof.
  destruct (decide (a = 0)) as [-> | Ha].
  - destruct (decide (b = 0)) as [-> | Hb]; [left; by exists 0 | right].
    by intros ?%Z.divide_0_l.
  - destruct (decide (b mod a = 0)) as [H | H]; [left | right]; by rewrite <- Z.mod_divide.
Defined.

(** ** Sizes, containing blocks, buddies *)
Definition bsize (i : nat) : Z := 2 ^ Z.of_nat (i + MIN_ZONE_LEVEL).

(** The block of level [i] that contains [a]. *)
Definition down (i : nat) (a : Z) : Z := a / bsize i * bsize i.

Definition buddy (i : nat) (a : Z) : Z :=
  if decide ((2 * bsize i | a)) then a + bsize i else a - bsize i.

Lemma bsize_pos i : 0 < bsize i.
Proof. apply pow2_pos. Qed.
#[export] Hint Resolve bsize_pos : usize.

Lemma bsize_S i : bsize (S i) = 2 * bsize i.
Proof. unfold bsize. by rewrite Nat.add_succ_l, pow2_S. Qed.

Lemma bsize_pages i : bsize i = 2 ^ Z.of_nat i * BASIC_PAGE_SIZE.
Proof. unfold bsize. rewrite Nat2Z.inj_add, Z.pow_add_r by lia. done. Qed.

Lemma bsize_mono i j : (i <= j)%nat -> bsize i <= bsize j.
Proof. intros. apply pow2_le_mono. lia. Qed.

Lemma bsize_divide i j : (i <= j)%nat -> (bsize i | bsize j).
Proof. intros. apply pow2_divide. lia. Qed.

Lemma bsize_divide_le i j a : (i <= j)%nat -> (bsize j | a) -> (bsize i | a).
Proof. intros. etrans; [by apply bsize_divide | done]. Qed.

Lemma bsize_lt_inv i j : bsize i < bsize j -> (i < j)%nat.
Proof.
  intros H. destruct (decide (i < j)%nat); [done |].
  pose proof (bsize_mono j i). lia.
Qed.

Lemma bsize_51 i : (i <= 51)%nat -> bsize i <= 2 ^ 63.
Proof. intros H. apply (bsize_mono i 51 H). Qed.

Lemma down_divide i a : (bsize i | down i a).
Proof. unfold down. apply Z.divide_factor_r. Qed.

Lemma down_bounds i a : down i a <= a < down i a + bsize i.
Proof.
  pose proof (bsize_pos i) as Hp. unfold down.
  pose proof (Z.div_mod a (bsize i)) as Hd. pose proof (Z.mod_pos_bound a (bsize i) Hp). lia.
Qed.

Lemma down_unique i a c : (bsize i | c) -> c <= a < c + bsize i -> down i a = c.
Proof.
  intros [k ->] H. unfold down. f_equal. pose proof (bsize_pos i).
  symmetry. apply (Z.div_unique a (bsize i) k (a - k * bsize i)); lia.
Qed.

Lemma down_id i a : (bsize i | a) -> down i a = a.
Proof. intros H. apply down_unique; [done |]. pose proof (bsize_pos i). lia. Qed.

Lemma down_nonneg i a : 0 <= a -> 0 <= down i a.
Proof.
  intros. unfold down. pose proof (bsize_pos i).
  apply Z.mul_nonneg_nonneg; [apply Z.div_pos; lia | lia].
Qed.

(** A larger block contains the whole of a smaller one it meets. *)
Lemma down_contains i j a : (i <= j)%nat ->
  down j a <= down i a /\ down i a + bsize i <= down j a + bsize j.
Proof.
  intros Hij. pose proof (down_bounds i a). pose proof (down_bounds j a).
  pose proof (bsize_pos i) as Hp.
  assert (bsize i | down j a) as [k Hk]
    by (etrans; [by apply bsize_divide | apply down_divide]).
  destruct (down_divide i a) as [m Hm]. destruct (bsize_divide i j Hij) as [q Hq].
  rewrite Hk, Hm, Hq in *. assert (k <= m < k + q) by nia. nia.
Qed.

Lemma down_down i j a : (i <= j)%nat -> down j (down i a) = down j a.
Proof.
  intros Hij. apply down_unique; [apply down_divide |].
  pose proof (down_contains i j a Hij). pose proof (bsize_pos i). lia.
Qed.

Section buddies.
Context (i : nat) (a : Z) (Ha : (bsize i | a)).

Lemma buddy_divide : (bsize i | buddy i a).
Proof.
  unfold buddy. destruct (decide _); [apply Z.divide_add_r | apply Z.divide_sub_r]; done.
Qed.

Lemma buddy_ne : buddy i a <> a.
Proof. unfold buddy. pose proof (bsize_pos i). destruct (decide _); lia. Qed.

(** The half of the containing block that holds [a], and the other one. *)
Lemma buddy_cases :
  (a = down (S i) a /\ buddy i a = down (S i) a + bsize i) \/
  (a = down (S i) a + bsize i /\ buddy i a = down (S i) a).
Proof.
  pose proof (bsize_pos i) as Hp. unfold buddy. destruct (decide _) as [H | H].
  - left. rewrite <- bsize_S in H. rewrite (down_id _ _ H). done.
  - right. destruct Ha as [k Hk].
    assert (down (S i) a = a - bsize i); [| lia].
    apply down_unique; rewrite bsize_S; [| lia].
    destruct (Z.Even_or_Odd k) as [[m Hm] | [m Hm]].
    + destruct H. exists m. lia.
    + exists m. lia.
Qed.

Lemma buddy_invol : buddy i (buddy i a) = a.
Proof.
  pose proof (bsize_pos i) as Hp. destruct buddy_cases as [[Ea Eb] | [Ea Eb]]; rewrite Eb.
  - unfold buddy. destruct (decide _) as [H | H]; [| lia]. rewrite <- bsize_S in H.
    assert (bsize (S i) | bsize i) as Hd.
    { apply (Z.divide_add_cancel_r _ (down (S i) a)); [apply down_divide | done]. }
    apply Z.divide_pos_le in Hd; [rewrite bsize_S in Hd; lia | done].
  - unfold buddy. destruct (decide _) as [H | H]; [lia |]. destruct H.
    rewrite <- bsize_S. apply down_divide.
Qed.

Lemma buddy_min : Z.min a (buddy i a) = down (S i) a.
Proof. pose proof (bsize_pos i). destruct buddy_cases as [[? ?] | [? ?]]; lia. Qed.

Lemma down_S_buddy : down (S i) (buddy i a) = down (S i) a.
Proof.
  pose proof (bsize_pos i). apply down_unique; [apply down_divide |]. rewrite bsize_S.
  destruct buddy_cases as [[? ?] | [? ?]]; lia.
Qed.

Lemma get_buddy_addr_ok : 0 <= a <= 2 ^ 63 -> (i < 51)%nat -> get_buddy_addr a i = Done (buddy i a).
Proof.
  intros H0 Hi. unfold get_buddy_addr. pose proof (bsize_pos i) as Hp.
  pose proof (bsize_51 (S i) Hi) as Hs. rewrite bsize_S in Hs.
  rewrite usize_pow2_ok by (unfold MIN_ZONE_LEVEL; lia). rewrite bind_Done.
  fold (bsize i). change (2 ^ 63) with 9223372036854775808 in *.
  rewrite usize_rem_ok, bind_Done by done.
  rewrite (proj2 (mod0_divide _ _ Hp) Ha). cbn [assert_ Z.eqb]. rewrite bind_Done.
  rewrite usize_mul_ok, bind_Done by (unfold usize_MAX; lia). rewrite Z.mul_comm.
  rewrite usize_rem_ok, bind_Done by lia. unfold buddy.
  destruct (decide _) as [H | H].
  - rewrite (proj2 (mod0_divide a (2 * bsize i) ltac:(lia)) H). apply usize_add_ok. unfold usize_MAX. lia.
  - case_if; [by apply mod0_divide in Hif; [| lia] |]. apply usize_sub_ok.
    destruct (decide (a = 0)) as [E0 |]; [destruct H; exists 0; lia |].
    apply Z.divide_pos_le; [lia | done].
Qed.
End buddies.

(** ** Lists of blocks *)
Abbreviation block := (nat * Z)%type (only parsing).

Definition in_block (i : nat) (b x : Z) : Prop := b <= x < b + bsize i.
#[export] Instance in_block_dec i b x : Decision (in_block i b x).
Proof. apply _. Defined.

(** 1 on the bytes of a block, 0 elsewhere. *)
Definition ind (i : nat) (b x : Z) : nat := if decide (in_block i b x) then 1 else 0.

(** How many of the blocks contain byte [x]. *)
Fixpoint cover (bs : list block) (x : Z) : nat :=
  match bs with
  | [] => 0
  | (i, b) :: bs => ind i b x + cover bs x
  end.

Lemma cover_app bs cs x : cover (bs ++ cs) x = (cover bs x + cover cs x)%nat.
Proof. induction bs as [| [i b] bs IH]; cbn; [done | rewrite IH; lia]. Qed.

#[export] Instance cover_proper : Proper ((≡ₚ) ==> (=) ==> (=)) cover.
Proof. intros bs cs H x ? <-. induction H as [| [] ? ? ? IH | [] [] ? | ? ? ? ? IH1 ? IH2]; cbn; lia. Qed.

Lemma cover_pos bs x : (0 < cover bs x)%nat <-> exists i b, (i, b) ∈ bs /\ in_block i b x.
Proof.
  induction bs as [| [i b] bs IH]; cbn.
  - split; [lia | intros (? & ? & H & _); by apply not_elem_of_nil in H].
  - unfold ind. split.
    + destruct (decide _); [intros _; exists i, b; split; [left | done] |].
      intros (j & c & ? & ?)%IH. exists j, c. split; [by right | done].
    + intros (j & c & [[= -> ->] | Hin]%elem_of_cons & Hx).
      * rewrite decide_True by done. lia.
      * assert (0 < cover bs x)%nat by (apply IH; eauto). lia.
Qed.

Lemma cover_elem bs i b x : (i, b) ∈ bs -> in_block i b x -> (0 < cover bs x)%nat.
Proof. intros. apply cover_pos. eauto. Qed.

Lemma ind_in i b x : in_block i b x -> ind i b x = 1%nat.
Proof. intros. unfold ind. by rewrite decide_True. Qed.

Lemma ind_halves i a x : (bsize i | a) ->
  (ind i a x + ind i (buddy i a) x = ind (S i) (down (S i) a) x)%nat.
Proof.
  intros Ha. pose proof (bsize_pos i). pose proof (bsize_S i). unfold ind.
  destruct (buddy_cases i a Ha) as [[? ?] | [? ?]]; repeat case_decide; unfold in_block in *; lia.
Qed.

(** ** Splitting a block around an address *)
Definition halves (a : Z) (i n : nat) : list block :=
  (fun k => (k, buddy k (down k a))) <$> seq i n.

Lemma halves_S a i n : halves a i (S n) = (i, buddy i (down i a)) :: halves a (S i) n.
Proof. done. Qed.

Lemma halves_length a i n : length (halves a i n) = n.
Proof. unfold halves. by rewrite length_fmap, length_seq. Qed.

Lemma elem_of_halves a i n k c :
  (k, c) ∈ halves a i n <-> (i <= k < i + n)%nat /\ c = buddy k (down k a).
Proof.
  unfold halves. rewrite list_elem_of_fmap. setoid_rewrite elem_of_seq. split.
  - intros (? & [= <- <-] & ?). done.
  - intros [? ->]. eauto.
Qed.

Lemma halves_cover a i n x :
  (ind i (down i a) x + cover (halves a i n) x = ind (i + n) (down (i + n) a) x)%nat.
Proof.
  revert i. induction n as [| n IH]; intros i.
  - cbn. by rewrite !Nat.add_0_r.
  - rewrite halves_S. cbn [cover]. rewrite Nat.add_assoc.
    rewrite (ind_halves i (down i a) x (down_divide i a)), down_down, IH by lia.
    by rewrite Nat.add_succ_comm.
Qed.

Lemma halves_down a i j n : (i <= j)%nat -> halves (down i a) j n = halves a j n.
Proof.
  intros Hij. unfold halves. apply list_fmap_ext. intros ? k Hk.
  apply list_elem_of_lookup_2, elem_of_seq in Hk. by rewrite down_down by lia.
Qed.

(** Each half lies inside the block that is split, beside [a]. *)
Lemma half_inside a k j : (k < j)%nat ->
  down j a <= buddy k (down k a) /\ buddy k (down k a) + bsize k <= down j a + bsize j.
Proof.
  intros Hkj. pose proof (down_contains (S k) j a Hkj). pose proof (bsize_pos k).
  pose proof (buddy_cases k (down k a) (down_divide k a)) as Hc.
  rewrite down_down in Hc by lia. rewrite bsize_S in *. lia.
Qed.

(** ** The invariant of a list of free blocks

    [n] zones, memory below [limit]: every block is in a zone, aligned to its
    size and inside memory; no byte is in two blocks; and no two blocks are
    buddies, since [free] would have merged them. *)
Record wf_blocks (n : nat) (limit : Z) (bs : list block) : Prop := {
  wf_block i b : (i, b) ∈ bs -> (i < n)%nat /\ (bsize i | b) /\ 0 <= b /\ b + bsize i <= limit;
  wf_once x : (cover bs x <= 1)%nat;
  wf_coalesced i b : (i, b) ∈ bs -> (i, buddy i b) ∉ bs;
}.

#[export] Instance wf_blocks_proper n limit : Proper ((≡ₚ) ==> iff) (wf_blocks n limit).
Proof.
  intros bs cs H. split; intros [Hb Ho Hc]; split.
  - intros i b. rewrite <- H. apply Hb.
  - intros x. rewrite <- H. apply Ho.
  - intros i b. rewrite <- H. apply Hc.
  - intros i b. rewrite H. apply Hb.
  - intros x. rewrite H. apply Ho.
  - intros i b. rewrite H. apply Hc.
Qed.

Lemma wf_nil n limit : wf_blocks n limit [].
Proof. split; [intros ? ? [] %not_elem_of_nil | cbn; lia | intros ? ? [] %not_elem_of_nil]. Qed.

Lemma wf_remove n limit i b bs : wf_blocks n limit ((i, b) :: bs) -> wf_blocks n limit bs.
Proof.
  intros [Hb Ho Hc]. split.
  - intros j c Hin. apply Hb. by right.
  - intros x. specialize (Ho x). cbn in Ho. lia.
  - intros j c Hin Hin'. apply (Hc j c); by right.
Qed.

(** A block that meets no other is not split by any of them. *)
Lemma once_cons i b bs x : (forall x, (cover ((i, b) :: bs) x <= 1)%nat) -> in_block i b x ->
  forall j c, (j, c) ∈ bs -> ~ in_block j c x.
Proof.
  intros Ho Hx j c Hin Hx'. pose proof (cover_elem bs j c x Hin Hx').
  specialize (Ho x). cbn in Ho. rewrite (ind_in i b x Hx) in Ho. lia.
Qed.

Section split.
Context (n : nat) (limit a : Z) (i j : nat) (rest : list block) (Hij : (i <= j)%nat).

(** Keeping the halves of a block of level [j] around [a]. *)
Lemma wf_split : wf_blocks n limit ((j, down j a) :: rest) ->
  wf_blocks n limit (halves a i (j - i) ++ rest).
Proof.
  intros [Hb Ho Hc].
  destruct (Hb j (down j a) ltac:(by left)) as (Hjn & Hjd & Hj0 & Hjl).
  assert (forall k, (k < j)%nat -> (k, down k a) ∉ rest) as Hna.
  { intros k Hk Hin. pose proof (down_contains k j a ltac:(lia)). pose proof (bsize_pos k).
    apply (once_cons j (down j a) rest (down k a) Ho ltac:(unfold in_block; lia) k _ Hin).
    unfold in_block. lia. }
  split.
  - intros k c [[Hk ->]%elem_of_halves | Hin]%elem_of_app.
    + pose proof (half_inside a k j ltac:(lia)).
      split_and!; [lia | apply buddy_divide, down_divide | lia | lia].
    + apply Hb. by right.
  - intros x. specialize (Ho x). cbn in Ho. rewrite cover_app.
    pose proof (halves_cover a i (j - i) x) as E. replace (i + (j - i))%nat with j in E by lia. lia.
  - intros k c [[Hk ->]%elem_of_halves | Hin]%elem_of_app; rewrite elem_of_app, elem_of_halves.
    + rewrite buddy_invol by apply down_divide. intros [[_ E] | E].
      * by apply (buddy_ne k (down k a)).
      * apply (Hna k); [lia | done].
    + intros [[Hk E] | Hin'].
      * apply (Hna k); [lia |]. rewrite <- (buddy_invol k (down k a)) by apply down_divide.
        rewrite <- E, buddy_invol; [done |]. by apply Hb; right.
      * apply (Hc k c); by right.
Qed.

(** Merging [a]'s block of level [i] with halves that are all free. *)
Lemma wf_merge : (bsize i | a) -> 0 <= a -> (j < n)%nat -> down j a + bsize j <= limit ->
  (forall x, in_block i a x -> cover (halves a i (j - i) ++ rest) x = 0%nat) ->
  (j, buddy j (down j a)) ∉ rest ->
  wf_blocks n limit (halves a i (j - i) ++ rest) ->
  wf_blocks n limit ((j, down j a) :: rest).
Proof.
  intros Hd H0 Hjn Hjl Hfree Hnb [Hb Ho Hc]. split.
  - intros k c [[= -> ->] | Hin]%elem_of_cons.
    + split_and!; [done | apply down_divide | by apply down_nonneg | done].
    + apply Hb, elem_of_app. by right.
  - intros x. cbn. specialize (Ho x). specialize (Hfree x). rewrite cover_app in *.
    pose proof (halves_cover a i (j - i) x) as E. replace (i + (j - i))%nat with j in E by lia.
    rewrite (down_id i a Hd) in E. unfold ind in E at 1.
    destruct (decide (in_block i a x)) as [Hx | Hx]; [specialize (Hfree Hx) |]; lia.
  - intros k c [[= -> ->] | Hin]%elem_of_cons [[= E] | Hin']%elem_of_cons.
    + by apply (buddy_ne j (down j a)).
    + done.
    + subst k. apply Hnb. match goal with H : buddy _ _ = down _ _ |- _ => rewrite <- H end.
      rewrite buddy_invol; [done |]. apply Hb. apply elem_of_app. by right.
    + apply (Hc k c); apply elem_of_app; by right.
Qed.
End split.

(** ** Completeness of the buddy system

    An aligned run that is wholly free lies inside one free block, however the
    blocks came about: the invariant leaves no pair of buddies unmerged. *)
Lemma run_in_block n limit bs k r : wf_blocks n limit bs -> (bsize k | r) ->
  (forall x, in_block k r x -> (0 < cover bs x)%nat) ->
  exists j, (k <= j)%nat /\ (j, down j r) ∈ bs.
Proof.
  intros [Hb Ho Hc]. revert r. induction k as [| k IH]; intros r Hr Hfree.
  - destruct (proj1 (cover_pos bs r) (Hfree r ltac:(unfold in_block; pose proof (bsize_pos 0); lia)))
      as (j & c & Hin & Hx). exists j. split; [lia |].
    by rewrite (down_unique j r c) by (done || apply (Hb j c Hin)).
  - rewrite bsize_S in Hr. pose proof (bsize_pos k) as Hp. pose proof (bsize_S k) as HS.
    assert (bsize k | r) as Hr1 by (etrans; [| exact Hr]; by apply Z.divide_mul_r).
    destruct (IH r Hr1) as (j1 & Hj1 & Hin1).
    { intros x Hx. apply Hfree. unfold in_block in *. lia. }
    destruct (IH (r + bsize k)) as (j2 & Hj2 & Hin2).
    { by apply Z.divide_add_r. }
    { intros x Hx. apply Hfree. unfold in_block in *. lia. }
    assert (buddy k r = r + bsize k) as Eb by (unfold buddy; by rewrite decide_True).
    destruct (decide (j1 = k)) as [-> | Hn1]; [| exists j1; split; [lia | done]].
    destruct (decide (j2 = k)) as [-> | Hn2].
    + rewrite down_id in Hin1, Hin2 by (done || by apply Z.divide_add_r).
      destruct (Hc k r Hin1). by rewrite Eb.
    + exists j2. split; [lia |]. replace (down j2 r) with (down j2 (r + bsize k)); [done |].
      rewrite <- Eb, <- (down_down (S k) j2 (buddy k r)), down_S_buddy, down_down by (done || lia).
      done.
Qed.
