(* ===== verification/BuddyCorrect.v ===== *)
(** * The buddy allocator hands out free memory exactly once

    The theorems about [allocate], [allocate_at], [is_page_free], [free] and
    [break_into_buckets_n_free], proved on the zone model and carried to the
    source's linked lists by the simulation of [BuddySim.v].  The abstract
    state is the set of free bytes [is_free]; the invariant is [buddy_wf]. *)

From S2P Require Import Prelude LinkedList Pmm Buddy BuddySim BuddyBlocks.

(** ** The free blocks of the model *)
Definition blocks (m : ZoneModel) : list block :=
  concat (imap (fun i z => pair i <$> z) (zlists m)).

Definition is_free (m : ZoneModel) (x : Z) : Prop :=
  exists i b, (i, b) ∈ blocks m /\ in_block i b x.

(** Memory ends at [limit], below twice the size of the largest block;
    with at most 51 zones no address computation reaches 2^64. *)
Record buddy_wf (limit : Z) (m : ZoneModel) : Prop := {
  bw_len : (length (zlists m) <= 51)%nat;
  bw_limit : limit < bsize (length (zlists m));
  bw_blocks : wf_blocks (length (zlists m)) limit (blocks m);
}.

Lemma is_free_cover m x : is_free m x <-> (0 < cover (blocks m) x)%nat.
Proof. unfold is_free. by rewrite cover_pos. Qed.

Lemma imap_insert {A B} (f : nat -> A -> B) (l : list A) i a :
  imap f (<[i := a]> l) = <[i := f i a]> (imap f l).
Proof.
  apply list_eq. intros k. rewrite list_lookup_imap.
  destruct (decide (k = i)) as [-> | Hk].
  - destruct (decide (i < length l)%nat).
    + rewrite !list_lookup_insert_eq; [done | by rewrite length_imap | done].
    + rewrite !list_insert_ge by (rewrite ?length_imap; lia). by rewrite list_lookup_imap.
  - rewrite !list_lookup_insert_ne by done. by rewrite list_lookup_imap.
Qed.

Lemma blocks_at m i z : zlists m !! i = Some z ->
  imap (fun i z => pair i <$> z) (zlists m) !! i = Some (pair i <$> z).
Proof. intros H. by rewrite list_lookup_imap, H. Qed.

Lemma elem_of_blocks m i b : (i, b) ∈ blocks m <-> exists z, zlists m !! i = Some z /\ b ∈ z.
Proof.
  unfold blocks. rewrite list_elem_of_In, in_concat. split.
  - intros (l & Hl & Hb). apply list_elem_of_In, list_elem_of_lookup in Hl as [k Hk].
    rewrite list_lookup_imap in Hk. destruct (zlists m !! k) as [z |] eqn:E; [| done].
    injection Hk as <-. apply list_elem_of_In, list_elem_of_fmap in Hb as (c & [= -> ->] & Hc).
    eauto.
  - intros (z & Hz & Hb). exists (pair i <$> z). split; apply list_elem_of_In.
    + by eapply list_elem_of_lookup_2, blocks_at.
    + apply list_elem_of_fmap. eauto.
Qed.

Lemma blocks_update m n i z z' : zlists m !! i = Some z ->
  (pair i <$> z') ++ blocks m ≡ₚ (pair i <$> z) ++ blocks (mkZoneModel (<[i := z']> (zlists m)) n).
Proof.
  intros Hz. unfold blocks; cbn. rewrite imap_insert.
  rewrite (concat_insert_perm _ i _ _ (blocks_at m i z Hz)).
  rewrite (concat_lookup_perm _ i _ (blocks_at m i z Hz)).
  rewrite !app_assoc. by rewrite (Permutation_app_comm (pair i <$> z')).
Qed.

(** The state after taking a block out, and after putting one in. *)
Record popped (m : ZoneModel) (i : nat) (b : Z) (m' : ZoneModel) : Prop := {
  popped_blocks : blocks m ≡ₚ (i, b) :: blocks m';
  popped_len : length (zlists m') = length (zlists m);
  popped_nodes : free_nodes m' = S (free_nodes m);
}.

Lemma pop_ok m i k z b : zlists m !! i = Some z -> z !! k = Some b ->
  exists m', pop_from_zone m i k = Done m' /\ popped m i b m'.
Proof.
  intros Hz Hk. cbn. unfold ZoneModel_pop_from_zone, index. rewrite Hz, bind_Done, Hk. cbn.
  eexists. split; [done |]. split; cbn; [| by rewrite length_insert | done].
  apply (Permutation_app_inv_l (pair i <$> delete k z)).
  rewrite (blocks_update m (S (free_nodes m)) i z (delete k z) Hz).
  rewrite (delete_perm _ _ _ Hk) at 1. cbn. apply Permutation_middle.
Qed.

Lemma push_ok m b i : (i < length (zlists m))%nat -> (0 < free_nodes m)%nat ->
  exists m', push_to_zone m b i = Done m' /\ popped m' i b m.
Proof.
  intros Hi Hf. apply lookup_lt_is_Some_2 in Hi as [z Hz]. cbn.
  unfold ZoneModel_push_to_zone, index. destruct (free_nodes m) as [| n] eqn:E; [lia |].
  rewrite Hz, bind_Done. eexists. split; [done |].
  split; cbn; [| by rewrite length_insert | done].
  apply (Permutation_app_inv_l (pair i <$> z)).
  rewrite <- (blocks_update m n i z (z ++ [b]) Hz), fmap_app, <- app_assoc. done.
Qed.

(** ** Scanning a zone *)
Lemma find_pos_cases {A} (f : A -> res bool) (P : A -> Prop) l i :
  (forall d, d ∈ l -> exists b : bool, f d = Done b /\ (b = true <-> P d)) ->
  (exists k d, find_pos f l i = Done (Some ((i + k)%nat, d)) /\ l !! k = Some d /\ P d) \/
  (find_pos f l i = Done None /\ forall d, d ∈ l -> ~ P d).
Proof.
  revert i. induction l as [| d l IH]; intros i Hf; cbn.
  - right. split; [done |]. by intros ? ?%not_elem_of_nil.
  - destruct (Hf d ltac:(by left)) as (b & -> & Hb). rewrite bind_Done. destruct b.
    + left. exists 0%nat, d. rewrite Nat.add_0_r. naive_solver.
    + destruct (IH (S i)) as [(k & d' & -> & Hk & HP) | [-> Hn]].
      * intros d' Hd'. apply Hf. by right.
      * left. exists (S k), d'. rewrite Nat.add_succ_r. done.
      * right. split; [done |]. intros d' [-> | Hd']%elem_of_cons; [naive_solver | by apply Hn].
Qed.

(** A scan of zone [i] followed by the removal of what it found. *)
Lemma zone_scan m i f (P : Z -> Prop) : (i < length (zlists m))%nat ->
  (forall d, (i, d) ∈ blocks m -> exists b : bool, f d = Done b /\ (b = true <-> P d)) ->
  (exists k d m', zone_find m i f = Done (Some (k, d)) /\ pop_from_zone m i k = Done m' /\
     P d /\ (i, d) ∈ blocks m /\ popped m i d m') \/
  (zone_find m i f = Done None /\ forall d, (i, d) ∈ blocks m -> ~ P d).
Proof.
  intros Hi Hf. apply lookup_lt_is_Some_2 in Hi as [z Hz].
  unfold zone_find, ZoneModel_ops, ZoneModel_zone_find, index. rewrite Hz, bind_Done.
  destruct (find_pos_cases f P z 0) as [(k & d & -> & Hk & HP) | [-> Hn]].
  - intros d Hd. apply Hf, elem_of_blocks. eauto.
  - left. destruct (pop_ok m i k z d Hz Hk) as (m' & Hp & Hpop).
    exists k, d, m'. split_and!; try done. apply elem_of_blocks.
    exists z. split; [done | by eapply list_elem_of_lookup_2].
  - right. split; [done |]. intros d (z' & Hz' & Hd)%elem_of_blocks.
    rewrite Hz in Hz'. injection Hz' as <-. by apply Hn.
Qed.

(** The closures of the scans decide what they are named after. *)
Lemma aligned_to_ok alignment d : 0 < alignment -> BASIC_PAGE_SIZE * alignment <= usize_MAX ->
  exists b : bool, aligned_to alignment d = Done b /\ (b = true <-> (BASIC_PAGE_SIZE * alignment | d)).
Proof.
  intros Ha Hm. unfold aligned_to. rewrite usize_mul_ok, bind_Done by done.
  assert (0 < BASIC_PAGE_SIZE * alignment) by (unfold BASIC_PAGE_SIZE; lia).
  rewrite usize_rem_ok, bind_Done by done. eexists. split; [done |].
  by rewrite Z.eqb_eq, mod0_divide.
Qed.

Lemma bucket_contains_ok i addr d : d + bsize i <= usize_MAX ->
  exists b : bool, bucket_contains addr (bsize i) d = Done b /\ (b = true <-> in_block i d addr).
Proof.
  intros Hd. unfold bucket_contains, in_block. case_if.
  - rewrite usize_add_ok, bind_Done by done. eexists. split; [done |]. rewrite Z.ltb_lt. lia.
  - eexists. split; [done |]. split; [done | lia].
Qed.

Lemma bucket_size_ok i : (i < 51)%nat ->
  (p ← usize_pow2 i; usize_mul p BASIC_PAGE_SIZE) = Done (bsize i).
Proof.
  intros Hi. rewrite usize_pow2_ok, bind_Done by lia.
  rewrite bsize_pages, usize_mul_ok; [done |]. rewrite <- bsize_pages.
  pose proof (bsize_51 i ltac:(lia)). change (2 ^ 63) with 9223372036854775808 in *.
  unfold usize_MAX. lia.
Qed.

Section wf.
Context (limit : Z).

Lemma wf_bound m i b : buddy_wf limit m -> (i, b) ∈ blocks m ->
  (i < 51)%nat /\ (i < length (zlists m))%nat /\ (bsize i | b) /\ 0 <= b /\
  b + bsize i <= limit /\ limit < 2 ^ 63.
Proof.
  intros [Hl Hlim [Hb _ _]] Hin. destruct (Hb i b Hin) as (? & ? & ? & ?).
  pose proof (bsize_51 _ Hl). split_and!; try done; lia.
Qed.

Lemma is_free_bound m x : buddy_wf limit m -> is_free m x -> 0 <= x < limit.
Proof.
  intros Hwf (i & b & Hin & Hx). destruct (wf_bound m i b Hwf Hin) as (_ & _ & _ & ? & ? & _).
  unfold in_block in Hx. lia.
Qed.

(** ** The searches *)
Lemma find_bucket_from_cases m alignment i n : 0 < alignment ->
  BASIC_PAGE_SIZE * alignment <= usize_MAX -> (i + n <= length (zlists m))%nat ->
  (exists j d m', find_bucket_from m alignment i n = Done (Ok (d, j), m') /\ (i <= j < i + n)%nat /\
     (BASIC_PAGE_SIZE * alignment | d) /\ (j, d) ∈ blocks m /\ popped m j d m') \/
  (find_bucket_from m alignment i n = Done (Err NoAvailableBlock, m) /\
     forall j d, (i <= j < i + n)%nat -> (j, d) ∈ blocks m -> ~ (BASIC_PAGE_SIZE * alignment | d)).
Proof.
  intros Ha Hm. revert i. induction n as [| n IH]; intros i Hi.
  - right. split; [done | lia].
  - cbn [find_bucket_from].
    destruct (zone_scan m i (aligned_to alignment) _ ltac:(lia)
      ltac:(intros; by apply aligned_to_ok)) as [(k & d & m' & -> & Hp & HP & Hin & Hpop) | [-> Hn]].
    + left. exists i, d, m'. rewrite bind_Done, Hp, bind_Done. split_and!; done || lia.
    + rewrite bind_Done. destruct (IH (S i) ltac:(lia)) as [(j & d & m' & -> & ? & ?) | [-> Hn']].
      * left. exists j, d, m'. split_and!; done || lia || naive_solver.
      * right. split; [done |]. intros j d Hj Hin.
        destruct (decide (j = i)) as [-> |]; [by apply Hn | apply (Hn' j); done || lia].
Qed.

Lemma bucket_size_bind {A} m i (k : Z -> res A) : buddy_wf limit m -> (i < length (zlists m))%nat ->
  (p ← usize_pow2 i; s ← usize_mul p BASIC_PAGE_SIZE; k s) = k (bsize i).
Proof.
  intros [Hl _ _] Hi. pose proof (bucket_size_ok i ltac:(lia)) as Hs.
  apply bind_Done_inv in Hs as (p & -> & Hs). by rewrite bind_Done, Hs.
Qed.

Lemma bucket_scan m addr i : buddy_wf limit m -> (i < length (zlists m))%nat ->
  (exists k d m', zone_find m i (bucket_contains addr (bsize i)) = Done (Some (k, d)) /\
     pop_from_zone m i k = Done m' /\ in_block i d addr /\ (i, d) ∈ blocks m /\ popped m i d m') \/
  (zone_find m i (bucket_contains addr (bsize i)) = Done None /\
     forall d, (i, d) ∈ blocks m -> ~ in_block i d addr).
Proof.
  intros Hwf Hi. apply zone_scan; [done |]. intros d Hd. apply bucket_contains_ok.
  pose proof (wf_bound m i d Hwf Hd) as (_ & _ & _ & _ & ? & ?).
  change (2 ^ 63) with 9223372036854775808 in *. unfold usize_MAX. lia.
Qed.

Lemma find_bucket_at_from_cases m addr i n : buddy_wf limit m -> (i + n <= length (zlists m))%nat ->
  (exists j d m', find_bucket_at_from m addr i n = Done (Ok j, m') /\ (i <= j < i + n)%nat /\
     in_block j d addr /\ (j, d) ∈ blocks m /\ popped m j d m') \/
  (find_bucket_at_from m addr i n = Done (Err NoAvailableBlock, m) /\
     forall j d, (i <= j < i + n)%nat -> (j, d) ∈ blocks m -> ~ in_block j d addr).
Proof.
  intros Hwf. revert i. induction n as [| n IH]; intros i Hi.
  - right. split; [done | lia].
  - cbn [find_bucket_at_from]. rewrite (bucket_size_bind m) by (done || lia).
    destruct (bucket_scan m addr i Hwf ltac:(lia))
      as [(k & d & m' & -> & Hp & HP & Hin & Hpop) | [-> Hn]].
    + left. exists i, d, m'. rewrite bind_Done, Hp, bind_Done. split_and!; done || lia.
    + rewrite bind_Done. destruct (IH (S i) ltac:(lia)) as [(j & d & m' & -> & ? & ?) | [-> Hn']].
      * left. exists j, d, m'. split_and!; done || lia || naive_solver.
      * right. split; [done |]. intros j d Hj Hin.
        destruct (decide (j = i)) as [-> |]; [by apply Hn | apply (Hn' j); done || lia].
Qed.

Lemma is_page_free_from_cases m addr i n : buddy_wf limit m -> (i + n <= length (zlists m))%nat ->
  exists b : bool, is_page_free_from m addr i n = Done b /\
    (b = true <-> exists j d, (i <= j < i + n)%nat /\ (j, d) ∈ blocks m /\ in_block j d addr).
Proof.
  intros Hwf. revert i. induction n as [| n IH]; intros i Hi.
  - exists false. split; [done |]. split; [done | intros (? & ? & ? & _); lia].
  - cbn [is_page_free_from]. rewrite (bucket_size_bind m) by (done || lia).
    destruct (bucket_scan m addr i Hwf ltac:(lia))
      as [(k & d & m' & -> & Hp & HP & Hin & Hpop) | [-> Hn]].
    + exists true. split; [done |]. split; [intros _ | done]. exists i, d. split_and!; done || lia.
    + rewrite bind_Done. destruct (IH (S i) ltac:(lia)) as (b & -> & Hb). exists b.
      split; [done |]. rewrite Hb. split.
      * intros (j & d & ? & ? & ?). exists j, d. split_and!; done || lia.
      * intros (j & d & Hj & Hin & Hx). destruct (decide (j = i)) as [-> |]; [by destruct (Hn d) |].
        exists j, d. split_and!; done || lia.
Qed.

(** ** Splitting and merging *)
Lemma disband_from_ok m addr i n : (i + n <= length (zlists m))%nat -> (length (zlists m) <= 51)%nat ->
  (bsize i | addr) -> 0 <= addr <= 2 ^ 63 -> (n <= free_nodes m)%nat ->
  exists m', disband_from m addr i n = Done m' /\ blocks m' ≡ₚ halves addr i n ++ blocks m /\
    length (zlists m') = length (zlists m) /\ free_nodes m = (n + free_nodes m')%nat.
Proof.
  revert m addr i. induction n as [| n IH]; intros m addr i Hi Hl Hd H0 Hf; cbn [disband_from].
  { exists m. split_and!; done. }
  rewrite (get_buddy_addr_ok i addr Hd) by (done || lia). rewrite bind_Done.
  destruct (push_ok m (buddy i addr) i ltac:(lia) ltac:(lia)) as (m1 & -> & [Hb1 Hl1 Hn1]).
  rewrite bind_Done. unfold determine_next_bucket_addr. rewrite buddy_min by done.
  destruct (IH m1 (down (S i) addr) (S i)) as (m2 & -> & Hb2 & Hl2 & Hn2);
    [lia | lia | apply down_divide | | lia |].
  { pose proof (down_bounds (S i) addr). pose proof (down_nonneg (S i) addr). lia. }
  exists m2. split_and!; [done | | lia | lia].
  rewrite Hb2, Hb1, halves_down, halves_S, (down_id i addr Hd) by lia. symmetry. apply Permutation_middle.
Qed.

(** [coalesce] climbs through the halves that are free and stops at the first
    level whose buddy is not. *)
Lemma coalesce_from_ok m addr i n : buddy_wf limit m -> (0 < free_nodes m)%nat ->
  (i + n = length (zlists m))%nat -> (bsize i | addr) -> 0 <= addr -> addr + bsize i <= limit ->
  exists m' j rest, coalesce_from m addr i n = Done m' /\ (i <= j < i + n)%nat /\
    blocks m ≡ₚ halves addr i (j - i) ++ rest /\ blocks m' ≡ₚ (j, down j addr) :: rest /\
    ((j, buddy j (down j addr)) ∉ rest) /\ down j addr + bsize j <= limit /\
    length (zlists m') = length (zlists m) /\ (free_nodes m + (j - i))%nat = S (free_nodes m').
Proof.
  revert m addr i. induction n as [| n IH]; intros m addr i Hwf Hf Hi Hd H0 Hlim; cbn [coalesce_from].
  { exfalso. pose proof (bw_limit _ _ Hwf). rewrite <- Hi, Nat.add_0_r in *. lia. }
  pose proof (bw_len _ _ Hwf) as Hl. pose proof (bw_limit _ _ Hwf) as Hll.
  pose proof (bsize_51 _ Hl) as H51. pose proof (bsize_pos i) as Hp.
  rewrite (get_buddy_addr_ok i addr Hd) by lia. rewrite bind_Done.
  destruct (zone_scan m i (fun d => Done (d =? buddy i addr)) (fun d => d = buddy i addr) ltac:(lia))
    as [(k & d & m1 & -> & Hpop & -> & Hin & [Hb1 Hl1 Hn1]) | [-> Hn]].
  { intros d _. eexists. split; [done | apply Z.eqb_eq]. }
  - rewrite bind_Done, Hpop, bind_Done. unfold determine_next_bucket_addr. rewrite buddy_min by done.
    destruct (wf_bound m _ _ Hwf Hin) as (_ & _ & _ & Hb0 & Hbl & _).
    pose proof (buddy_cases i addr Hd) as Hc. pose proof (bsize_S i) as HS.
    destruct (IH m1 (down (S i) addr) (S i)) as (m2 & j & rest & -> & Hj & Hp1 & Hp2 & Hnb & Hjl & Hl2 & Hn2);
      [| lia | lia | apply down_divide | lia | lia |].
    { split; rewrite Hl1; [done | done |]. eapply wf_remove. rewrite <- Hb1. apply Hwf. }
    rewrite halves_down in Hp1 by lia. rewrite down_down in Hp2, Hnb, Hjl by lia.
    exists m2, j, rest. split_and!; try done; try lia.
    replace (j - i)%nat with (S (j - S i))%nat by lia.
    rewrite halves_S, down_id, Hb1, Hp1 by done. done.
  - rewrite bind_Done. destruct (push_ok m addr i ltac:(lia) Hf) as (m1 & -> & [Hb1 Hl1 Hn1]).
    exists m1, i, (blocks m). rewrite down_id, Nat.sub_diag by done. split_and!; try done; try lia.
    intros Hin. by apply (Hn _ Hin).
Qed.

(** ** What the operations do to the free bytes *)
Definition node_count (m : ZoneModel) : nat := free_nodes m + length (blocks m).

(** [m'] is [m] with the block of level [s] at [a] taken. *)
Record taken (m : ZoneModel) (s : nat) (a : Z) (m' : ZoneModel) : Prop := {
  taken_wf : buddy_wf limit m';
  taken_was_free x : in_block s a x -> is_free m x;
  taken_free x : is_free m' x <-> is_free m x /\ ~ in_block s a x;
  taken_nodes : node_count m' = node_count m;
  taken_len : length (zlists m') = length (zlists m);
  taken_room : (free_nodes m < length (zlists m) + free_nodes m')%nat;
}.

(** [m'] is [m] with the block of level [s] at [a] given back. *)
Record given (m : ZoneModel) (s : nat) (a : Z) (m' : ZoneModel) : Prop := {
  given_wf : buddy_wf limit m';
  given_free x : is_free m' x <-> is_free m x \/ in_block s a x;
  given_nodes : node_count m' = node_count m;
  given_len : length (zlists m') = length (zlists m);
  given_room : (free_nodes m <= S (free_nodes m'))%nat;
}.

Lemma cover_halves_split a s j rest x : (s <= j)%nat -> (bsize s | a) ->
  (ind s a x + cover (halves a s (j - s) ++ rest) x = cover ((j, down j a) :: rest) x)%nat.
Proof.
  intros Hsj Hd. cbn. rewrite cover_app. pose proof (halves_cover a s (j - s) x) as E.
  replace (s + (j - s))%nat with j in E by lia. rewrite (down_id s a Hd) in E. lia.
Qed.

(** Removing a block and keeping its halves takes exactly [a]'s part. *)
Lemma split_taken m m1 m2 s j a : buddy_wf limit m -> popped m j (down j a) m1 ->
  (s <= j)%nat -> (bsize s | a) -> blocks m2 ≡ₚ halves a s (j - s) ++ blocks m1 ->
  length (zlists m2) = length (zlists m1) -> (free_nodes m1 = (j - s) + free_nodes m2)%nat ->
  taken m s a m2.
Proof.
  intros [Hl Hlim Hwf] [Hb Hlen Hn] Hsj Hd Hb2 Hlen2 Hn2.
  assert (forall x, (ind s a x + cover (blocks m2) x = cover (blocks m) x)%nat) as E.
  { intros x. rewrite Hb2, Hb. by apply cover_halves_split. }
  split.
  - split; rewrite Hlen2, Hlen; [done | done |]. rewrite Hb2. apply wf_split; [done |].
    by rewrite <- Hb.
  - intros x Hx. apply is_free_cover. rewrite <- E, (ind_in s a x Hx). lia.
  - intros x. rewrite !is_free_cover, <- E. pose proof (wf_once _ _ _ Hwf x) as Ho.
    rewrite <- E in Ho. unfold ind in *. destruct (decide (in_block s a x)); split; intuition lia.
  - unfold node_count. rewrite Hb2, Hb, length_app, halves_length. cbn. lia.
  - congruence.
  - assert ((j, down j a) ∈ blocks m) as Hin by (rewrite Hb; by left).
    destruct (wf_block _ _ _ Hwf _ _ Hin) as (? & _). lia.
Qed.

(** Replacing free halves by the block they complete gives exactly [a]'s part. *)
Lemma merge_given m m' s j a rest : buddy_wf limit m -> (s <= j < length (zlists m))%nat ->
  (bsize s | a) -> 0 <= a -> down j a + bsize j <= limit ->
  (forall x, in_block s a x -> ~ is_free m x) ->
  blocks m ≡ₚ halves a s (j - s) ++ rest -> blocks m' ≡ₚ (j, down j a) :: rest ->
  (j, buddy j (down j a)) ∉ rest -> length (zlists m') = length (zlists m) ->
  (free_nodes m + (j - s))%nat = S (free_nodes m') ->
  given m s a m'.
Proof.
  intros [Hl Hlim Hwf] Hsj Hd H0 Hjl Hnf Hb Hb' Hnb Hlen Hn.
  assert (forall x, (ind s a x + cover (blocks m) x = cover (blocks m') x)%nat) as E.
  { intros x. rewrite Hb, Hb'. apply cover_halves_split; [lia | done]. }
  split.
  - split; rewrite Hlen; [done | done |]. rewrite Hb'.
    apply (wf_merge _ _ _ s); try done; try lia; rewrite <- ?Hb; try done.
    intros x Hx. rewrite <- Hb. specialize (Hnf x Hx). rewrite is_free_cover in Hnf. lia.
  - intros x. rewrite !is_free_cover, <- E. unfold ind.
    destruct (decide (in_block s a x)); split; intuition lia.
  - unfold node_count. rewrite Hb, Hb', length_app, halves_length. cbn. lia.
  - done.
  - lia.
Qed.

(** ** Page counts and their zone *)
Definition level (page_count : Z) : nat := Z.to_nat (Z.log2_up page_count).

Lemma level_ok page_count n : 0 < page_count <= 2 ^ Z.of_nat n -> (n < 64)%nat ->
  checked_next_power_of_two page_count = Some (2 ^ Z.of_nat (level page_count)) /\
  (level page_count <= n)%nat /\ page_count <= 2 ^ Z.of_nat (level page_count).
Proof.
  intros Hp Hn. destruct (next_power_of_two_le page_count n Hp Hn) as (p & Hs & _).
  destruct (next_power_of_two_spec page_count p ltac:(lia) Hs) as (k & _ & E & _ & Hle & Hmin).
  assert (p = 2 ^ Z.of_nat (level page_count)) as E'.
  { unfold checked_next_power_of_two in Hs. unfold level.
    rewrite Z2Nat.id by apply Z.log2_up_nonneg. cbv zeta in Hs. destruct (_ <=? _) in Hs; congruence. }
  assert (level page_count = k) as Ek.
  { apply Nat2Z.inj. apply (Z.pow_inj_r 2); [lia | lia | lia | congruence]. }
  rewrite <- E', Ek. split_and!; [done | apply Hmin; lia | done].
Qed.

Lemma level_pow2 s : level (2 ^ Z.of_nat s) = s.
Proof. unfold level. rewrite Z.log2_up_pow2 by lia. lia. Qed.

(** ** [allocate] *)
Theorem allocate_cases m alignment page_count :
  buddy_wf limit m -> (length (zlists m) <= free_nodes m)%nat ->
  0 < page_count <= 2 ^ Z.of_nat (length (zlists m)) ->
  is_power_of_two alignment = true -> BASIC_PAGE_SIZE * alignment <= usize_MAX ->
  (exists r m', BuddyAllocator_allocate m alignment page_count = Done (Ok r, m') /\
     (BASIC_PAGE_SIZE * alignment | r) /\ (bsize (level page_count) | r) /\
     taken m (level page_count) r m') \/
  (BuddyAllocator_allocate m alignment page_count = Done (Err NoAvailableBlock, m) /\
     forall r, (BASIC_PAGE_SIZE * alignment | r) -> (bsize (level page_count) | r) ->
       ~ forall x, in_block (level page_count) r x -> is_free m x).
Proof.
  intros Hwf Hnodes Hpc Ha Ham. pose proof (bw_len _ _ Hwf) as Hl.
  unfold BuddyAllocator_allocate. cbn [zones_len ZoneModel_ops].
  destruct (page_count =? 0) eqn:E; bool_to_prop; [lia |].
  rewrite usize_pow2_ok, bind_Done by lia.
  destruct (_ <? page_count) eqn:E2; bool_to_prop; [lia |]. rewrite Ha. cbn [negb].
  destruct (level_ok page_count _ Hpc ltac:(lia)) as (-> & Hlev & Hle).
  rewrite ilog2_pow2. set (s := level page_count) in *.
  apply is_power_of_two_spec in Ha as [al ->]. unfold find_bucket. cbn [zones_len ZoneModel_ops].
  destruct (find_bucket_from_cases m (2 ^ Z.of_nat al) s (length (zlists m) - s))
    as [(j & d & m1 & -> & Hj & Hal & Hin & Hpop) | [-> Hno]]; [apply pow2_pos | done | lia | |].
  - left. rewrite bind_Done. unfold disband.
    destruct (wf_bound m j d Hwf Hin) as (_ & _ & Hd & H0 & Hdl & Hlim).
    pose proof (bsize_pos j). pose proof Hpop as [Hb1 Hl1 Hn1].
    assert (bsize s | d) as Hsd by (apply (bsize_divide_le s j); [lia | done]).
    destruct (disband_from_ok m1 d s (j - s)) as (m2 & -> & Hb2 & Hl2 & Hn2); try lia; [done |].
    exists d, m2. rewrite bind_Done. split_and!; try done.
    apply (split_taken m m1 m2 s j d); try done; [| lia]. by rewrite down_id.
  - right. rewrite bind_Done. split; [done |]. intros r Hra Hrs Hfree.
    destruct (run_in_block _ _ _ s r (bw_blocks _ _ Hwf) Hrs) as (j & Hj & Hin).
    { intros x Hx. by apply is_free_cover, Hfree. }
    destruct (wf_bound m _ _ Hwf Hin) as (_ & Hjl & Hjd & _). apply (Hno j _ ltac:(lia) Hin).
    assert (bsize al = BASIC_PAGE_SIZE * 2 ^ Z.of_nat al) as Eal by (rewrite bsize_pages; lia).
    rewrite <- Eal in *. destruct (decide (al <= j)%nat).
    + by apply (bsize_divide_le al j).
    + rewrite down_id; [done |]. apply (bsize_divide_le j al); [lia | done].
Qed.

(** ** [allocate_at] *)
Theorem allocate_at_cases m addr s :
  buddy_wf limit m -> (length (zlists m) <= free_nodes m)%nat ->
  (s < length (zlists m))%nat -> (bsize s | addr) -> 0 <= addr < 2 ^ 63 ->
  (exists m', BuddyAllocator_allocate_at m addr (2 ^ Z.of_nat s) = Done (Ok (), m') /\
     taken m s addr m') \/
  (BuddyAllocator_allocate_at m addr (2 ^ Z.of_nat s) = Done (Err NoAvailableBlock, m) /\
     ~ forall x, in_block s addr x -> is_free m x).
Proof.
  intros Hwf Hnodes Hs Hd Ha. pose proof (bw_len _ _ Hwf) as Hl. pose proof (pow2_pos s).
  pose proof (pow2_le_mono s (length (zlists m)) ltac:(lia)). pose proof (bsize_pos s) as Hp.
  pose proof (bsize_51 s ltac:(lia)) as H51. change (2 ^ 63) with 9223372036854775808 in *.
  unfold BuddyAllocator_allocate_at. cbn [zones_len ZoneModel_ops].
  destruct (_ =? 0) eqn:E; bool_to_prop; [lia |]. rewrite (usize_pow2_ok (length _)), bind_Done by lia.
  destruct (_ <? _) eqn:E2; bool_to_prop; [lia |].
  assert (BASIC_PAGE_SIZE * 2 ^ Z.of_nat s = bsize s) as Es by (rewrite bsize_pages; lia).
  rewrite usize_mul_ok, Es, bind_Done by (rewrite Es; unfold usize_MAX; lia).
  rewrite usize_rem_ok, bind_Done, (proj2 (mod0_divide _ _ Hp) Hd) by done. cbn [negb Z.eqb].
  rewrite next_power_of_two_pow2, ilog2_pow2 by lia.
  unfold find_bucket_at. cbn [zones_len ZoneModel_ops].
  destruct (find_bucket_at_from_cases m addr s (length (zlists m) - s) Hwf ltac:(lia))
    as [(j & d & m1 & -> & Hj & Hx & Hin & Hpop) | [-> Hno]].
  - left. rewrite bind_Done. unfold disband. pose proof Hpop as [Hb1 Hl1 Hn1].
    destruct (wf_bound m j d Hwf Hin) as (_ & _ & Hjd & _).
    destruct (disband_from_ok m1 addr s (j - s)) as (m2 & -> & Hb2 & Hl2 & Hn2); try lia; [done |].
    exists m2. rewrite bind_Done. split; [done |].
    apply (split_taken m m1 m2 s j addr); try done; [| lia]. by rewrite (down_unique j addr d).
  - right. rewrite bind_Done. split; [done |]. intros Hfree.
    destruct (run_in_block _ _ _ s addr (bw_blocks _ _ Hwf) Hd) as (j & Hj & Hin).
    { intros x Hx. by apply is_free_cover, Hfree. }
    destruct (wf_bound m _ _ Hwf Hin) as (_ & Hjl & Hjd & _).
    apply (Hno j _ ltac:(lia) Hin). apply down_bounds.
Qed.

(** ** [is_page_free] and [free] *)
Lemma is_page_free_ok m addr s : buddy_wf limit m -> (s <= 51)%nat -> (bsize s | addr) ->
  exists b : bool, BuddyAllocator_is_page_free m addr (2 ^ Z.of_nat s) = Done (Ok b) /\
    (b = true <-> forall x, in_block s addr x -> is_free m x).
Proof.
  intros Hwf Hs Hd. pose proof (pow2_pos s). pose proof (bsize_pos s) as Hp.
  pose proof (bsize_51 s Hs) as H51. change (2 ^ 63) with 9223372036854775808 in *.
  unfold BuddyAllocator_is_page_free. destruct (_ =? 0) eqn:E; bool_to_prop; [lia |].
  assert (BASIC_PAGE_SIZE * 2 ^ Z.of_nat s = bsize s) as Es by (rewrite bsize_pages; lia).
  rewrite usize_mul_ok, Es, bind_Done by (rewrite Es; unfold usize_MAX; lia).
  rewrite usize_rem_ok, bind_Done, (proj2 (mod0_divide _ _ Hp) Hd) by done. cbn [negb Z.eqb].
  rewrite next_power_of_two_pow2, ilog2_pow2 by lia. cbn [zones_len ZoneModel_ops].
  assert (forall j d, (j, d) ∈ blocks m -> (j < length (zlists m))%nat) as Hj.
  { intros j d Hin. apply (wf_bound m j d Hwf Hin). }
  assert (exists b : bool, is_page_free_from m addr s (length (zlists m) - s) = Done b /\
    (b = true <-> exists j d, (s <= j)%nat /\ (j, d) ∈ blocks m /\ in_block j d addr)) as (b & -> & Hb).
  { destruct (decide (s <= length (zlists m))%nat).
    - destruct (is_page_free_from_cases m addr s (length (zlists m) - s) Hwf ltac:(lia)) as (b & -> & Hb).
      exists b. split; [done |]. rewrite Hb. split; intros (j & d & ? & Hin & ?); exists j, d;
        specialize (Hj j d Hin); split_and!; done || lia.
    - replace (length (zlists m) - s)%nat with 0%nat by lia. exists false. split; [done |].
      split; [done |]. intros (j & d & ? & Hin & _). specialize (Hj j d Hin). lia. }
  exists b. rewrite bind_Done. split; [done |]. rewrite Hb. split.
  - intros (j & d & Hsj & Hin & Hx) x Hx'. exists j, d. split; [done |].
    destruct (wf_bound m j d Hwf Hin) as (_ & _ & Hjd & _).
    pose proof (down_contains s j addr Hsj). rewrite (down_unique j addr d Hjd Hx) in *.
    rewrite (down_id s addr Hd) in *. unfold in_block in *. lia.
  - intros Hfree. destruct (run_in_block _ _ _ s addr (bw_blocks _ _ Hwf) Hd) as (j & Hsj & Hin).
    { intros x Hx. by apply is_free_cover, Hfree. }
    exists j, (down j addr). split_and!; [done | done | apply down_bounds].
Qed.

Lemma free_ok m addr s : buddy_wf limit m -> (0 < free_nodes m)%nat ->
  (s < length (zlists m))%nat -> (bsize s | addr) -> 0 <= addr -> addr + bsize s <= limit ->
  (forall x, in_block s addr x -> ~ is_free m x) ->
  exists m', BuddyAllocator_free m addr (2 ^ Z.of_nat s) = Done (Ok (), m') /\ given m s addr m'.
Proof.
  intros Hwf Hn Hs Hd H0 Hlim Hnf. pose proof (bw_len _ _ Hwf) as Hl.
  unfold BuddyAllocator_free. pose proof (pow2_pos s). pose proof (bsize_pos s).
  destruct (_ =? 0) eqn:E; bool_to_prop; [lia |].
  destruct (is_page_free_ok m addr s Hwf ltac:(lia) Hd) as (b & -> & Hb). rewrite bind_Done.
  destruct b.
  { destruct (Hnf addr); [| apply Hb; [done |]]; unfold in_block; lia. }
  rewrite next_power_of_two_pow2, ilog2_pow2 by lia. unfold coalesce. cbn [zones_len ZoneModel_ops].
  destruct (coalesce_from_ok m addr s (length (zlists m) - s) Hwf Hn ltac:(lia) Hd H0 Hlim)
    as (m' & j & rest & -> & Hj & Hb1 & Hb2 & Hnb & Hjl & Hlen & Hn').
  exists m'. rewrite bind_Done. split; [done |].
  apply (merge_given m m' s j addr rest); done || lia.
Qed.

Lemma free_already_free m addr s : buddy_wf limit m -> (s <= 51)%nat -> (bsize s | addr) ->
  (forall x, in_block s addr x -> is_free m x) ->
  BuddyAllocator_free m addr (2 ^ Z.of_nat s) = Done (Err FreeOfAlreadyFree, m).
Proof.
  intros Hwf Hs Hd Hfree. unfold BuddyAllocator_free. pose proof (pow2_pos s).
  destruct (_ =? 0) eqn:E; bool_to_prop; [lia |].
  destruct (is_page_free_ok m addr s Hwf Hs Hd) as (b & -> & Hb). rewrite bind_Done.
  by rewrite (proj2 Hb Hfree).
Qed.

(** ** The blocks are determined by the free bytes *)
Lemma blocks_NoDup n bs : wf_blocks n limit bs -> NoDup bs.
Proof.
  induction bs as [| [i b] bs IH]; intros Hwf; [constructor |]. apply NoDup_cons. split.
  - intros Hin. pose proof (bsize_pos i).
    apply (once_cons i b bs b (wf_once _ _ _ Hwf) ltac:(unfold in_block; lia) i b Hin).
    unfold in_block. lia.
  - by eapply IH, wf_remove.
Qed.

Lemma blocks_canonical_half n bs cs : wf_blocks n limit bs -> wf_blocks n limit cs ->
  (forall x, (0 < cover bs x)%nat <-> (0 < cover cs x)%nat) ->
  forall i b, (i, b) ∈ bs -> (i, b) ∈ cs.
Proof.
  intros Hb Hc Heq i b Hin. destruct (wf_block _ _ _ Hb i b Hin) as (_ & Hd & _).
  destruct (run_in_block _ _ _ i b Hc Hd) as (j & Hij & Hj).
  { intros x Hx. apply Heq. by apply (cover_elem bs i b). }
  destruct (run_in_block _ _ _ j (down j b) Hb (down_divide j b)) as (k & Hjk & Hk).
  { intros x Hx. apply Heq. by apply (cover_elem cs j (down j b)). }
  rewrite down_down in Hk by done. pose proof (bsize_pos i).
  destruct (decide ((k, down k b) = (i, b))) as [[= -> E] | Hne].
  - assert (j = i) as -> by lia. by rewrite E in Hj.
  - apply elem_of_Permutation in Hin as [rest Hr]. rewrite Hr in Hk.
    apply elem_of_cons in Hk as [? | Hk]; [done |]. exfalso.
    apply (once_cons i b rest b) with (j := k) (c := down k b);
      [intros x; rewrite <- Hr; apply Hb | unfold in_block; lia | done | apply down_bounds].
Qed.

Lemma blocks_canonical n bs cs : wf_blocks n limit bs -> wf_blocks n limit cs ->
  (forall x, (0 < cover bs x)%nat <-> (0 < cover cs x)%nat) -> bs ≡ₚ cs.
Proof.
  intros Hb Hc Heq. apply NoDup_Permutation; [by eapply blocks_NoDup | by eapply blocks_NoDup |].
  intros [i b]. split; eapply blocks_canonical_half; done.
Qed.

(** ** [break_into_buckets_n_free] *)
Definition pages (id total x : Z) : Prop := id * BASIC_PAGE_SIZE <= x < (id + total) * BASIC_PAGE_SIZE.

Lemma pages_split id p total x : 0 <= p <= total ->
  pages id total x <-> pages id p x \/ pages (id + p) (total - p) x.
Proof. unfold pages, BASIC_PAGE_SIZE. lia. Qed.

Lemma largest_bucket_ok id total n : 0 < total -> (n <= 51)%nat -> (0 < n)%nat ->
  exists i, largest_bucket id total n = Done (Some (2 ^ Z.of_nat i)) /\ (i < n)%nat /\
    (2 ^ Z.of_nat i | id) /\ 2 ^ Z.of_nat i <= total /\
    (forall k, (i < k < n)%nat -> (2 ^ Z.of_nat k | id) -> total < 2 ^ Z.of_nat k).
Proof.
  intros Ht Hn H0. induction n as [| n IH]; [lia |]. cbn [largest_bucket].
  pose proof (pow2_pos n). rewrite usize_pow2_ok, bind_Done, usize_rem_ok, bind_Done by lia.
  destruct (decide ((2 ^ Z.of_nat n | id) /\ 2 ^ Z.of_nat n <= total)) as [[Hd Hle] | Hno].
  - rewrite (proj2 (mod0_divide _ _ (pow2_pos n)) Hd), (proj2 (Z.leb_le _ _) Hle). cbn.
    exists n. split_and!; done || lia.
  - assert ((id mod 2 ^ Z.of_nat n =? 0) && (2 ^ Z.of_nat n <=? total) = false) as ->.
    { apply andb_false_iff. rewrite Z.eqb_neq, Z.leb_gt, mod0_divide by done.
      destruct (decide (2 ^ Z.of_nat n | id)); [right | by left].
      destruct (decide (total < 2 ^ Z.of_nat n)); [done | destruct Hno; split; [done | lia]]. }
    destruct n as [| n].
    { destruct Hno. split; [apply Z.divide_1_l | cbn; lia]. }
    destruct IH as (i & -> & Hi & Hd & Hle & Hmax); [lia | lia |].
    exists i. split_and!; try done; [lia |]. intros k Hk Hkd.
    destruct (decide (k = S n)) as [-> |]; [| apply Hmax; done || lia].
    destruct (decide (total < 2 ^ Z.of_nat (S n))); [done |]. destruct Hno. split; [done | lia].
Qed.

(** [m'] is [m] with the pages of the range given back, by at most [k] nodes. *)
Record spanned (k : nat) (m : ZoneModel) (id total : Z) (m' : ZoneModel) : Prop := {
  spanned_wf : buddy_wf limit m';
  spanned_free x : is_free m' x <-> is_free m x \/ pages id total x;
  spanned_nodes : node_count m' = node_count m;
  spanned_len : length (zlists m') = length (zlists m);
  spanned_room : (free_nodes m <= k + free_nodes m')%nat;
}.

(** What a range that is to be freed has to satisfy. *)
Record span_pre (k : nat) (m : ZoneModel) (id total : Z) : Prop := {
  sp_wf : buddy_wf limit m;
  sp_id : 0 <= id;
  sp_total : 0 <= total;
  sp_limit : (id + total) * BASIC_PAGE_SIZE <= limit;
  sp_not_free x : pages id total x -> ~ is_free m x;
  sp_nodes : (k <= free_nodes m)%nat;
}.

Lemma block_pages i id x : in_block i (id * BASIC_PAGE_SIZE) x <-> pages id (2 ^ Z.of_nat i) x.
Proof. unfold in_block, pages. rewrite bsize_pages. lia. Qed.

Lemma break_step fuel k m id total : 0 < total -> span_pre (S k) m id total ->
  exists i m1, length (zlists m1) = length (zlists m) /\
    (i < length (zlists m))%nat /\ (2 ^ Z.of_nat i | id) /\ 2 ^ Z.of_nat i <= total /\
    (forall k, (i < k < length (zlists m))%nat -> (2 ^ Z.of_nat k | id) -> total < 2 ^ Z.of_nat k) /\
    break_from (S fuel) m id total = break_from fuel m1 (id + 2 ^ Z.of_nat i) (total - 2 ^ Z.of_nat i) /\
    span_pre k m1 (id + 2 ^ Z.of_nat i) (total - 2 ^ Z.of_nat i) /\
    (forall k' m2, spanned k' m1 (id + 2 ^ Z.of_nat i) (total - 2 ^ Z.of_nat i) m2 ->
       spanned (S k') m id total m2).
Proof.
  intros Ht [Hwf Hid _ Hlim Hnf Hn]. pose proof (bw_len _ _ Hwf) as Hl.
  pose proof (bw_limit _ _ Hwf) as Hll.
  assert (0 < length (zlists m))%nat as Hpos.
  { destruct (length (zlists m)); [| lia]. change (bsize 0) with BASIC_PAGE_SIZE in Hll.
    unfold BASIC_PAGE_SIZE in *. lia. }
  destruct (largest_bucket_ok id total _ Ht Hl Hpos) as (i & Hlb & Hi & Hd & Hle & Hmax).
  pose proof (pow2_pos i) as Hp. pose proof (bsize_pages i) as Hbp. pose proof (bsize_51 _ Hl).
  change (2 ^ 63) with 9223372036854775808 in *.
  destruct (free_ok m (id * BASIC_PAGE_SIZE) i Hwf ltac:(lia) Hi) as (m1 & Hfree & [Hw1 Hf1 Hn1 Hl1 Hr1]).
  { rewrite Hbp. by apply Z.mul_divide_mono_r. }
  { unfold BASIC_PAGE_SIZE. lia. }
  { rewrite Hbp. unfold BASIC_PAGE_SIZE in *. lia. }
  { intros x Hx. apply Hnf, (pages_split id (2 ^ Z.of_nat i)); [lia |]. left. by apply block_pages. }
  exists i, m1. split_and!; try done.
  - cbn [break_from]. destruct (total =? 0) eqn:E; bool_to_prop; [lia |]. cbn [zones_len ZoneModel_ops].
    rewrite Hlb, bind_Done, usize_mul_ok, bind_Done, Hfree, bind_Done
      by (unfold usize_MAX, BASIC_PAGE_SIZE in *; lia). cbn [unwrap_ok].
    rewrite bind_Done, usize_sub_ok, bind_Done, usize_add_ok, bind_Done
      by (unfold usize_MAX, BASIC_PAGE_SIZE in *; lia). done.
  - split; [done | lia | lia | by replace (id + _ + _) with (id + total) by lia | | lia].
    intros x Hx. rewrite Hf1, block_pages. intros [Hx' | Hx'].
    + apply (Hnf x); [| done]. apply (pages_split id (2 ^ Z.of_nat i)); [lia | by right].
    + unfold pages in *. lia.
  - intros k' m2 [Hw2 Hf2 Hn2 Hl2 Hr2]. split; [done | | congruence | congruence | lia].
    intros x. rewrite Hf2, Hf1, block_pages, (pages_split id (2 ^ Z.of_nat i) total) by lia. tauto.
Qed.

Lemma spanned_nil m id k : buddy_wf limit m -> spanned k m id 0 m.
Proof.
  intros. split; try done; [| lia]. intros x. unfold pages. split; [tauto | intros [|]; [done | lia]].
Qed.

Lemma break_from_0 fuel m id : break_from fuel m id 0 = Done m.
Proof. by destruct fuel. Qed.

Lemma span_pre_le k k' m id total : (k <= k')%nat -> span_pre k' m id total -> span_pre k m id total.
Proof. intros ? []. split; try done. lia. Qed.

Lemma spanned_le k k' m id total m' : (k <= k')%nat -> spanned k m id total m' ->
  spanned k' m id total m'.
Proof. intros ? []. split; try done. lia. Qed.

(** An odd multiple of a power of two plus that power is a multiple of the next. *)
Lemma odd_multiple_next i id : (2 ^ Z.of_nat i | id) -> ~ (2 ^ Z.of_nat (S i) | id) ->
  (2 ^ Z.of_nat (S i) | id + 2 ^ Z.of_nat i).
Proof.
  intros [k ->]. rewrite pow2_S. intros Hn. destruct (Z.Even_or_Odd k) as [[q ->] | [q ->]].
  - destruct Hn. exists q. lia.
  - exists (q + 1). lia.
Qed.

(** Once the range is shorter than the alignment of its start, each bucket is
    smaller than the one before. *)
Lemma break_descending k : forall fuel m id total, (Z.to_nat total <= fuel)%nat ->
  span_pre k m id total -> (2 ^ Z.of_nat k | id) -> total < 2 ^ Z.of_nat k ->
  (k <= length (zlists m))%nat ->
  exists m', break_from fuel m id total = Done m' /\ spanned k m id total m'.
Proof.
  induction (lt_wf k) as [k _ IH]. intros fuel m id total Hfuel Hpre Hd Ht Hk.
  destruct (decide (total = 0)) as [-> | Hne].
  { exists m. rewrite break_from_0. split; [done | apply spanned_nil, Hpre]. }
  pose proof (sp_total _ _ _ _ Hpre). destruct fuel as [| fuel]; [lia |].
  destruct k as [| k]; [change (2 ^ Z.of_nat 0) with 1 in *; lia |].
  destruct (break_step fuel k m id total ltac:(lia) Hpre)
    as (i & m1 & El & Hi & Hid & Hle & Hmax & -> & Hpre1 & Hsp).
  assert (i <= k)%nat as Hik.
  { destruct (decide (i <= k)%nat); [done |]. pose proof (pow2_le_mono (S k) i). lia. }
  assert (total < 2 ^ Z.of_nat (S i)) as Hlt.
  { destruct (decide (i = k)) as [-> |]; [done |]. apply Hmax; [lia |].
    apply (Z.divide_trans _ (2 ^ Z.of_nat (S k))); [apply pow2_divide; lia | done]. }
  rewrite pow2_S in Hlt. pose proof (pow2_pos i).
  destruct (IH i ltac:(lia) fuel m1 (id + 2 ^ Z.of_nat i) (total - 2 ^ Z.of_nat i) ltac:(lia)
      (span_pre_le i k _ _ _ Hik Hpre1))
    as (m2 & -> & Hs2); [by apply Z.divide_add_r | lia | lia |].
  exists m2. split; [done |]. apply (spanned_le (S i)); [lia | by apply Hsp].
Qed.

(** Before that, each bucket is larger than the one before. *)
Lemma break_ascending g : forall fuel m id total a, (Z.to_nat total <= fuel)%nat ->
  (g = length (zlists m) - a)%nat -> (a <= length (zlists m))%nat -> (2 ^ Z.of_nat a | id) ->
  span_pre (g + length (zlists m)) m id total ->
  exists m', break_from fuel m id total = Done m' /\ spanned (g + length (zlists m)) m id total m'.
Proof.
  induction (lt_wf g) as [g _ IH]. intros fuel m id total a Hfuel Hg Ha Hd Hpre.
  destruct (decide (total < 2 ^ Z.of_nat a)) as [Hlt | Hge].
  { destruct (break_descending a fuel m id total Hfuel) as (m' & -> & Hs); try done.
    - by apply (span_pre_le _ (g + length (zlists m))); [lia |].
    - exists m'. split; [done |]. by apply (spanned_le a); [lia |]. }
  pose proof (pow2_pos a). destruct fuel as [| fuel]; [lia |].
  destruct (g + length (zlists m))%nat as [| k] eqn:Ek.
  { destruct Hpre as [[_ Hll _] ? _ Hlim _ _]. assert (length (zlists m) = 0%nat) as E by lia.
    rewrite E in Hll. change (bsize 0) with BASIC_PAGE_SIZE in Hll. unfold BASIC_PAGE_SIZE in *. lia. }
  destruct (break_step fuel k m id total ltac:(lia) Hpre)
    as (i & m1 & El & Hi & Hid & Hle & Hmax & -> & Hpre1 & Hsp).
  assert (total < 2 ^ Z.of_nat (length (zlists m))) as Htop.
  { destruct Hpre as [[_ Hll _] ? _ Hlim _ _]. rewrite bsize_pages in Hll.
    unfold BASIC_PAGE_SIZE in *. lia. }
  assert (a <= i)%nat as Hai.
  { destruct (decide (a <= i)%nat); [done |].
    destruct (decide (a < length (zlists m))%nat); [specialize (Hmax a ltac:(lia) Hd); lia |].
    assert (a = length (zlists m)) as E by lia. rewrite E in Hge. lia. }
  destruct (decide (2 ^ Z.of_nat (S i) | id)) as [Hdi | Hnd].
  - assert (total < 2 ^ Z.of_nat (S i)) as Hlt.
    { destruct (decide (S i = length (zlists m))) as [-> |]; [done | apply Hmax; [lia | done]]. }
    rewrite pow2_S in Hlt. pose proof (pow2_pos i).
    destruct (break_descending i fuel m1 (id + 2 ^ Z.of_nat i) (total - 2 ^ Z.of_nat i))
      as (m2 & -> & Hs2); try lia.
    { by apply (span_pre_le _ k); [lia |]. }
    { by apply Z.divide_add_r. }
    exists m2. split; [done |]. apply (spanned_le (S i)); [lia | by apply Hsp].
  - pose proof (pow2_pos i).
    destruct (IH (length (zlists m1) - S i)%nat ltac:(lia) fuel m1 (id + 2 ^ Z.of_nat i)
      (total - 2 ^ Z.of_nat i) (S i)) as (m2 & -> & Hs2); try lia.
    { by apply odd_multiple_next. }
    { by apply (span_pre_le _ k); [lia |]. }
    exists m2. split; [done |].
    apply (spanned_le (S (length (zlists m1) - S i + length (zlists m1)))); [lia | by apply Hsp].
Qed.

(** ** No more free blocks than pages *)
Definition cover_pages (bs : list block) (P : nat) : nat :=
  sum_list_with (fun p => cover bs (Z.of_nat p * BASIC_PAGE_SIZE)) (seq 0 P).

Lemma cover_pages_cons i b bs P : (BASIC_PAGE_SIZE | b) -> 0 <= b ->
  b + BASIC_PAGE_SIZE <= Z.of_nat P * BASIC_PAGE_SIZE ->
  (S (cover_pages bs P) <= cover_pages ((i, b) :: bs) P)%nat.
Proof.
  intros [p ->] H0 Hlim. unfold cover_pages.
  assert (seq 0 P = seq 0 (Z.to_nat p) ++ Z.to_nat p :: seq (S (Z.to_nat p)) (P - S (Z.to_nat p))) as ->.
  { unfold BASIC_PAGE_SIZE in *. pose proof (seq_app (Z.to_nat p) (S (P - S (Z.to_nat p))) 0) as E.
    replace (Z.to_nat p + S (P - S (Z.to_nat p)))%nat with P in E by lia. exact E. }
  rewrite !sum_list_with_app. cbn [sum_list_with cover].
  assert (forall l, sum_list_with (fun q => cover bs (Z.of_nat q * BASIC_PAGE_SIZE)) l <=
    sum_list_with (fun q => ind i (p * BASIC_PAGE_SIZE) (Z.of_nat q * BASIC_PAGE_SIZE) +
      cover bs (Z.of_nat q * BASIC_PAGE_SIZE)) l)%nat as Hm by (induction l; cbn; lia).
  rewrite (ind_in i (p * BASIC_PAGE_SIZE) (Z.of_nat (Z.to_nat p) * BASIC_PAGE_SIZE)).
  - pose proof (Hm (seq 0 (Z.to_nat p))). pose proof (Hm (seq (S (Z.to_nat p)) (P - S (Z.to_nat p)))). lia.
  - pose proof (bsize_pos i). unfold in_block, BASIC_PAGE_SIZE in *. lia.
Qed.

Lemma blocks_few n bs : wf_blocks n limit bs -> (length bs <= Z.to_nat (limit / BASIC_PAGE_SIZE))%nat.
Proof.
  intros Hwf. set (P := Z.to_nat (limit / BASIC_PAGE_SIZE)).
  assert (length bs <= cover_pages bs P)%nat as H1.
  { induction bs as [| [i b] bs IH]; [cbn; lia |].
    destruct (wf_block _ _ _ Hwf i b ltac:(by left)) as (_ & Hd & H0 & Hl).
    specialize (IH (wf_remove _ _ _ _ _ Hwf)). cbn [length].
    pose proof (bsize_divide_le 0 i b ltac:(lia) Hd) as Hd0.
    pose proof (bsize_mono 0 i ltac:(lia)) as Hm. change (bsize 0) with BASIC_PAGE_SIZE in *.
    assert (b + BASIC_PAGE_SIZE <= Z.of_nat P * BASIC_PAGE_SIZE) as Hend.
    { destruct Hd0 as [q ->]. unfold P, BASIC_PAGE_SIZE in *. rewrite Z2Nat.id by (apply Z.div_pos; lia).
      pose proof (Z.div_le_lower_bound limit 4096 (q + 1)). lia. }
    pose proof (cover_pages_cons i b bs P Hd0 H0 Hend). lia. }
  assert (cover_pages bs P <= P)%nat as H2; [| lia].
  unfold cover_pages. rewrite <- (length_seq P 0) at 2. generalize (seq 0 P) as l.
  induction l as [| p l IH]; cbn; [lia |].
  pose proof (wf_once _ _ _ Hwf (Z.of_nat p * BASIC_PAGE_SIZE)). lia.
Qed.
End wf.
