(* ===== verification/BuddyInit.v ===== *)
(** * Boot of the buddy allocator ([pmm/src/buddy.rs])

    [new_from_limine] carves the zone array and the freelist nodes out of one
    usable entry of the boot loader's memory map; [init_from_limine] then
    frees every usable entry and takes the pages of that buffer back.  The
    heap given to [create_freelist] is the memory behind the higher-half map,
    viewed as the nodes it is about to be used as. *)

From S2P Require Import Prelude LinkedList Pmm Buddy BuddySim BuddyBlocks BuddyCorrect.

Definition FREELIST_BUCKETS_SIZE : Z := 0x200000.

(** [size_of] and [align_of] of [LinkedList<PhysAddr>] (two pointers and a
    length) and of [Node<PhysAddr>] (an address and two pointers). *)
Definition size_of_LinkedList : Z := 24.
Definition size_of_Node : Z := 24.
Definition align_of_Node : Z := 8.

Definition create_zones (zones_count : nat) : list LinkedList :=
  replicate zones_count LinkedList_new.

(** [ptr.align_offset(align)]. *)
Definition align_offset (ptr align : Z) : Z := (- ptr) mod align.

(** [ptr.add(i)] for a pointer to nodes. *)
Definition slot (ptr : Z) (i : nat) : Z := ptr + Z.of_nat i * size_of_Node.

(** [for i in 0..buckets_count { freelist.push_node_back(ptr.add(i)) }]. *)
Fixpoint push_nodes (h : heap PhysAddr) (l : LinkedList) (ptr : Z) (i n : nat)
    : res (heap PhysAddr * LinkedList) :=
  match n with
  | O => Done (h, l)
  | S n =>
      '(h, l) ← LinkedList_push_node_back h l (slot ptr i);
      push_nodes h l ptr (S i) n
  end.

Definition freelist_start (zones_ptr : Z) (max_zone_level : nat) : Z :=
  let ptr := zones_ptr + Z.of_nat max_zone_level * size_of_LinkedList in
  ptr + align_offset ptr align_of_Node.

Definition buckets_count : nat := Z.to_nat (FREELIST_BUCKETS_SIZE / size_of_Node).

Definition create_freelist (h : heap PhysAddr) (zones_ptr : Z) (max_zone_level : nat)
    : res (heap PhysAddr * LinkedList) :=
  push_nodes h LinkedList_new (freelist_start zones_ptr max_zone_level) 0 buckets_count.

Definition zones_count_of (mem_map : list MemEntry) : res nat :=
  total_page_count ← get_page_count_from_mem_map mem_map;
  if total_page_count =? 0 then Panic Unwrapped else Done (ilog2 total_page_count + 1)%nat.

Definition total_buffer_size (zones_count : nat) : Z :=
  let zones_size := Z.of_nat zones_count * size_of_LinkedList in
  zones_size + zones_size mod align_of_Node + FREELIST_BUCKETS_SIZE.

Definition fits_buffer (size : Z) (e : MemEntry) : bool :=
  match entry_type e with USABLE => size <=? length_ e | _ => false end.

Definition new_from_limine (hhdm : Z) (h : heap PhysAddr) (mem_map : list MemEntry)
    : res (BuddyAllocator * MemEntry * Z) :=
  zones_count ← zones_count_of mem_map;
  let size := total_buffer_size zones_count in
  entry ← unwrap (List.find (fits_buffer size) mem_map);
  zones_ptr ← PhysAddr_add_hhdm_offset hhdm (base entry);
  if zones_ptr =? 0 then Panic Unwrapped else
  '(h, fl) ← create_freelist h zones_ptr zones_count;
  Done (mkBuddyAllocator h (create_zones zones_count) fl, entry, div_ceil size BASIC_PAGE_SIZE).

Section init.
Context {S : Type} `{ZoneOps S}.

(** [for entry in mem_map { if entry.entry_type == USABLE { .. } }]. *)
Fixpoint free_usable (s : S) (mem_map : list MemEntry) : res S :=
  match mem_map with
  | [] => Done s
  | e :: mem_map =>
      if decide (entry_type e = USABLE) then
        s ← break_into_buckets_n_free s (base e) (length_ e / BASIC_PAGE_SIZE);
        free_usable s mem_map
      else free_usable s mem_map
  end.

(** [for i in 0..page_count { pmm.allocate_at(..).expect(..) }]. *)
Fixpoint take_buffer (s : S) (b : Z) (i : Z) (n : nat) : res S :=
  match n with
  | O => Done s
  | Datatypes.S n =>
      o ← usize_mul i BASIC_PAGE_SIZE;
      addr ← usize_add b o;
      '(r, s) ← BuddyAllocator_allocate_at s addr 1;
      _ ← unwrap_ok r;
      take_buffer s b (i + 1) n
  end.
End init.

Definition init_from_limine (hhdm : Z) (h : heap PhysAddr) (mem_map : list MemEntry)
    : res (BuddyAllocator * MemEntry) :=
  '(pmm, entry, page_count) ← new_from_limine hhdm h mem_map;
  pmm ← free_usable pmm mem_map;
  pmm ← take_buffer pmm (base entry) 0 (Z.to_nat page_count);
  Done (pmm, entry).

(** ** The freelist *)

(** The node slots of the buffer are memory the kernel can write. *)
Definition slots_mapped (h : heap PhysAddr) (ptr : Z) (n : nat) : Prop :=
  forall i, (i < n)%nat -> is_Some (h !! slot ptr i).

Lemma push_nodes_ok n : forall h l xs ptr i, dll h l xs -> xs.*1 = slot ptr <$> seq 0 i ->
  slots_mapped h ptr (i + n) -> Z.of_nat (i + n) < usize_MAX ->
  exists h' l' ys, push_nodes h l ptr i n = Done (h', l') /\ dll h' l' ys /\
    ys.*1 = slot ptr <$> seq 0 (i + n).
Proof.
  induction n as [| n IH]; intros h l xs ptr i Hd Hxs Hm Hlt; cbn [push_nodes].
  { exists h, l, xs. rewrite Nat.add_0_r. done. }
  assert (length xs = i) as Hlen.
  { apply (f_equal length) in Hxs. by rewrite !length_fmap, length_seq in Hxs. }
  destruct (Hm i ltac:(lia)) as [nd Hnd].
  destruct (push_node_back_spec h l xs _ nd Hd Hnd) as (h1 & l1 & -> & Hd1 & Hso).
  { rewrite Hxs, list_elem_of_fmap. intros (k & E & Hk%elem_of_seq).
    unfold slot, size_of_Node in E. lia. }
  { lia. }
  rewrite bind_Done. destruct (IH h1 l1 _ ptr (S i) Hd1) as (h2 & l2 & ys & -> & Hd2 & Hys).
  - rewrite fmap_app, Hxs, seq_S, fmap_app. done.
  - intros k Hk. destruct (decide (slot ptr k ∈ slot ptr i :: xs.*1)) as [Hin | Hni].
    + assert (slot ptr k ∈ (xs ++ [(slot ptr i, data nd)]).*1) as Hin'.
      { rewrite fmap_app, elem_of_app. apply elem_of_cons in Hin as [-> | ?]; [right; by left | by left]. }
      apply list_elem_of_lookup in Hin' as [q Hq]. rewrite list_lookup_fmap in Hq.
      destruct ((xs ++ _) !! q) as [[p d] |] eqn:E; [| done]. injection Hq as <-.
      rewrite (dll_nodes _ _ _ Hd1 _ _ _ E). eauto.
    + rewrite (Hso _ Hni). apply Hm. lia.
  - lia.
  - exists h2, l2, ys. split_and!; [done | done |]. rewrite Hys. do 2 f_equal. lia.
Qed.

(** A freshly created allocator represents the model without free blocks. *)
Definition empty_model (zones_count : nat) : ZoneModel :=
  mkZoneModel (replicate zones_count []) buckets_count.

Lemma empty_blocks n : blocks (empty_model n) = [].
Proof.
  apply elem_of_nil_inv. intros [i b]. rewrite elem_of_blocks. intros (z & Hz & Hb).
  apply lookup_replicate in Hz as [-> _]. by apply not_elem_of_nil in Hb.
Qed.

Lemma empty_wf limit n : (n <= 51)%nat -> limit < bsize n -> buddy_wf limit (empty_model n).
Proof.
  intros Hn Hl. split; cbn [zlists empty_model]; rewrite ?length_replicate; [done | done |].
  rewrite empty_blocks. apply wf_nil.
Qed.

Lemma buckets_count_bound : Z.of_nat buckets_count < usize_MAX.
Proof. vm_compute. reflexivity. Qed.

Lemma fresh_repr h ptr n k : slots_mapped h ptr k -> Z.of_nat k < usize_MAX ->
  exists h' fl, push_nodes h LinkedList_new ptr 0 k = Done (h', fl) /\
    buddy_repr (mkBuddyAllocator h' (create_zones n) fl) (mkZoneModel (replicate n []) k).
Proof.
  intros Hm Hk.
  destruct (push_nodes_ok k h LinkedList_new [] ptr 0 (dll_new h) eq_refl Hm Hk)
    as (h' & fl & ys & -> & Hd & Hys).
  exists h', fl. split; [done |]. exists ys, (replicate n []).
  assert (length ys = k) as Hlen.
  { apply (f_equal length) in Hys. by rewrite !length_fmap, length_seq in Hys. }
  assert (concat (node_lists ys (replicate n [])) = ys.*1) as Ec.
  { unfold node_lists. rewrite fmap_replicate. cbn. rewrite <- (app_nil_r ys.*1) at 2. f_equal.
    clear. induction n; done. }
  split_and!.
  - split; cbn [mem zones freelist]; [done | | |].
    + unfold create_zones. apply Forall2_replicate. apply dll_new.
    + rewrite Ec. apply Hd.
    + rewrite Ec, length_fmap, Hlen. done.
  - cbn. by rewrite fmap_replicate.
  - done.
Qed.

Lemma create_freelist_ok h zones_ptr n : slots_mapped h (freelist_start zones_ptr n) buckets_count ->
  exists h' fl, create_freelist h zones_ptr n = Done (h', fl) /\
    buddy_repr (mkBuddyAllocator h' (create_zones n) fl) (empty_model n).
Proof. intros Hm. by apply fresh_repr; [| apply buckets_count_bound]. Qed.

(** A memory that is mapped: [k] slots from [ptr]. *)
Fixpoint raw_nodes (ptr : Z) (k : nat) : heap PhysAddr :=
  match k with
  | O => ∅
  | S k => <[slot ptr k := mkNode 0 None None]> (raw_nodes ptr k)
  end.

Lemma raw_nodes_mapped ptr k : slots_mapped (raw_nodes ptr k) ptr k.
Proof.
  intros i Hi. induction k as [| k IH]; [lia |]. cbn.
  destruct (decide (slot ptr k = slot ptr i)) as [-> | Hne].
  - rewrite lookup_insert_eq. eauto.
  - rewrite lookup_insert_ne by done. apply IH.
    destruct (decide (i = k)) as [-> |]; [done | lia].
Qed.

(** ** The memory map *)
Definition usable_at (e : MemEntry) (x : Z) : Prop :=
  entry_type e = USABLE /\ base e <= x < base e + length_ e.

(** What the boot protocol guarantees of the usable entries, with memory
    ending at [limit]. *)
Record entry_ok (limit : Z) (e : MemEntry) : Prop := {
  eo_base : (BASIC_PAGE_SIZE | base e);
  eo_length : (BASIC_PAGE_SIZE | length_ e);
  eo_base0 : 0 <= base e;
  eo_length0 : 0 <= length_ e;
  eo_limit : entry_type e = USABLE -> base e + length_ e <= limit;
}.

Definition entries_disjoint (e f : MemEntry) : Prop := forall x, usable_at e x -> ~ usable_at f x.

Definition mem_map_ok (limit : Z) (mem_map : list MemEntry) : Prop :=
  Forall (entry_ok limit) mem_map /\ ForallOrdPairs entries_disjoint mem_map.

Lemma entry_pages limit e x : entry_ok limit e -> entry_type e = USABLE ->
  pages (base e / BASIC_PAGE_SIZE) (length_ e / BASIC_PAGE_SIZE) x <-> usable_at e x.
Proof.
  intros [[b Hb] [l Hl] _ _ _] Hu. unfold pages, usable_at. rewrite Hb, Hl.
  rewrite !Z.div_mul by done. unfold BASIC_PAGE_SIZE. split; [intros; split; [done | lia] | lia].
Qed.

Lemma break_entry_ok limit m e : buddy_wf limit m -> entry_ok limit e -> entry_type e = USABLE ->
  (forall x, usable_at e x -> ~ is_free m x) -> (2 * length (zlists m) <= free_nodes m)%nat ->
  exists m', break_into_buckets_n_free m (base e) (length_ e / BASIC_PAGE_SIZE) = Done m' /\
    spanned limit (2 * length (zlists m)) m (base e / BASIC_PAGE_SIZE) (length_ e / BASIC_PAGE_SIZE) m'.
Proof.
  intros Hwf He Hu Hnf Hn. unfold break_into_buckets_n_free. pose proof He as [[b Hb] [l Hl] ? ? Hlim].
  replace (2 * length (zlists m))%nat with (length (zlists m) + length (zlists m))%nat in * by lia.
  apply (break_ascending limit (length (zlists m)) _ m _ _ 0); [lia | lia | lia | apply Z.divide_1_l |].
  split; try done.
  - rewrite Hb, Z.div_mul by done. unfold BASIC_PAGE_SIZE in *. lia.
  - rewrite Hl, Z.div_mul by done. unfold BASIC_PAGE_SIZE in *. lia.
  - specialize (Hlim Hu). rewrite Hb, Hl, !Z.div_mul in * by done. lia.
  - intros x Hx. apply Hnf. by apply (entry_pages limit).
Qed.

Lemma free_usable_ok limit mm : forall m, buddy_wf limit m -> mem_map_ok limit mm ->
  (forall e x, In e mm -> usable_at e x -> ~ is_free m x) ->
  (2 * length (zlists m) * length mm <= free_nodes m)%nat ->
  exists m', free_usable m mm = Done m' /\ buddy_wf limit m' /\
    length (zlists m') = length (zlists m) /\
    (forall x, is_free m' x <-> is_free m x \/ exists e, In e mm /\ usable_at e x) /\
    (free_nodes m <= 2 * length (zlists m) * length mm + free_nodes m')%nat /\ node_count m' = node_count m.
Proof.
  induction mm as [| e mm IH]; intros m Hwf [Hok Hdj] Hnf Hn; cbn [free_usable].
  { exists m. split_and!; try done; [| lia]. intros x. split; [by left | by intros [? | (? & [] & _)]]. }
  apply Forall_cons in Hok as [He Hok]. inversion Hdj as [| ? ? Hd1 Hd2]; subst. cbn [length] in Hn.
  destruct (decide (entry_type e = USABLE)) as [Hu | Hu].
  - destruct (break_entry_ok limit m e Hwf He Hu) as (m1 & -> & [Hw1 Hf1 Hn1 Hl1 Hr1]).
    { intros x. apply Hnf. by left. }
    { lia. }
    rewrite bind_Done. destruct (IH m1 Hw1 (conj Hok Hd2)) as (m2 & -> & Hw2 & Hl2 & Hf2 & Hr2 & Hc2).
    + intros f x Hf Hx. rewrite Hf1, (entry_pages limit) by done. intros [Hx' | Hx'].
      * by apply (Hnf f x); [right | |].
      * rewrite List.Forall_forall in Hd1. by apply (Hd1 f Hf x).
    + rewrite Hl1. lia.
    + rewrite Hl1 in *. exists m2. split_and!; try done; [| cbn [length]; lia | congruence].
      intros x. rewrite Hf2, Hf1, (entry_pages limit) by done. cbn [In]. naive_solver.
  - destruct (IH m Hwf (conj Hok Hd2)) as (m2 & -> & Hw2 & Hl2 & Hf2 & Hr2 & Hc2); [| lia |].
    { intros f x Hf. apply Hnf. by right. }
    exists m2. split_and!; try done; [| cbn [length]; lia].
    intros x. rewrite Hf2. cbn [In]. unfold usable_at. naive_solver.
Qed.

(** Page [i] of the range that starts at the page-aligned [b]. *)
Definition buffer_at (b i : Z) (n : nat) (x : Z) : Prop :=
  b + i * BASIC_PAGE_SIZE <= x < b + (i + Z.of_nat n) * BASIC_PAGE_SIZE.

Lemma take_buffer_ok limit b n : (BASIC_PAGE_SIZE | b) -> 0 <= b -> forall m i, 0 <= i ->
  buddy_wf limit m -> (forall x, buffer_at b i n x -> is_free m x) ->
  (n * length (zlists m) <= free_nodes m)%nat -> (0 < length (zlists m))%nat ->
  exists m', take_buffer m b i n = Done m' /\ buddy_wf limit m' /\
    length (zlists m') = length (zlists m) /\
    (forall x, is_free m' x <-> is_free m x /\ ~ buffer_at b i n x) /\
    (free_nodes m <= n * length (zlists m) + free_nodes m')%nat /\ node_count m' = node_count m.
Proof.
  intros Hd H0. induction n as [| n IH]; intros m i Hi Hwf Hfree Hn Hpos; cbn [take_buffer].
  { exists m. split_and!; try done. intros x. unfold buffer_at. split; [| tauto].
    intros ?. split; [done | lia]. }
  assert (is_free m (b + i * BASIC_PAGE_SIZE)) as Hfi.
  { apply Hfree. unfold buffer_at, BASIC_PAGE_SIZE. lia. }
  pose proof (is_free_bound limit m _ Hwf Hfi) as Hb. pose proof (bw_limit _ _ Hwf).
  pose proof (bsize_51 _ (bw_len _ _ Hwf)) as H51. change (2 ^ 63) with 9223372036854775808 in *.
  assert (0 <= i * BASIC_PAGE_SIZE) by (unfold BASIC_PAGE_SIZE; lia).
  rewrite usize_mul_ok, bind_Done, usize_add_ok, bind_Done by (unfold usize_MAX; lia).
  assert (forall x, in_block 0 (b + i * BASIC_PAGE_SIZE) x <-> buffer_at b i 1 x) as Hblk.
  { intros x. unfold in_block, buffer_at. change (bsize 0) with BASIC_PAGE_SIZE. lia. }
  assert (forall x, buffer_at b i (S n) x <-> buffer_at b i 1 x \/ buffer_at b (i + 1) n x) as Hsp.
  { intros x. unfold buffer_at, BASIC_PAGE_SIZE. lia. }
  destruct (allocate_at_cases limit m (b + i * BASIC_PAGE_SIZE) 0 Hwf)
    as [(m1 & Hal & [Hw1 _ Hf1 Hn1 Hl1 Hr1]) | [_ Hno]]; [lia | lia | | lia | |].
  { change (bsize 0) with BASIC_PAGE_SIZE. apply Z.divide_add_r; [done | apply Z.divide_factor_r]. }
  - change (2 ^ Z.of_nat 0) with 1 in Hal. rewrite Hal, bind_Done. cbn [unwrap_ok]. rewrite bind_Done.
    destruct (IH m1 (i + 1) ltac:(lia) Hw1) as (m2 & -> & Hw2 & Hl2 & Hf2 & Hr2 & Hc2).
    + intros x Hx. rewrite Hf1, Hblk. split; [apply Hfree; rewrite Hsp; by right |].
      unfold buffer_at, BASIC_PAGE_SIZE in *. lia.
    + lia.
    + lia.
    + exists m2. rewrite Hl1 in *. split_and!; try done; [| lia | congruence].
      intros x. rewrite Hf2, Hf1, Hblk, Hsp. tauto.
  - destruct Hno. intros x Hx. apply Hfree, Hsp. left. by apply Hblk.
Qed.

(** ** The simulation extends to the boot code *)
Lemma free_usable_sim b m mm : buddy_repr b m ->
  res_rel buddy_repr (free_usable b mm) (free_usable m mm).
Proof.
  revert b m. induction mm as [| e mm IH]; intros b m HR; cbn; [done |]. case_decide; [| by apply IH].
  eapply res_rel_bind; [by apply (break_sim buddy_repr) |]. intros. by apply IH.
Qed.

Lemma take_buffer_sim b m a i n : buddy_repr b m ->
  res_rel buddy_repr (take_buffer b a i n) (take_buffer m a i n).
Proof.
  revert b m i. induction n as [| n IH]; intros b m i HR; cbn [take_buffer]; [done |]. sim.
  eapply res_rel_bind; [by apply (allocate_at_sim buddy_repr) |].
  intros [r1 s1] [r2 m1] [Hr HR1]; cbn in *. subst r2. sim. by apply IH.
Qed.

Lemma zones_limit mem_map n : zones_count_of mem_map = Done n ->
  exists p, get_page_count_from_mem_map mem_map = Done p /\ (0 < n)%nat /\
    (0 <= p -> p * BASIC_PAGE_SIZE < bsize n).
Proof.
  unfold zones_count_of. intros H. res_inv. case_match; res_inv. bool_to_prop.
  exists v. split_and!; [done | lia |]. intros Hp. rewrite bsize_pages.
  apply Z.mul_lt_mono_pos_r; [done |]. unfold ilog2.
  replace (Z.of_nat (Z.to_nat (Z.log2 v) + 1)) with (Z.succ (Z.log2 v))
    by (pose proof (Z.log2_nonneg v); lia). apply Z.log2_spec. lia.
Qed.
