(* ===== verification/BuddyTheorems.v ===== *)
(** * The physical memory manager's guarantees

    The theorems about the allocator as the source has it: linked lists over a
    heap of nodes ([BuddyAllocator]), related by [buddy_repr] to the block
    lists they hold.  Each says that the call returns, with which result, and
    what happens to the set of free bytes [is_free]. *)

From S2P Require Import Prelude LinkedList Pmm Buddy BuddySim BuddyBlocks BuddyCorrect BuddyInit.

Lemma transfer {A} (x : res (A * BuddyAllocator)) (y : res (A * ZoneModel)) r m' :
  res_rel (with_state buddy_repr) x y -> y = Done (r, m') ->
  exists b', x = Done (r, b') /\ buddy_repr b' m'.
Proof.
  intros Hr ->. apply res_rel_Done_inv in Hr as ([r' b'] & -> & [E HR]). cbn in *. subst r'. eauto.
Qed.

Section claims.
Context (limit : Z) (b : BuddyAllocator) (m : ZoneModel).
Hypothesis Hrepr : buddy_repr b m.
Hypothesis Hwf : buddy_wf limit m.

(** C1: [allocate] either returns a block that was entirely free, aligned as
    asked and to its own size, and takes exactly that block from the free
    bytes; or reports [NoAvailableBlock], leaves the allocator as it was, and
    no free run of that size and alignment exists anywhere. *)
Theorem buddy_allocate_correct alignment page_count :
  (length (zlists m) <= free_nodes m)%nat ->
  0 < page_count <= 2 ^ Z.of_nat (length (zlists m)) ->
  is_power_of_two alignment = true -> BASIC_PAGE_SIZE * alignment <= usize_MAX ->
  exists r b' m', BuddyAllocator_allocate b alignment page_count = Done (r, b') /\
    buddy_repr b' m' /\
    match r with
    | Ok a => (BASIC_PAGE_SIZE * alignment | a) /\ (bsize (level page_count) | a) /\
        taken limit m (level page_count) a m'
    | Err e => e = NoAvailableBlock /\ m' = m /\
        forall a, (BASIC_PAGE_SIZE * alignment | a) -> (bsize (level page_count) | a) ->
          ~ forall x, in_block (level page_count) a x -> is_free m x
    end.
Proof.
  intros Hn Hpc Ha Hm. pose proof (allocate_sim buddy_repr b m alignment page_count Hrepr) as Hs.
  destruct (allocate_cases limit m alignment page_count Hwf Hn Hpc Ha Hm)
    as [(a & m' & E & Hal & Hd & Ht) | [E Hno]];
    destruct (transfer _ _ _ _ Hs E) as (b' & -> & HR); do 3 eexists; split_and!; done.
Qed.

(** C2: freeing an allocated, aligned block of [2^s] pages returns [Ok],
    makes exactly the bytes of that block free again and keeps the invariant
    (in particular, no two free buddies are left unmerged). *)
Theorem buddy_free_correct addr s :
  (0 < free_nodes m)%nat -> (s < length (zlists m))%nat ->
  (bsize s | addr) -> 0 <= addr -> addr + bsize s <= limit ->
  (forall x, in_block s addr x -> ~ is_free m x) ->
  exists b' m', BuddyAllocator_free b addr (2 ^ Z.of_nat s) = Done (Ok (), b') /\
    buddy_repr b' m' /\ given limit m s addr m'.
Proof.
  intros Hn Hs Hd H0 Hl Hnf. destruct (free_ok limit m addr s Hwf Hn Hs Hd H0 Hl Hnf) as (m' & E & Hg).
  destruct (transfer _ _ _ _ (free_sim buddy_repr b m addr _ Hrepr) E) as (b' & -> & HR). eauto.
Qed.

(** [allocate_at] takes exactly the block asked for when all of it is
    free, and otherwise reports [NoAvailableBlock] and changes nothing. *)
Theorem buddy_allocate_at_correct addr s :
  (length (zlists m) <= free_nodes m)%nat -> (s < length (zlists m))%nat ->
  (bsize s | addr) -> 0 <= addr < 2 ^ 63 ->
  exists r b' m', BuddyAllocator_allocate_at b addr (2 ^ Z.of_nat s) = Done (r, b') /\
    buddy_repr b' m' /\
    match r with
    | Ok _ => taken limit m s addr m'
    | Err e => e = NoAvailableBlock /\ m' = m /\ ~ forall x, in_block s addr x -> is_free m x
    end.
Proof.
  intros Hn Hs Hd Ha. pose proof (allocate_at_sim buddy_repr b m addr (2 ^ Z.of_nat s) Hrepr) as Hsim.
  destruct (allocate_at_cases limit m addr s Hwf Hn Hs Hd Ha) as [(m' & E & Ht) | [E Hno]];
    destruct (transfer _ _ _ _ Hsim E) as (b' & -> & HR); do 3 eexists; split_and!; done.
Qed.

(** C38: [is_page_free] answers whether the whole aligned block is free. *)
Theorem buddy_is_page_free_correct addr s : (s <= 51)%nat -> (bsize s | addr) ->
  exists r : bool, BuddyAllocator_is_page_free b addr (2 ^ Z.of_nat s) = Done (Ok r) /\
    (r = true <-> forall x, in_block s addr x -> is_free m x).
Proof.
  intros Hs Hd. rewrite (is_page_free_sim buddy_repr b m _ _ Hrepr).
  by apply (is_page_free_ok limit).
Qed.

(** A block that is already entirely free is not freed twice. *)
Theorem buddy_double_free_rejected addr s : (s <= 51)%nat -> (bsize s | addr) ->
  (forall x, in_block s addr x -> is_free m x) ->
  exists b', BuddyAllocator_free b addr (2 ^ Z.of_nat s) = Done (Err FreeOfAlreadyFree, b') /\
    buddy_repr b' m.
Proof.
  intros Hs Hd Hf. pose proof (free_already_free limit m addr s Hwf Hs Hd Hf) as E.
  apply (transfer _ _ _ _ (free_sim buddy_repr b m addr _ Hrepr) E).
Qed.

(** C32: freeing what [allocate] returned restores the zones exactly: the same
    free blocks at the same levels. *)
Theorem buddy_allocate_free_roundtrip alignment s a b1 :
  (length (zlists m) <= free_nodes m)%nat -> (s < length (zlists m))%nat ->
  is_power_of_two alignment = true -> BASIC_PAGE_SIZE * alignment <= usize_MAX ->
  BuddyAllocator_allocate b alignment (2 ^ Z.of_nat s) = Done (Ok a, b1) ->
  exists b2 m2, BuddyAllocator_free b1 a (2 ^ Z.of_nat s) = Done (Ok (), b2) /\
    buddy_repr b2 m2 /\ blocks m2 ≡ₚ blocks m /\ free_nodes m2 = free_nodes m.
Proof.
  intros Hn Hs Ha Hm Hal. pose proof (allocate_sim buddy_repr b m alignment (2 ^ Z.of_nat s) Hrepr) as Hsim.
  pose proof (pow2_pos s). pose proof (pow2_le_mono s (length (zlists m)) ltac:(lia)).
  destruct (allocate_cases limit m alignment (2 ^ Z.of_nat s) Hwf Hn ltac:(lia) Ha Hm)
    as [(a' & m1 & E & _ & Hd & Ht) | [E _]];
    destruct (transfer _ _ _ _ Hsim E) as (b1' & E' & HR1); rewrite Hal in E'; [| done].
  injection E' as <- <-. rewrite level_pow2 in *. destruct Ht as [Hw1 Hwas Hf1 Hc1 Hl1 Hr1].
  pose proof (bsize_pos s) as Hp.
  pose proof (is_free_bound limit m a Hwf (Hwas a ltac:(unfold in_block; lia))).
  pose proof (is_free_bound limit m (a + bsize s - 1) Hwf (Hwas (a + bsize s - 1) ltac:(unfold in_block; lia))).
  destruct (free_ok limit m1 a s Hw1) as (m2 & E2 & [Hw2 Hf2 Hc2 Hl2 _]); try done; try lia.
  { intros x Hx. rewrite Hf1. tauto. }
  destruct (transfer _ _ _ _ (free_sim buddy_repr b1 m1 a _ HR1) E2) as (b2 & -> & HR2).
  assert (blocks m2 ≡ₚ blocks m) as Eb.
  { apply (blocks_canonical limit (length (zlists m))); [rewrite <- Hl1, <- Hl2; apply Hw2 | apply Hwf |].
    intros x. rewrite <- !is_free_cover, Hf2, Hf1.
    destruct (decide (in_block s a x)) as [Hx |]; [specialize (Hwas x Hx) |]; tauto. }
  exists b2, m2. split_and!; try done. unfold node_count in *. rewrite Eb in *. lia.
Qed.

(** C33: [break_into_buckets_n_free] terminates without reaching its
    [unreachable!()], makes exactly the pages of the range free, and uses at
    most two nodes per zone, whatever the length of the range. *)
Theorem buddy_break_correct addr total_page_count :
  (BASIC_PAGE_SIZE | addr) -> 0 <= addr -> 0 <= total_page_count ->
  addr + total_page_count * BASIC_PAGE_SIZE <= limit ->
  (forall x, addr <= x < addr + total_page_count * BASIC_PAGE_SIZE -> ~ is_free m x) ->
  (2 * length (zlists m) <= free_nodes m)%nat ->
  exists b' m', break_into_buckets_n_free b addr total_page_count = Done b' /\
    buddy_repr b' m' /\ buddy_wf limit m' /\
    (forall x, is_free m' x <-> is_free m x \/ addr <= x < addr + total_page_count * BASIC_PAGE_SIZE) /\
    (free_nodes m <= 2 * length (zlists m) + free_nodes m')%nat.
Proof.
  intros Hd H0 Ht Hl Hnf Hn. set (e := mkMemEntry addr (total_page_count * BASIC_PAGE_SIZE) USABLE).
  assert (entry_ok limit e) as He.
  { split; cbn [base length_ entry_type e]; try done; [apply Z.divide_factor_r | unfold BASIC_PAGE_SIZE; lia]. }
  destruct (break_entry_ok limit m e Hwf He eq_refl) as (m' & E & [Hw1 Hf1 _ _ Hr1]); [| done |].
  { intros x [_ Hx]. by apply Hnf. }
  cbn [base length_ e] in E. rewrite Z.div_mul in E by done.
  pose proof (break_sim buddy_repr b m addr total_page_count Hrepr) as Hsim. rewrite E in Hsim.
  apply res_rel_Done_inv in Hsim as (b' & -> & HR). exists b', m'. split_and!; try done.
  intros x. rewrite Hf1, (entry_pages limit e x He eq_refl). unfold usable_at. cbn [base length_ entry_type e].
  tauto.
Qed.

(** Every rejected request is reported by its own error and changes
    nothing, and the guards are tested in the order of the source. *)
Theorem buddy_allocate_rejects alignment page_count : 0 <= page_count ->
  (page_count = 0 ->
     BuddyAllocator_allocate b alignment page_count = Done (Err EmptyAllocation, b)) /\
  (2 ^ Z.of_nat (length (zlists m)) < page_count ->
     BuddyAllocator_allocate b alignment page_count = Done (Err TooBigAllocation, b)) /\
  (0 < page_count <= 2 ^ Z.of_nat (length (zlists m)) -> is_power_of_two alignment = false ->
     BuddyAllocator_allocate b alignment page_count = Done (Err InvalidAlignment, b)).
Proof.
  intros H0. unfold BuddyAllocator_allocate. rewrite (sim_len (R := buddy_repr) b m Hrepr).
  cbn [zones_len ZoneModel_ops]. rewrite usize_pow2_ok by (pose proof (bw_len _ _ Hwf); lia).
  rewrite bind_Done. pose proof (pow2_pos (length (zlists m))).
  destruct (Z.eqb_spec page_count 0), (Z.ltb_spec (2 ^ Z.of_nat (length (zlists m))) page_count);
    split_and!; intros; try done; try lia.
  by match goal with H : is_power_of_two _ = false |- _ => rewrite H end.
Qed.
End claims.

(** ** Sequences of requests

    A client of the allocator: it asks for blocks and gives back blocks it
    holds.  [live] are the blocks it holds, with their level. *)
Inductive request :=
  | ReqAllocate (alignment page_count : Z)
  | ReqFree (k : nat).

Section serve.
Context {S : Type} `{ZoneOps S}.

Definition serve (st : S * list block) (q : request) : res (S * list block) :=
  let '(s, live) := st in
  match q with
  | ReqAllocate alignment page_count =>
      '(r, s) ← BuddyAllocator_allocate s alignment page_count;
      match r with
      | Ok a => Done (s, (level page_count, a) :: live)
      | Err _ => Done (s, live)
      end
  | ReqFree k =>
      match live !! k with
      | None => Done (s, live)
      | Some (i, a) =>
          '(r, s) ← BuddyAllocator_free s a (2 ^ Z.of_nat i);
          _ ← unwrap_ok r;
          Done (s, delete k live)
      end
  end.

Fixpoint serve_all (st : S * list block) (qs : list request) : res (S * list block) :=
  match qs with
  | [] => Done st
  | q :: qs => st ← serve st q; serve_all st qs
  end.
End serve.

(** A node for every page and zone: no state of the zones needs more. *)
Definition nodes_enough (limit : Z) (m : ZoneModel) : Prop :=
  (Z.to_nat (limit / BASIC_PAGE_SIZE) + length (zlists m) <= node_count m)%nat.

Lemma nodes_enough_room limit m : buddy_wf limit m -> nodes_enough limit m -> (length (zlists m) <= free_nodes m)%nat.
Proof.
  intros Hwf Hn. pose proof (blocks_few limit _ _ (bw_blocks _ _ Hwf)). unfold nodes_enough, node_count in Hn. lia.
Qed.

(** The state of the system: the allocator's invariant, and every byte of
    [initial] either free or held, never both. *)
Record consistent (limit : Z) (initial : Z -> nat) (m : ZoneModel) (live : list block) : Prop := {
  cs_wf : buddy_wf limit m;
  cs_split x : (cover live x + cover (blocks m) x = initial x)%nat;
  cs_live i a : (i, a) ∈ live -> (i < length (zlists m))%nat /\ (bsize i | a) /\
    0 <= a /\ a + bsize i <= limit;
  cs_once x : (initial x <= 1)%nat;
}.

(** The alignment of a request is a number of pages: in bytes it may overflow. *)
Definition alignment_fits (q : request) : Prop :=
  match q with
  | ReqAllocate alignment _ => is_power_of_two alignment = true -> BASIC_PAGE_SIZE * alignment <= usize_MAX
  | ReqFree _ => True
  end.

Definition counted (q : request) : Prop :=
  match q with ReqAllocate _ page_count => 0 <= page_count | ReqFree _ => True end.

#[export] Instance alignment_fits_dec q : Decision (alignment_fits q).
Proof. destruct q; cbn; apply _. Defined.

Lemma taken_cover limit m s a m' x : buddy_wf limit m -> taken limit m s a m' ->
  (ind s a x + cover (blocks m') x = cover (blocks m) x)%nat.
Proof.
  intros Hwf [Hw' Hwas Hf _ _ _]. specialize (Hwas x). specialize (Hf x).
  rewrite !is_free_cover in Hf. rewrite is_free_cover in Hwas.
  pose proof (wf_once _ _ _ (bw_blocks _ _ Hwf) x). pose proof (wf_once _ _ _ (bw_blocks _ _ Hw') x).
  unfold ind. case_decide; unfold in_block in *; lia.
Qed.

Lemma given_cover limit m s a m' x : buddy_wf limit m -> given limit m s a m' ->
  (in_block s a x -> ~ is_free m x) ->
  (cover (blocks m') x = ind s a x + cover (blocks m) x)%nat.
Proof.
  intros Hwf [Hw' Hf _ _ _] Hnf. specialize (Hf x).
  rewrite !is_free_cover in Hf. rewrite is_free_cover in Hnf.
  pose proof (wf_once _ _ _ (bw_blocks _ _ Hwf) x). pose proof (wf_once _ _ _ (bw_blocks _ _ Hw') x).
  unfold ind. case_decide; unfold in_block in *; lia.
Qed.

Lemma cover_delete live k i a x : live !! k = Some (i, a) ->
  (cover live x = ind i a x + cover (delete k live) x)%nat.
Proof. intros H. by rewrite (delete_perm _ _ _ H) at 1. Qed.

(** A run that is wholly free lies inside memory. *)
Lemma taken_bounds limit m s a m' : buddy_wf limit m -> taken limit m s a m' ->
  0 <= a /\ a + bsize s <= limit.
Proof.
  intros Hwf [_ Hwas _ _ _ _]. pose proof (bsize_pos s).
  pose proof (is_free_bound limit m a Hwf (Hwas a ltac:(unfold in_block; lia))).
  pose proof (is_free_bound limit m (a + bsize s - 1) Hwf
    (Hwas (a + bsize s - 1) ltac:(unfold in_block; lia))). lia.
Qed.

Section serve_ok.
Context (limit : Z) (initial : Z -> nat).

Lemma allocate_rejected m alignment page_count : buddy_wf limit m -> 0 <= page_count ->
  ~ (0 < page_count <= 2 ^ Z.of_nat (length (zlists m)) /\ is_power_of_two alignment = true) ->
  exists e, BuddyAllocator_allocate m alignment page_count = Done (Err e, m).
Proof.
  intros Hwf H0 Hn. unfold BuddyAllocator_allocate. cbn [zones_len ZoneModel_ops].
  rewrite usize_pow2_ok, bind_Done by (pose proof (bw_len _ _ Hwf); lia).
  destruct (Z.eqb_spec page_count 0); [eauto |].
  destruct (Z.ltb_spec (2 ^ Z.of_nat (length (zlists m))) page_count); [eauto |].
  destruct (is_power_of_two alignment) eqn:E; [| eauto]. destruct Hn. split; [lia | done].
Qed.

Definition same_shape (m m' : ZoneModel) : Prop := node_count m' = node_count m /\ length (zlists m') = length (zlists m).

Lemma serve_allocate_ok m live alignment page_count : consistent limit initial m live ->
  (length (zlists m) <= free_nodes m)%nat -> 0 <= page_count -> alignment_fits (ReqAllocate alignment page_count) ->
  exists m' live', serve (m, live) (ReqAllocate alignment page_count) = Done (m', live') /\
    consistent limit initial m' live' /\ same_shape m m'.
Proof.
  intros Hc Hroom H0 Hal. pose proof Hc as [Hwf Hsp Hl Ho]. cbn [serve].
  destruct (decide (0 < page_count <= 2 ^ Z.of_nat (length (zlists m)) /\
    is_power_of_two alignment = true)) as [[Hpc Ha] | Hbad].
  2:{ destruct (allocate_rejected m alignment page_count Hwf H0 Hbad) as [e ->].
      rewrite bind_Done. by exists m, live. }
  destruct (allocate_cases limit m alignment page_count Hwf Hroom Hpc Ha (Hal Ha))
    as [(a & m' & -> & _ & Hd & Ht) | [-> _]]; rewrite bind_Done; [| by exists m, live].
  pose proof (taken_bounds _ _ _ _ _ Hwf Ht) as [Ha0 Hae].
  exists m', ((level page_count, a) :: live). split; [done |].
  split; [split | split; [by eapply taken_nodes | by eapply taken_len]].
  - apply Ht.
  - intros x. rewrite <- (Hsp x), <- (taken_cover limit m _ a m' x Hwf Ht). cbn [cover]. lia.
  - intros i c. rewrite (taken_len _ _ _ _ _ Ht). intros [[= -> ->] | Hin]%elem_of_cons; [| by apply Hl].
    split_and!; try done. apply bsize_lt_inv. pose proof (bw_limit _ _ Hwf). lia.
  - done.
Qed.

Lemma serve_free_ok m live k : consistent limit initial m live -> (length (zlists m) <= free_nodes m)%nat ->
  exists m' live', serve (m, live) (ReqFree k) = Done (m', live') /\
    consistent limit initial m' live' /\ same_shape m m'.
Proof.
  intros Hc Hroom. pose proof Hc as [Hwf Hsp Hl Ho]. cbn [serve].
  destruct (live !! k) as [[i a] |] eqn:E; [| by exists m, live].
  destruct (Hl i a ltac:(by eapply list_elem_of_lookup_2)) as (Hi & Hd & Ha & Hae).
  assert (forall x, in_block i a x -> ~ is_free m x) as Hnf.
  { intros x Hx. rewrite is_free_cover. specialize (Hsp x). specialize (Ho x).
    rewrite (cover_delete _ _ _ _ x E), (ind_in i a x Hx) in Hsp. lia. }
  destruct (free_ok limit m a i Hwf ltac:(lia) Hi Hd Ha Hae Hnf) as (m' & -> & Hg).
  rewrite bind_Done. cbn [unwrap_ok]. rewrite bind_Done. exists m', (delete k live). split; [done |].
  split; [split | split; [by eapply given_nodes | by eapply given_len]].
  - apply Hg.
  - intros x. rewrite <- (Hsp x), (given_cover limit m i a m' x Hwf Hg (Hnf x)).
    rewrite (cover_delete _ _ _ _ x E). lia.
  - intros j c Hin. rewrite (given_len _ _ _ _ _ Hg). apply Hl.
    rewrite (delete_perm _ _ _ E). by right.
  - done.
Qed.

(** What stops a run: the alignment of its next request, or too few nodes. *)
Definition stopped_by (m : ZoneModel) (rest : list request) : Prop :=
  match rest with
  | [] => True
  | q :: _ => ~ alignment_fits q \/ (free_nodes m < length (zlists m))%nat
  end.

Lemma serve_all_ok qs : forall m live, consistent limit initial m live -> Forall counted qs ->
  exists served rest m' live', qs = served ++ rest /\ serve_all (m, live) served = Done (m', live') /\
    consistent limit initial m' live' /\ same_shape m m' /\ stopped_by m' rest.
Proof.
  induction qs as [| q qs IH]; intros m live Hc Hq; [by exists [], [], m, live |].
  apply Forall_cons in Hq as [Hq1 Hq].
  destruct (decide (length (zlists m) <= free_nodes m)%nat) as [Hroom | Hroom];
    [| exists [], (q :: qs), m, live; split_and!; try done; right; lia].
  destruct (decide (alignment_fits q)) as [Hal | Hal]; [| exists [], (q :: qs), m, live; split_and!; try done; by left].
  assert (exists m' live', serve (m, live) q = Done (m', live') /\ consistent limit initial m' live' /\ same_shape m m')
    as (m1 & live1 & E & Hc1 & Hs1).
  { destruct q; [by apply serve_allocate_ok | by apply serve_free_ok]. }
  destruct (IH m1 live1 Hc1 Hq) as (served & rest & m' & live' & -> & E' & Hc' & Hs' & Hst).
  exists (q :: served), rest, m', live'. split_and!; try done.
  - cbn [serve_all]. by rewrite E, bind_Done.
  - destruct Hs1, Hs'. split; congruence.
Qed.
End serve_ok.

Lemma serve_all_sim qs : forall b m live, buddy_repr b m ->
  res_rel (fun x y => buddy_repr (fst x) (fst y) /\ snd x = snd y)
    (serve_all (b, live) qs) (serve_all (m, live) qs).
Proof.
  induction qs as [| q qs IH]; intros b m live HR; cbn [serve_all]; [done |].
  eapply res_rel_bind with (R := fun x y => buddy_repr (fst x) (fst y) /\ snd x = snd y).
  - destruct q as [alignment page_count | k]; cbn [serve].
    + eapply res_rel_bind; [by apply (allocate_sim buddy_repr) |].
      intros [r1 s1] [r2 m1] [Hr HR1]; cbn in *. subst r2. by destruct r1.
    + destruct (live !! k) as [[i a] |]; [| done].
      eapply res_rel_bind; [by apply (free_sim buddy_repr) |].
      intros [r1 s1] [r2 m1] [Hr HR1]; cbn in *. subst r2. by destruct r1.
  - intros [b1 l1] [m1 l2] [HR1 E]; cbn in *. subst l2. by apply IH.
Qed.

(** C4: in a run of allocations and frees of held blocks, at every point each
    byte that was free at the start is either free or in exactly one held block:
    two live allocations never overlap and no memory is lost or invented.  The
    run is served to its end without a panic, unless it gets to a request whose
    alignment, in bytes, overflows a [usize]; or to a state in which fewer nodes
    are left in the freelist than there are zones, which with a node for each
    page and zone never happens. *)
Theorem buddy_requests_safe limit initial b m live qs : buddy_repr b m ->
  consistent limit initial m live -> Forall counted qs ->
  exists served rest b' m' live', qs = served ++ rest /\ serve_all (b, live) served = Done (b', live') /\
    buddy_repr b' m' /\ consistent limit initial m' live' /\ stopped_by m' rest /\
    (nodes_enough limit m -> match rest with [] => True | q :: _ => ~ alignment_fits q end).
Proof.
  intros HR Hc Hq. destruct (serve_all_ok limit initial qs m live Hc Hq) as (served & rest & m' & live' & -> & E & Hc' & [Hsn Hsl] & Hst).
  pose proof (serve_all_sim served b m live HR) as Hs. rewrite E in Hs.
  apply res_rel_Done_inv in Hs as ([b' l'] & E' & [HR' El]). cbn in *. subst l'.
  exists served, rest, b', m', live'. split_and!; try done. intros Hn. destruct rest as [| q rest]; [done |].
  destruct Hst as [Hst | Hst]; [done |]. assert (nodes_enough limit m') as Hn' by (unfold nodes_enough; by rewrite Hsn, Hsl).
  pose proof (nodes_enough_room _ _ (cs_wf _ _ _ _ Hc') Hn'). lia.
Qed.

(** ** Boot *)

(** What boot relies on: a memory map of page-aligned, disjoint usable entries
    below the end [p] pages of memory, an entry for the buffer, the buffer
    mapped behind the higher-half offset, and nodes for the splits. *)
Record boot_ok (hhdm : Z) (h : heap PhysAddr) (mem_map : list MemEntry) (p : Z) (e : MemEntry) : Prop := {
  bo_pages : get_page_count_from_mem_map mem_map = Done p;
  bo_pos : 0 < p;
  bo_zones : (ilog2 p + 1 <= 51)%nat;
  bo_map : mem_map_ok (p * BASIC_PAGE_SIZE) mem_map;
  bo_entry : List.find (fits_buffer (total_buffer_size (ilog2 p + 1))) mem_map = Some e;
  bo_hhdm : 0 < base e + hhdm <= usize_MAX;
  bo_slots : slots_mapped h (freelist_start (base e + hhdm) (ilog2 p + 1)) buckets_count;
  bo_nodes : (2 * (ilog2 p + 1) * length mem_map +
    Z.to_nat (div_ceil (total_buffer_size (ilog2 p + 1)) BASIC_PAGE_SIZE) * (ilog2 p + 1)
    <= buckets_count)%nat;
}.

Lemma total_buffer_pos n : 0 < total_buffer_size n.
Proof.
  unfold total_buffer_size, FREELIST_BUCKETS_SIZE, size_of_LinkedList.
  pose proof (Z.mod_pos_bound (Z.of_nat n * 24) align_of_Node eq_refl). lia.
Qed.

Lemma buffer_fits limit e n : entry_ok limit e -> fits_buffer (total_buffer_size n) e = true ->
  entry_type e = USABLE /\ div_ceil (total_buffer_size n) BASIC_PAGE_SIZE * BASIC_PAGE_SIZE <= length_ e.
Proof.
  intros [_ [l Hl] _ _ _] Hf. unfold fits_buffer in Hf. destruct (entry_type e); try done.
  bool_to_prop. split; [done |]. unfold div_ceil. rewrite Hl in *. unfold BASIC_PAGE_SIZE in *.
  apply Z.mul_le_mono_nonneg_r; [lia |].
  apply Z.lt_succ_r, Z.div_lt_upper_bound; lia.
Qed.

(** What [init_from_limine] makes, with the number of its zones and nodes. *)
Lemma buddy_init_ok hhdm h mem_map p e : boot_ok hhdm h mem_map p e ->
  exists b m, init_from_limine hhdm h mem_map = Done (b, e) /\ buddy_repr b m /\
    buddy_wf (p * BASIC_PAGE_SIZE) m /\ length (zlists m) = (ilog2 p + 1)%nat /\ node_count m = buckets_count /\
    forall x, is_free m x <-> (exists f, In f mem_map /\ usable_at f x) /\
      ~ base e <= x < base e + div_ceil (total_buffer_size (ilog2 p + 1)) BASIC_PAGE_SIZE * BASIC_PAGE_SIZE.
Proof.
  intros [Hp Hpos Hz Hmm He Hh Hsl Hn]. unfold init_from_limine, new_from_limine.
  set (n := (ilog2 p + 1)%nat) in *. set (limit := p * BASIC_PAGE_SIZE) in *.
  assert (zones_count_of mem_map = Done n) as Ezn.
  { unfold zones_count_of. rewrite Hp, bind_Done. destruct (Z.eqb_spec p 0); [lia | done]. }
  destruct (zones_limit _ _ Ezn) as (p' & Ep & Hn0 & Hlim). rewrite Hp in Ep. injection Ep as <-.
  specialize (Hlim ltac:(lia)). rewrite Ezn, bind_Done, He. cbn [unwrap]. rewrite bind_Done.
  unfold PhysAddr_add_hhdm_offset. rewrite usize_add_ok, bind_Done by lia.
  destruct (Z.eqb_spec (base e + hhdm) 0); [lia |].
  destruct (create_freelist_ok h (base e + hhdm) n Hsl) as (h' & fl & -> & HR). rewrite !bind_Done.
  apply find_some in He as [Hin Hfits]. destruct Hmm as [Hok Hdj].
  assert (entry_ok limit e) as Heok by (rewrite List.Forall_forall in Hok; by apply Hok).
  destruct (buffer_fits limit e n Heok Hfits) as [Hu Hbuf].
  set (k := div_ceil (total_buffer_size n) BASIC_PAGE_SIZE) in *.
  assert (0 <= k) as Hk by (apply Z.div_pos; [pose proof (total_buffer_pos n); unfold BASIC_PAGE_SIZE; lia | done]).
  assert (length (zlists (empty_model n)) = n) as Eln by apply length_replicate.
  assert (forall x, ~ is_free (empty_model n) x) as Hne.
  { intros x. rewrite is_free_cover, empty_blocks. cbn. lia. }
  destruct (free_usable_ok limit mem_map (empty_model n) (empty_wf limit n ltac:(lia) Hlim) (conj Hok Hdj))
    as (m1 & E1 & Hw1 & Hl1 & Hf1 & Hr1 & Hc1); [intros; apply Hne | cbn [free_nodes empty_model]; lia |].
  pose proof (free_usable_sim _ _ mem_map HR) as Hs1. rewrite E1 in Hs1.
  apply res_rel_Done_inv in Hs1 as (b1 & -> & HR1). rewrite bind_Done. cbn [free_nodes empty_model] in Hr1.
  destruct (take_buffer_ok limit (base e) (Z.to_nat k) (eo_base _ _ Heok) (eo_base0 _ _ Heok) m1 0)
    as (m2 & E2 & Hw2 & Hl2 & Hf2 & _ & Hc2); [done | done | | lia | lia |].
  { intros x Hx. apply Hf1. right. exists e. split; [done |]. split; [done |].
    unfold buffer_at in Hx. lia. }
  pose proof (take_buffer_sim b1 m1 (base e) 0 (Z.to_nat k) HR1) as Hs2. rewrite E2 in Hs2.
  apply res_rel_Done_inv in Hs2 as (b2 & -> & HR2). rewrite bind_Done.
  exists b2, m2. split_and!; try done; [congruence | |].
  { rewrite Hc2, Hc1. unfold node_count. rewrite empty_blocks. cbn [free_nodes empty_model length]. lia. }
  intros x. rewrite Hf2, Hf1. unfold buffer_at.
  rewrite Z2Nat.id by done. specialize (Hne x). split; intros [Hx Hb]; (split; [| lia]); tauto.
Qed.

(** C8: after [init_from_limine] the free memory is exactly the usable
    entries of the memory map minus the pages of the allocator's own buffer,
    and the allocator's invariant holds. *)
Theorem buddy_init_correct hhdm h mem_map p e : boot_ok hhdm h mem_map p e ->
  exists b m, init_from_limine hhdm h mem_map = Done (b, e) /\ buddy_repr b m /\
    buddy_wf (p * BASIC_PAGE_SIZE) m /\
    forall x, is_free m x <-> (exists f, In f mem_map /\ usable_at f x) /\
      ~ base e <= x < base e + div_ceil (total_buffer_size (ilog2 p + 1)) BASIC_PAGE_SIZE * BASIC_PAGE_SIZE.
Proof.
  intros Hb. destruct (buddy_init_ok _ _ _ _ _ Hb) as (b & m & E & HR & Hwf & _ & _ & Hf). by exists b, m.
Qed.

(** The linked-list allocator does what the same code does on the zone model. *)
Theorem buddy_refines_zones b m : buddy_repr b m ->
  (forall alignment page_count, res_rel (with_state buddy_repr)
     (BuddyAllocator_allocate b alignment page_count) (BuddyAllocator_allocate m alignment page_count)) /\
  (forall addr page_count, res_rel (with_state buddy_repr)
     (BuddyAllocator_allocate_at b addr page_count) (BuddyAllocator_allocate_at m addr page_count)) /\
  (forall addr page_count, res_rel (with_state buddy_repr)
     (BuddyAllocator_free b addr page_count) (BuddyAllocator_free m addr page_count)) /\
  (forall addr page_count,
     BuddyAllocator_is_page_free b addr page_count = BuddyAllocator_is_page_free m addr page_count) /\
  (forall addr total, res_rel buddy_repr
     (break_into_buckets_n_free b addr total) (break_into_buckets_n_free m addr total)).
Proof.
  intros HR. split_and!; intros.
  - by apply (allocate_sim buddy_repr).
  - by apply (allocate_at_sim buddy_repr).
  - by apply (free_sim buddy_repr).
  - by apply (is_page_free_sim buddy_repr).
  - by apply (break_sim buddy_repr).
Qed.

(** ** Memory as a set of free bytes
    What the physical memory manager promises, without zones or lists: a call
    at the free bytes [free], in a memory of [n] zones, may be answered by [r]
    and leave the free bytes [free']. *)
Inductive call :=
  | CallAllocate (alignment page_count : Z)
  | CallAllocateAt (addr : PhysAddr) (s : nat)
  | CallFree (addr : PhysAddr) (s : nat)
  | CallIsFree (addr : PhysAddr) (s : nat).

Inductive answer :=
  | AnswerBlock (r : result PhysAddr PmmError)
  | AnswerUnit (r : result unit PmmError)
  | AnswerBool (r : result bool PmmError).

Definition all_free (free : Z -> Prop) (s : nat) (a : Z) : Prop := forall x, in_block s a x -> free x.
Definition none_free (free : Z -> Prop) (s : nat) (a : Z) : Prop := forall x, in_block s a x -> ~ free x.
Definition unchanged (free free' : Z -> Prop) : Prop := forall x, free' x <-> free x.
Definition without (free free' : Z -> Prop) (s : nat) (a : Z) : Prop := forall x, free' x <-> free x /\ ~ in_block s a x.
Definition with_block (free free' : Z -> Prop) (s : nat) (a : Z) : Prop := forall x, free' x <-> free x \/ in_block s a x.

Definition valid_request (n : nat) (alignment page_count : Z) : Prop :=
  0 < page_count <= 2 ^ Z.of_nat n /\ is_power_of_two alignment = true.

(** A place for [page_count] pages. *)
Definition place_for (alignment page_count a : Z) : Prop :=
  (BASIC_PAGE_SIZE * alignment | a) /\ (bsize (level page_count) | a).

Definition may_answer (n : nat) (free : Z -> Prop) (c : call) (r : answer) (free' : Z -> Prop) : Prop :=
  match c, r with
  | CallAllocate alignment page_count, AnswerBlock (Ok a) =>
      valid_request n alignment page_count /\ place_for alignment page_count a /\
      all_free free (level page_count) a /\ without free free' (level page_count) a
  | CallAllocate alignment page_count, AnswerBlock (Err e) =>
      unchanged free free' /\
      (if page_count =? 0 then e = EmptyAllocation
       else if 2 ^ Z.of_nat n <? page_count then e = TooBigAllocation
       else if is_power_of_two alignment then
         e = NoAvailableBlock /\ forall a, place_for alignment page_count a -> ~ all_free free (level page_count) a
       else e = InvalidAlignment)
  | CallAllocateAt addr s, AnswerUnit (Ok _) => all_free free s addr /\ without free free' s addr
  | CallAllocateAt addr s, AnswerUnit (Err e) => e = NoAvailableBlock /\ ~ all_free free s addr /\ unchanged free free'
  | CallFree addr s, AnswerUnit (Ok _) => none_free free s addr /\ with_block free free' s addr
  | CallFree addr s, AnswerUnit (Err e) => e = FreeOfAlreadyFree /\ all_free free s addr /\ unchanged free free'
  | CallIsFree addr s, AnswerBool (Ok r) => (r = true <-> all_free free s addr) /\ unchanged free free'
  | _, _ => False
  end.

(** What a caller has to keep to: blocks of the levels of the zones, at
    addresses of their size, and no block freed of which only a part is used. *)
Definition permitted (limit : Z) (n : nat) (free : Z -> Prop) (c : call) : Prop :=
  match c with
  | CallAllocate alignment page_count =>
      0 <= page_count /\ (is_power_of_two alignment = true -> BASIC_PAGE_SIZE * alignment <= usize_MAX)
  | CallAllocateAt addr s => (s < n)%nat /\ (bsize s | addr) /\ 0 <= addr < 2 ^ 63
  | CallFree addr s => (s < n)%nat /\ (bsize s | addr) /\ 0 <= addr /\ addr + bsize s <= limit /\
      (all_free free s addr \/ none_free free s addr)
  | CallIsFree addr s => (s < n)%nat /\ (bsize s | addr)
  end.

(** The call on the allocator of the source. *)
Definition perform (b : BuddyAllocator) (c : call) : res (answer * BuddyAllocator) :=
  match c with
  | CallAllocate alignment page_count =>
      '(r, b) ← BuddyAllocator_allocate b alignment page_count; Done (AnswerBlock r, b)
  | CallAllocateAt addr s => '(r, b) ← BuddyAllocator_allocate_at b addr (2 ^ Z.of_nat s); Done (AnswerUnit r, b)
  | CallFree addr s => '(r, b) ← BuddyAllocator_free b addr (2 ^ Z.of_nat s); Done (AnswerUnit r, b)
  | CallIsFree addr s => r ← BuddyAllocator_is_page_free b addr (2 ^ Z.of_nat s); Done (AnswerBool r, b)
  end.

(** The states: lists of free blocks, merged, with nodes for all pages. *)
Definition in_order (limit : Z) (b : BuddyAllocator) (m : ZoneModel) : Prop :=
  buddy_repr b m /\ buddy_wf limit m /\ nodes_enough limit m.

(** What a call may do to the state that the next one finds. *)
Definition step_ok (limit : Z) (m : ZoneModel) (c : call) (x : res (answer * BuddyAllocator)) : Prop :=
  exists r b' m', x = Done (r, b') /\ in_order limit b' m' /\ length (zlists m') = length (zlists m) /\
    may_answer (length (zlists m)) (is_free m) c r (is_free m').

Lemma step_same limit b m b' c x r : in_order limit b m -> x = Done (r, b') -> buddy_repr b' m ->
  may_answer (length (zlists m)) (is_free m) c r (is_free m) -> step_ok limit m c x.
Proof. intros (_ & Hwf & Hn) E HR Hm. exists r, b', m. split_and!; done. Qed.

Lemma step_taken limit m b' m' s a c x r : nodes_enough limit m -> x = Done (r, b') -> buddy_repr b' m' -> taken limit m s a m' ->
  may_answer (length (zlists m)) (is_free m) c r (is_free m') -> step_ok limit m c x.
Proof.
  intros Hn E HR Ht Hm. exists r, b', m'. split_and!; try done; [| by eapply taken_len].
  split_and!; [done | apply Ht |]. unfold nodes_enough. by rewrite (taken_nodes _ _ _ _ _ Ht), (taken_len _ _ _ _ _ Ht).
Qed.

Lemma step_given limit m b' m' s a c x r : nodes_enough limit m -> x = Done (r, b') -> buddy_repr b' m' -> given limit m s a m' ->
  may_answer (length (zlists m)) (is_free m) c r (is_free m') -> step_ok limit m c x.
Proof.
  intros Hn E HR Ht Hm. exists r, b', m'. split_and!; try done; [| by eapply given_len].
  split_and!; [done | apply Ht |]. unfold nodes_enough. by rewrite (given_nodes _ _ _ _ _ Ht), (given_len _ _ _ _ _ Ht).
Qed.

Lemma step_allocate limit b m alignment page_count : in_order limit b m ->
  permitted limit (length (zlists m)) (is_free m) (CallAllocate alignment page_count) ->
  step_ok limit m (CallAllocate alignment page_count) (perform b (CallAllocate alignment page_count)).
Proof.
  intros Ho [H0 Hal]. pose proof Ho as (HR & Hwf & Hn). pose proof (nodes_enough_room _ _ Hwf Hn) as Hroom.
  destruct (buddy_allocate_rejects limit b m HR Hwf alignment page_count H0) as (He & Hb & Hi).
  destruct (decide (page_count = 0)) as [-> |].
  { eapply step_same; [done | cbn [perform]; by rewrite He, bind_Done | done | done]. }
  destruct (decide (2 ^ Z.of_nat (length (zlists m)) < page_count)) as [Hlt |].
  { eapply step_same; [done | cbn [perform]; by rewrite Hb, bind_Done | done |]. cbn [may_answer].
    rewrite (proj2 (Z.eqb_neq _ _)), (proj2 (Z.ltb_lt _ _)) by done. done. }
  assert (0 < page_count <= 2 ^ Z.of_nat (length (zlists m))) as Hpc by lia.
  destruct (is_power_of_two alignment) eqn:Ea.
  - pose proof (allocate_sim buddy_repr b m alignment page_count HR) as Hs.
    destruct (allocate_cases limit m alignment page_count Hwf Hroom Hpc Ea (Hal eq_refl)) as [(a & m' & E & Hd & Hd' & Ht) | [E Hno]];
      destruct (transfer _ _ _ _ Hs E) as (b' & E' & HR').
    + eapply step_taken; [done | cbn [perform]; by rewrite E', bind_Done | done | done |].
      split; [by split |]. split; [by split |]. split; [exact (taken_was_free _ _ _ _ _ Ht) | exact (taken_free _ _ _ _ _ Ht)].
    + eapply step_same; [done | cbn [perform]; by rewrite E', bind_Done | done |]. cbn [may_answer].
      rewrite (proj2 (Z.eqb_neq _ _)), (proj2 (Z.ltb_ge _ _)), Ea by lia. split; [done |]. split; [done |].
      intros a [Hd Hd']. by apply Hno.
  - eapply step_same; [done | cbn [perform]; by rewrite Hi, bind_Done | done |]. cbn [may_answer].
    rewrite (proj2 (Z.eqb_neq _ _)), (proj2 (Z.ltb_ge _ _)), Ea by lia. done.
Qed.

Lemma step_allocate_at limit b m addr s : in_order limit b m ->
  permitted limit (length (zlists m)) (is_free m) (CallAllocateAt addr s) ->
  step_ok limit m (CallAllocateAt addr s) (perform b (CallAllocateAt addr s)).
Proof.
  intros Ho (Hs & Hd & Ha). pose proof Ho as (HR & Hwf & Hn). pose proof (nodes_enough_room _ _ Hwf Hn) as Hroom.
  pose proof (allocate_at_sim buddy_repr b m addr (2 ^ Z.of_nat s) HR) as Hsim.
  destruct (allocate_at_cases limit m addr s Hwf Hroom Hs Hd Ha) as [(m' & E & Ht) | [E Hno]];
    destruct (transfer _ _ _ _ Hsim E) as (b' & E' & HR').
  - eapply step_taken; [done | cbn [perform]; by rewrite E', bind_Done | done | done |].
    split; [exact (taken_was_free _ _ _ _ _ Ht) | exact (taken_free _ _ _ _ _ Ht)].
  - eapply step_same; [done | cbn [perform]; by rewrite E', bind_Done | done | done].
Qed.

Lemma step_free limit b m addr s : in_order limit b m ->
  permitted limit (length (zlists m)) (is_free m) (CallFree addr s) ->
  step_ok limit m (CallFree addr s) (perform b (CallFree addr s)).
Proof.
  intros Ho (Hs & Hd & H0 & Hl & Hf). pose proof Ho as (HR & Hwf & Hn). pose proof (nodes_enough_room _ _ Hwf Hn) as Hroom.
  pose proof (free_sim buddy_repr b m addr (2 ^ Z.of_nat s) HR) as Hsim. pose proof (bw_len _ _ Hwf). destruct Hf as [Hf | Hf].
  - pose proof (free_already_free limit m addr s Hwf ltac:(lia) Hd Hf) as E.
    destruct (transfer _ _ _ _ Hsim E) as (b' & E' & HR').
    eapply step_same; [done | cbn [perform]; by rewrite E', bind_Done | done | done].
  - destruct (free_ok limit m addr s Hwf ltac:(lia) Hs Hd H0 Hl Hf) as (m' & E & Hg).
    destruct (transfer _ _ _ _ Hsim E) as (b' & E' & HR').
    eapply step_given; [done | cbn [perform]; by rewrite E', bind_Done | done | done |].
    split; [done | exact (given_free _ _ _ _ _ Hg)].
Qed.

(** C11: the allocator of the source, on linked lists, implements memory as a
    set of free bytes.  In a state in order, every call of the four operations
    that the caller is permitted ends without a panic, with an answer the
    specification allows at the free bytes found and left (each error with
    its reason, in the order of the guards), and in a state in order. *)
Theorem buddy_refines_memory limit b m c : in_order limit b m -> permitted limit (length (zlists m)) (is_free m) c ->
  exists r b' m', perform b c = Done (r, b') /\ in_order limit b' m' /\ length (zlists m') = length (zlists m) /\
    may_answer (length (zlists m)) (is_free m) c r (is_free m').
Proof.
  intros Ho Hp. destruct c as [alignment page_count | addr s | addr s | addr s].
  - by apply step_allocate.
  - by apply step_allocate_at.
  - by apply step_free.
  - destruct Ho as (HR & Hwf & Hn), Hp as [Hs Hd]. pose proof (bw_len _ _ Hwf).
    destruct (is_page_free_ok limit m addr s Hwf ltac:(lia) Hd) as (r & E & Hr).
    exists (AnswerBool (Ok r)), b, m. cbn [perform]. rewrite (is_page_free_sim buddy_repr b m _ _ HR), E, bind_Done.
    split_and!; done.
Qed.

(** ** A small allocator

    Three zones, ten nodes, seven pages of memory: the first four pages are
    free, as one block of level 2. *)
Definition ex_run : res BuddyAllocator :=
  '(h, fl) ← push_nodes (raw_nodes 8 10) LinkedList_new 8 0 10;
  '(_, b) ← BuddyAllocator_free (mkBuddyAllocator h (create_zones 3) fl) 0 4;
  Done b.
Definition ex_b : BuddyAllocator :=
  match ex_run with Done b => b | Panic _ => BuddyAllocator_uninit end.
Definition ex_m : ZoneModel := mkZoneModel [[]; []; [0]] 9.
Definition ex_limit : Z := 0x7000.

Lemma ex_repr : buddy_repr ex_b ex_m.
Proof.
  destruct (fresh_repr (raw_nodes 8 10) 8 3 10 (raw_nodes_mapped 8 10) eq_refl) as (h & fl & E & HR).
  unfold ex_b, ex_run. rewrite E, bind_Done.
  assert (BuddyAllocator_free (mkZoneModel (replicate 3 []) 10) 0 4 = Done (Ok (), ex_m)) as Em
    by (vm_compute; reflexivity).
  destruct (transfer _ _ _ _ (free_sim buddy_repr _ _ 0 4 HR) Em) as (b & Eb & HRb).
  rewrite Eb, bind_Done. done.
Qed.

Lemma ex_blocks : blocks ex_m = [(2%nat, 0)].
Proof. reflexivity. Qed.

Lemma ex_wf : buddy_wf ex_limit ex_m.
Proof.
  split; [cbn; lia | done |]. rewrite ex_blocks. split.
  - intros i b [[= -> ->] | []%not_elem_of_nil]%elem_of_cons.
    split_and!; [cbn; lia | by apply Z.divide_0_r | done | by vm_compute].
  - intros x. cbn. unfold ind. case_decide; lia.
  - intros i b [[= -> ->] | []%not_elem_of_nil]%elem_of_cons.
    intros [[=] | []%not_elem_of_nil]%elem_of_cons.
Qed.

Lemma ex_free x : is_free ex_m x <-> 0 <= x < 0x4000.
Proof.
  unfold is_free. rewrite ex_blocks. split.
  - intros (i & b & [[= -> ->] | []%not_elem_of_nil]%elem_of_cons & Hx). exact Hx.
  - intros Hx. exists 2%nat, 0. split; [by left | exact Hx].
Qed.

Lemma ex_room : (length (zlists ex_m) <= free_nodes ex_m)%nat.
Proof. cbn. lia. Qed.

Lemma buddy_allocate_correct_witness :
  exists r b' m', BuddyAllocator_allocate ex_b 1 2 = Done (r, b') /\ buddy_repr b' m' /\
    match r with
    | Ok a => (BASIC_PAGE_SIZE * 1 | a) /\ (bsize (level 2) | a) /\ taken ex_limit ex_m (level 2) a m'
    | Err e => e = NoAvailableBlock /\ m' = ex_m /\
        forall a, (BASIC_PAGE_SIZE * 1 | a) -> (bsize (level 2) | a) ->
          ~ forall x, in_block (level 2) a x -> is_free ex_m x
    end.
Proof.
  apply (buddy_allocate_correct ex_limit ex_b ex_m ex_repr ex_wf 1 2 ex_room); [done | done | done].
Defined.

Lemma buddy_free_correct_witness :
  exists b' m', BuddyAllocator_free ex_b 0x4000 (2 ^ Z.of_nat 1) = Done (Ok (), b') /\
    buddy_repr b' m' /\ given ex_limit ex_m 1 0x4000 m'.
Proof.
  apply (buddy_free_correct ex_limit ex_b ex_m ex_repr ex_wf 0x4000 1); [cbn; lia | cbn; lia | | lia | done |].
  - exists 2. reflexivity.
  - intros x [Hx _]. rewrite ex_free. lia.
Defined.

Lemma buddy_allocate_at_correct_witness :
  exists r b' m', BuddyAllocator_allocate_at ex_b 0x1000 (2 ^ Z.of_nat 0) = Done (r, b') /\
    buddy_repr b' m' /\
    match r with
    | Ok _ => taken ex_limit ex_m 0 0x1000 m'
    | Err e => e = NoAvailableBlock /\ m' = ex_m /\
        ~ forall x, in_block 0 0x1000 x -> is_free ex_m x
    end.
Proof.
  apply (buddy_allocate_at_correct ex_limit ex_b ex_m ex_repr ex_wf 0x1000 0 ex_room);
    [cbn; lia | by exists 1 | lia].
Defined.

Lemma buddy_is_page_free_correct_witness :
  exists r : bool, BuddyAllocator_is_page_free ex_b 0x2000 (2 ^ Z.of_nat 1) = Done (Ok r) /\
    (r = true <-> forall x, in_block 1 0x2000 x -> is_free ex_m x).
Proof.
  apply (buddy_is_page_free_correct ex_limit ex_b ex_m ex_repr ex_wf 0x2000 1); [lia | by exists 1].
Defined.

Lemma buddy_double_free_rejected_witness :
  exists b', BuddyAllocator_free ex_b 0x2000 (2 ^ Z.of_nat 1) = Done (Err FreeOfAlreadyFree, b') /\
    buddy_repr b' ex_m.
Proof.
  apply (buddy_double_free_rejected ex_limit ex_b ex_m ex_repr ex_wf 0x2000 1); [lia | by exists 1 |].
  intros x Hx. rewrite ex_free. change (in_block 1 8192 x) with (8192 <= x < 8192 + 8192) in Hx. lia.
Defined.

Definition ex_b1 : BuddyAllocator :=
  match BuddyAllocator_allocate ex_b 1 (2 ^ Z.of_nat 0) with
  | Done (_, b) => b | Panic _ => BuddyAllocator_uninit end.

Lemma buddy_allocate_free_roundtrip_witness :
  exists b2 m2, BuddyAllocator_free ex_b1 0 (2 ^ Z.of_nat 0) = Done (Ok (), b2) /\
    buddy_repr b2 m2 /\ blocks m2 ≡ₚ blocks ex_m /\ free_nodes m2 = free_nodes ex_m.
Proof.
  apply (buddy_allocate_free_roundtrip ex_limit ex_b ex_m ex_repr ex_wf 1 0 0 ex_b1 ex_room);
    [cbn; lia | done | done | vm_compute; reflexivity].
Defined.

Lemma buddy_break_correct_witness :
  exists b' m', break_into_buckets_n_free ex_b 0x4000 3 = Done b' /\
    buddy_repr b' m' /\ buddy_wf ex_limit m' /\
    (forall x, is_free m' x <-> is_free ex_m x \/ 0x4000 <= x < 0x4000 + 3 * BASIC_PAGE_SIZE) /\
    (free_nodes ex_m <= 2 * length (zlists ex_m) + free_nodes m')%nat.
Proof.
  apply (buddy_break_correct ex_limit ex_b ex_m ex_repr ex_wf 0x4000 3);
    [by exists 4 | lia | lia | done | | cbn; lia].
  intros x Hx. rewrite ex_free. unfold BASIC_PAGE_SIZE in Hx. lia.
Defined.

Lemma buddy_allocate_rejects_witness :
  (9 = 0 -> BuddyAllocator_allocate ex_b 3 9 = Done (Err EmptyAllocation, ex_b)) /\
  (2 ^ Z.of_nat (length (zlists ex_m)) < 9 ->
     BuddyAllocator_allocate ex_b 3 9 = Done (Err TooBigAllocation, ex_b)) /\
  (0 < 9 <= 2 ^ Z.of_nat (length (zlists ex_m)) -> is_power_of_two 3 = false ->
     BuddyAllocator_allocate ex_b 3 9 = Done (Err InvalidAlignment, ex_b)).
Proof. apply (buddy_allocate_rejects ex_limit ex_b ex_m ex_repr ex_wf 3 9). lia. Defined.

(** The last request has an alignment of 2^52 pages; everything else is served. *)
Lemma buddy_requests_safe_witness :
  exists served rest b' live',
    [ReqAllocate 1 2; ReqAllocate 2 1; ReqFree 1; ReqAllocate 3 0; ReqAllocate (2 ^ 52) 1] = served ++ rest /\
    serve_all (ex_b, []) served = Done (b', live') /\ match rest with [] => True | q :: _ => ~ alignment_fits q end.
Proof.
  destruct (buddy_requests_safe ex_limit (cover (blocks ex_m)) ex_b ex_m []
    [ReqAllocate 1 2; ReqAllocate 2 1; ReqFree 1; ReqAllocate 3 0; ReqAllocate (2 ^ 52) 1] ex_repr)
    as (served & rest & b' & m' & live' & Eq & E & _ & _ & _ & Hst).
  - split; [exact ex_wf | done | by intros ? ? []%not_elem_of_nil |]. intros x. apply (wf_once _ _ _ (bw_blocks _ _ ex_wf)).
  - repeat constructor; cbn; lia || done.
  - exists served, rest, b', live'. split; [exact Eq |]. split; [exact E |]. apply Hst. vm_compute. lia.
Defined.

Definition ex_map : list MemEntry := [mkMemEntry 0x100000 0x400000 USABLE].
Definition ex_hhdm : Z := 0xffff800000000000.

Lemma buddy_init_correct_witness :
  exists b m, init_from_limine ex_hhdm
      (raw_nodes (freelist_start (0x100000 + ex_hhdm) (ilog2 1280 + 1)) buckets_count) ex_map
      = Done (b, mkMemEntry 0x100000 0x400000 USABLE) /\ buddy_repr b m /\
    buddy_wf (1280 * BASIC_PAGE_SIZE) m /\
    forall x, is_free m x <-> (exists f, In f ex_map /\ usable_at f x) /\
      ~ 0x100000 <= x < 0x100000 +
          div_ceil (total_buffer_size (ilog2 1280 + 1)) BASIC_PAGE_SIZE * BASIC_PAGE_SIZE.
Proof.
  apply (buddy_init_correct ex_hhdm _ ex_map 1280 (mkMemEntry 0x100000 0x400000 USABLE)). split.
  - vm_compute. reflexivity.
  - lia.
  - vm_compute. lia.
  - split; [| repeat constructor]. repeat constructor; cbn; try (intros; vm_compute); try done;
      [by exists 256 | by exists 1024].
  - vm_compute. reflexivity.
  - vm_compute. split; [done | discriminate].
  - apply raw_nodes_mapped.
  - apply Nat.leb_le. vm_compute. reflexivity.
Defined.

Lemma ex_in_order : in_order ex_limit ex_b ex_m.
Proof. split; [exact ex_repr | split; [exact ex_wf | vm_compute; lia]]. Qed.

Lemma buddy_refines_memory_witness :
  (exists r b' m', perform ex_b (CallAllocate 1 2) = Done (r, b') /\ in_order ex_limit b' m' /\
     may_answer 3 (is_free ex_m) (CallAllocate 1 2) r (is_free m')) /\
  (exists r b' m', perform ex_b (CallFree 0x4000 0) = Done (r, b') /\
     may_answer 3 (is_free ex_m) (CallFree 0x4000 0) r (is_free m')).
Proof.
  split.
  - destruct (buddy_refines_memory ex_limit ex_b ex_m (CallAllocate 1 2) ex_in_order) as (r & b' & m' & E & Ho & _ & Ha).
    { split; [lia |]. intros _. vm_compute. discriminate. }
    exists r, b', m'. exact (conj E (conj Ho Ha)).
  - destruct (buddy_refines_memory ex_limit ex_b ex_m (CallFree 0x4000 0) ex_in_order) as (r & b' & m' & E & _ & _ & Ha).
    { split; [cbn; lia |]. split; [by exists 4 |]. split; [lia |]. split; [by vm_compute |]. right. intros x Hx Hf.
      rewrite ex_free in Hf. change (in_block 0 0x4000 x) with (0x4000 <= x < 0x4000 + 0x1000) in Hx. lia. }
    exists r, b', m'. exact (conj E Ha).
Defined.
