(* ===== verification/BuddyLaws.v ===== *)
(** * The buddy allocator keeps the promises of [PmmLaws]

    The interface through which the paging code sees the physical memory
    manager, discharged for the linked-list allocator. *)

From S2P Require Import Prelude LinkedList Pmm Buddy BuddySim BuddyBlocks BuddyCorrect BuddyInit BuddyTheorems.

(** ** The model of an allocator is unique *)
Lemma dll_functional {T} (h : heap T) l xs ys : dll h l xs -> dll h l ys -> xs = ys.
Proof.
  intros Hx Hy. pose proof (Iter_collect_from h l xs Hx 0 (S (length xs)) ltac:(lia)) as E1.
  pose proof (Iter_collect_from h l ys Hy 0 (S (length xs))) as E2.
  assert (length ys = length xs) as El by (pose proof (dll_len _ _ _ Hx); pose proof (dll_len _ _ _ Hy); lia).
  rewrite El, !Nat.sub_0_r, <- (dll_head _ _ _ Hy) in E2. rewrite Nat.sub_0_r, <- (dll_head _ _ _ Hx) in E1.
  rewrite !drop_0 in *. rewrite E1 in E2. by injection (E2 ltac:(lia)).
Qed.

Lemma Forall2_functional {A B} (R : A -> B -> Prop) l : (forall x y z, R x y -> R x z -> y = z) ->
  forall k k', Forall2 R l k -> Forall2 R l k' -> k = k'.
Proof.
  intros HR. induction l as [| x l IH]; intros k k' H1 H2.
  - by apply Forall2_nil_inv_l in H1, H2; subst.
  - apply Forall2_cons_inv_l in H1 as (y & k1 & Hy & H1 & ->), H2 as (z & k2 & Hz & H2 & ->).
    f_equal; [by eapply HR | by apply IH].
Qed.

Lemma buddy_repr_functional b m m' : buddy_repr b m -> buddy_repr b m' -> m = m'.
Proof.
  intros (fs & zs & [Hf Hz _ _] & E1 & E2) (fs' & zs' & [Hf' Hz' _ _] & E1' & E2').
  rewrite (dll_functional _ _ _ _ Hf Hf') in E2.
  rewrite (Forall2_functional _ _ (dll_functional (mem b)) _ _ Hz Hz') in E1.
  destruct m, m'; cbn in *; congruence.
Qed.

(** ** A failed allocation leaves the state as it was *)
Lemma find_bucket_err {S} `{ZoneOps S} alignment n : forall (s s' : S) i e,
  find_bucket_from s alignment i n = Done (Err e, s') -> s' = s.
Proof.
  induction n as [| n IH]; intros s s' i e Hf; cbn [find_bucket_from] in Hf; res_inv; [done |].
  destruct v as [[k a] |]; res_inv; [done | by eapply IH].
Qed.

Lemma allocate_err_same {S} `{ZoneOps S} (s s' : S) alignment page_count e :
  BuddyAllocator_allocate s alignment page_count = Done (Err e, s') -> s' = s.
Proof.
  unfold BuddyAllocator_allocate. destruct (page_count =? 0); [by intros [= _ <-] |].
  intros Hal. res_inv. destruct (_ <? page_count); [by injection Hal as _ <- |].
  destruct (negb _); [by injection Hal as _ <- |].
  destruct (checked_next_power_of_two page_count) as [p |]; [| by injection Hal as _ <-].
  res_inv. destruct v0 as [[[a j] | er] s1]; res_inv; [done |].
  by eapply find_bucket_err.
Qed.

(** ** The instance *)
Definition buddy_at (limit : Z) (b : BuddyAllocator) (m : ZoneModel) : Prop :=
  buddy_repr b m /\ buddy_wf limit m /\ (0 < length (zlists m))%nat /\
  (Z.to_nat (limit / BASIC_PAGE_SIZE) + length (zlists m) <= node_count m)%nat.

Definition buddy_ready (b : BuddyAllocator) : Prop := exists limit m, buddy_at limit b m.

Definition buddy_free_page (b : BuddyAllocator) (a : PhysAddr) : Prop :=
  (BASIC_PAGE_SIZE | a) /\ exists m, buddy_repr b m /\ forall x, in_block 0 a x -> is_free m x.

(** A page of the memory the allocator manages, none of it free. *)
Definition buddy_taken (b : BuddyAllocator) (a : PhysAddr) : Prop :=
  (BASIC_PAGE_SIZE | a) /\ 0 <= a /\ exists limit m, buddy_at limit b m /\ a + BASIC_PAGE_SIZE <= limit /\
    forall x, in_block 0 a x -> ~ is_free m x.

Lemma buddy_at_max l1 l2 b m1 m2 : buddy_at l1 b m1 -> buddy_at l2 b m2 -> m2 = m1 /\ buddy_at (Z.max l1 l2) b m1.
Proof.
  intros H1 H2. assert (m2 = m1) as -> by (eapply buddy_repr_functional; [apply H2 | apply H1]).
  split; [done |]. by destruct (Z.max_spec l1 l2) as [[_ ->] | [_ ->]].
Qed.

Lemma buddy_at_room limit b m : buddy_at limit b m -> (length (zlists m) <= free_nodes m)%nat.
Proof.
  intros (_ & Hwf & _ & Hn). pose proof (blocks_few limit _ _ (bw_blocks _ _ Hwf)). unfold node_count in Hn. lia.
Qed.

Lemma buddy_at_limit limit b m : buddy_at limit b m -> limit < 2 ^ 63.
Proof.
  intros (_ & Hwf & _). pose proof (bw_limit _ _ Hwf). pose proof (bsize_51 _ (bw_len _ _ Hwf)). lia.
Qed.

Lemma page_start a : in_block 0 a a.
Proof. unfold in_block. pose proof (bsize_pos 0). lia. Qed.

(** Pages that share a byte are equal. *)
Lemma page_unique a a' x : (BASIC_PAGE_SIZE | a) -> (BASIC_PAGE_SIZE | a') -> in_block 0 a x -> in_block 0 a' x -> a = a'.
Proof. intros Hd Hd' Hx Hx'. rewrite <- (down_unique 0 x a Hd Hx). by apply down_unique. Qed.

Lemma buddy_page_bounds b a : buddy_ready b -> buddy_free_page b a ->
  (BASIC_PAGE_SIZE | a) /\ 0 <= a < 2 ^ 63.
Proof.
  intros (limit & m & Hat) (Hd & m' & HR' & Hfree). split; [done |].
  pose proof (buddy_repr_functional _ _ _ (proj1 Hat) HR') as <-.
  pose proof (is_free_bound limit m a (proj1 (proj2 Hat)) (Hfree a (page_start a))).
  pose proof (buddy_at_limit _ _ _ Hat). lia.
Qed.

(** The two outcomes of the allocation of one page. *)
Lemma allocate_one limit b m : buddy_at limit b m ->
  (exists r b' m', pmm_allocate b 1 1 = Done (Ok r, b') /\ buddy_at limit b' m' /\ (BASIC_PAGE_SIZE | r) /\
     taken limit m 0 r m') \/
  (pmm_allocate b 1 1 = Done (Err NoAvailableBlock, b) /\ forall a, ~ buddy_free_page b a).
Proof.
  intros Hat. pose proof (buddy_at_room _ _ _ Hat) as Hroom. destruct Hat as (HR & Hwf & Hpos & Hn).
  pose proof (pow2_pos (length (zlists m))) as Hp2.
  pose proof (allocate_sim buddy_repr b m 1 1 HR) as Hsim. change (@pmm_allocate BuddyAllocator _) with
    (@BuddyAllocator_allocate BuddyAllocator _).
  destruct (allocate_cases limit m 1 1 Hwf Hroom ltac:(lia) eq_refl ltac:(by vm_compute))
    as [(r & m' & E & _ & Hd & Ht) | [E Hno]]; destruct (transfer _ _ _ _ Hsim E) as (b' & Eb & HR').
  - left. exists r, b', m'. change (level 1) with 0%nat in *. change (bsize 0) with BASIC_PAGE_SIZE in Hd.
    pose proof Ht as [Hw' _ _ Hc' Hl' _]. split_and!; try done. split_and!; [done | done | lia | lia].
  - right. pose proof (allocate_err_same _ _ _ _ _ Eb) as ->. split; [done |].
    intros a (Hda & m2 & HR2 & Hfa). pose proof (buddy_repr_functional _ _ _ HR HR2) as <-.
    apply (Hno a); [by rewrite Z.mul_1_r | done | done].
Qed.

Lemma taken_free_pages limit b b' m m' r : buddy_repr b m -> buddy_repr b' m' -> (BASIC_PAGE_SIZE | r) ->
  taken limit m 0 r m' -> forall a, buddy_free_page b' a <-> buddy_free_page b a /\ a <> r.
Proof.
  intros HR HR' Hd [_ Hwas Hf' _ _ _] a. split.
  - intros (Hda & m2 & HR2 & Hfa). pose proof (buddy_repr_functional _ _ _ HR' HR2) as <-. split.
    + split; [done |]. exists m. split; [done |]. intros x Hx. by apply Hf', Hfa.
    + intros ->. by destruct (proj1 (Hf' r) (Hfa r (page_start r))) as [_ []%(fun H => H (page_start r))].
  - intros [(Hda & m2 & HR2 & Hfa) Hne]. pose proof (buddy_repr_functional _ _ _ HR HR2) as <-.
    split; [done |]. exists m'. split; [done |]. intros x Hx. apply Hf'. split; [by apply Hfa |].
    intros Hxr. apply Hne. by apply (page_unique a r x).
Qed.

Lemma buddy_allocate_page b : buddy_ready b ->
  (exists r b', pmm_allocate b 1 1 = Done (Ok r, b') /\ buddy_ready b' /\ buddy_free_page b r /\
     (forall a, buddy_free_page b' a <-> buddy_free_page b a /\ a <> r) /\
     buddy_taken b' r /\ (forall a, buddy_taken b a -> buddy_taken b' a)) \/
  (pmm_allocate b 1 1 = Done (Err NoAvailableBlock, b) /\ forall a, ~ buddy_free_page b a).
Proof.
  intros (limit & m & Hat).
  destruct (allocate_one limit b m Hat) as [(r & b' & m' & E & Hat' & Hd & Ht) | Herr]; [left | by right].
  pose proof Ht as [_ Hwas Hf' _ _ _]. exists r, b'. split_and!; [done | by exists limit, m' | | | |].
  - split; [done |]. exists m. split; [apply Hat | done].
  - eapply taken_free_pages; [apply Hat | apply Hat' | done | done].
  - assert (is_free m (r + BASIC_PAGE_SIZE - 1)) as He.
    { apply Hwas. unfold in_block. change (bsize 0) with BASIC_PAGE_SIZE. unfold BASIC_PAGE_SIZE. lia. }
    pose proof (is_free_bound limit m _ (proj1 (proj2 Hat)) He).
    pose proof (is_free_bound limit m _ (proj1 (proj2 Hat)) (Hwas r (page_start r))).
    split_and!; [done | lia |]. exists limit, m'. split_and!; [done | lia |]. intros x Hx Hfx. by apply Hf' in Hfx as [_ ?].
  - intros a (Hda & H0 & l2 & m2 & Hat2 & Hle & Hnf). destruct (buddy_at_max _ _ _ _ _ Hat Hat2) as [-> Hmax].
    destruct (allocate_one _ b m Hmax) as [(r2 & b2 & m2 & E2 & Hat2' & _ & Ht2) | [E2 _]]; rewrite E in E2; [| done].
    injection E2 as <- <-. split_and!; [done | done |]. eexists _, m2. split_and!; [exact Hat2' | lia |].
    intros x Hx Hfx. apply (Hnf x Hx). by apply (taken_free _ _ _ _ _ Ht2) in Hfx as [? _].
Qed.

Lemma free_one limit b m a : buddy_at limit b m -> (BASIC_PAGE_SIZE | a) -> 0 <= a -> a + BASIC_PAGE_SIZE <= limit ->
  (forall x, in_block 0 a x -> ~ is_free m x) ->
  exists b' m', pmm_free b a 1 = Done (Ok (), b') /\ buddy_at limit b' m' /\ given limit m 0 a m'.
Proof.
  intros Hat Hd H0 Hl Hnf. pose proof (buddy_at_room _ _ _ Hat). destruct Hat as (HR & Hwf & Hpos & Hn).
  destruct (free_ok limit m a 0 Hwf ltac:(lia) Hpos Hd H0 Hl Hnf) as (m' & E & Hg).
  destruct (transfer _ _ _ _ (free_sim buddy_repr b m a _ HR) E) as (b' & Eb & HR').
  exists b', m'. split_and!; [done | | done]. pose proof Hg as [Hw' _ Hc' Hl' _]. split_and!; [done | done | lia | lia].
Qed.

Lemma buddy_free_taken b a : buddy_ready b -> buddy_taken b a ->
  exists b', pmm_free b a 1 = Done (Ok (), b') /\ buddy_ready b' /\
    (forall c, buddy_free_page b' c <-> buddy_free_page b c \/ c = a) /\
    (forall c, buddy_taken b c -> c <> a -> buddy_taken b' c).
Proof.
  intros _ (Hd & H0 & limit & m & Hat & Hle & Hnf).
  destruct (free_one limit b m a Hat Hd H0 Hle Hnf) as (b' & m' & E & Hat' & [_ Hf' _ _ _]).
  exists b'. split_and!; [done | by exists limit, m' | |].
  - intros c. split.
    + intros (Hdc & m2 & HR2 & Hfc). pose proof (buddy_repr_functional _ _ _ (proj1 Hat') HR2) as <-.
      destruct (decide (c = a)) as [-> | Hne]; [by right | left]. split; [done |]. exists m. split; [apply Hat |].
      intros x Hx. destruct (proj1 (Hf' x) (Hfc x Hx)) as [? | Hxa]; [done |]. destruct Hne. by apply (page_unique c a x).
    + intros Hc. split; [by destruct Hc as [[? _] | ->] |]. exists m'. split; [apply Hat' |]. intros x Hx. apply Hf'.
      destruct Hc as [(Hdc & m2 & HR2 & Hfc) | ->]; [left | by right].
      pose proof (buddy_repr_functional _ _ _ (proj1 Hat) HR2) as <-. by apply Hfc.
  - intros c (Hdc & Hc0 & l2 & m2 & Hat2 & Hle2 & Hnf2) Hne. destruct (buddy_at_max _ _ _ _ _ Hat Hat2) as [-> Hmax].
    destruct (free_one _ b m a Hmax Hd H0 ltac:(lia) Hnf) as (b2 & m2 & E2 & Hat2' & [_ Hf2 _ _ _]).
    rewrite E in E2. injection E2 as <-. split_and!; [done | done |]. eexists _, m2. split_and!; [exact Hat2' | lia |].
    intros x Hx [Hfx | Hxa]%Hf2; [by apply (Hnf2 x) |]. apply Hne. by apply (page_unique c a x).
Qed.

Lemma buddy_taken_used b a : buddy_ready b -> buddy_taken b a ->
  ~ buddy_free_page b a /\ (BASIC_PAGE_SIZE | a) /\ 0 <= a < 2 ^ 63.
Proof.
  intros _ (Hd & H0 & limit & m & Hat & Hle & Hnf). pose proof (buddy_at_limit _ _ _ Hat). split_and!; [| done | done |].
  - intros (_ & m2 & HR2 & Hf). pose proof (buddy_repr_functional _ _ _ (proj1 Hat) HR2) as <-.
    by apply (Hnf a (page_start a)), Hf, page_start.
  - unfold BASIC_PAGE_SIZE in *. lia.
Qed.

#[export] Instance buddy_pmm_laws : PmmLaws BuddyAllocator := {
  pmm_ready := buddy_ready;
  pmm_free_page := buddy_free_page;
  pmm_taken := buddy_taken;
  pmm_page_bounds := buddy_page_bounds;
  pmm_allocate_page := buddy_allocate_page;
  pmm_free_taken := buddy_free_taken;
  pmm_taken_used := buddy_taken_used;
}.
