(* ===== verification/PageFlags.v ===== *)
(** * Page sizes, entry flags and the page attribute table

    [Flags] and [PageSize] of [kernel/src/mem/paging.rs] with their x86-64
    methods ([paging/flags.rs], [paging/page_size.rs]), and the PAT of
    [paging/pat.rs].  Both types wrap one [usize], which is what they are
    here; the value of the [IA32_PAT] register is passed explicitly. *)

From S2P Require Import Prelude Pmm.

Abbreviation Flags := Z (only parsing).
Abbreviation PageSize := Z (only parsing).

Inductive PagingError :=
  | PageAlreadyPresent
  | PageNotPresent
  | PageFault
  | InvalidPageSize
  | InvalidPhysicalAddress
  | InvalidVirtualAddress
  | InvalidFlags
  | OutOfMemory
  | BadPageCountAndAddressCombination.

#[export] Instance PagingError_eq_dec : EqDecision PagingError.
Proof. solve_decision. Defined.

(** ** Flags *)
Definition Flags_get (f : Flags) (data : Z) : bool := negb (Z.land f data =? 0).
Definition Flags_set (f : Flags) (data : Z) (status : bool) : Flags :=
  if status then Z.lor f data else Z.land f (usize_not data).
Definition Flags_join (f other : Flags) : option Flags :=
  if negb (Z.land f other =? 0) then None else Some (Flags_set f other true).

Definition FLAGS_NONE : Z := 0.
Definition FLAG_P : Z := Z.shiftl 1 0.
Definition FLAG_RW : Z := Z.shiftl 1 1.
Definition FLAG_US : Z := Z.shiftl 1 2.
Definition FLAG_PWT : Z := Z.shiftl 1 3.
Definition FLAG_PCD : Z := Z.shiftl 1 4.
Definition FLAG_A : Z := Z.shiftl 1 5.
Definition FLAG_D : Z := Z.shiftl 1 6.
Definition FLAG_PS : Z := Z.shiftl 1 7.
Definition FLAG_G : Z := Z.shiftl 1 8.
Definition HLAT : Z := Z.shiftl 1 11.
Definition FLAG_BIG_PAGES_PAT : Z := Z.shiftl 1 12.
Definition FLAG_4KB_PAT : Z := Z.shiftl 1 7.
Definition FLAG_XD : Z := Z.shiftl 1 63.
Definition FLAG_ALLOCATED : Z := Z.shiftl 1 9.
Definition FLAG_LAST_ENTRY : Z := Z.shiftl 1 10.

Definition Flags_new : Flags := FLAGS_NONE.
Definition set_present (f : Flags) (s : bool) : Flags := Flags_set f FLAG_P s.
Definition set_read_write (f : Flags) (s : bool) : Flags := Flags_set f FLAG_RW s.
Definition set_user_supervisor (f : Flags) (s : bool) : Flags := Flags_set f FLAG_US s.
Definition set_pwt (f : Flags) (s : bool) : Flags := Flags_set f FLAG_PWT s.
Definition set_pcd (f : Flags) (s : bool) : Flags := Flags_set f FLAG_PCD s.
Definition set_pat_big_pages (f : Flags) (s : bool) : Flags := Flags_set f FLAG_BIG_PAGES_PAT s.
Definition set_pat_4kb (f : Flags) (s : bool) : Flags := Flags_set f FLAG_4KB_PAT s.
Definition set_accessed (f : Flags) (s : bool) : Flags := Flags_set f FLAG_A s.
Definition set_dirty (f : Flags) (s : bool) : Flags := Flags_set f FLAG_D s.
Definition set_page_size (f : Flags) (s : bool) : Flags := Flags_set f FLAG_PS s.
Definition set_global (f : Flags) (s : bool) : Flags := Flags_set f FLAG_G s.
Definition set_hlat (f : Flags) (s : bool) : Flags := Flags_set f HLAT s.
Definition set_execute_disable (f : Flags) (s : bool) : Flags := Flags_set f FLAG_XD s.
Definition set_allocated (f : Flags) (s : bool) : Flags := Flags_set f FLAG_ALLOCATED s.
Definition set_last_entry (f : Flags) (s : bool) : Flags := Flags_set f FLAG_LAST_ENTRY s.

Definition get_present (f : Flags) : bool := Flags_get f FLAG_P.
Definition get_read_write (f : Flags) : bool := Flags_get f FLAG_RW.
Definition get_user_supervisor (f : Flags) : bool := Flags_get f FLAG_US.
Definition get_write_through (f : Flags) : bool := Flags_get f FLAG_PWT.
Definition get_cache_disable (f : Flags) : bool := Flags_get f FLAG_PCD.
Definition get_accessed (f : Flags) : bool := Flags_get f FLAG_A.
Definition get_dirty (f : Flags) : bool := Flags_get f FLAG_D.
Definition get_page_size (f : Flags) : bool := Flags_get f FLAG_PS.
Definition get_global (f : Flags) : bool := Flags_get f FLAG_G.
Definition get_hlat (f : Flags) : bool := Flags_get f HLAT.
Definition get_execute_disable (f : Flags) : bool := Flags_get f FLAG_XD.
Definition get_allocated (f : Flags) : bool := Flags_get f FLAG_ALLOCATED.
Definition get_last_entry (f : Flags) : bool := Flags_get f FLAG_LAST_ENTRY.

(** ** Page sizes *)
Definition MAX_BOTTOM_PAGING_LEVEL : nat := 3.
Definition SIZE_4KB : Z := 0x1000.
Definition SIZE_2MB : Z := 0x200000.
Definition SIZE_1GB : Z := 0x40000000.

Definition size_4kb : PageSize := SIZE_4KB.
Definition size_2mb : PageSize := SIZE_2MB.
Definition size_1gb : PageSize := SIZE_1GB.

Definition from_bottom_paging_level (level : nat) : option PageSize :=
  match level with
  | 0 => Some size_4kb
  | 1 => Some size_2mb
  | 2 => Some size_1gb
  | _ => None
  end%nat.

(** The [match self.size()] of the methods below. *)
Definition match_size {A} (s : PageSize) (a b c : A) : res A :=
  if s =? SIZE_4KB then Done a else if s =? SIZE_2MB then Done b
  else if s =? SIZE_1GB then Done c else Panic Unreached.

Definition bottom_paging_level (s : PageSize) : res nat := match_size s 0%nat 1%nat 2%nat.
Definition offset_bit_count (s : PageSize) : res Z := match_size s 12 21 30.
Definition get_offset_mask (s : PageSize) : res Z := usize_sub s 1.
Definition get_pat_bit (s : PageSize) : res Z := match_size s 7 12 12.
Definition page_alignment (s : PageSize) : Z := s / size_4kb.
Definition to_default_page_count (s : PageSize) : Z := s / size_4kb.

(** [From<PageSize> for Flags]. *)
Definition Flags_from (s : PageSize) : Flags :=
  if s =? SIZE_4KB then Flags_new else set_page_size Flags_new true.

(** ** The page attribute table *)
Inductive PatType := Uncacheable | WriteCombining | WriteThrough | WriteProtected | WriteBack | Uncached.

#[export] Instance PatType_eq_dec : EqDecision PatType.
Proof. solve_decision. Defined.

Definition PatType_repr (t : PatType) : Z :=
  match t with
  | Uncacheable => 0 | WriteCombining => 1 | WriteThrough => 4
  | WriteProtected => 5 | WriteBack => 6 | Uncached => 7
  end.

(** [PatEntry::Pat0 .. Pat7], by their discriminants. *)
Abbreviation PatEntry := Z (only parsing).
Definition SHIFTING_SIZE : Z := 8.

Definition PatType_try_from (v : Z) : option PatType :=
  match v with
  | 0 => Some Uncacheable | 1 => Some WriteCombining | 4 => Some WriteThrough
  | 5 => Some WriteProtected | 6 => Some WriteBack | 7 => Some Uncached
  | _ => None
  end.

Definition PatEntry_from (t : PatType) : PatEntry :=
  match t with
  | WriteBack => 0 | WriteThrough => 1 | Uncached => 2
  | Uncacheable => 3 | WriteCombining => 4 | WriteProtected => 5
  end.

(** [PatEntry::set]: the register before and after. *)
Definition PatEntry_set (pat : Z) (entry : PatEntry) (t : PatType) : Z :=
  let pat := Z.land pat (usize_not (Z.shiftl 7 (entry * SHIFTING_SIZE))) in
  Z.lor pat (Z.shiftl (PatType_repr t) (entry * SHIFTING_SIZE)).

Definition PatEntry_get_type (pat : Z) (entry : PatEntry) : res PatType :=
  unwrap (PatType_try_from (Z.land (Z.shiftr pat (entry * SHIFTING_SIZE)) 7)).

(** [setup_pat], after [check_pat_support] has looked at CPUID.1:EDX. *)
Definition PAT_BIT : Z := Z.shiftl 1 16.
Definition check_pat_support (cpuid_edx : Z) : res unit :=
  assert_ (negb (Z.land cpuid_edx PAT_BIT =? 0)).

Definition setup_pat (cpuid_edx pat : Z) : res Z :=
  _ ← check_pat_support cpuid_edx;
  let pat := PatEntry_set pat 0 WriteBack in
  let pat := PatEntry_set pat 1 WriteThrough in
  let pat := PatEntry_set pat 2 Uncached in
  let pat := PatEntry_set pat 3 Uncacheable in
  let pat := PatEntry_set pat 4 WriteCombining in
  Done (PatEntry_set pat 5 WriteProtected).

Definition set_pat (f : Flags) (pat_type : PatType) (page_size : PageSize) : Flags :=
  let pat := PatEntry_from pat_type in
  let f := if page_size =? size_4kb
           then set_pat_4kb f (negb (Z.land pat 4 =? 0))
           else set_pat_big_pages f (negb (Z.land pat 4 =? 0)) in
  set_pcd (set_pwt f (negb (Z.land pat 2 =? 0))) (negb (Z.land pat 1 =? 0)).

(** ** Flags as bits *)
Lemma flag_is_usize b : 0 <= b < 64 -> is_usize (Z.shiftl 1 b).
Proof.
  intros Hb. rewrite Z.shiftl_1_l. unfold is_usize, usize_MAX.
  assert (2 ^ b <= 2 ^ 63) by (apply Z.pow_le_mono_r; lia).
  pose proof (Z.pow_pos_nonneg 2 b). change (2 ^ 63) with 9223372036854775808 in *. lia.
Qed.

Lemma testbit_flag b n : 0 <= b -> Z.testbit (Z.shiftl 1 b) n = (n =? b).
Proof. intros Hb. rewrite Z.shiftl_1_l, Z.pow2_bits_eqb by done. apply Z.eqb_sym. Qed.

Lemma Flags_get_bit f b : 0 <= b -> Flags_get f (Z.shiftl 1 b) = Z.testbit f b.
Proof.
  intros Hb. unfold Flags_get. destruct (Z.testbit f b) eqn:E.
  - apply negb_true_iff, Z.eqb_neq. intros H0. apply (f_equal (fun z => Z.testbit z b)) in H0.
    rewrite Z.land_spec, testbit_flag, Z.bits_0, E, Z.eqb_refl in H0 by done. done.
  - apply negb_false_iff, Z.eqb_eq. apply Z.bits_inj'. intros n Hn.
    rewrite Z.land_spec, testbit_flag, Z.bits_0 by done.
    destruct (Z.eqb_spec n b) as [-> |]; [by rewrite E | by rewrite andb_false_r].
Qed.

Lemma Flags_set_testbit f b s n : is_usize f -> 0 <= b < 64 -> 0 <= n ->
  Z.testbit (Flags_set f (Z.shiftl 1 b) s) n = if n =? b then s else Z.testbit f n.
Proof.
  intros Hf Hb Hn. unfold Flags_set. destruct s.
  - rewrite Z.lor_spec, testbit_flag by lia. destruct (n =? b); [apply orb_true_r | apply orb_false_r].
  - rewrite Z.land_spec, usize_not_testbit, testbit_flag by (lia || by apply flag_is_usize).
    destruct (Z.eqb_spec n b) as [-> |]; cbn.
    + by rewrite !andb_false_r.
    + rewrite andb_true_r. destruct (Z.ltb_spec n 64); [apply andb_true_r |].
      by rewrite (usize_bits_above f n).
Qed.

Lemma lor_is_usize a b : is_usize a -> is_usize b -> is_usize (Z.lor a b).
Proof.
  intros Ha Hb. apply bits_above_is_usize.
  - apply Z.lor_nonneg. unfold is_usize in *. lia.
  - intros n Hn. by rewrite Z.lor_spec, !usize_bits_above.
Qed.

Lemma land_is_usize a b : is_usize a -> 0 <= b -> is_usize (Z.land a b).
Proof.
  intros Ha Hb. apply bits_above_is_usize.
  - apply Z.land_nonneg. by right.
  - intros n Hn. by rewrite Z.land_spec, usize_bits_above.
Qed.

Lemma Flags_set_is_usize f d s : is_usize f -> is_usize d -> is_usize (Flags_set f d s).
Proof.
  intros Hf Hd. unfold Flags_set. destruct s; [by apply lor_is_usize |].
  apply land_is_usize; [done |]. by apply usize_not_is_usize.
Qed.

(** Setting or clearing one flag changes that flag only: every getter
    then reads what was set for it and what was there for the others. *)
Theorem flags_set_get f b c status : is_usize f -> 0 <= b < 64 -> 0 <= c < 64 ->
  Flags_get (Flags_set f (Z.shiftl 1 b) status) (Z.shiftl 1 c) =
    (if b =? c then status else Flags_get f (Z.shiftl 1 c)) /\
  is_usize (Flags_set f (Z.shiftl 1 b) status).
Proof.
  intros Hf Hb Hc. split; [| apply Flags_set_is_usize; [done | by apply flag_is_usize]].
  rewrite !Flags_get_bit by lia. rewrite Flags_set_testbit by (done || lia).
  by rewrite Z.eqb_sym.
Qed.

Lemma flags_set_get_witness :
  Flags_get (Flags_set FLAG_P (Z.shiftl 1 10) true) (Z.shiftl 1 0) = true /\
  is_usize (Flags_set FLAG_P (Z.shiftl 1 10) true).
Proof.
  exact (flags_set_get FLAG_P 10 0 true (flag_is_usize 0 ltac:(lia)) ltac:(lia) ltac:(lia)).
Defined.

(** ** The fields of the PAT *)
Definition pat_field (pat : Z) (entry : PatEntry) : Z := Z.land (Z.shiftr pat (entry * SHIFTING_SIZE)) 7.

Lemma pat_field_testbit pat e n : 0 <= e -> 0 <= n ->
  Z.testbit (pat_field pat e) n = (n <? 3) && Z.testbit pat (n + e * 8).
Proof.
  intros He Hn. unfold pat_field, SHIFTING_SIZE. rewrite Z.land_spec, Z.shiftr_spec by done.
  change 7 with (Z.ones 3). destruct (Z.ltb_spec n 3).
  - by rewrite Z.ones_spec_low, andb_true_r by lia.
  - by rewrite Z.ones_spec_high, andb_false_r by lia.
Qed.

Lemma PatType_repr_bound t : 0 <= PatType_repr t < 8.
Proof. destruct t; cbn; lia. Qed.

Lemma shiftl7_is_usize e : 0 <= e < 8 -> is_usize (Z.shiftl 7 (e * 8)).
Proof.
  intros He. rewrite Z.shiftl_mul_pow2 by lia. unfold is_usize, usize_MAX.
  assert (2 ^ (e * 8) <= 2 ^ 56) by (apply Z.pow_le_mono_r; lia).
  pose proof (Z.pow_pos_nonneg 2 (e * 8)). change (2 ^ 56) with 72057594037927936 in *. lia.
Qed.

Lemma testbit_high8 r n : 0 <= r < 8 -> 3 <= n -> Z.testbit r n = false.
Proof.
  intros Hr Hn. rewrite <- (Z.mod_small r (2 ^ 3)) by lia. apply Z.mod_pow2_bits_high. lia.
Qed.

Lemma pat_field_set pat e t e' : is_usize pat -> 0 <= e < 8 -> 0 <= e' < 8 ->
  pat_field (PatEntry_set pat e t) e' = if e =? e' then PatType_repr t else pat_field pat e'.
Proof.
  intros Hp He He'. pose proof (PatType_repr_bound t) as Hr. apply Z.bits_inj'. intros n Hn.
  rewrite pat_field_testbit by lia. unfold PatEntry_set, SHIFTING_SIZE.
  rewrite Z.lor_spec, Z.land_spec, usize_not_testbit by (lia || by apply shiftl7_is_usize).
  rewrite !Z.shiftl_spec by lia. destruct (Z.ltb_spec n 3) as [Hn3 | Hn3]; cbn [andb].
  - destruct (Z.ltb_spec (n + e' * 8) 64); [| lia]. destruct (Z.eqb_spec e e') as [-> | Hne].
    + replace (n + e' * 8 - e' * 8) with n by lia. change 7 with (Z.ones 3).
      rewrite Z.ones_spec_low by lia. cbn. by rewrite andb_false_r.
    + rewrite pat_field_testbit by lia. rewrite (proj2 (Z.ltb_lt n 3)) by lia.
      destruct (Z_lt_le_dec (n + e' * 8 - e * 8) 0).
      * rewrite (Z.testbit_neg_r 7), (Z.testbit_neg_r (PatType_repr t)) by lia. cbn. by rewrite andb_true_r, orb_false_r.
      * rewrite (testbit_high8 7), (testbit_high8 (PatType_repr t)) by lia. cbn.
        by rewrite andb_true_r, orb_false_r.
  - destruct (e =? e'); [by rewrite testbit_high8 |].
    rewrite pat_field_testbit by lia. destruct (Z.ltb_spec n 3); [lia | done].
Qed.

Lemma PatEntry_set_is_usize pat e t : is_usize pat -> 0 <= e < 8 -> is_usize (PatEntry_set pat e t).
Proof.
  intros Hp He. pose proof (PatType_repr_bound t). unfold PatEntry_set, SHIFTING_SIZE.
  apply lor_is_usize.
  - apply land_is_usize; [done |]. by apply usize_not_is_usize, shiftl7_is_usize.
  - pose proof (shiftl7_is_usize e He) as Hs. rewrite Z.shiftl_mul_pow2 in * by lia.
    pose proof (Z.pow_pos_nonneg 2 (e * 8)). unfold is_usize in *. nia.
Qed.

Lemma PatType_round_trip t : PatType_try_from (PatType_repr t) = Some t.
Proof. by destruct t. Qed.

Lemma pat_type_field pat e : PatEntry_get_type pat e = unwrap (PatType_try_from (pat_field pat e)).
Proof. done. Qed.

Lemma setup_pat_ok cpuid_edx pat : is_usize pat ->
  (Z.testbit cpuid_edx 16 = false -> setup_pat cpuid_edx pat = Panic Asserted) /\
  (Z.testbit cpuid_edx 16 = true -> exists pat', setup_pat cpuid_edx pat = Done pat' /\
     (forall t, PatEntry_get_type pat' (PatEntry_from t) = Done t) /\
     (forall e, 6 <= e < 8 -> PatEntry_get_type pat' e = PatEntry_get_type pat e)).
Proof.
  intros Hp. unfold setup_pat, check_pat_support.
  assert (negb (Z.land cpuid_edx PAT_BIT =? 0) = Z.testbit cpuid_edx 16) as ->
    by (apply (Flags_get_bit cpuid_edx 16); lia).
  split; intros ->; [done |]. cbn [assert_]. rewrite bind_Done. eexists. split; [done |].
  assert (forall e, 0 <= e < 8 ->
    pat_field (PatEntry_set (PatEntry_set (PatEntry_set (PatEntry_set (PatEntry_set (PatEntry_set pat
      0 WriteBack) 1 WriteThrough) 2 Uncached) 3 Uncacheable) 4 WriteCombining) 5 WriteProtected) e =
    if 5 =? e then 5 else if 4 =? e then 1 else if 3 =? e then 0 else
    if 2 =? e then 7 else if 1 =? e then 4 else if 0 =? e then 6 else pat_field pat e) as Hf.
  { intros e He. rewrite !pat_field_set by (repeat apply PatEntry_set_is_usize; done || lia). done. }
  split.
  - intros t. rewrite pat_type_field, Hf by (destruct t; cbn; lia). by destruct t.
  - intros e He. rewrite !pat_type_field, Hf by lia. repeat case_if; done || lia.
Qed.

(** After [setup_pat], whatever the register held, the entry chosen for
    each memory type has that type, and the two entries it leaves alone keep
    theirs; without PAT support it stops. *)
Theorem setup_pat_types cpuid_edx pat : is_usize pat ->
  (Z.testbit cpuid_edx 16 = false -> setup_pat cpuid_edx pat = Panic Asserted) /\
  (Z.testbit cpuid_edx 16 = true -> exists pat', setup_pat cpuid_edx pat = Done pat' /\
     (forall t, PatEntry_get_type pat' (PatEntry_from t) = Done t) /\
     (forall e, 6 <= e < 8 -> PatEntry_get_type pat' e = PatEntry_get_type pat e)).
Proof. apply setup_pat_ok. Qed.

Lemma setup_pat_types_witness :
  exists pat', setup_pat 0x10000 0x0007040600070406 = Done pat' /\
    (forall t, PatEntry_get_type pat' (PatEntry_from t) = Done t) /\
    (forall e, 6 <= e < 8 ->
       PatEntry_get_type pat' e = PatEntry_get_type 0x0007040600070406 e).
Proof.
  apply (proj2 (setup_pat_types 0x10000 0x0007040600070406 ltac:(by vm_compute))). reflexivity.
Defined.

(** The entry of the PAT the processor picks for a page: PWT is bit 0 of the
    index, PCD bit 1 and the page's PAT flag bit 2. *)
Definition pat_index (f : Flags) (page_size : PageSize) : Z :=
  Z.b2z (get_write_through f) + 2 * Z.b2z (get_cache_disable f) +
  4 * Z.b2z (Flags_get f (if page_size =? size_4kb then FLAG_4KB_PAT else FLAG_BIG_PAGES_PAT)).

(** [set_pat] selects the entry of the requested type exactly for the
    types whose entry number reads the same with bits 0 and 1 exchanged; for
    write-through, uncached and write-protected it selects the entry of
    another type, because PWT is given bit 1 and PCD bit 0. *)
Theorem set_pat_selects f t page_size : is_usize f -> page_size = size_4kb \/ page_size = size_2mb ->
  pat_index (set_pat f t page_size) page_size =
    match t with
    | WriteThrough => PatEntry_from Uncached
    | Uncached => PatEntry_from WriteThrough
    | WriteProtected => 6
    | t => PatEntry_from t
    end.
Proof.
  intros Hf Hs.
  assert (forall s1 s2 s3 b, b = 7 \/ b = 12 ->
    (forall c, c = 3 \/ c = 4 \/ c = b ->
      Flags_get (Flags_set (Flags_set (Flags_set f (Z.shiftl 1 b) s1) (Z.shiftl 1 3) s2) (Z.shiftl 1 4) s3)
        (Z.shiftl 1 c) = if c =? 4 then s3 else if c =? 3 then s2 else s1)) as Hset.
  { intros s1 s2 s3 b Hb c Hc. rewrite Flags_get_bit by lia.
    rewrite !Flags_set_testbit by (lia || (repeat apply Flags_set_is_usize; done || apply flag_is_usize; lia)).
    destruct (Z.eqb_spec c 4), (Z.eqb_spec c 3), (Z.eqb_spec c b); done || lia. }
  unfold pat_index, get_write_through, get_cache_disable, set_pat, set_pcd, set_pwt, set_pat_4kb,
    set_pat_big_pages, FLAG_PWT, FLAG_PCD, FLAG_4KB_PAT, FLAG_BIG_PAGES_PAT.
  destruct Hs as [-> | ->]; cbn [Z.eqb size_4kb size_2mb];
    [change (size_4kb =? size_4kb) with true | change (size_2mb =? size_4kb) with false];
    cbv iota; rewrite !Hset by tauto; by destruct t.
Qed.

Lemma set_pat_selects_witness :
  pat_index (set_pat Flags_new WriteThrough size_4kb) size_4kb = PatEntry_from Uncached.
Proof. exact (set_pat_selects Flags_new WriteThrough size_4kb ltac:(by vm_compute) (or_introl eq_refl)). Defined.
