(* ===== verification/Pages.v ===== *)
(** * The interface of the paging code to its clients ([kernel/src/mem/paging.rs])

    [allocate_pages] and [free_pages] of basic pages, as the slab allocator
    sees them: the operations over the paging state [G], and the laws a client
    relies on.  [pages_inv g hs n] says that the paging state is in order, that
    the pages [hs] are handed out, and that there is room for [n] more. *)

From S2P Require Import Prelude Pmm PageFlags.

Class PageProvider (G : Type) := {
  allocate_pages : G -> Z -> res (result VirtAddr PagingError * G);
  free_pages : G -> VirtAddr -> Z -> res (result unit PagingError * G);
}.

Class PageLaws (G : Type) `{PageProvider G} := {
  pages_inv : G -> list VirtAddr -> nat -> Prop;
  #[global] pages_inv_proper :: Proper ((=) ==> (≡ₚ) ==> (=) ==> iff) pages_inv;
  pages_allocate_one g hs n : pages_inv g hs (S n) ->
    exists a g', allocate_pages g 1 = Done (Ok a, g') /\ pages_inv g' (a :: hs) n /\
      (BASIC_PAGE_SIZE | a) /\ 0 < a /\ a + BASIC_PAGE_SIZE <= usize_MAX /\ a ∉ hs;
  pages_free_one g hs hs' a n : pages_inv g hs n -> hs ≡ₚ a :: hs' ->
    exists g', free_pages g a 1 = Done (Ok (), g') /\ pages_inv g' hs' n;
}.
