(* ===== verification/Slab.v ===== *)
(** * The slab allocator ([slab/src/internal.rs])

    A slab is one page: objects of one layout from its start, and the
    [linkedlist::Node] that holds the slab's own description after them.  The
    free objects of a slab are a [StackList] threaded through the objects
    themselves; the slabs of an allocator are a [LinkedList].

    Memory is three stores: [objs], the objects seen as [ObjectNode]s;
    [nodes], the slab nodes; and the state of the paging code.  A page that is
    handed out brings raw objects into [objs] (any content) and takes them
    away again when it is given back, so an access to a page that is gone is a
    [BadPointer].  Clients overwrite the objects they hold ([scribble]). *)

From S2P Require Import Prelude LinkedList StackList Pmm PageFlags Pages.

Record Layout := mkLayout { size : Z; align : Z }.

Inductive SlabError :=
  | BadPtrRange
  | DoubleFree
  | SlabFullInternalError
  | SlabPagingError
  | InvalidLayout.

Record Slab := mkSlab {
  buffer : Z;
  free_objects : StackList;
  allocated_count : Z;
  capacity : Z;
}.

Record InternalSlabAllocator := mkInternalSlabAllocator {
  slabs : LinkedList;
  page_count : Z;
  object_count : Z;
  layout : Layout;
}.

(** [size_of] and [align_of] of [ObjectNode = stacklist::Node<()>] (one
    [Option<NonNull>]) and [SlabNode = linkedlist::Node<Slab>] (the five words
    of [Slab] and two links). *)
Definition size_of_ObjectNode : Z := 8.
Definition align_of_ObjectNode : Z := 8.
Definition size_of_SlabNode : Z := 56.
Definition align_of_SlabNode : Z := 8.

(** [ptr.is_aligned_to(a)], which panics when [a] is no power of two. *)
Definition is_aligned_to (p a : Z) : res bool :=
  _ ← assert_ (is_power_of_two a); Done (p mod a =? 0).

Definition align_up (value al : Z) : res Z :=
  s ← usize_add value al; s ← usize_sub s 1; m ← usize_sub al 1;
  Done (Z.land s (usize_not m)).

Definition adjust_layout (l : Layout) : Layout :=
  let size' := if size_of_ObjectNode <? size l then size l else size_of_ObjectNode in
  let align' := if align_of_ObjectNode <? align l then align l else align_of_ObjectNode in
  mkLayout size' align'.

Definition calculate_object_count (l : Layout) (page_count : Z) : res Z :=
  total_size ← usize_mul page_count BASIC_PAGE_SIZE;
  let metadata_size := size_of_SlabNode in
  available_for_objects ← usize_sub total_size metadata_size;
  alignment_waste ← usize_rem available_for_objects align_of_SlabNode;
  usable_space ← usize_sub available_for_objects alignment_waste;
  if size l =? 0 then Panic DivByZero else Done (usable_space / size l).

Definition InternalSlabAllocator_new (l : Layout) : res InternalSlabAllocator :=
  let adjusted_layout := adjust_layout l in
  let page_count := 1 in
  n ← calculate_object_count adjusted_layout page_count;
  Done (mkInternalSlabAllocator LinkedList_new page_count n adjusted_layout).

(** ** One slab *)

(** [for i in 0..capacity] of [Slab::new], from [i] with [n] objects left. *)
Fixpoint Slab_new_from (objs : sheap unit) (buf : Z) (l : Layout) (free : StackList) (i n : nat)
    : res (result StackList SlabError * sheap unit) :=
  match n with
  | O => Done (Ok free, objs)
  | S n =>
      offset ← usize_mul (Z.of_nat i) (size l);
      let object_ptr := buf + offset in
      ok ← is_aligned_to object_ptr (align l);
      if negb ok then Done (Err InvalidLayout, objs) else
      '(objs, free) ← StackList_push_node objs free object_ptr;
      Slab_new_from objs buf l free (S i) n
  end.

Definition Slab_new (objs : sheap unit) (buf cap : Z) (l : Layout)
    : res (result Slab SlabError * sheap unit) :=
  '(r, objs) ← Slab_new_from objs buf l StackList_new 0 (Z.to_nat cap);
  match r with
  | Err e => Done (Err e, objs)
  | Ok free => Done (Ok (mkSlab buf free 0 cap), objs)
  end.

Definition Slab_contains_ptr (s : Slab) (p : Z) (l : Layout) : res bool :=
  len ← usize_mul (capacity s) (size l);
  buffer_end ← usize_add (buffer s) len;
  Done ((buffer s <=? p) && (p <? buffer_end)).

Definition Slab_is_empty (s : Slab) : bool := allocated_count s =? 0.

Definition Slab_allocate (objs : sheap unit) (s : Slab) (l : Layout)
    : res (result Z SlabError * sheap unit * Slab) :=
  '(o, objs, free) ← StackList_pop_node objs (free_objects s);
  match o with
  | Some p =>
      n ← usize_add (allocated_count s) 1;
      let s := mkSlab (buffer s) free n (capacity s) in
      ok ← is_aligned_to p (align l);
      if negb ok then Done (Err InvalidLayout, objs, s) else Done (Ok p, objs, s)
  | None => Done (Err SlabFullInternalError, objs, s)
  end.

(** [for node in self.free_objects.iter_node() { if node == object_ptr .. }]. *)
Fixpoint is_in_free_list (fuel : nat) (objs : sheap unit) (p : Z) (it : SIter) : res bool :=
  match fuel with
  | O => Panic Unreached
  | S fuel =>
      '(o, it) ← SNodeIter_next objs it;
      match o with
      | None => Done false
      | Some q => if q =? p then Done true else is_in_free_list fuel objs p it
      end
  end.

Definition Slab_free (objs : sheap unit) (s : Slab) (p : Z) (l : Layout)
    : res (result unit SlabError * sheap unit * Slab) :=
  offset ← usize_sub p (buffer s);
  r ← usize_rem offset (size l);
  if negb (r =? 0) then Done (Err BadPtrRange, objs, s) else
  found ← is_in_free_list (stack_fuel (free_objects s)) objs p (StackList_iter_node (free_objects s));
  if found : bool then Done (Err DoubleFree, objs, s) else
  '(objs, free) ← StackList_push_node objs (free_objects s) p;
  let n := Z.max 0 (allocated_count s - 1) in
  Done (Ok (), objs, mkSlab (buffer s) free n (capacity s)).

(** ** The memory the allocator works in *)
Record SlabMem (G : Type) := mkSlabMem {
  objs : sheap unit;
  nodes : heap Slab;
  paging : G;
}.
Arguments mkSlabMem {G}.
Arguments objs {G}.
Arguments nodes {G}.
Arguments paging {G}.

(** The addresses of the objects of a page, and the objects that come and go
    with it. *)
Definition object_at (buf : Z) (l : Layout) (i : nat) : Z := buf + Z.of_nat i * size l.
Definition object_addrs (buf : Z) (l : Layout) (n : nat) : list Z := object_at buf l <$> seq 0 n.
Definition raw_objects (h : sheap unit) (ps : list Z) : sheap unit :=
  foldr (fun p h => <[p := SNode_new ()]> h) h ps.
Definition gone_objects (h : sheap unit) (ps : list Z) : sheap unit :=
  foldr (fun p h => delete p h) h ps.

Section allocator.
Context {G : Type} `{PageProvider G}.
Implicit Types (m : SlabMem G) (a : InternalSlabAllocator).

(** A client writes to an object it holds. *)
Definition scribble m (p : Z) (v : SNode unit) : SlabMem G :=
  mkSlabMem (<[p := v]> (objs m)) (nodes m) (paging m).

Definition grow m a : res (result unit SlabError * SlabMem G * InternalSlabAllocator) :=
  '(r, g) ← allocate_pages (paging m) (page_count a);
  match r with
  | Err _ => Done (Err SlabPagingError, mkSlabMem (objs m) (nodes m) g, a)
  | Ok buf =>
      let objs1 := raw_objects (objs m) (object_addrs buf (layout a) (Z.to_nat (object_count a))) in
      objects_size ← usize_mul (object_count a) (size (layout a));
      metadata_offset ← align_up objects_size align_of_SlabNode;
      let slab_node_ptr := buf + metadata_offset in
      e ← usize_add metadata_offset size_of_SlabNode;
      total ← usize_mul (page_count a) BASIC_PAGE_SIZE;
      _ ← assert_ (e <=? total);
      '(r, objs2) ← Slab_new objs1 buf (object_count a) (layout a);
      match r with
      | Err err => Done (Err err, mkSlabMem objs2 (nodes m) g, a)
      | Ok slab =>
          let nodes1 := <[slab_node_ptr := Node_new slab]> (nodes m) in
          '(nodes2, l) ← LinkedList_push_node_back nodes1 (slabs a) slab_node_ptr;
          Done (Ok (), mkSlabMem objs2 nodes2 g,
                mkInternalSlabAllocator l (page_count a) (object_count a) (layout a))
      end
  end.

(** [slab.allocate(self.layout)] through the node at [p]. *)
Definition allocate_in m (p : Z) (l : Layout) : res (result Z SlabError * SlabMem G) :=
  n ← deref (nodes m) p;
  '(r, objs, s) ← Slab_allocate (objs m) (data n) l;
  nodes ← write (nodes m) p (with_data s);
  Done (r, mkSlabMem objs nodes (paging m)).

Fixpoint allocate_from (fuel : nat) m (it : Iter) (l : Layout) : res (option Z * SlabMem G) :=
  match fuel with
  | O => Panic Unreached
  | S fuel =>
      '(o, it) ← IterMut_next (nodes m) it;
      match o with
      | None => Done (None, m)
      | Some p =>
          '(r, m) ← allocate_in m p l;
          match r with
          | Ok ptr => Done (Some ptr, m)
          | Err _ => allocate_from fuel m it l
          end
      end
  end.

Definition InternalSlabAllocator_allocate m a
    : res (result Z SlabError * SlabMem G * InternalSlabAllocator) :=
  '(o, m) ← allocate_from (LinkedList_fuel (slabs a)) m (LinkedList_iter_mut (slabs a)) (layout a);
  match o with
  | Some ptr => Done (Ok ptr, m, a)
  | None =>
      '(r, m, a) ← grow m a;
      match r with
      | Err e => Done (Err e, m, a)
      | Ok _ =>
          match LinkedList_back_mut (slabs a) with
          | None => Done (Err SlabFullInternalError, m, a)
          | Some p =>
              '(r, m) ← allocate_in m p (layout a);
              match r with
              | Ok ptr => Done (Ok ptr, m, a)
              | Err _ => Done (Err SlabFullInternalError, m, a)
              end
          end
      end
  end.

Fixpoint free_from (fuel : nat) m (it : Iter) (ptr : Z) (l : Layout)
    : res (result unit SlabError * SlabMem G) :=
  match fuel with
  | O => Panic Unreached
  | S fuel =>
      '(o, it) ← IterMut_next (nodes m) it;
      match o with
      | None => Done (Err BadPtrRange, m)
      | Some p =>
          n ← deref (nodes m) p;
          c ← Slab_contains_ptr (data n) ptr l;
          if c : bool then
            '(r, objs, s) ← Slab_free (objs m) (data n) ptr l;
            nodes ← write (nodes m) p (with_data s);
            Done (r, mkSlabMem objs nodes (paging m))
          else free_from fuel m it ptr l
      end
  end.

Definition InternalSlabAllocator_free m a (ptr : Z) : res (result unit SlabError * SlabMem G) :=
  ok ← is_aligned_to ptr (align (layout a));
  if negb ok then Done (Err BadPtrRange, m) else
  free_from (LinkedList_fuel (slabs a)) m (LinkedList_iter_mut (slabs a)) ptr (layout a).

(** [free_pages(slab_data.buffer, self.page_count).unwrap()] for a node taken
    off the list. *)
Definition free_slab m a (p : Z) : res (SlabMem G) :=
  n ← deref (nodes m) p;
  let s := data n in
  '(r, g) ← free_pages (paging m) (buffer s) (page_count a);
  _ ← unwrap_ok r;
  Done (mkSlabMem (gone_objects (objs m) (object_addrs (buffer s) (layout a) (Z.to_nat (capacity s))))
          (delete p (nodes m)) g).

Definition with_slabs a (l : LinkedList) : InternalSlabAllocator :=
  mkInternalSlabAllocator l (page_count a) (object_count a) (layout a).

(** [while let Some(slab) = self.slabs.front()] of [reap]. *)
Fixpoint reap_from (fuel : nat) m a (reaped_count : Z) : res (Z * SlabMem G * InternalSlabAllocator) :=
  match fuel with
  | O => Panic Unreached
  | S fuel =>
      o ← LinkedList_front (nodes m) (slabs a);
      match o with
      | None => Done (reaped_count, m, a)
      | Some slab =>
          if Slab_is_empty slab then
            '(o, nodes, l) ← LinkedList_pop_node_front (nodes m) (slabs a);
            p ← unwrap o;
            n ← deref nodes p;
            r ← usize_rem (buffer (data n)) BASIC_PAGE_SIZE;
            _ ← assert_ (r =? 0);
            m ← free_slab (mkSlabMem (objs m) nodes (paging m)) a p;
            count ← usize_add reaped_count 1;
            reap_from fuel m (with_slabs a l) count
          else Done (reaped_count, m, a)
      end
  end.

Definition InternalSlabAllocator_reap m a : res (Z * SlabMem G * InternalSlabAllocator) :=
  reap_from (LinkedList_fuel (slabs a)) m a 0.

(** [Drop]: the scan for leaks and the loop that frees what is left. *)
Fixpoint has_leaks_from (fuel : nat) m (it : Iter) : res bool :=
  match fuel with
  | O => Panic Unreached
  | S fuel =>
      '(o, it) ← Iter_next (nodes m) it;
      match o with
      | None => Done false
      | Some (_, s) => if negb (Slab_is_empty s) then Done true else has_leaks_from fuel m it
      end
  end.

Fixpoint force_free (fuel : nat) m a : res (SlabMem G * InternalSlabAllocator) :=
  match fuel with
  | O => Panic Unreached
  | S fuel =>
      '(o, nodes, l) ← LinkedList_pop_node_front (nodes m) (slabs a);
      let m := mkSlabMem (objs m) nodes (paging m) in
      match o with
      | None => Done (m, with_slabs a l)
      | Some p => m ← free_slab m a p; force_free fuel m (with_slabs a l)
      end
  end.

Definition InternalSlabAllocator_drop m a : res (SlabMem G * InternalSlabAllocator) :=
  '(_, m, a) ← InternalSlabAllocator_reap m a;
  has_leaks ← has_leaks_from (LinkedList_fuel (slabs a)) m (LinkedList_iter (slabs a));
  '(m, a) ← force_free (LinkedList_fuel (slabs a)) m a;
  _ ← assert_ (negb has_leaks);
  Done (m, a).
End allocator.
