(* ===== verification/SlabCorrect.v ===== *)
(** * What the operations of one slab do

    [ustack] is a stack list of bare nodes, [slab_ok h l n s fs] says that
    slab [s] has its [n] objects of layout [l] in memory, of which those of
    [fs] are free, the top of the free list first. *)

From S2P Require Import Prelude LinkedList StackList Pmm PageFlags Pages Slab.

Definition ustack (h : sheap unit) (l : StackList) (fs : list Z) : Prop :=
  stack h l ((fun p => (p, ())) <$> fs).

Lemma ustack_fst (fs : list Z) : ((fun p => (p, ())) <$> fs).*1 = fs.
Proof. rewrite <- list_fmap_compose. apply list_fmap_id. Qed.

Lemma ustack_nodup h l fs : ustack h l fs -> NoDup fs.
Proof. intros [_ Hn _]. by rewrite ustack_fst in Hn. Qed.

Lemma ustack_frame h h' l fs : ustack h l fs -> (forall p, p ∈ fs -> h' !! p = h !! p) -> ustack h' l fs.
Proof.
  intros [Hs Hn Hl] Hf. split; [| done | done]. eapply lseg_frame; [exact Hs |].
  intros p Hp. rewrite ustack_fst in Hp. by apply Hf.
Qed.

Lemma ustack_push h l fs p : ustack h l fs -> is_Some (h !! p) -> p ∉ fs ->
  Z.of_nat (length fs) < usize_MAX ->
  exists h' l', StackList_push_node h l p = Done (h', l') /\ ustack h' l' (p :: fs) /\
    (forall q, q <> p -> h' !! q = h !! q) /\ is_Some (h' !! p).
Proof.
  intros Hs [n Hp] Hni Hlen.
  destruct (push_node_ok _ _ _ _ _ Hs Hp) as (h' & l' & E & Hs' & Ho);
    [by rewrite ustack_fst | by rewrite length_fmap |].
  destruct n as [[] nx]. exists h', l'. split_and!; [done | done | done |].
  destruct Hs' as [[_ (nx' & Hp' & _)] _ _]. eauto.
Qed.

Lemma ustack_pop_nil h l : ustack h l [] -> StackList_pop_node h l = Done (None, h, l).
Proof. apply pop_node_nil. Qed.

Lemma ustack_pop h l p fs : ustack h l (p :: fs) ->
  exists h' l', StackList_pop_node h l = Done (Some p, h', l') /\ ustack h' l' fs /\
    (forall q, q <> p -> h' !! q = h !! q) /\ is_Some (h' !! p).
Proof.
  intros Hs. destruct (pop_node_ok _ _ _ _ _ Hs) as (l' & E & Hs'). do 2 eexists.
  split_and!; [exact E | exact Hs' | | rewrite lookup_insert_eq; eauto].
  intros q Hq. by apply lookup_insert_ne.
Qed.

(** The scan for a double free. *)
Lemma free_list_scan h p fs : forall o fuel,
  lseg h o ((fun p => (p, ())) <$> fs) None -> (length fs < fuel)%nat ->
  is_in_free_list fuel h p (mkSIter o (Z.of_nat (length fs))) = Done (bool_decide (p ∈ fs)).
Proof.
  induction fs as [| q fs IH]; intros o fuel Hs Hf; (destruct fuel as [| fuel]; [lia |]);
    unfold is_in_free_list, SNodeIter_next, siter_advance; fold is_in_free_list.
  { cbn. by rewrite bool_decide_eq_false_2 by apply not_elem_of_nil. }
  destruct Hs as [-> (nx & Hq & Hs)]. cbn [sremaining scurrent length] in *.
  destruct (Z.eqb_spec (Z.of_nat (S (length fs))) 0); [lia |].
  rewrite (sderef_ok _ _ _ Hq), bind_Done, usize_sub_ok, !bind_Done by lia. cbn [snext].
  destruct (Z.eqb_spec q p) as [-> | Hne]; [by rewrite bool_decide_eq_true_2 by left |].
  replace (Z.of_nat (S (length fs)) - 1) with (Z.of_nat (length fs)) by lia.
  rewrite IH by (done || lia). f_equal. apply bool_decide_ext. rewrite elem_of_cons. naive_solver.
Qed.

(** ** Layouts *)

(** A layout of which [n] objects and the slab node fit in a page. *)
Record layout_ok (l : Layout) (n : nat) : Prop := {
  lo_size : 8 <= size l;
  lo_pow2 : is_power_of_two (align l) = true;
  lo_aligned : (align l | size l);
  lo_page : (align l | BASIC_PAGE_SIZE);
  lo_fits : Z.of_nat n * size l + size_of_SlabNode <= BASIC_PAGE_SIZE;
}.

Lemma align_pos l n : layout_ok l n -> 0 < align l.
Proof. intros H. pose proof (lo_pow2 _ _ H) as E. unfold is_power_of_two in E. bool_to_prop. done. Qed.

Lemma is_aligned_ok l n p : layout_ok l n ->
  exists b, is_aligned_to p (align l) = Done b /\ (b = true <-> (align l | p)).
Proof.
  intros H. unfold is_aligned_to. rewrite (lo_pow2 _ _ H). eexists. split; [done |].
  by rewrite Z.eqb_eq, mod0_divide by (by eapply align_pos).
Qed.

Lemma is_aligned_true l n p : layout_ok l n -> (align l | p) -> is_aligned_to p (align l) = Done true.
Proof. intros H Hd. destruct (is_aligned_ok l n p H) as (b & -> & E). f_equal. by apply E. Qed.

(** ** The objects of a page *)
Lemma elem_of_object_addrs p buf l n :
  p ∈ object_addrs buf l n <-> exists i, (i < n)%nat /\ p = object_at buf l i.
Proof.
  unfold object_addrs. rewrite list_elem_of_fmap. split.
  - intros (i & -> & Hi%elem_of_seq). exists i. split; [lia | done].
  - intros (i & Hi & ->). exists i. split; [done |]. apply elem_of_seq. lia.
Qed.

Lemma object_at_inj buf l i j : 0 < size l -> object_at buf l i = object_at buf l j -> i = j.
Proof. unfold object_at. nia. Qed.

Lemma object_bounds p buf l n : layout_ok l n -> p ∈ object_addrs buf l n ->
  buf <= p /\ p + size l <= buf + Z.of_nat n * size l.
Proof.
  intros H (i & Hi & ->)%elem_of_object_addrs. pose proof (lo_size _ _ H). unfold object_at. nia.
Qed.

Lemma object_aligned p buf l n : layout_ok l n -> (BASIC_PAGE_SIZE | buf) ->
  p ∈ object_addrs buf l n -> (align l | p).
Proof.
  intros H Hb (i & Hi & ->)%elem_of_object_addrs. unfold object_at.
  apply Z.divide_add_r; [by etrans; [apply (lo_page _ _ H) |] |].
  apply Z.divide_mul_r, (lo_aligned _ _ H).
Qed.

(** An address in the object area of a slab is an object exactly when its
    offset is a multiple of the object size. *)
Lemma object_offset p buf l n : layout_ok l n -> buf <= p < buf + Z.of_nat n * size l ->
  p ∈ object_addrs buf l n <-> (p - buf) mod size l = 0.
Proof.
  intros H Hp. pose proof (lo_size _ _ H). rewrite elem_of_object_addrs. split.
  - intros (i & _ & ->). unfold object_at. replace (_ - buf) with (Z.of_nat i * size l) by lia.
    apply Z.mod_mul. lia.
  - intros E. pose proof (Z.div_mod (p - buf) (size l) ltac:(lia)) as Ed. rewrite E in Ed.
    exists (Z.to_nat ((p - buf) / size l)). assert (0 <= (p - buf) / size l) by (apply Z.div_pos; lia).
    split; [| unfold object_at; lia]. assert ((p - buf) / size l < Z.of_nat n); [| lia].
    apply Z.div_lt_upper_bound; nia.
Qed.

Lemma raw_objects_lookup h ps p :
  raw_objects h ps !! p = if decide (p ∈ ps) then Some (SNode_new ()) else h !! p.
Proof.
  induction ps as [| q ps IH]; cbn [raw_objects foldr]; [by rewrite decide_False by apply not_elem_of_nil |].
  destruct (decide (q = p)) as [-> | Hne].
  - rewrite lookup_insert_eq, decide_True by left. done.
  - rewrite lookup_insert_ne by done. fold (raw_objects h ps). rewrite IH.
    apply decide_ext. rewrite elem_of_cons. naive_solver.
Qed.

Lemma gone_objects_lookup h ps p : p ∉ ps -> gone_objects h ps !! p = h !! p.
Proof.
  induction ps as [| q ps IH]; cbn [gone_objects foldr]; [done |].
  intros [Hne Hni]%not_elem_of_cons. rewrite lookup_delete_ne by done. by apply IH.
Qed.

(** ** One slab *)
Record slab_ok (h : sheap unit) (l : Layout) (n : nat) (s : Slab) (fs : list Z) : Prop := {
  so_stack : ustack h (free_objects s) fs;
  so_capacity : capacity s = Z.of_nat n;
  so_count : allocated_count s = Z.of_nat n - Z.of_nat (length fs);
  so_free p : p ∈ fs -> p ∈ object_addrs (buffer s) l n;
  so_live p : p ∈ object_addrs (buffer s) l n -> is_Some (h !! p);
}.

(** The objects a client holds. *)
Definition held (buf : Z) (l : Layout) (n : nat) (fs : list Z) (p : Z) : Prop :=
  p ∈ object_addrs buf l n /\ p ∉ fs.

Section one_slab.
Context (l : Layout) (n : nat) (Hl : layout_ok l n).
Implicit Types (h : sheap unit) (s : Slab) (fs : list Z).

Lemma object_addrs_nodup buf : NoDup (object_addrs buf l n).
Proof.
  apply NoDup_fmap_2_strong; [| apply NoDup_seq].
  intros i j _ _. apply object_at_inj. pose proof (lo_size _ _ Hl). lia.
Qed.

Lemma slab_frame h h' s fs : slab_ok h l n s fs ->
  (forall p, p ∈ object_addrs (buffer s) l n -> h' !! p = h !! p) -> slab_ok h' l n s fs.
Proof.
  intros [Hs Hc Hn Hf Hv] He. split; try done.
  - eapply ustack_frame; [exact Hs |]. intros p Hp. by apply He, Hf.
  - intros p Hp. rewrite He by done. by apply Hv.
Qed.

Lemma object_addrs_length buf k : length (object_addrs buf l k) = k.
Proof. unfold object_addrs. by rewrite length_fmap, length_seq. Qed.

Lemma addrs_few buf fs : NoDup fs -> (forall p, p ∈ fs -> p ∈ object_addrs buf l n) -> (length fs <= n)%nat.
Proof.
  intros Hnd Hin. rewrite <- (object_addrs_length buf n) at 1. by apply submseteq_length, NoDup_submseteq.
Qed.

Lemma slab_free_few h s fs : slab_ok h l n s fs -> (length fs <= n)%nat.
Proof.
  intros H. eapply addrs_few; [by eapply ustack_nodup, so_stack | apply (so_free _ _ _ _ _ H)].
Qed.

(** ** [Slab::new] *)
Lemma Slab_new_from_ok buf k : (BASIC_PAGE_SIZE | buf) -> forall i h free, (i + k <= n)%nat ->
  ustack h free (rev (object_addrs buf l i)) ->
  (forall p, p ∈ object_addrs buf l n -> is_Some (h !! p)) ->
  exists free' h', Slab_new_from h buf l free i k = Done (Ok free', h') /\
    ustack h' free' (rev (object_addrs buf l (i + k))) /\
    (forall p, p ∈ object_addrs buf l n -> is_Some (h' !! p)) /\
    (forall p, p ∉ object_addrs buf l n -> h' !! p = h !! p).
Proof.
  intros Hb. pose proof (lo_fits _ _ Hl) as Hfit. pose proof (lo_size _ _ Hl) as Hsz.
  unfold BASIC_PAGE_SIZE, size_of_SlabNode in Hfit.
  induction k as [| k IH]; intros i h free Hik Hs Hv; cbn [Slab_new_from].
  { rewrite Nat.add_0_r. eauto 10. }
  assert (object_at buf l i ∈ object_addrs buf l n) as Hin by (apply elem_of_object_addrs; exists i; split; [lia | done]).
  rewrite usize_mul_ok, bind_Done by (unfold usize_MAX; nia).
  fold (object_at buf l i). rewrite (is_aligned_true _ n), bind_Done by eauto using object_aligned. cbn [negb].
  destruct (ustack_push h free _ (object_at buf l i) Hs (Hv _ Hin)) as (h1 & free1 & -> & Hs1 & Ho & Hp1).
  - intros Hi%list_elem_of_In%in_rev%list_elem_of_In. apply elem_of_object_addrs in Hi as (j & Hj & E).
    apply object_at_inj in E; lia.
  - rewrite length_rev, object_addrs_length. unfold usize_MAX. nia.
  - rewrite bind_Done. destruct (IH (S i) h1 free1) as (free' & h' & E & Hs' & Hv' & Ho').
    + lia.
    + replace (rev (object_addrs buf l (S i))) with (object_at buf l i :: rev (object_addrs buf l i)); [done |].
      unfold object_addrs. rewrite seq_S, fmap_app, rev_app_distr. done.
    + intros p Hp. destruct (decide (p = object_at buf l i)) as [-> |]; [done |]. rewrite Ho by done. by apply Hv.
    + exists free', h'. rewrite Nat.add_succ_r. split_and!; [done | done | done |].
      intros p Hp. rewrite Ho' by done. apply Ho. by intros ->.
Qed.

Lemma Slab_new_ok h buf : (BASIC_PAGE_SIZE | buf) ->
  (forall p, p ∈ object_addrs buf l n -> is_Some (h !! p)) ->
  exists s h', Slab_new h buf (Z.of_nat n) l = Done (Ok s, h') /\ buffer s = buf /\
    slab_ok h' l n s (rev (object_addrs buf l n)) /\
    (forall p, p ∉ object_addrs buf l n -> h' !! p = h !! p).
Proof.
  intros Hb Hv. unfold Slab_new. rewrite Nat2Z.id.
  destruct (Slab_new_from_ok buf n Hb 0 h StackList_new) as (free & h' & -> & Hs & Hv' & Ho);
    [lia | apply stack_nil | done |].
  rewrite bind_Done. do 2 eexists. split_and!; [done | done | | done]. cbn in Hs.
  split; cbn; [done | done | | | done].
  - rewrite length_rev, object_addrs_length. lia.
  - intros p Hp. by apply list_elem_of_In, in_rev, list_elem_of_In.
Qed.

(** ** [Slab::allocate] *)
Lemma Slab_allocate_full h s : slab_ok h l n s [] ->
  Slab_allocate h s l = Done (Err SlabFullInternalError, h, s).
Proof.
  intros H. unfold Slab_allocate. by rewrite (ustack_pop_nil _ _ (so_stack _ _ _ _ _ H)).
Qed.

Lemma n_small : Z.of_nat n < 2 ^ 12.
Proof.
  pose proof (lo_fits _ _ Hl) as Hfit. pose proof (lo_size _ _ Hl).
  unfold BASIC_PAGE_SIZE, size_of_SlabNode in Hfit. change (2 ^ 12) with 4096. nia.
Qed.

Lemma Slab_allocate_ok h s p fs : (BASIC_PAGE_SIZE | buffer s) -> slab_ok h l n s (p :: fs) ->
  exists h' s', Slab_allocate h s l = Done (Ok p, h', s') /\ buffer s' = buffer s /\
    slab_ok h' l n s' fs /\ (forall q, q <> p -> h' !! q = h !! q).
Proof.
  intros Hb H. pose proof (slab_free_few _ _ _ H) as Hfew. destruct H as [Hs Hc Hn Hf Hv].
  pose proof n_small. unfold Slab_allocate.
  destruct (ustack_pop _ _ _ _ Hs) as (h' & free & -> & Hs' & Ho & Hp). cbn [length] in *.
  rewrite bind_Done, usize_add_ok, bind_Done by (unfold usize_MAX; lia).
  rewrite (is_aligned_true _ n), bind_Done
    by (first [done | eapply object_aligned; [done | exact Hb | apply Hf; by left]]).
  do 2 eexists. split_and!; [done | done | | done]. split; cbn; [done | done | lia | |].
  - intros q Hq. apply Hf. by right.
  - intros q Hq. destruct (decide (q = p)) as [-> |]; [done |]. rewrite Ho by done. by apply Hv.
Qed.

(** ** [Slab::contains_ptr] and [Slab::free] *)
Lemma contains_ptr_ok h s fs p : slab_ok h l n s fs -> 0 <= buffer s -> buffer s + BASIC_PAGE_SIZE <= usize_MAX ->
  Slab_contains_ptr s p l = Done (bool_decide (buffer s <= p < buffer s + Z.of_nat n * size l)).
Proof.
  intros H Hb Hm. pose proof (lo_fits _ _ Hl) as Hfit. unfold size_of_SlabNode in Hfit.
  unfold Slab_contains_ptr. rewrite (so_capacity _ _ _ _ _ H).
  rewrite usize_mul_ok, bind_Done, usize_add_ok, bind_Done by lia. f_equal.
  destruct (Z.leb_spec (buffer s) p), (Z.ltb_spec p (buffer s + Z.of_nat n * size l)); cbn;
    by rewrite ?bool_decide_eq_true_2, ?bool_decide_eq_false_2 by lia.
Qed.

Lemma Slab_free_scan h s fs p : slab_ok h l n s fs ->
  is_in_free_list (stack_fuel (free_objects s)) h p (StackList_iter_node (free_objects s)) =
    Done (bool_decide (p ∈ fs)).
Proof.
  intros H. destruct (so_stack _ _ _ _ _ H) as [Hs _ E]. rewrite length_fmap in E.
  unfold StackList_iter_node, stack_fuel. rewrite E. apply free_list_scan; [done | lia].
Qed.

Lemma Slab_free_held h s fs p : slab_ok h l n s fs -> held (buffer s) l n fs p ->
  exists h' s', Slab_free h s p l = Done (Ok (), h', s') /\ buffer s' = buffer s /\
    slab_ok h' l n s' (p :: fs) /\ (forall q, q <> p -> h' !! q = h !! q).
Proof.
  intros H [Hp Hni]. pose proof (object_bounds _ _ _ _ Hl Hp). pose proof (lo_size _ _ Hl).
  assert (length (p :: fs) <= n)%nat as Hfew.
  { apply (addrs_few (buffer s)).
    - apply NoDup_cons. split; [done |]. by eapply ustack_nodup, so_stack.
    - intros q [-> | Hq]%elem_of_cons; [done | by apply (so_free _ _ _ _ _ H)]. }
  pose proof n_small. cbn [length] in Hfew. unfold Slab_free.
  rewrite usize_sub_ok, bind_Done, usize_rem_ok, bind_Done by lia.
  rewrite (proj1 (object_offset p (buffer s) l n Hl ltac:(nia)) Hp). cbn [negb Z.eqb].
  rewrite (Slab_free_scan _ _ _ _ H), bind_Done, bool_decide_eq_false_2 by done.
  pose proof H as [Hs Hc Hn Hf Hv].
  destruct (ustack_push _ _ _ _ Hs (Hv _ Hp) Hni) as (h' & free & -> & Hs' & Ho & Hp');
    [unfold usize_MAX; lia |].
  rewrite bind_Done. do 2 eexists. split_and!; [done | done | | done].
  split; cbn [free_objects capacity allocated_count buffer length]; [done | done | lia | |].
  - intros q [-> | Hq]%elem_of_cons; [done | by apply Hf].
  - intros q Hq. destruct (decide (q = p)) as [-> |]; [done |]. rewrite Ho by done. by apply Hv.
Qed.

Lemma Slab_free_free h s fs p : slab_ok h l n s fs -> p ∈ fs ->
  Slab_free h s p l = Done (Err DoubleFree, h, s).
Proof.
  intros H Hp. pose proof (so_free _ _ _ _ _ H _ Hp) as Ho. pose proof (object_bounds _ _ _ _ Hl Ho).
  pose proof (lo_size _ _ Hl). unfold Slab_free.
  rewrite usize_sub_ok, bind_Done, usize_rem_ok, bind_Done by lia.
  rewrite (proj1 (object_offset p (buffer s) l n Hl ltac:(nia)) Ho). cbn [negb Z.eqb].
  by rewrite (Slab_free_scan _ _ _ _ H), bind_Done, bool_decide_eq_true_2.
Qed.

Lemma Slab_free_between h s fs p : slab_ok h l n s fs ->
  buffer s <= p < buffer s + Z.of_nat n * size l -> p ∉ object_addrs (buffer s) l n ->
  Slab_free h s p l = Done (Err BadPtrRange, h, s).
Proof.
  intros H Hp Hno. pose proof (lo_size _ _ Hl). unfold Slab_free.
  rewrite usize_sub_ok, bind_Done, usize_rem_ok, bind_Done by lia.
  destruct (Z.eqb_spec ((p - buffer s) mod size l) 0) as [E |]; [| done].
  by apply (object_offset _ _ _ _ Hl Hp) in E.
Qed.
End one_slab.
