(* ===== verification/SlabRepr.v ===== *)
(** * The slab allocator on its slabs

    [represents m a n M others k]: in memory [m], allocator [a] has the slabs
    [M], each a page with the list of its free objects, [n] objects to a page;
    [others] are pages handed out to others, and the paging code has room for
    [k] more pages.  Each operation is shown to act on [M]; [mheld] are the
    objects clients hold. *)

From S2P Require Import Prelude LinkedList StackList Pmm PageFlags Pages Slab SlabCorrect.

Abbreviation SlabModel := (list (Z * list Z)).

(** Where the node of a slab is: after its objects, rounded up to a word. *)
Definition metadata_offset (l : Layout) (n : nat) : Z := (Z.of_nat n * size l + 7) / 8 * 8.
Definition node_addr (l : Layout) (n : nat) (buf : Z) : Z := buf + metadata_offset l n.

Lemma align_up_word v : 0 <= v -> v + 8 <= usize_MAX -> align_up v align_of_SlabNode = Done ((v + 7) / 8 * 8).
Proof.
  intros Hv Hm. unfold align_up, align_of_SlabNode.
  rewrite usize_add_ok, bind_Done, (usize_sub_ok (v + 8)), bind_Done, usize_sub_ok, bind_Done by lia. f_equal.
  change (8 - 1) with (Z.ones 3). rewrite land_usize_not.
  - rewrite Z.ldiff_ones_r by lia. rewrite Z.shiftl_mul_pow2, Z.shiftr_div_pow2 by lia.
    change (2 ^ 3) with 8. do 2 f_equal. lia.
  - unfold is_usize. lia.
  - done.
Qed.

(** The objects end where the node begins at the latest, and the node ends
    with the page at the latest. *)
Lemma metadata_fits l n : layout_ok l n ->
  Z.of_nat n * size l <= metadata_offset l n /\ metadata_offset l n + size_of_SlabNode <= BASIC_PAGE_SIZE.
Proof.
  intros H. pose proof (lo_fits _ _ H) as Hf. unfold metadata_offset, size_of_SlabNode, BASIC_PAGE_SIZE in *.
  pose proof (Z.div_mod (Z.of_nat n * size l + 7) 8 ltac:(lia)).
  pose proof (Z.mod_pos_bound (Z.of_nat n * size l + 7) 8 ltac:(lia)). lia.
Qed.

Definition page_addr (b : Z) : Prop := (BASIC_PAGE_SIZE | b) /\ 0 < b /\ b + BASIC_PAGE_SIZE <= usize_MAX.

(** Objects of different pages are different. *)
Lemma objects_apart l n b b' p : layout_ok l n -> page_addr b -> page_addr b' ->
  p ∈ object_addrs b l n -> p ∈ object_addrs b' l n -> b = b'.
Proof.
  intros H [Hb _] [Hb' _] H1%object_bounds H2%object_bounds; [| done | done].
  pose proof (lo_fits _ _ H) as Hf. pose proof (lo_size _ _ H) as Hs. unfold size_of_SlabNode in Hf.
  destruct (Z.le_ge_cases b b').
  - apply (divide_between BASIC_PAGE_SIZE); [done | done | done | lia].
  - symmetry. apply (divide_between BASIC_PAGE_SIZE); [done | done | done | lia].
Qed.

(** An object with an address in the object area of a page is of that page. *)
Lemma page_of_object l n b b' p : layout_ok l n -> page_addr b -> page_addr b' ->
  b <= p < b + Z.of_nat n * size l -> p ∈ object_addrs b' l n -> b = b'.
Proof.
  intros H [[x ->] _] [[y ->] _] H1 H2%object_bounds; [| done].
  pose proof (lo_fits _ _ H) as Hf. pose proof (lo_size _ _ H). unfold size_of_SlabNode, BASIC_PAGE_SIZE in *.
  assert (x = y) by lia. congruence.
Qed.

(** Different objects do not overlap. *)
Lemma objects_disjoint l n b b' p q : layout_ok l n -> page_addr b -> page_addr b' ->
  p ∈ object_addrs b l n -> q ∈ object_addrs b' l n -> p <> q -> p + size l <= q \/ q + size l <= p.
Proof.
  intros H Hb Hb' Hp Hq Hne. destruct (decide (b = b')) as [<- | Hd].
  - apply elem_of_object_addrs in Hp as (i & Hi & ->), Hq as (j & Hj & ->).
    assert (i <> j) by congruence. pose proof (lo_size _ _ H). unfold object_at. nia.
  - apply (object_bounds _ _ _ _ H) in Hp, Hq. pose proof (lo_fits _ _ H) as Hf.
    unfold size_of_SlabNode, BASIC_PAGE_SIZE in Hf. destruct Hb as [[x ->] _], Hb' as [[y ->] _].
    unfold BASIC_PAGE_SIZE in *. assert (x <> y) by congruence. lia.
Qed.

(** ** Representation *)
Section allocator.
Context {G : Type} `{PageLaws G}.
Implicit Types (m : SlabMem G) (a : InternalSlabAllocator) (M : SlabModel) (ss : list (Z * Slab)).

Definition entry_ok (h : sheap unit) (l : Layout) (n : nat) (ps : Z * Slab) (bf : Z * list Z) : Prop :=
  ps.1 = node_addr l n bf.1 /\ buffer ps.2 = bf.1 /\ slab_ok h l n ps.2 bf.2.

Record slabs_repr m a (n : nat) ss M (others : list Z) (k : nat) : Prop := {
  sr_layout : layout_ok (layout a) n;
  sr_one_page : page_count a = 1;
  sr_count : object_count a = Z.of_nat n;
  sr_list : dll (nodes m) (slabs a) ss;
  sr_slabs : Forall2 (entry_ok (objs m) (layout a) n) ss M;
  sr_nodup : NoDup M.*1;
  sr_pages b : b ∈ M.*1 -> page_addr b;
  sr_paging : pages_inv (paging m) (M.*1 ++ others) k;
}.

Definition represents m a (n : nat) M (others : list Z) (k : nat) : Prop :=
  exists ss, slabs_repr m a n ss M others k.

Definition mheld (l : Layout) (n : nat) M (p : Z) : Prop :=
  exists b fs, (b, fs) ∈ M /\ held b l n fs p.
Definition mfree M (p : Z) : Prop := exists b fs, (b, fs) ∈ M /\ p ∈ fs.

(** ** What an operation may write: the pages of its own slabs *)
Definition in_pages (bs : list Z) (q : Z) : Prop := exists b, b ∈ bs /\ b <= q < b + BASIC_PAGE_SIZE.

Record same_mem (bs : list Z) m m' : Prop := {
  sm_objs q : ~ in_pages bs q -> objs m' !! q = objs m !! q;
  sm_nodes q : ~ in_pages bs q -> nodes m' !! q = nodes m !! q;
}.

Lemma same_mem_refl bs m : same_mem bs m m.
Proof. done. Qed.

Lemma same_mem_trans bs m1 m2 m3 : same_mem bs m1 m2 -> same_mem bs m2 m3 -> same_mem bs m1 m3.
Proof. intros [H1 H2] [H3 H4]. split; intros q Hq; [rewrite H3 by done | rewrite H4 by done]; auto. Qed.

Lemma same_mem_mono bs bs' m m' : same_mem bs m m' -> (forall b, b ∈ bs -> b ∈ bs') -> same_mem bs' m m'.
Proof.
  intros [H1 H2] Hsub. split; intros q Hq; [apply H1 | apply H2]; intros (b & Hb & Hin); apply Hq; exists b; auto.
Qed.

Lemma object_in_page l n b bs p : layout_ok l n -> p ∈ object_addrs b l n -> b ∈ bs -> in_pages bs p.
Proof.
  intros Hl Hp Hb. exists b. split; [done |]. pose proof (object_bounds _ _ _ _ Hl Hp).
  pose proof (lo_fits _ _ Hl) as Hf. pose proof (lo_size _ _ Hl). unfold size_of_SlabNode in Hf. lia.
Qed.

Lemma node_in_page l n b bs : layout_ok l n -> b ∈ bs -> in_pages bs (node_addr l n b).
Proof.
  intros Hl Hb. exists b. split; [done |]. pose proof (metadata_fits _ _ Hl) as [H1 H2].
  pose proof (lo_size _ _ Hl). unfold node_addr, size_of_SlabNode in *. nia.
Qed.

Lemma page_bufs m a n ss M others k i b fs : slabs_repr m a n ss M others k ->
  M !! i = Some (b, fs) -> page_addr b.
Proof.
  intros HR Hi. apply (sr_pages _ _ _ _ _ _ _ HR), list_elem_of_fmap. exists (b, fs).
  split; [done |]. by eapply list_elem_of_lookup_2.
Qed.

Lemma same_slab m a n ss M others k i j b fs fs' : slabs_repr m a n ss M others k ->
  M !! i = Some (b, fs) -> M !! j = Some (b, fs') -> i = j.
Proof.
  intros HR Hi Hj. eapply NoDup_lookup; [exact (sr_nodup _ _ _ _ _ _ _ HR) | |];
    rewrite list_lookup_fmap; [by rewrite Hi | by rewrite Hj].
Qed.

(** A change to one slab and to objects of its own page. *)
Lemma slabs_update m a n ss M others k i p s b fs h' s' fs' nodes' :
  slabs_repr m a n ss M others k -> ss !! i = Some (p, s) -> M !! i = Some (b, fs) ->
  dll nodes' (slabs a) (<[i := (p, s')]> ss) -> buffer s' = b -> slab_ok h' (layout a) n s' fs' ->
  (forall q, q ∉ object_addrs b (layout a) n -> h' !! q = objs m !! q) ->
  slabs_repr (mkSlabMem h' nodes' (paging m)) a n (<[i := (p, s')]> ss) (<[i := (b, fs')]> M) others k.
Proof.
  intros HR Hs Hm Hd Hb Hok Ho. pose proof HR as [Hl H1 Hc _ Hf Hnd Hpg Hinv].
  assert ((<[i := (b, fs')]> M).*1 = M.*1) as E.
  { rewrite list_fmap_insert. apply list_insert_id. by rewrite list_lookup_fmap, Hm. }
  split; cbn [objs nodes paging]; rewrite ?E; try done.
  apply Forall2_same_length_lookup_2.
  { rewrite !length_insert. by eapply Forall2_length. }
  intros j [p1 s1] [b1 f1] Hj1 Hj2. destruct (decide (i = j)) as [<- | Hne].
  - rewrite list_lookup_insert_eq in Hj1 by (by eapply lookup_lt_Some).
    rewrite list_lookup_insert_eq in Hj2 by (by eapply lookup_lt_Some).
    injection Hj1 as <- <-. injection Hj2 as <- <-. split_and!; cbn; [| done | done].
    by destruct (Forall2_lookup_lr _ _ _ _ _ _ Hf Hs Hm).
  - rewrite list_lookup_insert_ne in Hj1 by done. rewrite list_lookup_insert_ne in Hj2 by done.
    destruct (Forall2_lookup_lr _ _ _ _ _ _ Hf Hj1 Hj2) as (E1 & E2 & Hok1). split_and!; [done | done |].
    cbn in *. eapply slab_frame; [exact Hok1 |]. intros q Hq. apply Ho. intros Hq'. apply Hne.
    assert (b = b1) as <-.
    { apply (objects_apart (layout a) n b b1 q Hl); [by eapply page_bufs | by eapply page_bufs | done | by rewrite <- E2]. }
    by eapply same_slab.
Qed.

Lemma entry_at m a n ss M others k i b fs : slabs_repr m a n ss M others k -> M !! i = Some (b, fs) ->
  exists s, ss !! i = Some (node_addr (layout a) n b, s) /\ buffer s = b /\
    slab_ok (objs m) (layout a) n s fs.
Proof.
  intros HR Hi. destruct (Forall2_lookup_r _ _ _ _ _ (sr_slabs _ _ _ _ _ _ _ HR) Hi) as ([p s] & Hs & Ep & Eb & Hok).
  cbn in *. subst. eauto.
Qed.

(** Writes to the objects and to the node of one slab. *)
Lemma slab_mem m a n ss M others k i b fs h' nodes' : slabs_repr m a n ss M others k -> M !! i = Some (b, fs) ->
  (forall q, q ∉ object_addrs b (layout a) n -> h' !! q = objs m !! q) ->
  same_off [node_addr (layout a) n b] (nodes m) nodes' -> same_mem M.*1 m (mkSlabMem h' nodes' (paging m)).
Proof.
  intros HR Hi Ho Hn. pose proof (sr_layout _ _ _ _ _ _ _ HR) as Hl.
  assert (b ∈ M.*1) as Hb by (apply list_elem_of_fmap; exists (b, fs); split; [done | by eapply list_elem_of_lookup_2]).
  split; cbn; intros q Hq.
  - apply Ho. intros Hin. apply Hq. by eapply object_in_page.
  - apply Hn. intros [-> | []%not_elem_of_nil]%elem_of_cons. apply Hq. by apply node_in_page.
Qed.

(** ** [allocate] *)
Lemma allocate_in_ok m a n ss M others k i b fs : slabs_repr m a n ss M others k -> M !! i = Some (b, fs) ->
  exists r m' ss', allocate_in m (node_addr (layout a) n b) (layout a) = Done (r, m') /\
    same_mem M.*1 m m' /\
    match fs with
    | [] => r = Err SlabFullInternalError /\ slabs_repr m' a n ss' M others k /\ ss'.*1 = ss.*1
    | q :: fs => r = Ok q /\ slabs_repr m' a n ss' (<[i := (b, fs)]> M) others k
    end.
Proof.
  intros HR Hi. pose proof (sr_layout _ _ _ _ _ _ _ HR) as Hl. pose proof (sr_list _ _ _ _ _ _ _ HR) as Hd.
  destruct (entry_at _ _ _ _ _ _ _ _ _ _ HR Hi) as (s & Hs & Eb & Hok).
  pose proof (page_bufs _ _ _ _ _ _ _ _ _ _ HR Hi) as [Hpg _]. rewrite <- Eb in Hpg.
  pose proof (fun h' nodes' => slab_mem m a n ss M others k i b fs h' nodes' HR Hi) as Hmem.
  unfold allocate_in. rewrite (deref_ok _ _ _ (dll_nodes _ _ _ Hd _ _ _ Hs)), bind_Done. cbn [data node_at].
  destruct fs as [| q fs].
  - rewrite (Slab_allocate_full _ _ _ _ Hok), bind_Done.
    destruct (dll_write_data _ _ _ _ _ _ s Hd Hs) as (nodes' & -> & Hd' & Hoff). rewrite bind_Done.
    do 3 eexists. split; [done |]. split; [by apply Hmem |]. split; [done |].
    rewrite <- (list_insert_id M i (b, [])) by done. split.
    + by eapply (slabs_update _ _ _ _ _ _ _ _ _ _ _ _ (objs m) s).
    + by rewrite list_insert_id.
  - destruct (Slab_allocate_ok _ _ Hl _ _ _ _ Hpg Hok) as (h' & s' & -> & Eb' & Hok' & Ho). rewrite bind_Done.
    destruct (dll_write_data _ _ _ _ _ _ s' Hd Hs) as (nodes' & -> & Hd' & Hoff). rewrite bind_Done.
    assert (forall x, x ∉ object_addrs b (layout a) n -> h' !! x = objs m !! x) as Ho'.
    { intros x Hx. apply Ho. intros ->. apply Hx. rewrite <- Eb. apply (so_free _ _ _ _ _ Hok). by left. }
    do 3 eexists. split; [done |]. split; [by apply Hmem |]. split; [done |].
    eapply slabs_update; [done | done | done | done | congruence | done | done].
Qed.

(** The scan takes the top object of the first slab that has one. *)
Lemma allocate_from_ok a n M others k : forall fuel i m ss, slabs_repr m a n ss M others k ->
  (length ss - i < fuel)%nat ->
  exists o m' ss', allocate_from fuel m (mkIter (ss.*1 !! i) (Z.of_nat (length ss - i))) (layout a) = Done (o, m') /\
    same_mem M.*1 m m' /\
    match o with
    | Some q => exists j b fs, M !! j = Some (b, q :: fs) /\ slabs_repr m' a n ss' (<[j := (b, fs)]> M) others k
    | None => slabs_repr m' a n ss' M others k /\
        forall j b fs, (i <= j)%nat -> M !! j = Some (b, fs) -> fs = []
    end.
Proof.
  induction fuel as [| fuel IH]; intros i m ss HR Hf; [lia |]. cbn [allocate_from].
  pose proof (Forall2_length _ _ _ (sr_slabs _ _ _ _ _ _ _ HR)) as El.
  unfold IterMut_next. destruct (M !! i) as [[b fs] |] eqn:Hi.
  - destruct (entry_at _ _ _ _ _ _ _ _ _ _ HR Hi) as (s & Hs & _ & _). pose proof (lookup_lt_Some _ _ _ Hs).
    rewrite (iter_advance_ok _ _ _ _ _ _ _ (sr_list _ _ _ _ _ _ _ HR) Hs), bind_Done.
    destruct (allocate_in_ok _ _ _ _ _ _ _ _ _ _ HR Hi) as (r & m1 & ss1 & -> & Hm1 & Hr). rewrite bind_Done.
    destruct fs as [| q fs].
    + destruct Hr as (-> & HR1 & Efst).
      assert (length ss1 = length ss) as El1 by (rewrite <- (length_fmap fst ss1), Efst; apply length_fmap).
      rewrite <- Efst, <- El1. destruct (IH (S i) m1 ss1 HR1) as (o & m' & ss' & E & Hm2 & Ho); [lia |].
      exists o, m', ss'. split; [done |]. split; [by eapply same_mem_trans |]. destruct o as [q |]; [done |]. destruct Ho as [HR' Hall].
      split; [done |]. intros j b' fs' Hij Hj. destruct (decide (i = j)) as [<- |]; [congruence |].
      apply (Hall j b'); [lia | done].
    + destruct Hr as [-> HR1]. exists (Some q), m1, ss1. split; [done |]. split; [done |]. eauto 10.
  - apply lookup_ge_None in Hi. replace (length ss - i)%nat with 0%nat by lia. cbn.
    exists None, m, ss. split; [done |]. split; [done |]. split; [done |]. intros j b fs Hij Hj.
    apply lookup_lt_Some in Hj. lia.
Qed.

Lemma bufs_few (bs : list Z) : NoDup bs -> (forall b, b ∈ bs -> page_addr b) ->
  Z.of_nat (length bs) < usize_MAX.
Proof.
  intros Hnd Hpg. assert (length bs <= length (seqZ 0 (2 ^ 52)))%nat as Hle.
  { rewrite <- (length_fmap (fun b => b / BASIC_PAGE_SIZE) bs). apply submseteq_length, NoDup_submseteq.
    - apply NoDup_fmap_2_strong; [| done]. intros x y [[i ->] _]%Hpg [[j ->] _]%Hpg.
      unfold BASIC_PAGE_SIZE. rewrite !Z.div_mul by lia. congruence.
    - intros x (b & -> & ([i ->] & Hlo & Hhi)%Hpg)%list_elem_of_fmap. apply elem_of_seqZ.
      unfold BASIC_PAGE_SIZE, usize_MAX in *. rewrite Z.div_mul by lia.
      change (2 ^ 64) with 18446744073709551616 in Hhi. change (2 ^ 52) with 4503599627370496. lia. }
  rewrite length_seqZ in Hle. unfold usize_MAX. change (2 ^ 64) with 18446744073709551616.
  change (2 ^ 52) with 4503599627370496 in Hle. lia.
Qed.

Lemma node_of_slab m a n ss M others k p : slabs_repr m a n ss M others k -> p ∈ ss.*1 ->
  exists b, b ∈ M.*1 /\ p = node_addr (layout a) n b.
Proof.
  intros HR ([q s] & -> & [i Hi]%list_elem_of_lookup)%list_elem_of_fmap.
  destruct (Forall2_lookup_l _ _ _ _ _ (sr_slabs _ _ _ _ _ _ _ HR) Hi) as ([b f] & Hb & E & _). cbn in *.
  exists b. split; [| done]. apply list_elem_of_fmap. exists (b, f). split; [done | by eapply list_elem_of_lookup_2].
Qed.

Lemma node_fresh m a n ss M others k b : slabs_repr m a n ss M others k -> b ∉ M.*1 ->
  node_addr (layout a) n b ∉ ss.*1.
Proof.
  intros HR Hb Hin. destruct (node_of_slab _ _ _ _ _ _ _ _ HR Hin) as (b' & Hb' & E).
  apply Hb. unfold node_addr in E. by replace b with b' by lia.
Qed.

(** A new slab in a page of its own. *)
Lemma slabs_extend m a n ss M others k b s fs h' nodes' l' g : slabs_repr m a n ss M others (S k) ->
  page_addr b -> b ∉ M.*1 -> buffer s = b -> slab_ok h' (layout a) n s fs ->
  (forall q, q ∉ object_addrs b (layout a) n -> h' !! q = objs m !! q) ->
  dll nodes' l' (ss ++ [(node_addr (layout a) n b, s)]) -> pages_inv g (b :: M.*1 ++ others) k ->
  slabs_repr (mkSlabMem h' nodes' g) (with_slabs a l') n (ss ++ [(node_addr (layout a) n b, s)])
    (M ++ [(b, fs)]) others k.
Proof.
  intros HR Hb HbM Eb Hok Ho Hd Hinv. pose proof HR as [Hl H1 Hc _ Hf Hnd Hpg _].
  split; cbn [layout page_count object_count slabs nodes objs paging with_slabs]; try done.
  - apply Forall2_app; [| apply Forall2_cons; split; [by split_and! | constructor]].
    apply Forall2_same_length_lookup_2; [by eapply Forall2_length |].
    intros i [p s1] [b1 f1] Hi1 Hi2. destruct (Forall2_lookup_lr _ _ _ _ _ _ Hf Hi1 Hi2) as (E1 & E2 & Hok1).
    split_and!; [done | done |]. cbn in *. eapply slab_frame; [exact Hok1 |]. intros q Hq. apply Ho.
    intros Hq'. apply HbM. pose proof (page_bufs _ _ _ _ _ _ _ _ _ _ HR Hi2) as Hb1.
    rewrite (objects_apart _ _ b b1 q Hl Hb Hb1 Hq' ltac:(by rewrite <- E2)).
    apply list_elem_of_fmap. exists (b1, f1). split; [done | by eapply list_elem_of_lookup_2].
  - rewrite fmap_app. apply NoDup_app. split_and!; [done | | apply NoDup_singleton].
    intros x Hx [-> | []%not_elem_of_nil]%elem_of_cons. done.
  - intros x. rewrite fmap_app, elem_of_app. intros [Hx | [-> | []%not_elem_of_nil]%elem_of_cons]; [by apply Hpg | done].
  - eapply pages_inv_proper; [done | | done | exact Hinv].
    rewrite fmap_app, <- app_assoc. cbn [fmap list_fmap app fst]. symmetry. apply Permutation_middle.
Qed.

Lemma grow_ok m a n ss M others k : slabs_repr m a n ss M others (S k) ->
  exists m' a' ss' b, grow m a = Done (Ok (), m', a') /\
    layout a' = layout a /\ tail (slabs a') = Some (node_addr (layout a) n b) /\ (b ∉ M.*1 ++ others) /\
    same_mem (b :: M.*1) m m' /\ slabs_repr m' a' n ss' (M ++ [(b, rev (object_addrs b (layout a) n))]) others k.
Proof.
  intros HR. pose proof HR as [Hl H1 Hc Hd Hf Hnd Hpg Hinv].
  destruct (pages_allocate_one _ _ _ Hinv) as (b & g & E & Hinv' & Hb1 & Hb2 & Hb3 & Hnew).
  pose proof (metadata_fits _ _ Hl) as [Hm1 Hm2]. pose proof (lo_size _ _ Hl) as Hsz.
  unfold size_of_SlabNode, BASIC_PAGE_SIZE in Hm2.
  unfold grow. rewrite H1, Hc, E, bind_Done, Nat2Z.id.
  rewrite (usize_mul_ok (Z.of_nat n)), bind_Done by (unfold usize_MAX; lia).
  rewrite align_up_word, bind_Done by (unfold usize_MAX; nia). fold (metadata_offset (layout a) n).
  rewrite usize_add_ok, bind_Done by (unfold usize_MAX, size_of_SlabNode; lia).
  rewrite usize_mul_ok, bind_Done by done.
  rewrite (proj2 (Z.leb_le _ _)) by (unfold size_of_SlabNode, BASIC_PAGE_SIZE; lia).
  unfold assert_ at 1. rewrite bind_Done. fold (node_addr (layout a) n b).
  destruct (Slab_new_ok _ _ Hl (raw_objects (objs m) (object_addrs b (layout a) n)) b Hb1)
    as (s & h' & -> & Eb & Hok & Ho).
  { intros p Hp. rewrite raw_objects_lookup, decide_True by done. eauto. }
  rewrite bind_Done. assert (b ∉ M.*1) as HbM by (intros Hin; apply Hnew, elem_of_app; by left).
  pose proof (node_fresh _ _ _ _ _ _ _ _ HR HbM) as Hnn.
  set (nodes1 := <[node_addr (layout a) n b := Node_new s]> (nodes m)).
  assert (dll nodes1 (slabs a) ss) as Hd1.
  { eapply dll_frame with (ps := [node_addr (layout a) n b]); [exact Hd | |].
    - intros q Hq. apply lookup_insert_ne. set_solver.
    - intros p Hp [-> | []%not_elem_of_nil]%elem_of_cons. done. }
  destruct (push_node_back_spec nodes1 (slabs a) ss (node_addr (layout a) n b) (Node_new s) Hd1)
    as (nodes2 & l2 & -> & Hd2 & Hoff); [apply lookup_insert_eq | done | |].
  { rewrite (Forall2_length _ _ _ Hf), <- (length_fmap fst). by apply bufs_few. }
  rewrite bind_Done, <- H1, <- Hc. fold (with_slabs a l2). do 4 eexists. split; [done |]. split; [done |].
  split_and!; [| done | | eapply slabs_extend; try done].
  - cbn [slabs with_slabs]. rewrite (dll_tail _ _ _ Hd2), length_app. cbn [length].
    rewrite Nat.add_sub, fmap_app, lookup_app_r, length_fmap, Nat.sub_diag by (rewrite length_fmap; lia). done.
  - split; cbn; intros q Hq.
    + assert (q ∉ object_addrs b (layout a) n) as Hnq.
      { intros Hin. apply Hq. by eapply object_in_page; [| | left]. }
      rewrite Ho by done. by rewrite raw_objects_lookup, decide_False by done.
    + rewrite Hoff.
      * apply lookup_insert_ne. intros <-. apply Hq. by apply node_in_page; [| left].
      * intros [-> | Hin]%elem_of_cons; apply Hq; [by apply node_in_page; [| left] |].
        destruct (node_of_slab _ _ _ _ _ _ _ _ HR Hin) as (b' & Hb' & ->). by apply node_in_page; [| right].
  - intros q Hq. rewrite Ho by done. by rewrite raw_objects_lookup, decide_False by done.
Qed.

(** ** The objects clients hold *)
Lemma mheld_update m a n ss M others k j b fs fs' x : slabs_repr m a n ss M others k -> M !! j = Some (b, fs) ->
  mheld (layout a) n (<[j := (b, fs')]> M) x <->
    held b (layout a) n fs' x \/ ((x ∉ object_addrs b (layout a) n) /\ mheld (layout a) n M x).
Proof.
  intros HR Hj. pose proof (lookup_lt_Some _ _ _ Hj) as Hlt. pose proof (sr_layout _ _ _ _ _ _ _ HR) as Hl.
  unfold mheld. split.
  - intros (b1 & f1 & [i Hi]%list_elem_of_lookup & Hx). destruct (decide (j = i)) as [<- | Hne].
    + rewrite list_lookup_insert_eq in Hi by done. injection Hi as <- <-. by left.
    + rewrite list_lookup_insert_ne in Hi by done. right. split.
      * intros Hx'. destruct Hx as [Hx _]. pose proof (objects_apart _ _ b b1 x Hl (page_bufs _ _ _ _ _ _ _ _ _ _ HR Hj)
          (page_bufs _ _ _ _ _ _ _ _ _ _ HR Hi) Hx' Hx) as <-. by apply Hne; eapply same_slab.
      * exists b1, f1. split; [by eapply list_elem_of_lookup_2 | done].
  - intros [Hx | [Hx (b1 & f1 & [i Hi]%list_elem_of_lookup & Hx1)]].
    + exists b, fs'. split; [| done]. apply list_elem_of_lookup. exists j. by apply list_lookup_insert_eq.
    + exists b1, f1. split; [| done]. apply list_elem_of_lookup. exists i. rewrite list_lookup_insert_ne; [done |].
      intros <-. destruct Hx1 as [Hx1 _]. by simplify_eq.
Qed.

(** An object of a slab is held or free as its own slab says. *)
Lemma mheld_here m a n ss M others k j b fs x : slabs_repr m a n ss M others k -> M !! j = Some (b, fs) ->
  x ∈ object_addrs b (layout a) n -> mheld (layout a) n M x <-> x ∉ fs.
Proof.
  intros HR Hj Hx. rewrite <- (list_insert_id M j (b, fs)) at 1 by done.
  rewrite (mheld_update _ _ _ _ _ _ _ _ _ _ _ _ HR Hj). unfold held. naive_solver.
Qed.

Lemma taken_object m a n ss M others k j b q fs : slabs_repr m a n ss M others k -> M !! j = Some (b, q :: fs) ->
  ~ mheld (layout a) n M q /\ (align (layout a) | q) /\
  (forall x, mheld (layout a) n (<[j := (b, fs)]> M) x <-> mheld (layout a) n M x \/ x = q).
Proof.
  intros HR Hj. destruct (entry_at _ _ _ _ _ _ _ _ _ _ HR Hj) as (s & _ & Eb & Hok).
  pose proof (ustack_nodup _ _ _ (so_stack _ _ _ _ _ Hok)) as [Hni _]%NoDup_cons.
  assert (q ∈ object_addrs b (layout a) n) as Hq by (rewrite <- Eb; apply (so_free _ _ _ _ _ Hok); by left).
  split_and!.
  - rewrite (mheld_here _ _ _ _ _ _ _ _ _ _ _ HR Hj Hq). intros Hn. apply Hn. by left.
  - eapply object_aligned; [apply HR | apply (page_bufs _ _ _ _ _ _ _ _ _ _ HR Hj) | done].
  - intros x. rewrite (mheld_update _ _ _ _ _ _ _ _ _ _ _ _ HR Hj).
    destruct (decide (x ∈ object_addrs b (layout a) n)) as [Hx | Hx]; [| unfold held; naive_solver].
    rewrite (mheld_here _ _ _ _ _ _ _ _ _ _ _ HR Hj Hx). unfold held. rewrite not_elem_of_cons.
    destruct (decide (x = q)) as [-> |]; naive_solver.
Qed.

(** ** [allocate] as a whole *)
Lemma allocate_scan m a n ss M others k : slabs_repr m a n ss M others k ->
  exists o m' ss', allocate_from (LinkedList_fuel (slabs a)) m (LinkedList_iter_mut (slabs a)) (layout a) = Done (o, m') /\
    same_mem M.*1 m m' /\
    match o with
    | Some q => exists j b fs, M !! j = Some (b, q :: fs) /\ slabs_repr m' a n ss' (<[j := (b, fs)]> M) others k
    | None => slabs_repr m' a n ss' M others k /\ forall b fs, (b, fs) ∈ M -> fs = []
    end.
Proof.
  intros HR. pose proof (sr_list _ _ _ _ _ _ _ HR) as Hd. unfold LinkedList_iter_mut, LinkedList_fuel.
  rewrite (dll_len _ _ _ Hd), (dll_head _ _ _ Hd), Nat2Z.id.
  destruct (allocate_from_ok a n M others k (S (length ss)) 0 m ss HR ltac:(lia)) as (o & m' & ss' & E & Hm & Ho).
  rewrite Nat.sub_0_r in E. exists o, m', ss'. split; [done |]. split; [done |]. destruct o; [done |].
  destruct Ho as [HR' Hall]. split; [done |]. intros b fs [j Hj]%list_elem_of_lookup. eapply Hall; [lia | done].
Qed.

(** The new slab is the last of the list. *)
Lemma allocate_last m a n ss M others k b fs : slabs_repr m a n ss (M ++ [(b, fs)]) others k ->
  exists r m' ss', allocate_in m (node_addr (layout a) n b) (layout a) = Done (r, m') /\
    same_mem (M.*1 ++ [b]) m m' /\
    match fs with
    | [] => r = Err SlabFullInternalError /\ slabs_repr m' a n ss' (M ++ [(b, [])]) others k
    | q :: fs => r = Ok q /\ slabs_repr m' a n ss' (M ++ [(b, fs)]) others k
    end.
Proof.
  intros HR. assert ((M ++ [(b, fs)]) !! length M = Some (b, fs)) as Hi.
  { rewrite lookup_app_r, Nat.sub_diag by done. done. }
  destruct (allocate_in_ok _ _ _ _ _ _ _ _ _ _ HR Hi) as (r & m' & ss' & E & Hm & Hr). exists r, m', ss'.
  rewrite fmap_app in Hm. split; [done |]. split; [exact Hm |]. destruct fs as [| q fs]; [naive_solver |].
  rewrite insert_app_r_alt, Nat.sub_diag in Hr by done. done.
Qed.

Lemma grown_mem m1 m2 m3 m4 (bs : list Z) b : same_mem bs m1 m2 -> same_mem (b :: bs) m2 m3 ->
  same_mem (bs ++ [b]) m3 m4 -> same_mem (bs ++ [b]) m1 m4.
Proof.
  intros H1 H2 H3. eapply same_mem_trans; [| exact H3].
  eapply same_mem_trans; (eapply same_mem_mono; [eassumption |]); set_solver.
Qed.

Lemma insert_bufs M j b fs fs' : M !! j = Some (b, fs) -> (<[j := (b, fs')]> M).*1 = M.*1.
Proof. intros Hj. rewrite list_fmap_insert. apply list_insert_id. by rewrite list_lookup_fmap, Hj. Qed.

(** A slab all of whose objects are free adds none to the objects held. *)
Lemma mheld_new_slab l n M b x : mheld l n (M ++ [(b, rev (object_addrs b l n))]) x <-> mheld l n M x.
Proof.
  unfold mheld. split.
  - intros (b1 & f1 & [Hin | [[= -> ->] | []%not_elem_of_nil]%elem_of_cons]%elem_of_app & Hx); [eauto |].
    destruct Hx as [Hx Hnx]. exfalso. apply Hnx, list_elem_of_In, in_rev. rewrite rev_involutive. by apply list_elem_of_In.
  - intros (b1 & f1 & Hin & Hx). exists b1, f1. split; [apply elem_of_app; by left | done].
Qed.

Lemma allocate_ok m a n M others k : represents m a n M others (S k) -> (0 < n)%nat ->
  exists q m' a' M' k', InternalSlabAllocator_allocate m a = Done (Ok q, m', a') /\
    represents m' a' n M' others k' /\ layout a' = layout a /\ (k <= k')%nat /\
    same_mem M'.*1 m m' /\ (forall b, b ∈ M'.*1 -> b ∈ M.*1 \/ b ∉ others) /\
    ~ mheld (layout a) n M q /\ (align (layout a) | q) /\
    (forall x, mheld (layout a) n M' x <-> mheld (layout a) n M x \/ x = q).
Proof.
  intros [ss HR] Hn. unfold InternalSlabAllocator_allocate.
  destruct (allocate_scan _ _ _ _ _ _ _ HR) as (o & m1 & ss1 & -> & Hm1 & Ho). rewrite bind_Done.
  destruct o as [q |].
  - destruct Ho as (j & b & fs & Hj & HR1). destruct (taken_object _ _ _ _ _ _ _ _ _ _ _ HR Hj) as (H1 & H2 & H3).
    do 5 eexists. split; [done |]. split; [by eexists |]. rewrite (insert_bufs _ _ _ _ _ Hj).
    split_and!; [done | | done | by left | done | done | exact H3]. lia.
  - destruct Ho as [HR1 Hfull]. destruct (grow_ok _ _ _ _ _ _ _ HR1) as (m2 & a2 & ss2 & b & -> & El & Et & Hb & Hm2 & HR2).
    rewrite bind_Done. unfold LinkedList_back_mut. rewrite Et, <- El.
    destruct (allocate_last _ _ _ _ _ _ _ _ _ HR2) as (r & m3 & ss3 & -> & Hm3 & Hr). rewrite bind_Done.
    assert (same_mem (M.*1 ++ [b]) m m3) as Hm by (eapply grown_mem; eauto).
    assert ((M ++ [(b, rev (object_addrs b (layout a) n))]) !! length M = Some (b, rev (object_addrs b (layout a) n))) as Hi.
    { rewrite lookup_app_r, Nat.sub_diag by done. done. }
    destruct (rev (object_addrs b (layout a) n)) as [| q fs] eqn:Er.
    { apply (f_equal length) in Er. rewrite length_rev, object_addrs_length in Er. cbn in Er. lia. }
    destruct Hr as [-> HR3]. destruct (taken_object _ _ _ _ _ _ _ _ _ _ _ HR2 Hi) as (H1 & H2 & H3).
    rewrite insert_app_r_alt, Nat.sub_diag in H3 by done. cbn [insert list_insert] in H3. rewrite El in *.
    assert (forall x, mheld (layout a) n (M ++ [(b, q :: fs)]) x <-> mheld (layout a) n M x) as Hsame.
    { intros x. rewrite <- Er. apply mheld_new_slab. }
    do 5 eexists. split; [done |]. split; [by eexists |]. rewrite fmap_app.
    split_and!; [done | done | done | | by rewrite <- Hsame | done | intros x; by rewrite <- Hsame].
    intros x [Hx | [-> | []%not_elem_of_nil]%elem_of_cons]%elem_of_app; [by left | right].
    intros Hx. apply Hb, elem_of_app. by right.
Qed.

(** When no object fits in a page beside the slab's node, every call takes a
    new page and fails. *)
Lemma allocate_never m a M others k : represents m a 0 M others (S k) ->
  exists m' a' b, InternalSlabAllocator_allocate m a = Done (Err SlabFullInternalError, m', a') /\
    represents m' a' 0 (M ++ [(b, [])]) others k /\ layout a' = layout a /\
    same_mem (M.*1 ++ [b]) m m' /\ b ∉ M.*1 ++ others.
Proof.
  intros [ss HR]. unfold InternalSlabAllocator_allocate.
  destruct (allocate_scan _ _ _ _ _ _ _ HR) as (o & m1 & ss1 & -> & Hm1 & Ho). rewrite bind_Done.
  destruct o as [q |].
  - destruct Ho as (j & b & fs & Hj & _). destruct (entry_at _ _ _ _ _ _ _ _ _ _ HR Hj) as (s & _ & _ & Hok).
    pose proof (so_free _ _ _ _ _ Hok q ltac:(by left)) as (i & Hi & _)%elem_of_object_addrs. lia.
  - destruct Ho as [HR1 _]. destruct (grow_ok _ _ _ _ _ _ _ HR1) as (m2 & a2 & ss2 & b & -> & El & Et & Hb & Hm2 & HR2).
    rewrite bind_Done. unfold LinkedList_back_mut. rewrite Et, <- El.
    destruct (allocate_last _ _ _ _ _ _ _ _ _ HR2) as (r & m3 & ss3 & -> & Hm3 & Hr). rewrite bind_Done.
    destruct Hr as [-> HR3]. do 3 eexists. split; [done |]. split; [by eexists |]. split_and!; [done | | done].
    eapply grown_mem; eauto.
Qed.

(** ** [free] *)
Definition mobject (l : Layout) (n : nat) M (p : Z) : Prop := exists b fs, (b, fs) ∈ M /\ p ∈ object_addrs b l n.

(** What a slab does with a pointer into its object area. *)
Lemma free_here m a n ss M others k i p s b fs ptr : slabs_repr m a n ss M others k ->
  ss !! i = Some (p, s) -> M !! i = Some (b, fs) -> buffer s = b -> slab_ok (objs m) (layout a) n s fs ->
  b <= ptr < b + Z.of_nat n * size (layout a) ->
  exists r m' ss' M',
    ('(r, objs, s) ← Slab_free (objs m) s ptr (layout a);
     nodes ← write (nodes m) p (with_data s);
     Done (r, mkSlabMem objs nodes (paging m))) = Done (r, m') /\
    slabs_repr m' a n ss' M' others k /\ same_mem M.*1 m m' /\
    match r with
    | Ok _ => held b (layout a) n fs ptr /\ M' = <[i := (b, ptr :: fs)]> M
    | Err DoubleFree => M' = M /\ ptr ∈ fs
    | Err e => e = BadPtrRange /\ M' = M /\ ptr ∉ object_addrs b (layout a) n
    end.
Proof.
  intros HR Hs Hi Eb Hok Hin. pose proof (sr_layout _ _ _ _ _ _ _ HR) as Hl. pose proof (sr_list _ _ _ _ _ _ _ HR) as Hd.
  assert (forall h' s' fs', buffer s' = b -> slab_ok h' (layout a) n s' fs' ->
    (forall q, q ∉ object_addrs b (layout a) n -> h' !! q = objs m !! q) ->
    exists nodes' ss', write (nodes m) p (with_data s') = Done nodes' /\
      slabs_repr (mkSlabMem h' nodes' (paging m)) a n ss' (<[i := (b, fs')]> M) others k /\
      same_mem M.*1 m (mkSlabMem h' nodes' (paging m))) as Hwr.
  { intros h' s' fs' Eb' Hok' Ho'. destruct (dll_write_data _ _ _ _ _ _ s' Hd Hs) as (nodes' & E & Hd' & Hoff).
    do 2 eexists. split; [exact E |]. split; [by eapply slabs_update |].
    destruct (entry_at _ _ _ _ _ _ _ _ _ _ HR Hi) as (s0 & Hs0 & _ & _). rewrite Hs in Hs0. injection Hs0 as -> _.
    by eapply slab_mem. }
  rewrite <- Eb in Hin. destruct (decide (ptr ∈ object_addrs (buffer s) (layout a) n)) as [Hobj | Hobj];
    [destruct (decide (ptr ∈ fs)) as [Hfr | Hfr] |].
  - rewrite (Slab_free_free _ _ Hl _ _ _ _ Hok Hfr), bind_Done.
    destruct (Hwr (objs m) s fs Eb Hok ltac:(done)) as (nodes' & ss' & -> & HR' & Hm).
    do 4 eexists. split; [done |]. split; [exact HR' |]. split; [done |]. split; [by apply list_insert_id | done].
  - destruct (Slab_free_held _ _ Hl _ _ _ _ Hok (conj Hobj Hfr)) as (h' & s' & -> & Eb' & Hok' & Ho). rewrite bind_Done.
    rewrite Eb in Hobj. destruct (Hwr h' s' (ptr :: fs) ltac:(congruence) Hok') as (nodes' & ss' & -> & HR' & Hm).
    { intros q Hq. apply Ho. by intros ->. }
    do 4 eexists. split; [done |]. split; [exact HR' |]. split; [done |]. done.
  - rewrite (Slab_free_between _ _ Hl _ _ _ _ Hok Hin Hobj), bind_Done.
    destruct (Hwr (objs m) s fs Eb Hok ltac:(done)) as (nodes' & ss' & -> & HR' & Hm).
    do 4 eexists. split; [done |]. split; [exact HR' |]. split; [done |]. rewrite Eb in Hobj. split_and!; [done | by apply list_insert_id | done].
Qed.

(** The slab whose object area has the pointer decides. *)
Lemma free_from_ok m a n ss M others k ptr : slabs_repr m a n ss M others k -> forall fuel i,
  (length ss - i < fuel)%nat ->
  exists r m' ss' M', free_from fuel m (mkIter (ss.*1 !! i) (Z.of_nat (length ss - i))) ptr (layout a) = Done (r, m') /\
    slabs_repr m' a n ss' M' others k /\ same_mem M.*1 m m' /\
    match r with
    | Ok _ => exists j b fs, M !! j = Some (b, fs) /\ held b (layout a) n fs ptr /\ M' = <[j := (b, ptr :: fs)]> M
    | Err DoubleFree => M' = M /\ mfree M ptr
    | Err e => e = BadPtrRange /\ M' = M /\
        forall j b fs, (i <= j)%nat -> M !! j = Some (b, fs) -> ptr ∉ object_addrs b (layout a) n
    end.
Proof.
  intros HR. pose proof (sr_layout _ _ _ _ _ _ _ HR) as Hl. pose proof (sr_list _ _ _ _ _ _ _ HR) as Hd.
  pose proof (Forall2_length _ _ _ (sr_slabs _ _ _ _ _ _ _ HR)) as El. pose proof (lo_size _ _ Hl) as Hsz.
  induction fuel as [| fuel IH]; intros i Hf; [lia |]. cbn [free_from]. unfold IterMut_next.
  destruct (M !! i) as [[b fs] |] eqn:Hi.
  2:{ apply lookup_ge_None in Hi. replace (length ss - i)%nat with 0%nat by lia. cbn.
      do 4 eexists. split; [done |]. split; [exact HR |]. split_and!; [done | done | done |]. intros j b fs Hij Hj.
      apply lookup_lt_Some in Hj. lia. }
  destruct (entry_at _ _ _ _ _ _ _ _ _ _ HR Hi) as (s & Hs & Eb & Hok). pose proof (lookup_lt_Some _ _ _ Hs).
  destruct (page_bufs _ _ _ _ _ _ _ _ _ _ HR Hi) as (Hbd & Hb0 & Hbm).
  rewrite (iter_advance_ok _ _ _ _ _ _ _ Hd Hs), bind_Done, (deref_ok _ _ _ (dll_nodes _ _ _ Hd _ _ _ Hs)), bind_Done.
  cbn [data node_at]. rewrite (contains_ptr_ok _ _ Hl _ _ _ _ Hok), bind_Done by lia. rewrite Eb.
  destruct (bool_decide_reflect (b <= ptr < b + Z.of_nat n * size (layout a))) as [Hin | Hout].
  - destruct (free_here _ _ _ _ _ _ _ _ _ _ _ _ _ HR Hs Hi Eb Hok Hin) as (r & m' & ss' & M' & E & HR' & Hm & Hr).
    exists r, m', ss', M'. split; [done |]. split; [done |]. split; [done |]. destruct r as [[] | []].
    + destruct Hr. eauto 10.
    + destruct Hr as (_ & -> & Hx). split_and!; [done | done |]. intros j b' fs' _ Hj Hx'.
      apply Hx. assert (b = b') as <-; [| done].
      by apply (page_of_object _ _ b b' ptr Hl); [eapply page_bufs | eapply page_bufs | |].
    + destruct Hr as [-> Hx]. split; [done |]. exists b, fs. split; [by eapply list_elem_of_lookup_2 | done].
    + by destruct Hr.
    + by destruct Hr.
    + by destruct Hr.
  - destruct (IH (S i) ltac:(lia)) as (r & m' & ss' & M' & E & HR' & Hm & Hr). exists r, m', ss', M'.
    split; [done |]. split; [done |]. split; [done |]. destruct r as [[] | []]; [done | | done | by destruct Hr ..].
    destruct Hr as (_ & -> & Hall). split_and!; [done | done |]. intros j b' fs' Hij Hj.
    destruct (decide (i = j)) as [<- |]; [| apply (Hall j b' fs'); [lia | done]].
    intros Hx. apply Hout. simplify_eq. pose proof (object_bounds _ _ _ _ Hl Hx). lia.
Qed.

Lemma mfree_object m a n ss M others k p : slabs_repr m a n ss M others k -> mfree M p ->
  mobject (layout a) n M p /\ ~ mheld (layout a) n M p.
Proof.
  intros HR (b & fs & Hin & Hp). pose proof Hin as [j Hj]%list_elem_of_lookup.
  destruct (entry_at _ _ _ _ _ _ _ _ _ _ HR Hj) as (s & _ & Eb & Hok).
  pose proof (so_free _ _ _ _ _ Hok p Hp) as Ho. rewrite Eb in Ho. split; [by exists b, fs |].
  rewrite (mheld_here _ _ _ _ _ _ _ _ _ _ _ HR Hj Ho). intros Hn. by apply Hn.
Qed.

Lemma mheld_object l n M p : mheld l n M p -> mobject l n M p.
Proof. intros (b & fs & Hin & Hp & _). by exists b, fs. Qed.

Lemma mobject_aligned m a n ss M others k p : slabs_repr m a n ss M others k -> mobject (layout a) n M p ->
  (align (layout a) | p).
Proof.
  intros HR (b & fs & [j Hj]%list_elem_of_lookup & Hp).
  eapply object_aligned; [apply HR | apply (page_bufs _ _ _ _ _ _ _ _ _ _ HR Hj) | done].
Qed.

Lemma free_repr_ok m a n M others k ptr : represents m a n M others k ->
  exists r m' M', InternalSlabAllocator_free m a ptr = Done (r, m') /\ represents m' a n M' others k /\
    same_mem M.*1 m m' /\ M'.*1 = M.*1 /\
    match r with
    | Ok _ => mheld (layout a) n M ptr /\
        forall x, mheld (layout a) n M' x <-> mheld (layout a) n M x /\ x <> ptr
    | Err DoubleFree => M' = M /\ mfree M ptr
    | Err e => e = BadPtrRange /\ M' = M /\ ~ mobject (layout a) n M ptr
    end.
Proof.
  intros [ss HR]. pose proof (sr_layout _ _ _ _ _ _ _ HR) as Hl. pose proof (sr_list _ _ _ _ _ _ _ HR) as Hd.
  unfold InternalSlabAllocator_free. destruct (is_aligned_ok _ _ ptr Hl) as ([] & -> & Hal); rewrite bind_Done; cbn [negb].
  2:{ do 3 eexists. split; [done |]. split; [by exists ss |]. split_and!; [done | done | done | done |]. intros Ho.
      discriminate (proj2 Hal). by eapply mobject_aligned. }
  unfold LinkedList_iter_mut, LinkedList_fuel. rewrite (dll_len _ _ _ Hd), (dll_head _ _ _ Hd), Nat2Z.id.
  destruct (free_from_ok _ _ _ _ _ _ _ ptr HR (S (length ss)) 0 ltac:(lia)) as (r & m' & ss' & M' & E & HR' & Hm & Hr).
  rewrite Nat.sub_0_r in E. exists r, m', M'. split; [done |]. split; [by exists ss' |]. split; [done |].
  destruct r as [[] | []]; [| | by destruct Hr as [-> ?] | by destruct Hr ..].
  - destruct Hr as (j & b & fs & Hj & Hh & ->). split; [by eapply insert_bufs |]. split; [exists b, fs; split; [by eapply list_elem_of_lookup_2 | done] |].
    intros x. rewrite (mheld_update _ _ _ _ _ _ _ _ _ _ _ _ HR Hj). destruct Hh as [Ho Hni].
    destruct (decide (x ∈ object_addrs b (layout a) n)) as [Hx | Hx].
    + rewrite (mheld_here _ _ _ _ _ _ _ _ _ _ _ HR Hj Hx). unfold held. rewrite not_elem_of_cons. naive_solver.
    + unfold held. naive_solver.
  - destruct Hr as (_ & -> & Hall). split_and!; [done | done | done |].
    intros (b & fs & [j Hj]%list_elem_of_lookup & Hp). by apply (Hall j b fs ltac:(lia) Hj).
Qed.

(** ** A client writes to its object *)
Lemma scribble_ok m a n M others k p v : represents m a n M others k -> mheld (layout a) n M p ->
  represents (scribble m p v) a n M others k.
Proof.
  intros [ss HR] Hh. exists ss. pose proof HR as [Hl H1 Hc Hd Hf Hnd Hpg Hinv]. split; cbn; try done.
  apply Forall2_same_length_lookup_2; [by eapply Forall2_length |].
  intros i [q s] [b fs] Hi1 Hi2. destruct (Forall2_lookup_lr _ _ _ _ _ _ Hf Hi1 Hi2) as (E1 & E2 & [Hs Hc' Hn Hfr Hv]).
  split_and!; [done | done |]. cbn in *. split; try done.
  - eapply ustack_frame; [exact Hs |]. intros x Hx. apply lookup_insert_ne. intros <-.
    apply (mheld_here _ _ _ _ _ _ _ _ _ _ _ HR Hi2) in Hh; [done |]. rewrite <- E2. by apply Hfr.
  - intros x Hx. destruct (decide (p = x)) as [<- |]; [rewrite lookup_insert_eq; eauto |].
    rewrite lookup_insert_ne by done. by apply Hv.
Qed.

(** ** [reap] and [drop] *)
Definition all_free (n : nat) (bf : Z * list Z) : Prop := length bf.2 = n.

Lemma slab_empty_ok h l n s fs : slab_ok h l n s fs -> Slab_is_empty s = bool_decide (length fs = n).
Proof.
  intros Hok. unfold Slab_is_empty. rewrite (so_count _ _ _ _ _ Hok).
  destruct (Z.eqb_spec (Z.of_nat n - Z.of_nat (length fs)) 0);
    by rewrite ?bool_decide_eq_true_2, ?bool_decide_eq_false_2 by lia.
Qed.

Lemma free_slab_ok m a n p s ss b fs M others k nodes' l' :
  slabs_repr m a n ((p, s) :: ss) ((b, fs) :: M) others k ->
  dll nodes' l' ss -> nodes' !! p = Some (mkNode s None None) -> same_off (p :: ss.*1) (nodes m) nodes' ->
  exists m', free_slab (mkSlabMem (objs m) nodes' (paging m)) a p = Done m' /\
    same_mem (b :: M.*1) m m' /\ slabs_repr m' (with_slabs a l') n ss M others k.
Proof.
  intros HR Hd Hp Hoff. pose proof HR as [Hl H1 Hc Hd0 Hf Hnd Hpg Hinv].
  apply Forall2_cons in Hf as [(E1 & E2 & Hok) Hf]. cbn in E1, E2, Hok. cbn in Hnd.
  apply NoDup_cons in Hnd as [Hni Hnd]. unfold free_slab. cbn [objs nodes paging].
  rewrite (deref_ok _ _ _ Hp), bind_Done. cbn [data]. rewrite H1, E2.
  destruct (pages_free_one _ _ (M.*1 ++ others) b _ Hinv) as (g & -> & Hinv'); [done |].
  rewrite bind_Done. cbn [unwrap_ok]. rewrite bind_Done. eexists. split; [done |]. split.
  { rewrite (so_capacity _ _ _ _ _ Hok), Nat2Z.id. split; cbn [objs nodes]; intros q Hq.
    - apply gone_objects_lookup. intros Hin. apply Hq. by eapply object_in_page; [| | left].
    - assert (q ∉ p :: ss.*1) as Hni'.
      { intros Hin. destruct (node_of_slab _ _ _ _ _ _ _ q HR Hin) as (b' & Hb' & ->). apply Hq. by apply node_in_page. }
      rewrite lookup_delete_ne by (intros <-; apply Hni'; by left). by apply Hoff. }
  split; cbn [objs nodes paging layout page_count object_count slabs with_slabs]; try done.
  - eapply dll_frame with (ps := [p]); [exact Hd | |].
    + intros q Hq. apply lookup_delete_ne. set_solver.
    + intros q Hq [-> | []%not_elem_of_nil]%elem_of_cons.
      pose proof (dll_nodup _ _ _ Hd0) as Hn. cbn in Hn. by apply NoDup_cons in Hn as [? _].
  - apply Forall2_same_length_lookup_2; [by eapply Forall2_length |].
    intros i [q s1] [b1 f1] Hi1 Hi2. destruct (Forall2_lookup_lr _ _ _ _ _ _ Hf Hi1 Hi2) as (F1 & F2 & Hok1).
    split_and!; [done | done |]. cbn in *. eapply slab_frame; [exact Hok1 |]. intros x Hx.
    apply gone_objects_lookup. rewrite (so_capacity _ _ _ _ _ Hok), Nat2Z.id. intros Hx'.
    assert (b1 ∈ M.*1) as Hin by (apply list_elem_of_fmap; exists (b1, f1); split; [done | by eapply list_elem_of_lookup_2]).
    apply Hni. rewrite (objects_apart _ _ b b1 x Hl); [done | apply Hpg; by left | apply Hpg; by right | done |].
    by rewrite <- F2.
  - intros x Hx. apply Hpg. by right.
Qed.

Lemma front_ok m a n ss M others k : slabs_repr m a n ss M others k ->
  LinkedList_front (nodes m) (slabs a) = Done (snd <$> ss !! 0%nat).
Proof.
  intros HR. pose proof (sr_list _ _ _ _ _ _ _ HR) as Hd. unfold LinkedList_front.
  rewrite (dll_head _ _ _ Hd), list_lookup_fmap. destruct (ss !! 0%nat) as [[p s] |] eqn:E; [| done].
  cbn. by rewrite (deref_ok _ _ _ (dll_nodes _ _ _ Hd _ _ _ E)), bind_Done.
Qed.

(** [reap] stops at the first slab that is in use. *)
Lemma reap_from_ok n M2 others k : (forall bf, M2 !! 0%nat = Some bf -> ~ all_free n bf) ->
  forall M1 fuel m a c, represents m a n (M1 ++ M2) others k -> Forall (all_free n) M1 ->
  (length M1 < fuel)%nat -> c + Z.of_nat (length M1) <= usize_MAX ->
  exists m' a', reap_from fuel m a c = Done (c + Z.of_nat (length M1), m', a') /\
    same_mem (M1 ++ M2).*1 m m' /\ represents m' a' n M2 others k /\ layout a' = layout a.
Proof.
  intros Hstop. induction M1 as [| [b fs] M1 IH]; intros fuel m a c [ss HR] Hall Hf Hc;
    (destruct fuel as [| fuel]; [lia |]); cbn [reap_from app length] in *;
    rewrite (front_ok _ _ _ _ _ _ _ HR), bind_Done.
  - exists m, a. rewrite Z.add_0_r. split; [| split; [done | split; [by exists ss | done]]].
    destruct ss as [| [p s] ss]; [done |]. cbn. pose proof (sr_slabs _ _ _ _ _ _ _ HR) as Hfr.
    apply Forall2_cons_inv_l in Hfr as ([b fs] & M & (_ & _ & Hok) & _ & ->). cbn in Hok.
    rewrite (slab_empty_ok _ _ _ _ _ Hok), bool_decide_eq_false_2; [done |]. by apply (Hstop (b, fs)).
  - apply Forall_cons in Hall as [Hfree Hall]. destruct ss as [| [p s] ss];
      [by pose proof (Forall2_nil_inv_l _ _ (sr_slabs _ _ _ _ _ _ _ HR)) |]. cbn [lookup list_lookup fmap option_fmap option_map snd].
    pose proof (proj1 (Forall2_cons _ _ _ _ _) (sr_slabs _ _ _ _ _ _ _ HR)) as [(_ & Eb & Hok) _]. cbn in Eb, Hok.
    rewrite (slab_empty_ok _ _ _ _ _ Hok), bool_decide_eq_true_2 by done.
    destruct (pop_node_front_spec _ _ _ _ _ (sr_list _ _ _ _ _ _ _ HR)) as (nodes' & l' & -> & Hd' & Hp & Hoff).
    rewrite bind_Done. cbn [unwrap]. rewrite bind_Done, (deref_ok _ _ _ Hp), bind_Done. cbn [data].
    destruct (sr_pages _ _ _ _ _ _ _ HR b ltac:(by left)) as [Hb _].
    rewrite usize_rem_ok, bind_Done, Eb, (proj2 (mod0_divide _ BASIC_PAGE_SIZE eq_refl) Hb) by done. cbn [assert_ Z.eqb]. rewrite bind_Done.
    destruct (free_slab_ok _ _ _ _ _ _ _ _ _ _ _ _ _ HR Hd' Hp Hoff) as (m1 & -> & Hm1 & HR1). rewrite bind_Done.
    rewrite usize_add_ok, bind_Done by lia.
    destruct (IH fuel m1 (with_slabs a l') (c + 1)) as (m' & a' & -> & Hm & HR' & El);
      [by exists ss | done | lia | lia |].
    exists m', a'. split_and!; [do 3 f_equal; lia | | done | done].
    eapply same_mem_trans; [exact Hm1 |]. eapply same_mem_mono; [exact Hm |]. intros x. apply list_elem_of_further.
Qed.

Lemma reap_ok m a n M1 M2 others k : represents m a n (M1 ++ M2) others k -> Forall (all_free n) M1 ->
  (forall bf, M2 !! 0%nat = Some bf -> ~ all_free n bf) ->
  exists m' a', InternalSlabAllocator_reap m a = Done (Z.of_nat (length M1), m', a') /\
    same_mem (M1 ++ M2).*1 m m' /\ represents m' a' n M2 others k /\ layout a' = layout a.
Proof.
  intros HR Hall Hstop. pose proof HR as [ss [_ _ _ Hd Hf Hnd Hpg _]]. apply Forall2_length in Hf as El.
  rewrite length_app in El. unfold InternalSlabAllocator_reap, LinkedList_fuel. rewrite (dll_len _ _ _ Hd), Nat2Z.id.
  apply (reap_from_ok n M2 others k Hstop M1 _ m a 0); [done | done | lia |].
  pose proof (bufs_few _ Hnd Hpg) as Hfew. rewrite length_fmap, length_app in Hfew. lia.
Qed.

(** After [reap] the first slab, if there is one, is in use. *)
Lemma has_leaks_ok m a n ss M others k fuel : slabs_repr m a n ss M others k ->
  (forall bf, M !! 0%nat = Some bf -> ~ all_free n bf) -> (0 < fuel)%nat ->
  has_leaks_from fuel m (LinkedList_iter (slabs a)) = Done (bool_decide (M <> [])).
Proof.
  intros HR Hhd Hf. destruct fuel as [| fuel]; [lia |]. cbn [has_leaks_from].
  pose proof (sr_list _ _ _ _ _ _ _ HR) as Hd. pose proof (Forall2_length _ _ _ (sr_slabs _ _ _ _ _ _ _ HR)) as El.
  unfold LinkedList_iter. rewrite (dll_head _ _ _ Hd), (dll_len _ _ _ Hd). destruct M as [| [b fs] M].
  - apply length_zero_iff_nil in El as ->. done.
  - destruct (entry_at _ _ _ _ _ _ _ 0 _ _ HR eq_refl) as (s & Hs & _ & Hok).
    rewrite <- (Nat.sub_0_r (length ss)), (Iter_next_ok _ _ _ _ _ _ Hd Hs), bind_Done, (slab_empty_ok _ _ _ _ _ Hok).
    rewrite bool_decide_eq_false_2 by (by apply (Hhd (b, fs))). by rewrite bool_decide_eq_true_2.
Qed.

Lemma force_free_ok n others k : forall M fuel m a, represents m a n M others k -> (length M < fuel)%nat ->
  exists m' a', force_free fuel m a = Done (m', a') /\ represents m' a' n [] others k.
Proof.
  induction M as [| [b fs] M IH]; intros fuel m a [ss HR] Hf; (destruct fuel as [| fuel]; [lia |]); cbn [force_free length] in *;
    pose proof HR as [Hl H1 Hc Hd Hfr Hnd Hpg Hinv].
  - apply Forall2_nil_inv_r in Hfr as ->. rewrite (pop_node_front_nil _ _ Hd), bind_Done.
    do 2 eexists. split; [done |]. exists []. by split.
  - destruct ss as [| [p s] ss]; [by apply Forall2_nil_inv_l in Hfr |].
    destruct (pop_node_front_spec _ _ _ _ _ Hd) as (nodes' & l' & -> & Hd' & Hp & Hoff). rewrite bind_Done.
    destruct (free_slab_ok _ _ _ _ _ _ _ _ _ _ _ _ _ HR Hd' Hp Hoff) as (m1 & -> & _ & HR1). rewrite bind_Done.
    apply IH; [by exists ss | lia].
Qed.

(** No object is held exactly when every slab has all its objects free. *)
Lemma slab_unused h l n s fs : layout_ok l n -> slab_ok h l n s fs ->
  length fs = n <-> forall p, ~ held (buffer s) l n fs p.
Proof.
  intros Hl Hok. pose proof (ustack_nodup _ _ _ (so_stack _ _ _ _ _ Hok)) as Hnd. split.
  - intros E p [Hp Hni]. apply Hni.
    assert (fs ≡ₚ object_addrs (buffer s) l n) as ->; [| done].
    apply submseteq_length_Permutation; [| by rewrite object_addrs_length, E].
    apply NoDup_submseteq; [done |]. intros q. apply (so_free _ _ _ _ _ Hok).
  - intros Hno. apply Nat.le_antisymm.
    + rewrite <- (object_addrs_length l (buffer s) n). apply submseteq_length, NoDup_submseteq; [done |].
      intros q. apply (so_free _ _ _ _ _ Hok).
    + rewrite <- (object_addrs_length l (buffer s) n) at 1.
      apply submseteq_length, NoDup_submseteq; [by apply object_addrs_nodup |].
      intros q Hq. destruct (decide (q ∈ fs)) as [| Hni]; [done |]. by destruct (Hno q).
Qed.

(** The slabs before the first one in use, and the rest. *)
Lemma unused_prefix n M : exists M1 M2, M = M1 ++ M2 /\ Forall (all_free n) M1 /\
  forall bf, M2 !! 0%nat = Some bf -> ~ all_free n bf.
Proof.
  induction M as [| bf M (M1 & M2 & -> & H1 & H2)]; [by exists [], [] |].
  destruct (decide (length bf.2 = n)) as [E | E].
  - exists (bf :: M1), M2. split_and!; [done | by constructor | done].
  - exists [], (bf :: M1 ++ M2). split_and!; [done | done |]. by intros ? [= <-].
Qed.

Lemma mheld_unused m a n ss M others k : slabs_repr m a n ss M others k ->
  Forall (all_free n) M <-> forall p, ~ mheld (layout a) n M p.
Proof.
  intros HR. pose proof (sr_layout _ _ _ _ _ _ _ HR) as Hl. rewrite Forall_forall. split.
  - intros Hall p (b & fs & Hin & Hp). pose proof Hin as [j Hj]%list_elem_of_lookup.
    destruct (entry_at _ _ _ _ _ _ _ _ _ _ HR Hj) as (s & _ & <- & Hok).
    by apply (proj1 (slab_unused _ _ _ _ _ Hl Hok) (Hall _ Hin) p).
  - intros Hno [b fs] Hin. pose proof Hin as [j Hj]%list_elem_of_lookup.
    destruct (entry_at _ _ _ _ _ _ _ _ _ _ HR Hj) as (s & _ & <- & Hok).
    apply (slab_unused _ _ _ _ _ Hl Hok). intros p Hp. apply (Hno p). by exists (buffer s), fs.
Qed.

Lemma mheld_unused_prefix m a n ss M1 M2 others k p : slabs_repr m a n ss (M1 ++ M2) others k ->
  Forall (all_free n) M1 -> mheld (layout a) n (M1 ++ M2) p <-> mheld (layout a) n M2 p.
Proof.
  intros HR Hall. unfold mheld. setoid_rewrite elem_of_app. split; [| naive_solver].
  intros (b & fs & [Hin | Hin] & Hp); [exfalso | eauto]. rewrite Forall_forall in Hall.
  assert ((b, fs) ∈ M1 ++ M2) as [j Hj]%list_elem_of_lookup by (apply elem_of_app; by left).
  destruct (entry_at _ _ _ _ _ _ _ _ _ _ HR Hj) as (s & _ & <- & Hok).
  by apply (proj1 (slab_unused _ _ _ _ _ (sr_layout _ _ _ _ _ _ _ HR) Hok) (Hall _ Hin) p).
Qed.

Lemma drop_ok m a n M others k : represents m a n M others k ->
  ((forall p, ~ mheld (layout a) n M p) -> exists m' a', InternalSlabAllocator_drop m a = Done (m', a') /\
     pages_inv (paging m') others k /\ represents m' a' n [] others k) /\
  ((exists p, mheld (layout a) n M p) -> InternalSlabAllocator_drop m a = Panic Asserted).
Proof.
  intros HR. destruct (unused_prefix n M) as (M1 & M2 & -> & H1 & H2).
  destruct (reap_ok _ _ _ _ _ _ _ HR H1 H2) as (m1 & a1 & E & _ & [ss1 HR1] & El).
  unfold InternalSlabAllocator_drop. rewrite E, bind_Done.
  rewrite (has_leaks_ok _ _ _ _ _ _ _ _ HR1 H2), bind_Done by (unfold LinkedList_fuel; lia).
  pose proof HR1 as [_ _ _ Hd Hf _ _ _]. apply Forall2_length in Hf.
  destruct (force_free_ok n others k M2 (LinkedList_fuel (slabs a1)) m1 a1) as (m2 & a2 & -> & HR2);
    [by exists ss1 | unfold LinkedList_fuel; rewrite (dll_len _ _ _ Hd); lia |].
  rewrite bind_Done. destruct HR as [ss HR]. split.
  - intros Hno%(mheld_unused _ _ _ _ _ _ _ HR). apply Forall_app in Hno as [_ Hno].
    destruct M2 as [| bf M2]; [| by apply Forall_cons in Hno as [? _]; destruct (H2 bf)].
    do 2 eexists. split; [done |]. split; [| done]. by destruct HR2 as [? [_ _ _ _ _ _ _ ?]].
  - intros [p Hp]. destruct M2 as [| bf M2]; [| done]. rewrite app_nil_r in *.
    by destruct (proj1 (mheld_unused _ _ _ _ _ _ _ HR) H1 p).
Qed.

(** ** A new allocator *)

(** What has to hold of the layout after [adjust_layout]. *)
Definition adjusted_ok (l : Layout) : Prop :=
  let l := adjust_layout l in
  is_power_of_two (align l) = true /\ (align l | size l) /\ (align l | BASIC_PAGE_SIZE).

Definition objects_per_page (l : Layout) : nat := Z.to_nat (4040 / size (adjust_layout l)).

Lemma adjust_size l : 8 <= size (adjust_layout l).
Proof. unfold adjust_layout, size_of_ObjectNode. cbn [size]. destruct (Z.ltb_spec 8 (size l)); lia. Qed.

Lemma new_ok m l others k : adjusted_ok l -> pages_inv (paging m) others k ->
  exists a, InternalSlabAllocator_new l = Done a /\ layout a = adjust_layout l /\
    represents m a (objects_per_page l) [] others k.
Proof.
  intros (Hp & Hd & Hpg) Hinv. pose proof (adjust_size l) as Hs.
  assert (0 <= 4040 / size (adjust_layout l)) as Hq by (apply Z.div_pos; lia).
  pose proof (Z.mul_div_le 4040 (size (adjust_layout l)) ltac:(lia)) as Hle.
  eexists. split; [| split; [| exists []; split; cbn [paging page_count object_count layout slabs]]].
  - unfold InternalSlabAllocator_new, calculate_object_count.
    change (usize_mul 1 BASIC_PAGE_SIZE) with (Done (A := Z) 4096). rewrite bind_Done.
    change (usize_sub 4096 size_of_SlabNode) with (Done (A := Z) 4040). rewrite bind_Done.
    change (usize_rem 4040 align_of_SlabNode) with (Done (A := Z) 0). rewrite bind_Done.
    change (usize_sub 4040 0) with (Done (A := Z) 4040). rewrite bind_Done.
    destruct (Z.eqb_spec (size (adjust_layout l)) 0); [lia |]. rewrite bind_Done. done.
  - done.
  - split; [done | done | done | done |]. unfold objects_per_page. rewrite Z2Nat.id by done.
    unfold size_of_SlabNode, BASIC_PAGE_SIZE. cbn [layout]. lia.
  - done.
  - unfold objects_per_page. by rewrite Z2Nat.id.
  - apply dll_new.
  - constructor.
  - apply NoDup_nil_2.
  - intros b []%not_elem_of_nil.
  - done.
Qed.
End allocator.
