(* ===== verification/SlabTheorems.v ===== *)
(** * What the slab allocator guarantees

    The theorems about [slab/src/internal.rs], for any paging code that keeps
    [PageLaws]; a bump allocator of pages is the witness. *)

From S2P Require Import Prelude LinkedList StackList Pmm PageFlags Pages Slab SlabCorrect SlabRepr.

(** ** Clients *)
Inductive SlabRequest :=
  | RqAllocate
  | RqFree (i : nat)                    (* the [i]th object held *)
  | RqWrite (i : nat) (v : SNode unit)  (* the client writes to it *)
  | RqReap.

Definition is_allocate (q : SlabRequest) : bool := match q with RqAllocate => true | _ => false end.

(** How many pages a run may need: one for each allocation. *)
Definition pages_needed (qs : list SlabRequest) : nat := length (filter is_allocate qs).

(** ** Objects too large for a page with the node of its slab *)
Section page_sized.
Context {G : Type} `{PageProvider G}.
Implicit Types (m : SlabMem G) (a : InternalSlabAllocator).

Lemma page_sized_new l a : 4040 < size (adjust_layout l) -> InternalSlabAllocator_new l = Done a ->
  a = mkInternalSlabAllocator LinkedList_new 1 0 (adjust_layout l).
Proof.
  intros Hs. unfold InternalSlabAllocator_new, calculate_object_count.
  change (usize_mul 1 BASIC_PAGE_SIZE) with (Done (A := Z) 4096). rewrite bind_Done.
  change (usize_sub 4096 size_of_SlabNode) with (Done (A := Z) 4040). rewrite bind_Done.
  change (usize_rem 4040 align_of_SlabNode) with (Done (A := Z) 0). rewrite bind_Done.
  change (usize_sub 4040 0) with (Done (A := Z) 4040). rewrite bind_Done.
  rewrite (proj2 (Z.eqb_neq _ _)), bind_Done, Z.div_small by lia. by intros [= <-].
Qed.

(** Whatever page the paging code gives, there is no object in it. *)
Lemma page_sized_gives_none m l a : 4040 < size (adjust_layout l) -> InternalSlabAllocator_new l = Done a ->
  match InternalSlabAllocator_allocate m a with Done (Ok _, _, _) => False | _ => True end.
Proof.
  intros Hs Ea. rewrite (page_sized_new _ _ Hs Ea). clear Hs Ea. generalize (adjust_layout l). clear l. intros l.
  unfold InternalSlabAllocator_allocate, grow. cbn.
  destruct (allocate_pages (paging m) 1) as [[[buf | e] g] | e]; [| done | done].
  change (usize_mul 0 (size l)) with (Done (A := Z) 0). rewrite !bind_Done.
  change (align_up 0 align_of_SlabNode) with (Done (A := Z) 0). rewrite bind_Done.
  change (usize_add 0 size_of_SlabNode) with (Done size_of_SlabNode). rewrite bind_Done.
  change (usize_mul 1 BASIC_PAGE_SIZE) with (Done (A := Z) 4096). rewrite bind_Done.
  change (assert_ (size_of_SlabNode <=? 4096)) with (Done ()). rewrite bind_Done, Z.add_0_r.
  unfold Slab_new. change (Z.to_nat 0) with 0%nat. cbn [Slab_new_from]. rewrite !bind_Done.
  unfold LinkedList_push_node_back.
  rewrite (write_twice_bind _ _ (Node_new (mkSlab buf StackList_new 0 0))) by apply lookup_insert_eq.
  cbn [tail head len write_opt LinkedList_new]. rewrite bind_Done.
  change (usize_add 0 1) with (Done (A := Z) 1). rewrite !bind_Done. cbn [LinkedList_back_mut tail slabs]. unfold allocate_in.
  cbn [nodes]. rewrite (deref_ok _ _ _ (lookup_insert_eq _ _ _)), bind_Done.
  unfold Slab_allocate. cbn. by rewrite (write_ok _ _ _ _ (lookup_insert_eq _ _ _)).
Qed.

Lemma page_sized_refused m l a e g : 4040 < size (adjust_layout l) -> InternalSlabAllocator_new l = Done a ->
  allocate_pages (paging m) 1 = Done (Err e, g) ->
  InternalSlabAllocator_allocate m a = Done (Err SlabPagingError, mkSlabMem (objs m) (nodes m) g, a).
Proof.
  intros Hs Ea E. rewrite (page_sized_new _ _ Hs Ea). unfold InternalSlabAllocator_allocate, grow. cbn. by rewrite E.
Qed.
End page_sized.

Section claims.
Context {G : Type} `{PageLaws G}.
Implicit Types (m : SlabMem G) (a : InternalSlabAllocator) (M : SlabModel) (live : list Z).

(** A request of a client, who takes an error for a failure. *)
Definition serve_slab (st : SlabMem G * InternalSlabAllocator * list Z) (q : SlabRequest)
    : res (SlabMem G * InternalSlabAllocator * list Z) :=
  let '(m, a, live) := st in
  match q with
  | RqAllocate => '(r, m, a) ← InternalSlabAllocator_allocate m a; p ← unwrap_ok r; Done (m, a, p :: live)
  | RqFree i =>
      match live !! i with
      | None => Done st
      | Some p => '(r, m) ← InternalSlabAllocator_free m a p; _ ← unwrap_ok r; Done (m, a, delete i live)
      end
  | RqWrite i v => match live !! i with None => Done st | Some p => Done (scribble m p v, a, live) end
  | RqReap => '(_, m, a) ← InternalSlabAllocator_reap m a; Done (m, a, live)
  end.

Fixpoint serve_slab_all st (qs : list SlabRequest) : res (SlabMem G * InternalSlabAllocator * list Z) :=
  match qs with [] => Done st | q :: qs => st ← serve_slab st q; serve_slab_all st qs end.

Definition tracks (l : Layout) (n : nat) M live : Prop :=
  NoDup live /\ forall p, p ∈ live <-> mheld l n M p.

Lemma serve_slab_ok m a n M others k live q : represents m a n M others k -> (0 < n)%nat ->
  tracks (layout a) n M live -> (is_allocate q = true -> (0 < k)%nat) ->
  exists m' a' M' k' live', serve_slab (m, a, live) q = Done (m', a', live') /\
    represents m' a' n M' others k' /\ tracks (layout a) n M' live' /\ layout a' = layout a /\
    (k <= k' + if is_allocate q then 1 else 0)%nat.
Proof.
  intros HR Hn [Hnd Hlive] Hk. destruct q as [| i | i v |]; cbn [serve_slab is_allocate].
  - destruct k as [| k]; [specialize (Hk eq_refl); lia |].
    destruct (allocate_ok _ _ _ _ _ _ HR Hn) as (p & m' & a' & M' & k' & -> & HR' & El & Hk' & _ & _ & Hnew & _ & Hh).
    rewrite bind_Done. cbn [unwrap_ok]. rewrite bind_Done. do 5 eexists. split; [done |]. split; [done |].
    split_and!; [| done | cbn; lia]. split; [apply NoDup_cons; by rewrite Hlive |].
    intros x. rewrite elem_of_cons, Hlive, Hh. naive_solver.
  - destruct (live !! i) as [p |] eqn:Hi; [| exists m, a, M, k, live; split_and!; [done | done | done | done | lia]].
    assert (mheld (layout a) n M p) as Hp by (apply Hlive; by eapply list_elem_of_lookup_2).
    destruct (free_repr_ok _ _ _ _ _ _ p HR) as (r & m' & M' & -> & HR' & _ & _ & Hr). rewrite bind_Done.
    destruct r as [[] | e].
    + destruct Hr as [_ Hh]. do 5 eexists. split; [done |]. split; [done |].
      split_and!; [| done | lia]. apply list_elem_of_split_length in Hi as (l1 & l2 & -> & ->).
      rewrite delete_middle in *. apply NoDup_app in Hnd as (N1 & N2 & N3). apply NoDup_cons in N3 as [N3 N4].
      split; [apply NoDup_app; set_solver |]. intros x. rewrite Hh, <- Hlive. set_solver.
    + exfalso. destruct HR as [ss HR]. destruct e; try by destruct Hr as (? & _).
      * destruct Hr as (_ & _ & Hno). by apply Hno, mheld_object.
      * destruct Hr as [_ Hfr]. by apply (mfree_object _ _ _ _ _ _ _ _ HR) in Hfr as [_ ?].
  - destruct (live !! i) as [p |] eqn:Hi.
    + assert (mheld (layout a) n M p) as Hp by (apply Hlive; by eapply list_elem_of_lookup_2).
      exists (scribble m p v), a, M, k, live. split_and!; [done | by apply scribble_ok | done | done | lia].
    + exists m, a, M, k, live. split_and!; [done | done | done | done | lia].
  - destruct (unused_prefix n M) as (M1 & M2 & -> & H1 & H2).
    destruct (reap_ok _ _ _ _ _ _ _ HR H1 H2) as (m' & a' & -> & _ & HR' & El). rewrite bind_Done.
    do 5 eexists. split; [done |]. split; [done |]. split_and!; [| done | lia]. split; [done |].
    intros p. rewrite Hlive. destruct HR as [ss HR]. by apply mheld_unused_prefix with (1 := HR).
Qed.

Lemma serve_slab_all_ok n others qs : (0 < n)%nat -> forall m a M k live, represents m a n M others k ->
  tracks (layout a) n M live -> (pages_needed qs <= k)%nat ->
  exists m' a' M' k' live', serve_slab_all (m, a, live) qs = Done (m', a', live') /\
    represents m' a' n M' others k' /\ tracks (layout a) n M' live' /\ layout a' = layout a.
Proof.
  intros Hn. induction qs as [| q qs IH]; intros m a M k live HR Ht Hk; cbn [serve_slab_all].
  { exists m, a, M, k, live. by split_and!. }
  assert (pages_needed (q :: qs) = (if is_allocate q then 1 else 0) + pages_needed qs)%nat as Eq.
  { unfold pages_needed. cbn [filter list_filter]. destruct q; done. }
  destruct (serve_slab_ok m a n M others k live q HR Hn Ht) as (m1 & a1 & M1 & k1 & live1 & -> & HR1 & Ht1 & El & Hk1).
  { destruct (is_allocate q); intros ?; [lia | done]. }
  rewrite bind_Done. rewrite <- El in Ht1. destruct (IH m1 a1 M1 k1 live1 HR1 Ht1) as (m' & a' & M' & k' & live' & E & HR' & Ht' & El').
  { destruct (is_allocate q); lia. }
  exists m', a', M', k', live'. rewrite El in *. split_and!; [done | done | done | congruence].
Qed.

Lemma serve_from_new m a n others k qs : represents m a n [] others k -> (0 < n)%nat ->
  (pages_needed qs <= k)%nat ->
  exists m' a' M k' live, serve_slab_all (m, a, []) qs = Done (m', a', live) /\
    represents m' a' n M others k' /\ NoDup live /\ (forall p, p ∈ live <-> mheld (layout a) n M p) /\
    (forall p q, p ∈ live -> q ∈ live -> p <> q -> p + size (layout a) <= q \/ q + size (layout a) <= p) /\
    (forall p, p ∈ live -> (align (layout a) | p) /\
       exists b, b ∈ M.*1 /\ (BASIC_PAGE_SIZE | b) /\ b <= p /\ p + size (layout a) <= node_addr (layout a) n b).
Proof.
  intros HR Hn Hk. assert (tracks (layout a) n [] []) as Ht.
  { split; [apply NoDup_nil_2 |]. intros p. split; [by intros ?%not_elem_of_nil |]. by intros (b & fs & ?%not_elem_of_nil & _). }
  destruct (serve_slab_all_ok n others qs Hn m a [] k [] HR Ht Hk) as (m' & a' & M & k' & live & E & HR' & [Hnd Hl] & El).
  exists m', a', M, k', live. split_and!; [done | done | done | done | |]; destruct HR' as [ss HR']; rewrite <- El in *.
  - intros p q (b & fs & [i Hi]%list_elem_of_lookup & Hp & _)%Hl (b' & fs' & [j Hj]%list_elem_of_lookup & Hq & _)%Hl Hne.
    eapply objects_disjoint; [apply HR' | | | exact Hp | exact Hq | done]; by eapply page_bufs.
  - intros p Hp%Hl. split; [by eapply mobject_aligned, mheld_object |].
    destruct Hp as (b & fs & Hin & Hp & _). pose proof Hin as [i Hi]%list_elem_of_lookup. exists b.
    pose proof (sr_layout _ _ _ _ _ _ _ HR') as Hlo. pose proof (object_bounds _ _ _ _ Hlo Hp).
    pose proof (metadata_fits _ _ Hlo). unfold node_addr.
    split_and!; [apply list_elem_of_fmap; by exists (b, fs) | apply (page_bufs _ _ _ _ _ _ _ _ _ _ HR' Hi) | lia | lia].
Qed.

(** C7: no run of allocations, frees of held objects, writes to held objects
    and reaps fails, as long as there is a page for each allocation; at its end
    the objects held are distinct, aligned, do not overlap, and lie in pages of
    the allocator before the node the allocator keeps there. *)
Theorem slab_requests_safe m a n others k qs : represents m a n [] others k -> (0 < n)%nat ->
  (pages_needed qs <= k)%nat ->
  exists m' a' M k' live, serve_slab_all (m, a, []) qs = Done (m', a', live) /\
    represents m' a' n M others k' /\ NoDup live /\ (forall p, p ∈ live <-> mheld (layout a) n M p) /\
    (forall p q, p ∈ live -> q ∈ live -> p <> q -> p + size (layout a) <= q \/ q + size (layout a) <= p) /\
    (forall p, p ∈ live -> (align (layout a) | p) /\
       exists b, b ∈ M.*1 /\ (BASIC_PAGE_SIZE | b) /\ b <= p /\ p + size (layout a) <= node_addr (layout a) n b).
Proof. apply serve_from_new. Qed.

(** With room for a page, [allocate] returns an aligned object that no
    client held, and exactly that object becomes held. *)
Theorem slab_allocate_correct m a n M others k : represents m a n M others (S k) -> (0 < n)%nat ->
  exists p m' a' M' k', InternalSlabAllocator_allocate m a = Done (Ok p, m', a') /\
    represents m' a' n M' others k' /\ (k <= k')%nat /\ ~ mheld (layout a) n M p /\ (align (layout a) | p) /\
    (forall x, mheld (layout a) n M' x <-> mheld (layout a) n M x \/ x = p).
Proof.
  intros HR Hn. destruct (allocate_ok _ _ _ _ _ _ HR Hn) as (p & m' & a' & M' & k' & E & HR' & _ & Hk & _ & _ & Hrest). eauto 10.
Qed.

(** [free] of a held object returns [Ok] and makes exactly that object
    free; of a free object it reports [DoubleFree], of an address that is no
    object [BadPtrRange], and both leave the slabs as they were. *)
Theorem slab_free_correct m a n M others k p : represents m a n M others k ->
  (mheld (layout a) n M p -> exists m' M', InternalSlabAllocator_free m a p = Done (Ok (), m') /\
     represents m' a n M' others k /\ forall x, mheld (layout a) n M' x <-> mheld (layout a) n M x /\ x <> p) /\
  (mfree M p -> exists m', InternalSlabAllocator_free m a p = Done (Err DoubleFree, m') /\ represents m' a n M others k) /\
  (~ mobject (layout a) n M p -> exists m', InternalSlabAllocator_free m a p = Done (Err BadPtrRange, m') /\
     represents m' a n M others k).
Proof.
  intros HR. destruct (free_repr_ok _ _ _ _ _ _ p HR) as (r & m' & M' & E & HR' & _ & _ & Hr). destruct HR as [ss HR].
  pose proof (mfree_object _ _ _ _ _ _ _ p HR) as Hf. pose proof (mheld_object (layout a) n M p) as Hh.
  destruct r as [[] | []]; try by destruct Hr as (? & _).
  - destruct Hr as [Hp Hx]. naive_solver.
  - destruct Hr as (_ & -> & Hno). split_and!; [intros ?; by destruct Hno; auto | intros [? _]%Hf; by destruct Hno | eauto].
  - destruct Hr as [-> Hfr]. destruct (Hf Hfr) as [Ho Hnh]. split_and!; [done | eauto | by intros ?].
Qed.

(** C36: [reap] gives the pages of the unused slabs at the front back, as many
    as it reports, and stops at the first slab in use, which it keeps with
    everything behind it; the held objects stay held. *)
Theorem slab_reap_correct m a n M1 M2 others k : represents m a n (M1 ++ M2) others k ->
  Forall (all_free n) M1 -> (forall bf, M2 !! 0%nat = Some bf -> ~ all_free n bf) ->
  exists m' a', InternalSlabAllocator_reap m a = Done (Z.of_nat (length M1), m', a') /\
    represents m' a' n M2 others k /\
    (forall p, mheld (layout a) n (M1 ++ M2) p <-> mheld (layout a) n M2 p).
Proof.
  intros HR H1 H2. destruct (reap_ok _ _ _ _ _ _ _ HR H1 H2) as (m' & a' & E & _ & HR' & _).
  destruct HR as [ss HR]. exists m', a'. split_and!; [done | done |]. intros p. by apply mheld_unused_prefix with (1 := HR).
Qed.

(** dropping an allocator of which no object is held gives every page
    back; dropping one with objects held stops with the leak assertion. *)
Theorem slab_drop_correct m a n M others k : represents m a n M others k ->
  ((forall p, ~ mheld (layout a) n M p) -> exists m' a', InternalSlabAllocator_drop m a = Done (m', a') /\
     pages_inv (paging m') others k) /\
  ((exists p, mheld (layout a) n M p) -> InternalSlabAllocator_drop m a = Panic Asserted).
Proof.
  intros HR. destruct (drop_ok _ _ _ _ _ _ HR) as [H1 H2]. split; [| done].
  intros Hno. destruct (H1 Hno) as (m' & a' & E & Hinv & _). eauto.
Qed.

(** [new] adjusts the layout and, when objects of it can be laid out one
    after another, the allocator serves [4040 / size] objects from each page:
    the page less the 56 bytes of the slab's node. *)
Theorem slab_new_correct m l others k : adjusted_ok l -> pages_inv (paging m) others k ->
  exists a, InternalSlabAllocator_new l = Done a /\ layout a = adjust_layout l /\
    represents m a (objects_per_page l) [] others k.
Proof. apply new_ok. Qed.

(** An allocator of objects that leave no room for the slab's node in a
    page (the 4096 byte allocator of the heap, for one) never serves one:
    every call of [allocate] takes another page, keeps it and fails. *)
Theorem slab_page_sized_fails m l a others k : adjusted_ok l -> 4040 < size (adjust_layout l) ->
  pages_inv (paging m) others (S k) -> InternalSlabAllocator_new l = Done a ->
  exists m' a' b, InternalSlabAllocator_allocate m a = Done (Err SlabFullInternalError, m', a') /\
    pages_inv (paging m') (b :: others) k /\ represents m' a' 0 [(b, [])] others k.
Proof.
  intros Hl Hs Hinv E. destruct (new_ok m l others (S k) Hl Hinv) as (a0 & E0 & _ & HR).
  rewrite E in E0. injection E0 as <-. unfold objects_per_page in HR. rewrite Z.div_small in HR by lia.
  destruct (allocate_never _ _ _ _ _ HR) as (m' & a' & b & E' & HR' & _). exists m', a', b.
  split; [done |]. split; [| done]. by destruct HR' as [ss [_ _ _ _ _ _ _ ?]].
Qed.
End claims.

(** ** A bump allocator of pages *)
Record Bump := mkBump { bnext : Z; bheld : list Z }.

#[export] Instance bump_pages : PageProvider Bump := {
  allocate_pages g c := Done (Ok (bnext g), mkBump (bnext g + c * BASIC_PAGE_SIZE) (bnext g :: bheld g));
  free_pages g p c :=
    match list_find (.= p) (bheld g) with
    | None => Done (Err PageNotPresent, g)
    | Some (i, _) => Done (Ok (), mkBump (bnext g) (delete i (bheld g)))
    end;
}.

Definition bump_inv (g : Bump) (hs : list Z) (k : nat) : Prop :=
  bheld g ≡ₚ hs /\ (BASIC_PAGE_SIZE | bnext g) /\ 0 < bnext g /\
  bnext g + Z.of_nat k * BASIC_PAGE_SIZE <= usize_MAX /\ forall a, a ∈ hs -> a < bnext g.

Lemma bump_allocate g hs n : bump_inv g hs (S n) ->
  exists a g', allocate_pages g 1 = Done (Ok a, g') /\ bump_inv g' (a :: hs) n /\
    (BASIC_PAGE_SIZE | a) /\ 0 < a /\ a + BASIC_PAGE_SIZE <= usize_MAX /\ a ∉ hs.
Proof.
  intros (Hp & Hd & H0 & Hm & Hlt). cbn. do 2 eexists. split; [done |]. unfold bump_inv, BASIC_PAGE_SIZE in *. split_and!; cbn.
  - by rewrite Hp.
  - apply Z.divide_add_r; [done |]. by exists 1.
  - lia.
  - lia.
  - intros a [-> | Ha]%elem_of_cons; [lia | specialize (Hlt a Ha); lia].
  - done.
  - done.
  - lia.
  - intros Ha%Hlt. lia.
Qed.

Lemma bump_free g hs hs' a n : bump_inv g hs n -> hs ≡ₚ a :: hs' ->
  exists g', free_pages g a 1 = Done (Ok (), g') /\ bump_inv g' hs' n.
Proof.
  intros (Hp & Hd & H0 & Hm & Hlt) E. cbn. rewrite E in Hp.
  destruct (list_find_elem_of (.= a) (bheld g) a) as [[i b] Hf]; [rewrite Hp; by left | done |].
  rewrite Hf. apply list_find_Some in Hf as (Hi & -> & _). eexists. split; [done |].
  split_and!; cbn; [| done | done | done | intros x Hx; apply Hlt; rewrite E; by right].
  apply delete_Permutation in Hi. apply (Permutation.Permutation_cons_inv (a := a)). by rewrite <- Hi.
Qed.

#[export] Instance bump_laws : PageLaws Bump.
Proof.
  refine {| pages_inv := bump_inv; pages_allocate_one := bump_allocate; pages_free_one := bump_free |}.
  intros g ? <- hs hs' E n ? <-. unfold bump_inv. setoid_rewrite E. done.
Defined.

(** ** Witnesses: half-page objects, one to a page *)
Definition ex_slab_mem : SlabMem Bump := mkSlabMem ∅ ∅ (mkBump 4096 []).
Definition ex_layout : Layout := mkLayout 2048 2048.
Definition ex_slabs : InternalSlabAllocator := mkInternalSlabAllocator LinkedList_new 1 1 ex_layout.

Lemma ex_slab_pages k : (k <= 1000)%nat -> pages_inv (paging ex_slab_mem) [] k.
Proof.
  intros Hk. split_and!; cbn; [done | by exists 1 | done | unfold BASIC_PAGE_SIZE, usize_MAX; lia |].
  intros a []%not_elem_of_nil.
Qed.

Lemma ex_adjusted s : s = 1024 \/ s = 2048 \/ s = 4096 -> adjusted_ok (mkLayout s s).
Proof. intros [-> | [-> | ->]]; (split_and!; [done | by exists 1 |]); [by exists 4 | by exists 2 | by exists 1]. Qed.

Lemma ex_represents k : (k <= 1000)%nat -> represents ex_slab_mem ex_slabs 1 [] [] k.
Proof.
  intros Hk. destruct (new_ok ex_slab_mem ex_layout [] k) as (a & E & _ & HR);
    [apply ex_adjusted; auto | by apply ex_slab_pages |].
  injection E as <-. exact HR.
Qed.

Lemma slab_requests_safe_witness : exists m a live,
  serve_slab_all (ex_slab_mem, ex_slabs, []) [RqAllocate; RqAllocate; RqWrite 0 (SNode_new ()); RqFree 1; RqReap; RqAllocate] =
    Done (m, a, live) /\ NoDup live.
Proof.
  destruct (slab_requests_safe ex_slab_mem ex_slabs 1 [] 5
    [RqAllocate; RqAllocate; RqWrite 0 (SNode_new ()); RqFree 1; RqReap; RqAllocate])
    as (m & a & M & k & live & E & _ & Hnd & _); [apply ex_represents; lia | lia | by apply Nat.leb_le; vm_compute |].
  exists m, a, live. split; [exact E | exact Hnd].
Defined.

Lemma slab_allocate_correct_witness : exists p m a,
  InternalSlabAllocator_allocate ex_slab_mem ex_slabs = Done (Ok p, m, a) /\ (2048 | p).
Proof.
  destruct (slab_allocate_correct ex_slab_mem ex_slabs 1 [] [] 5) as (p & m & a & M & k & E & _ & _ & _ & Hd & _);
    [apply ex_represents; lia | lia |].
  exists p, m, a. split; [exact E | exact Hd].
Defined.

Lemma slab_free_correct_witness : exists p m a m',
  InternalSlabAllocator_allocate ex_slab_mem ex_slabs = Done (Ok p, m, a) /\
  InternalSlabAllocator_free m a p = Done (Ok (), m').
Proof.
  destruct (allocate_ok ex_slab_mem ex_slabs 1 [] [] 5) as (p & m & a & M & k & E & HR & El & _ & _ & _ & _ & _ & Hh);
    [apply ex_represents; lia | lia |].
  destruct (slab_free_correct m a 1 M [] k p HR) as [H1 _].
  destruct H1 as (m' & M' & E' & _); [rewrite El; apply Hh; by right |]. exists p, m, a, m'. split; [exact E | exact E'].
Defined.

Lemma slab_reap_correct_witness : exists p m a m1 c m2 a2,
  InternalSlabAllocator_allocate ex_slab_mem ex_slabs = Done (Ok p, m, a) /\
  InternalSlabAllocator_free m a p = Done (Ok (), m1) /\ InternalSlabAllocator_reap m1 a = Done (c, m2, a2).
Proof.
  destruct (allocate_ok ex_slab_mem ex_slabs 1 [] [] 5) as (p & m & a & M & k & E & HR & El & _ & _ & _ & _ & _ & Hh);
    [apply ex_represents; lia | lia |].
  assert (forall x, mheld (layout a) 1 M x <-> x = p) as Hp.
  { intros x. rewrite El, Hh. split; [intros [(b & fs & []%not_elem_of_nil & _) | ->]; done | by right]. }
  destruct (free_repr_ok m a 1 M [] k p HR) as (r & m1 & M1 & E1 & [ss HR1] & _ & _ & Hr).
  assert (r = Ok () /\ forall x, ~ mheld (layout a) 1 M1 x) as [-> Hno].
  { pose proof (proj2 (Hp p) eq_refl) as Hpp. destruct HR as [ss0 HR]. destruct r as [[] | []]; try by destruct Hr as (? & _).
    - split; [done |]. intros x [Hx Hne]%Hr. by apply Hp in Hx.
    - destruct Hr as (_ & _ & Hx). by destruct Hx; apply mheld_object.
    - destruct Hr as (_ & Hx). by apply (mfree_object _ _ _ _ _ _ _ _ HR) in Hx as [_ ?]. }
  destruct (slab_reap_correct m1 a 1 M1 [] [] k) as (m2 & a2 & E2 & _);
    [exists ss; by rewrite app_nil_r | by apply (mheld_unused _ _ _ _ _ _ _ HR1) | done |].
  exists p, m, a, m1. do 3 eexists. split_and!; [exact E | exact E1 | exact E2].
Defined.

Lemma slab_drop_correct_witness : exists m a, InternalSlabAllocator_drop ex_slab_mem ex_slabs = Done (m, a).
Proof.
  destruct (slab_drop_correct ex_slab_mem ex_slabs 1 [] [] 5) as [H1 _]; [apply ex_represents; lia |].
  destruct H1 as (m & a & E & _); [intros p (b & fs & []%not_elem_of_nil & _) |]. exists m, a. exact E.
Defined.

Lemma slab_new_correct_witness : exists a, InternalSlabAllocator_new (mkLayout 1024 1024) = Done a /\
  represents ex_slab_mem a 3 [] [] 5.
Proof.
  destruct (slab_new_correct ex_slab_mem (mkLayout 1024 1024) [] 5) as (a & E & _ & HR);
    [apply ex_adjusted; auto | apply ex_slab_pages; lia |].
  exists a. split; [exact E | exact HR].
Defined.

Lemma slab_page_sized_fails_witness : exists a m a',
  InternalSlabAllocator_new (mkLayout 4096 4096) = Done a /\
  InternalSlabAllocator_allocate ex_slab_mem a = Done (Err SlabFullInternalError, m, a').
Proof.
  destruct (InternalSlabAllocator_new (mkLayout 4096 4096)) as [a | ?] eqn:Ea; [| by vm_compute in Ea].
  destruct (slab_page_sized_fails ex_slab_mem (mkLayout 4096 4096) a [] 5) as (m & a' & b & E & _);
    [apply ex_adjusted; auto | by vm_compute | apply ex_slab_pages; lia | exact Ea |].
  exists a, m, a'. split; [done | exact E].
Defined.

(** An object of 12 bytes aligned to 4 gets the alignment of a free-list node
    and keeps its size, so the second object of a page is misaligned and the
    slab is refused. *)
Example slab_odd_size : exists a m,
  InternalSlabAllocator_new (mkLayout 12 4) = Done a /\
  InternalSlabAllocator_allocate ex_slab_mem a = Done (Err InvalidLayout, m, a).
Proof. eexists. eexists. split; [reflexivity |]. vm_compute. reflexivity. Qed.
