(* ===== verification/Heap.v ===== *)
(** * The kernel heap and the typed slab allocator ([slab/src/heap.rs], [slab/src/lib.rs])

    The heap is eight slab allocators behind spinlocks, one for each size; a
    request is rounded up and served by the first that is large enough.  The
    lock of an allocator is held for the whole of an operation on it, so the
    operations are those of the allocator itself.  [heap_repr] puts the eight
    allocators in one memory, in pages of their own. *)

From S2P Require Import Prelude LinkedList StackList Pmm PageFlags Pages Slab SlabCorrect SlabRepr.

Inductive SizeClass := Slab32 | Slab64 | Slab128 | Slab256 | Slab512 | Slab1024 | Slab2048 | Slab4096.

#[export] Instance SizeClass_eq_dec : EqDecision SizeClass.
Proof. solve_decision. Defined.

Definition class_size (c : SizeClass) : Z :=
  match c with
  | Slab32 => 32 | Slab64 => 64 | Slab128 => 128 | Slab256 => 256
  | Slab512 => 512 | Slab1024 => 1024 | Slab2048 => 2048 | Slab4096 => 4096
  end.

Definition class_layout (c : SizeClass) : Layout := mkLayout (class_size c) (class_size c).

Record Heap := mkHeap {
  slab_32 : InternalSlabAllocator;
  slab_64 : InternalSlabAllocator;
  slab_128 : InternalSlabAllocator;
  slab_256 : InternalSlabAllocator;
  slab_512 : InternalSlabAllocator;
  slab_1024 : InternalSlabAllocator;
  slab_2048 : InternalSlabAllocator;
  slab_4096 : InternalSlabAllocator;
}.

Definition Heap_new : res Heap :=
  a32 ← InternalSlabAllocator_new (mkLayout 32 32);
  a64 ← InternalSlabAllocator_new (mkLayout 64 64);
  a128 ← InternalSlabAllocator_new (mkLayout 128 128);
  a256 ← InternalSlabAllocator_new (mkLayout 256 256);
  a512 ← InternalSlabAllocator_new (mkLayout 512 512);
  a1024 ← InternalSlabAllocator_new (mkLayout 1024 1024);
  a2048 ← InternalSlabAllocator_new (mkLayout 2048 2048);
  a4096 ← InternalSlabAllocator_new (mkLayout 4096 4096);
  Done (mkHeap a32 a64 a128 a256 a512 a1024 a2048 a4096).

(** The allocator behind a guard, and its update through the guard. *)
Definition heap_get (h : Heap) (c : SizeClass) : InternalSlabAllocator :=
  match c with
  | Slab32 => slab_32 h | Slab64 => slab_64 h | Slab128 => slab_128 h | Slab256 => slab_256 h
  | Slab512 => slab_512 h | Slab1024 => slab_1024 h | Slab2048 => slab_2048 h | Slab4096 => slab_4096 h
  end.

Definition heap_set (h : Heap) (c : SizeClass) (a : InternalSlabAllocator) : Heap :=
  let get c' := if decide (c' = c) then a else heap_get h c' in
  mkHeap (get Slab32) (get Slab64) (get Slab128) (get Slab256)
    (get Slab512) (get Slab1024) (get Slab2048) (get Slab4096).

(** [Layout::pad_to_align]: the size rounded up to a multiple of the alignment. *)
Definition pad_to_align (l : Layout) : Layout :=
  mkLayout ((size l + align l - 1) / align l * align l) (align l).

Definition layout_to_allocator (l : Layout) : res SizeClass :=
  let l := pad_to_align l in
  if (size l <=? 32) && (align l <=? 32) then Done Slab32
  else if (size l <=? 64) && (align l <=? 64) then Done Slab64
  else if (size l <=? 128) && (align l <=? 128) then Done Slab128
  else if (size l <=? 256) && (align l <=? 256) then Done Slab256
  else if (size l <=? 512) && (align l <=? 512) then Done Slab512
  else if (size l <=? 1024) && (align l <=? 1024) then Done Slab1024
  else if (size l <=? 2048) && (align l <=? 2048) then Done Slab2048
  else if (size l <=? 4096) && (align l <=? 4096) then Done Slab4096
  else Panic Asserted.

Section heap.
Context {G : Type} `{PageProvider G}.
Implicit Types (m : SlabMem G) (h : Heap).

(** [alloc]; the null pointer is 0. *)
Definition Heap_alloc m h (l : Layout) : res (Z * SlabMem G * Heap) :=
  c ← layout_to_allocator l;
  '(r, m, a) ← InternalSlabAllocator_allocate m (heap_get h c);
  let h := heap_set h c a in
  match r with
  | Ok ptr => Done (ptr, m, h)
  | Err _ => Done (0, m, h)
  end.

Definition Heap_dealloc m h (ptr : Z) (l : Layout) : res (SlabMem G * Heap) :=
  c ← layout_to_allocator l;
  if ptr =? 0 then Panic Unwrapped else
  '(r, m) ← InternalSlabAllocator_free m (heap_get h c) ptr;
  _ ← unwrap_ok r;
  Done (m, h).

Definition reap_n_sum m h (c : SizeClass) (total_reaped : Z) : res (Z * SlabMem G * Heap) :=
  '(n, m, a) ← InternalSlabAllocator_reap m (heap_get h c);
  total ← usize_add total_reaped n;
  Done (total, m, heap_set h c a).

Definition Heap_reap m h : res (Z * SlabMem G * Heap) :=
  '(t, m, h) ← reap_n_sum m h Slab64 0;
  '(t, m, h) ← reap_n_sum m h Slab128 t;
  '(t, m, h) ← reap_n_sum m h Slab256 t;
  '(t, m, h) ← reap_n_sum m h Slab512 t;
  '(t, m, h) ← reap_n_sum m h Slab1024 t;
  '(t, m, h) ← reap_n_sum m h Slab2048 t;
  reap_n_sum m h Slab4096 t.
End heap.

(** ** [SlabAllocator<T>]: one allocator for the values of a type *)
Section typed.
Context {G : Type} `{PageProvider G}.
Implicit Types (m : SlabMem G).

(** [Layout::new::<T>()] is the parameter [layout_T]. *)
Definition SlabAllocator_new (layout_T : Layout) : res InternalSlabAllocator := InternalSlabAllocator_new layout_T.

Definition layout_eqb (l l' : Layout) : bool := (size l =? size l') && (align l =? align l').

(** The address and the length of the slice; [self.allocator.get()] is never null. *)
Definition SlabAllocator_allocate (layout_T : Layout) m (a : InternalSlabAllocator) (l : Layout)
    : res (Z * Z * SlabMem G * InternalSlabAllocator) :=
  _ ← assert_ (layout_eqb l layout_T);
  '(r, m, a) ← InternalSlabAllocator_allocate m a;
  object ← unwrap_ok r;
  Done (object, size l, m, a).

Definition SlabAllocator_deallocate (layout_T : Layout) m (a : InternalSlabAllocator) (ptr : Z) (l : Layout)
    : res (SlabMem G) :=
  _ ← assert_ (layout_eqb l layout_T);
  '(r, m) ← InternalSlabAllocator_free m a ptr;
  _ ← assert_ (match r with Ok _ => true | Err _ => false end);
  Done m.
End typed.

(** ** One memory for eight allocators *)
Definition all_classes : list SizeClass := [Slab32; Slab64; Slab128; Slab256; Slab512; Slab1024; Slab2048; Slab4096].
Definition class_count (c : SizeClass) : nat := objects_per_page (class_layout c).

Abbreviation HeapModel := (SizeClass -> SlabModel).

Definition pages_of (Ms : HeapModel) (cs : list SizeClass) : list Z := mjoin ((fun c => (Ms c).*1) <$> cs).
Definition all_pages (Ms : HeapModel) : list Z := pages_of Ms all_classes.
Definition rest (c : SizeClass) (Ms : HeapModel) : list Z := pages_of Ms (filter (.≠ c) all_classes).
Definition set_model (Ms : HeapModel) (c : SizeClass) (M : SlabModel) : HeapModel :=
  fun c' => if decide (c' = c) then M else Ms c'.

(** The object at [p] is held from the allocator of class [c]. *)
Definition hheld (Ms : HeapModel) (c : SizeClass) (p : Z) : Prop := mheld (class_layout c) (class_count c) (Ms c) p.

Section heap_repr.
Context {G : Type} `{PageLaws G}.
Implicit Types (m : SlabMem G) (h : Heap) (Ms : HeapModel).

Record heap_repr m h Ms (others : list Z) (k : nat) : Prop := {
  hr_class c : represents m (heap_get h c) (class_count c) (Ms c) (rest c Ms ++ others) k;
  hr_layout c : layout (heap_get h c) = class_layout c;
  hr_nodup : NoDup (all_pages Ms);
}.

Lemma heap_get_set h c c' a : heap_get (heap_set h c a) c' = if decide (c' = c) then a else heap_get h c'.
Proof. by destruct c'. Qed.

Lemma filter_ne_notin (c : SizeClass) (cs : list SizeClass) : c ∉ cs -> filter (.≠ c) cs = cs.
Proof.
  induction cs as [| c' cs IH]; [done |]. intros [Hne Hni]%not_elem_of_cons.
  rewrite filter_cons_True by auto. by rewrite IH.
Qed.

Lemma class_pages_split Ms c cs : NoDup cs -> c ∈ cs ->
  pages_of Ms cs ≡ₚ (Ms c).*1 ++ pages_of Ms (filter (.≠ c) cs).
Proof.
  induction cs as [| c' cs IH]; [by intros _ []%not_elem_of_nil |].
  intros [Hni Hnd]%NoDup_cons Hin. unfold pages_of in *. cbn [fmap list_fmap mjoin list_join].
  destruct (decide (c' = c)) as [-> | Hne].
  - rewrite filter_cons_False by auto. by rewrite filter_ne_notin.
  - rewrite filter_cons_True by done. apply elem_of_cons in Hin as [-> | Hin]; [done |].
    cbn [fmap list_fmap mjoin list_join]. rewrite (IH Hnd Hin), !app_assoc. apply Permutation_app_tail, Permutation_app_comm.
Qed.

Lemma all_pages_split Ms c : all_pages Ms ≡ₚ (Ms c).*1 ++ rest c Ms.
Proof.
  apply class_pages_split; [by apply (bool_decide_unpack _) |]. destruct c; by apply (bool_decide_unpack _).
Qed.

Lemma rest_set Ms c M : rest c (set_model Ms c M) = rest c Ms.
Proof.
  unfold rest, pages_of. f_equal. apply list_fmap_ext. intros i c' Hi. unfold set_model.
  rewrite decide_False; [done |]. by apply list_elem_of_lookup_2, list_elem_of_filter in Hi as [? _].
Qed.

Lemma page_in_rest Ms c c' b : c' <> c -> b ∈ (Ms c').*1 -> b ∈ rest c Ms.
Proof.
  intros Hne Hb. unfold rest, pages_of. apply list_elem_of_join. exists (Ms c').*1. split; [done |].
  apply list_elem_of_fmap. exists c'. split; [done |]. apply list_elem_of_filter. split; [done |].
  destruct c'; by apply (bool_decide_unpack _).
Qed.

(** A change to the pages of others keeps an allocator. *)
Lemma represents_frame m m' a n M os os' k k' bs : represents m a n M os k -> same_mem bs m m' ->
  (forall b, b ∈ bs -> page_addr b /\ b ∉ M.*1) -> pages_inv (paging m') (M.*1 ++ os') k' ->
  represents m' a n M os' k'.
Proof.
  intros [ss HR] [Ho Hn] Hbs Hinv. exists ss. pose proof HR as [Hl H1 Hc Hd Hf Hnd Hpg _].
  assert (forall b q, b ∈ M.*1 -> b <= q < b + BASIC_PAGE_SIZE -> ~ in_pages bs q) as Hout.
  { intros b q Hb Hq (b' & Hb' & Hq'). destruct (Hbs b' Hb') as [[Hd' _] Hni]. destruct (Hpg b Hb) as [Hdb _].
    apply Hni. destruct (Z.le_ge_cases b b').
    - by rewrite <- (divide_between BASIC_PAGE_SIZE b b') by (done || lia).
    - by rewrite (divide_between BASIC_PAGE_SIZE b' b) by (done || lia). }
  assert (forall b, b ∈ M.*1 -> ~ in_pages bs (node_addr (layout a) n b)) as Hnode.
  { intros b Hb. apply (Hout b); [done |]. destruct (node_in_page (layout a) n b [b] Hl) as (? & ?%list_elem_of_singleton & ?);
      [by left | by subst]. }
  split; try done.
  - destruct Hd as [D1 D2 D3 D4 D5]. split; try done. intros i p s Hi. rewrite Hn; [by apply D5 |].
    destruct (Forall2_lookup_l _ _ _ _ _ Hf Hi) as ([b f] & Hb & E & _). cbn in E. subst p. apply Hnode.
    apply list_elem_of_fmap. exists (b, f). split; [done | by eapply list_elem_of_lookup_2].
  - apply Forall2_same_length_lookup_2; [by eapply Forall2_length |]. intros i [p s] [b f] Hi1 Hi2.
    destruct (Forall2_lookup_lr _ _ _ _ _ _ Hf Hi1 Hi2) as (E1 & E2 & Hok). split_and!; [done | done |].
    cbn in *. eapply slab_frame; [exact Hok |]. intros q Hq. apply Ho, (Hout b).
    + apply list_elem_of_fmap. exists (b, f). split; [done | by eapply list_elem_of_lookup_2].
    + rewrite E2 in Hq. destruct (object_in_page (layout a) n b [b] q Hl Hq) as (? & ?%list_elem_of_singleton & ?);
        [by left | by subst].
Qed.

(** The allocator of one class changed, in its old and new pages. *)
Lemma heap_update m m' h Ms others k k' c a' M' : heap_repr m h Ms others k ->
  represents m' a' (class_count c) M' (rest c Ms ++ others) k' -> layout a' = class_layout c ->
  same_mem ((Ms c).*1 ++ M'.*1) m m' -> (forall b, b ∈ M'.*1 -> b ∈ (Ms c).*1 \/ b ∉ rest c Ms ++ others) ->
  heap_repr m' (heap_set h c a') (set_model Ms c M') others k'.
Proof.
  intros [HR Hlay Hnd] HR' El Hm Hnew. pose proof HR' as [ss' [_ _ _ _ _ HndM HpgM Hinv]].
  rewrite (all_pages_split Ms c) in Hnd. apply NoDup_app in Hnd as (N1 & N2 & N3).
  assert (forall b, b ∈ (Ms c).*1 ++ M'.*1 -> b ∉ rest c Ms) as Hout.
  { intros b [Hb | [Hb | Hb]%Hnew]%elem_of_app; [by apply N2 | by apply N2 |]. intros Hr. apply Hb, elem_of_app. by left. }
  split.
  - intros c'. rewrite heap_get_set. unfold set_model at 1. destruct (decide (c' = c)) as [-> | Hne].
    { by rewrite rest_set. }
    apply (represents_frame m m' _ _ _ (rest c' Ms ++ others) _ k k' ((Ms c).*1 ++ M'.*1) (HR c') Hm).
    + intros b Hb. split; [| intros Hb'; by eapply Hout, page_in_rest].
      apply elem_of_app in Hb as [Hb | Hb]; [| by apply HpgM]. destruct (HR c) as [ss HRc]. by apply HRc.
    + eapply pages_inv_proper; [done | | done | exact Hinv]. rewrite <- (rest_set Ms c M').
      rewrite !app_assoc. apply Permutation_app_tail. replace (Ms c') with (set_model Ms c M' c') by (unfold set_model; by rewrite decide_False).
      rewrite <- all_pages_split. rewrite (all_pages_split _ c). unfold set_model at 1. by rewrite decide_True.
  - intros c'. rewrite heap_get_set. by destruct (decide (c' = c)) as [-> |].
  - rewrite (all_pages_split _ c), rest_set. unfold set_model. rewrite decide_True by done.
    apply NoDup_app. split_and!; [done | | done]. intros b Hb. apply Hout, elem_of_app. by right.
Qed.
End heap_repr.
