(* ===== verification/HeapTheorems.v ===== *)
(** * What the kernel heap guarantees

    For any paging code that keeps [PageLaws]. *)

From S2P Require Import Prelude LinkedList StackList Pmm PageFlags Pages Slab SlabCorrect SlabRepr SlabTheorems Heap.

(** ** The class of a layout *)
Definition padded (l : Layout) : Z := size (pad_to_align l).
Definition valid_layout (l : Layout) : Prop := 0 <= size l /\ is_power_of_two (align l) = true.

Lemma leb_max a b n : (a <=? n) && (b <=? n) = (Z.max a b <=? n).
Proof. destruct (Z.leb_spec a n), (Z.leb_spec b n), (Z.leb_spec (Z.max a b) n); cbn; lia. Qed.

Lemma padded_ge l : valid_layout l -> size l <= padded l.
Proof.
  intros [Hs Ha]. unfold is_power_of_two in Ha. bool_to_prop. unfold padded. cbn.
  pose proof (Z.div_mod (size l + align l - 1) (align l) ltac:(lia)).
  pose proof (Z.mod_pos_bound (size l + align l - 1) (align l) ltac:(lia)). lia.
Qed.

Lemma pow2_le_divide a b : is_power_of_two a = true -> is_power_of_two b = true -> a <= b -> (a | b).
Proof.
  intros [i ->]%is_power_of_two_spec [j ->]%is_power_of_two_spec Hle. apply pow2_divide.
  apply Nat2Z.inj_le, (Z.pow_le_mono_r_iff 2); lia.
Qed.

Lemma class_pow2 c : is_power_of_two (class_size c) = true.
Proof. by destruct c. Qed.

(** The first class that is large enough, if there is one. *)
Lemma layout_class l : valid_layout l ->
  match layout_to_allocator l with
  | Done c => size l <= class_size c /\ (align l | class_size c) /\
      (c = Slab4096 <-> 2048 < Z.max (padded l) (align l)) /\ Z.max (padded l) (align l) <= 4096
  | Panic p => p = Asserted /\ 4096 < Z.max (padded l) (align l)
  end.
Proof.
  intros Hv. pose proof (padded_ge l Hv). destruct Hv as [Hs Ha].
  assert (forall c, Z.max (padded l) (align l) <= class_size c -> (align l | class_size c)) as Hd.
  { intros c Hc. apply pow2_le_divide; [done | apply class_pow2 | lia]. }
  unfold layout_to_allocator. cbn [align pad_to_align]. fold (padded l). rewrite !leb_max.
  repeat case_if; (split_and!; [cbn; lia | by apply Hd | split; intros ?; first [discriminate | lia | done] | lia]) || (split; [done | lia]).
Qed.

Lemma adjust_class c : adjust_layout (class_layout c) = class_layout c.
Proof. by destruct c. Qed.

Lemma class_adjusted c : adjusted_ok (class_layout c).
Proof.
  unfold adjusted_ok. rewrite adjust_class. split_and!; [apply class_pow2 | apply Z.divide_refl |].
  apply pow2_le_divide; [apply class_pow2 | done | by destruct c].
Qed.

Lemma class_count_pos c : c <> Slab4096 -> (0 < class_count c)%nat.
Proof. destruct c; intros ?; try done; by apply Nat.ltb_lt. Qed.

Section claims.
Context {G : Type} `{PageLaws G}.
Implicit Types (m : SlabMem G) (h : Heap) (Ms : HeapModel).

Lemma heap_set_get h c : heap_set h c (heap_get h c) = h.
Proof. destruct h; by destruct c. Qed.

(** Where a held object is. *)
Lemma hheld_page m h Ms others k c p : heap_repr m h Ms others k -> hheld Ms c p ->
  exists b, b ∈ (Ms c).*1 /\ page_addr b /\ p ∈ object_addrs b (class_layout c) (class_count c) /\
    b <= p /\ p + class_size c <= b + BASIC_PAGE_SIZE.
Proof.
  intros [HR Hlay _] (b & fs & Hin & Hp & _). destruct (HR c) as [ss HRc].
  pose proof (sr_layout _ _ _ _ _ _ _ HRc) as Hl. rewrite Hlay in Hl. exists b.
  assert (b ∈ (Ms c).*1) as Hb by (apply list_elem_of_fmap; by exists (b, fs)).
  pose proof (object_bounds _ _ _ _ Hl Hp) as [? ?]. pose proof (lo_fits _ _ Hl) as Hf. unfold size_of_SlabNode in Hf.
  split_and!; [done | by apply HRc | done | done |]. cbn [size class_layout] in *. lia.
Qed.

Lemma heap_disjoint m h Ms others k c c' p q : heap_repr m h Ms others k -> hheld Ms c p -> hheld Ms c' q ->
  (c, p) <> (c', q) -> p + class_size c <= q \/ q + class_size c' <= p.
Proof.
  intros HR Hp Hq Hne. destruct (hheld_page _ _ _ _ _ _ _ HR Hp) as (b & Hb & Hpb & Hop & Hb1 & Hb2).
  destruct (hheld_page _ _ _ _ _ _ _ HR Hq) as (b' & Hb' & Hpb' & Hoq & Hb1' & Hb2'). pose proof HR as [HRc Hlay Hnd].
  destruct (decide (c = c')) as [<- | Hc].
  - destruct (HRc c) as [ss HR']. pose proof (sr_layout _ _ _ _ _ _ _ HR') as Hl. rewrite Hlay in Hl.
    apply (objects_disjoint (class_layout c) (class_count c) b b' p q); [done .. | congruence].
  - assert (b <> b') as Hbb.
    { intros <-. rewrite (all_pages_split Ms c) in Hnd. apply NoDup_app in Hnd as (_ & N2 & _).
      apply (N2 b Hb). by eapply page_in_rest; [| exact Hb']. }
    destruct Hpb as [[x ->] _], Hpb' as [[y ->] _]. unfold BASIC_PAGE_SIZE in *. assert (x <> y) by congruence. lia.
Qed.

Lemma hheld_set Ms c M c' p :
  hheld (set_model Ms c M) c' p <-> if decide (c' = c) then mheld (class_layout c) (class_count c) M p else hheld Ms c' p.
Proof. unfold hheld, set_model. by destruct (decide (c' = c)) as [-> |]. Qed.

(** C13: a request of at most 2048 bytes at an alignment of at most 2048 gets a
    block at a nonzero address that is aligned as asked, at least as long as
    asked, and overlaps no block held from any of the eight allocators; it is
    then held, and nothing else changed hands. *)
Theorem heap_alloc_correct m h Ms others k l : heap_repr m h Ms others (S k) -> valid_layout l ->
  Z.max (padded l) (align l) <= 2048 ->
  exists c p m' h' Ms' k', layout_to_allocator l = Done c /\ Heap_alloc m h l = Done (p, m', h') /\
    heap_repr m' h' Ms' others k' /\ (k <= k')%nat /\ 0 < p /\ (align l | p) /\ size l <= class_size c /\
    (forall c' x, hheld Ms' c' x <-> hheld Ms c' x \/ (c' = c /\ x = p)) /\
    (forall c' x, hheld Ms c' x -> x + class_size c' <= p \/ p + class_size c <= x).
Proof.
  intros HR Hv Hmax. pose proof (layout_class l Hv) as Hc. destruct (layout_to_allocator l) as [c |] eqn:Ec; [| lia].
  destruct Hc as (Hs & Hd & H4096 & _). assert (c <> Slab4096) as Hn by (intros E; apply H4096 in E; lia).
  pose proof HR as [HRc Hlay _]. pose proof (Hlay c) as El.
  destruct (allocate_ok _ _ _ _ _ _ (HRc c) (class_count_pos c Hn))
    as (p & m' & a' & M' & k' & E & HR' & El' & Hk & Hm & Hnew & Hnh & Hda & Hh). rewrite El in *.
  assert (heap_repr m' (heap_set h c a') (set_model Ms c M') others k') as HR2.
  { eapply heap_update; [done | done | congruence | | done]. eapply same_mem_mono; [exact Hm |]. set_solver. }
  assert (forall c' x, hheld (set_model Ms c M') c' x <-> hheld Ms c' x \/ (c' = c /\ x = p)) as Hheld.
  { intros c' x. rewrite hheld_set. destruct (decide (c' = c)) as [-> |]; [rewrite Hh; unfold hheld |]; naive_solver. }
  assert (hheld (set_model Ms c M') c p) as Hp by (apply Hheld; by right).
  exists c, p, m', (heap_set h c a'), (set_model Ms c M'), k'. split; [done |]. split.
  { unfold Heap_alloc. by rewrite Ec, bind_Done, E, bind_Done. }
  split_and!; [done | done | | by etrans; [exact Hd |] | done | done |].
  - destruct (hheld_page _ _ _ _ _ _ _ HR2 Hp) as (b & _ & (_ & Hb & _) & _ & ? & _). lia.
  - intros c' x Hx. apply (heap_disjoint _ _ _ _ _ c' c x p HR2); [apply Hheld; by left | done |].
    intros [= -> ->]. done.
Qed.

(** C35: a block that was allocated for a layout is freed with that layout:
    exactly it is given back; an address that is not held from the allocator
    of the layout stops the kernel. *)
Theorem heap_dealloc_correct m h Ms others k l c p : heap_repr m h Ms others k ->
  layout_to_allocator l = Done c ->
  (hheld Ms c p -> exists m' Ms', Heap_dealloc m h p l = Done (m', h) /\ heap_repr m' h Ms' others k /\
     forall c' x, hheld Ms' c' x <-> hheld Ms c' x /\ (c', x) <> (c, p)) /\
  (~ hheld Ms c p -> Heap_dealloc m h p l = Panic Unwrapped).
Proof.
  intros HR Ec. pose proof HR as [HRc Hlay _]. unfold Heap_dealloc. rewrite Ec, bind_Done.
  destruct (free_repr_ok _ _ _ _ _ _ p (HRc c)) as (r & m' & M' & E & HR' & Hm & Eb & Hr). rewrite Hlay in Hr.
  assert (r = Ok () <-> hheld Ms c p) as Hok.
  { destruct (HRc c) as [ss HRs]. unfold hheld. destruct r as [[] | []].
    - by destruct Hr as [Hp _].
    - destruct Hr as (_ & _ & Hno). split; [done |]. intros Hp. by destruct (Hno (mheld_object _ _ _ _ Hp)).
    - destruct Hr as [_ Hf]. split; [done |]. intros Hp. apply (mfree_object _ _ _ _ _ _ _ _ HRs) in Hf as [_ Hf].
      rewrite Hlay in Hf. done.
    - by destruct Hr.
    - by destruct Hr.
    - by destruct Hr. }
  split.
  - intros Hp. destruct (hheld_page _ _ _ _ _ _ _ HR Hp) as (b & _ & (_ & Hb & _) & _ & ? & _).
    destruct (Z.eqb_spec p 0); [lia |]. rewrite E, bind_Done. apply Hok in Hp as ->. destruct Hr as [_ Hh].
    exists m', (set_model Ms c M'). split; [done |]. split.
    + rewrite <- (heap_set_get h c). eapply heap_update; [exact HR | done | done | |].
      * rewrite Eb. eapply same_mem_mono; [exact Hm |]. set_solver.
      * rewrite Eb. by left.
    + intros c' x. rewrite hheld_set. destruct (decide (c' = c)) as [-> |]; [rewrite Hh; unfold hheld |]; naive_solver.
  - intros Hp. destruct (p =? 0); [done |]. rewrite E, bind_Done.
    destruct r as [[] | e]; [by destruct Hp; apply Hok | done].
Qed.

(** A request above 2048 bytes (or aligned above 2048) is never served: up
    to 4096 it returns null and takes a page out of use every time, above that
    it stops the kernel. *)
Theorem heap_large_requests m h Ms others k l : heap_repr m h Ms others (S k) -> valid_layout l ->
  (2048 < Z.max (padded l) (align l) <= 4096 -> exists b m' h' Ms', Heap_alloc m h l = Done (0, m', h') /\
     heap_repr m' h' Ms' others k /\ all_pages Ms' ≡ₚ b :: all_pages Ms /\
     forall c x, hheld Ms' c x <-> hheld Ms c x) /\
  (4096 < Z.max (padded l) (align l) -> Heap_alloc m h l = Panic Asserted).
Proof.
  intros HR Hv. pose proof (layout_class l Hv) as Hc. unfold Heap_alloc.
  destruct (layout_to_allocator l) as [c | e]; [| split; [lia | by destruct Hc as [-> _]]].
  destruct Hc as (_ & _ & H4 & Hle). split; [| lia]. intros [Hlo _]. apply H4 in Hlo as ->. rewrite bind_Done.
  pose proof HR as [HRc Hlay _]. pose proof (Hlay Slab4096) as El. pose proof (HRc Slab4096) as HR4.
  change (class_count Slab4096) with 0%nat in HR4.
  destruct (allocate_never _ _ _ _ _ HR4) as (m' & a' & b & -> & HR' & El' & Hm & Hb). rewrite bind_Done.
  exists b, m', (heap_set h Slab4096 a'), (set_model Ms Slab4096 (Ms Slab4096 ++ [(b, [])])). split; [done |]. split_and!.
  - eapply heap_update; [exact HR | done | congruence | |].
    + rewrite fmap_app. eapply same_mem_mono; [exact Hm |]. set_solver.
    + intros x. rewrite fmap_app. intros [Hx | [-> | []%not_elem_of_nil]%elem_of_cons]%elem_of_app; [by left | right].
      intros Hx. apply Hb, elem_of_app. by right.
  - rewrite (all_pages_split _ Slab4096), rest_set, (all_pages_split Ms Slab4096). unfold set_model.
    rewrite decide_True, fmap_app, <- app_assoc by done. symmetry. apply Permutation_middle.
  - intros c x. rewrite hheld_set. destruct (decide (c = Slab4096)) as [-> |]; [| done].
    unfold hheld. split; intros (b' & fs & Hin & Hx & _); apply elem_of_object_addrs in Hx as (i & Hi & _); change (class_count Slab4096) with 0%nat in Hi; lia.
Qed.

(** ** A new heap *)
Definition fresh_slabs (c : SizeClass) : InternalSlabAllocator :=
  mkInternalSlabAllocator LinkedList_new 1 (Z.of_nat (class_count c)) (class_layout c).

Lemma new_class c : InternalSlabAllocator_new (class_layout c) = Done (fresh_slabs c).
Proof. by destruct c. Qed.

Lemma Heap_new_ok m others k : pages_inv (paging m) others k ->
  exists h, Heap_new = Done h /\ heap_repr m h (fun _ => []) others k.
Proof.
  intros Hinv. exists (mkHeap (fresh_slabs Slab32) (fresh_slabs Slab64) (fresh_slabs Slab128) (fresh_slabs Slab256)
    (fresh_slabs Slab512) (fresh_slabs Slab1024) (fresh_slabs Slab2048) (fresh_slabs Slab4096)). split; [done |].
  split; [| by intros [] | apply NoDup_nil_2]. intros c.
  destruct (new_ok m (class_layout c) others k (class_adjusted c) Hinv) as (a & E & _ & HR).
  rewrite new_class in E. injection E as <-. replace (rest c (fun _ => []) ++ others) with others by (by destruct c).
  by destruct c.
Qed.

(** ** [reap] *)

(** How many unused slabs there are at the front. *)
Fixpoint front_unused (n : nat) (M : SlabModel) : nat :=
  match M with
  | [] => 0
  | bf :: M => if decide (length bf.2 = n) then S (front_unused n M) else 0
  end.

Definition unreaped (c : SizeClass) (Ms : HeapModel) : SlabModel := drop (front_unused (class_count c) (Ms c)) (Ms c).

Lemma front_unused_le n M : (front_unused n M <= length M)%nat.
Proof. induction M as [| bf M IH]; cbn; [done |]. destruct (decide _); lia. Qed.

Lemma front_unused_spec n M : Forall (all_free n) (take (front_unused n M) M) /\
  (forall bf, drop (front_unused n M) M !! 0%nat = Some bf -> ~ all_free n bf).
Proof.
  induction M as [| bf M [IH1 IH2]]; cbn; [done |]. destruct (decide (length bf.2 = n)) as [E | E]; cbn.
  - split; [by constructor | done].
  - split; [constructor |]. by intros ? [= <-].
Qed.

Lemma heap_repr_ext m h Ms Ms' others k : (forall c, Ms c = Ms' c) -> heap_repr m h Ms others k ->
  heap_repr m h Ms' others k.
Proof.
  intros E [HR Hlay Hnd].
  assert (forall cs, pages_of Ms cs = pages_of Ms' cs) as Ep.
  { intros cs. unfold pages_of. f_equal. apply list_fmap_ext. intros i c _. by rewrite E. }
  split; [| done | unfold all_pages; by rewrite <- Ep].
  intros c. unfold rest. rewrite <- E, <- Ep. apply HR.
Qed.

Lemma reap_n_sum_ok m h Ms others k c t : heap_repr m h Ms others k ->
  t + Z.of_nat (front_unused (class_count c) (Ms c)) <= usize_MAX ->
  exists m' h', reap_n_sum m h c t = Done (t + Z.of_nat (front_unused (class_count c) (Ms c)), m', h') /\
    heap_repr m' h' (set_model Ms c (unreaped c Ms)) others k.
Proof.
  intros HR Ht. pose proof HR as [HRc Hlay _]. pose proof (HRc c) as HR1.
  destruct (front_unused_spec (class_count c) (Ms c)) as [H1 H2].
  pose proof (front_unused_le (class_count c) (Ms c)) as Hle.
  rewrite <- (take_drop (front_unused (class_count c) (Ms c)) (Ms c)) in HR1 at 1.
  destruct (reap_ok _ _ _ _ _ _ _ HR1 H1 H2) as (m' & a' & E & Hm & HR' & El).
  rewrite length_take_le in E by done. rewrite take_drop in Hm. unfold reap_n_sum.
  rewrite E, bind_Done, usize_add_ok, bind_Done by done. do 2 eexists. split; [done |].
  eapply heap_update; [exact HR | exact HR' | congruence | |].
  - eapply same_mem_mono; [exact Hm |]. set_solver.
  - intros b Hb. left. unfold unreaped in Hb. rewrite fmap_drop in Hb. by eapply subseteq_drop.
Qed.

(** The classes [Heap::reap] goes through. *)
Definition reaped_classes : list SizeClass := [Slab64; Slab128; Slab256; Slab512; Slab1024; Slab2048; Slab4096].

Fixpoint reap_classes m h (cs : list SizeClass) (t : Z) : res (Z * SlabMem G * Heap) :=
  match cs with
  | [] => Done (t, m, h)
  | c :: cs => '(t, m, h) ← reap_n_sum m h c t; reap_classes m h cs t
  end.

Lemma Heap_reap_classes m h : Heap_reap m h = reap_classes m h reaped_classes 0.
Proof.
  unfold Heap_reap, reaped_classes, reap_classes.
  do 7 (destruct (reap_n_sum _ _ _ _) as [[[? ?] ?] | ?]; [rewrite ?bind_Done | done]). done.
Qed.

Definition unused_in (Ms : HeapModel) (cs : list SizeClass) : nat :=
  sum_list_with (fun c => front_unused (class_count c) (Ms c)) cs.

Lemma unused_in_ext Ms Ms' cs : (forall c, c ∈ cs -> Ms c = Ms' c) -> unused_in Ms cs = unused_in Ms' cs.
Proof.
  induction cs as [| c cs IH]; intros E; [done |]. unfold unused_in in *. cbn [sum_list_with].
  rewrite IH by (intros c' Hc'; apply E; by right). by rewrite E by left.
Qed.

Lemma reap_classes_ok others k cs : NoDup cs -> forall m h Ms t, heap_repr m h Ms others k ->
  t + Z.of_nat (unused_in Ms cs) <= usize_MAX ->
  exists m' h', reap_classes m h cs t = Done (t + Z.of_nat (unused_in Ms cs), m', h') /\
    heap_repr m' h' (fun c => if decide (c ∈ cs) then unreaped c Ms else Ms c) others k.
Proof.
  induction cs as [| c cs IH]; intros Hnd m h Ms t HR Ht; cbn [reap_classes].
  { exists m, h. unfold unused_in. cbn. rewrite Z.add_0_r. split; [done |].
    eapply heap_repr_ext; [| exact HR]. intros c. by rewrite decide_False by apply not_elem_of_nil. }
  apply NoDup_cons in Hnd as [Hni Hnd]. change (unused_in Ms (c :: cs)) with
    (front_unused (class_count c) (Ms c) + unused_in Ms cs)%nat in *.
  destruct (reap_n_sum_ok m h Ms others k c t HR ltac:(lia)) as (m1 & h1 & -> & HR1). rewrite bind_Done.
  assert (unused_in (set_model Ms c (unreaped c Ms)) cs = unused_in Ms cs) as Eu.
  { apply unused_in_ext. intros c' Hc'. unfold set_model. rewrite decide_False; [done |]. by intros ->. }
  destruct (IH Hnd m1 h1 _ (t + Z.of_nat (front_unused (class_count c) (Ms c))) HR1) as (m' & h' & -> & HR'); [rewrite Eu; lia |]. exists m', h'. split.
  { rewrite Eu. do 3 f_equal. lia. }
  eapply heap_repr_ext; [| exact HR']. intros c'. cbn. unfold unreaped, set_model.
  destruct (decide (c' = c)) as [-> | Hne].
  - rewrite decide_False by done. by rewrite decide_True by left.
  - destruct (decide (c' ∈ cs)); [by rewrite decide_True by (by right) |].
    rewrite decide_False; [done |]. by intros [? | ?]%elem_of_cons.
Qed.

Lemma unused_few m h Ms others k : heap_repr m h Ms others k -> Z.of_nat (unused_in Ms reaped_classes) <= usize_MAX.
Proof.
  intros [HR _ Hnd]. assert (forall cs, unused_in Ms cs <= length (pages_of Ms cs))%nat as Hle.
  { induction cs as [| c cs IH]; [done |].
    change (unused_in Ms (c :: cs)) with (front_unused (class_count c) (Ms c) + unused_in Ms cs)%nat.
    change (pages_of Ms (c :: cs)) with ((Ms c).*1 ++ pages_of Ms cs). rewrite length_app, length_fmap.
    pose proof (front_unused_le (class_count c) (Ms c)). lia. }
  specialize (Hle reaped_classes). assert (Z.of_nat (length (all_pages Ms)) < usize_MAX) as Hfew.
  { apply bufs_few; [done |].
    intros b (bs & Hb & (c & -> & _)%list_elem_of_fmap)%list_elem_of_join. destruct (HR c) as [ss HRc]. by apply HRc. }
  change (all_pages Ms) with ((Ms Slab32).*1 ++ pages_of Ms reaped_classes) in Hfew. rewrite length_app in Hfew. lia.
Qed.

(** [reap] gives the unused slabs at the front of seven of the allocators
    back and reports their number; the slabs of the 32 byte allocator are
    never given back. *)
Theorem heap_reap_correct m h Ms others k : heap_repr m h Ms others k ->
  exists m' h' Ms', Heap_reap m h = Done (Z.of_nat (unused_in Ms reaped_classes), m', h') /\
    heap_repr m' h' Ms' others k /\ Ms' Slab32 = Ms Slab32 /\
    (forall c, c <> Slab32 -> Ms' c = unreaped c Ms).
Proof.
  intros HR. rewrite Heap_reap_classes.
  destruct (reap_classes_ok others k reaped_classes ltac:(by apply (bool_decide_unpack _)) m h Ms 0 HR) as (m' & h' & -> & HR').
  { rewrite Z.add_0_l. by eapply unused_few. }
  do 3 eexists. split; [done |]. split; [exact HR' |]. cbn beta. split.
  - by rewrite decide_False by (by apply (bool_decide_unpack _)).
  - intros c Hc. rewrite decide_True; [done |]. destruct c; try done; by apply (bool_decide_unpack _).
Qed.

(** An allocator for a type serves requests with the layout of the type
    as the slab allocator does, with the length of the layout, and stops at a
    request with another layout. *)
Theorem typed_slab_correct layout_T m a n M others k l : represents m a n M others (S k) -> (0 < n)%nat ->
  (l = layout_T -> exists p m' a' M' k', SlabAllocator_allocate layout_T m a l = Done (p, size l, m', a') /\
     represents m' a' n M' others k' /\ ~ mheld (layout a) n M p /\
     (forall x, mheld (layout a) n M' x <-> mheld (layout a) n M x \/ x = p) /\
     exists m'', SlabAllocator_deallocate layout_T m' a' p l = Done m'') /\
  (l <> layout_T -> SlabAllocator_allocate layout_T m a l = Panic Asserted /\
     forall p, SlabAllocator_deallocate layout_T m a p l = Panic Asserted).
Proof.
  intros HR Hn. unfold SlabAllocator_allocate, SlabAllocator_deallocate. destruct l as [s al], layout_T as [s' al']. split.
  - intros [= -> ->]. unfold layout_eqb. cbn [size align]. rewrite !Z.eqb_refl. cbn [andb assert_]. rewrite bind_Done.
    destruct (allocate_ok _ _ _ _ _ _ HR Hn) as (p & m' & a' & M' & k' & -> & HR' & El & _ & _ & _ & Hnh & _ & Hh).
    rewrite bind_Done. cbn [unwrap_ok]. rewrite bind_Done. do 5 eexists. split; [done |]. split; [done |]. split_and!; [done | done |].
    rewrite bind_Done. destruct (free_repr_ok _ _ _ _ _ _ p HR') as (r & m'' & M'' & -> & _ & _ & _ & Hr). rewrite bind_Done.
    assert (mheld (layout a') n M' p) as Hp by (rewrite El; apply Hh; by right).
    destruct HR' as [ss HR']. destruct r as [[] | []]; try by destruct Hr as (? & _).
    + eauto.
    + by destruct Hr as (_ & _ & []); apply mheld_object.
    + destruct Hr as [_ Hf]. by apply (mfree_object _ _ _ _ _ _ _ _ HR') in Hf as [_ ?].
  - intros Hne. assert (layout_eqb (mkLayout s al) (mkLayout s' al') = false) as ->; [| done].
    unfold layout_eqb. cbn. destruct (Z.eqb_spec s s'), (Z.eqb_spec al al'); try done. congruence.
Qed.
End claims.

(** ** Witnesses: the bump allocator of pages *)
Definition ex_heap : Heap :=
  match Heap_new with Done h => h | Panic _ => mkHeap ex_slabs ex_slabs ex_slabs ex_slabs ex_slabs ex_slabs ex_slabs ex_slabs end.

Lemma ex_heap_repr k : (k <= 1000)%nat -> heap_repr ex_slab_mem ex_heap (fun _ => []) [] k.
Proof.
  intros Hk. destruct (Heap_new_ok ex_slab_mem [] k (ex_slab_pages k Hk)) as (h & E & HR).
  unfold ex_heap. by rewrite E.
Qed.

Lemma heap_alloc_correct_witness : exists p m h,
  Heap_alloc ex_slab_mem ex_heap (mkLayout 100 8) = Done (p, m, h) /\ (8 | p).
Proof.
  destruct (heap_alloc_correct ex_slab_mem ex_heap (fun _ => []) [] 5 (mkLayout 100 8))
    as (c & p & m & h & Ms & k & _ & E & _ & _ & _ & Hd & _);
    [apply ex_heap_repr; lia | by split | by vm_compute |].
  exists p, m, h. split; [exact E | exact Hd].
Defined.

Lemma heap_dealloc_correct_witness : Heap_dealloc ex_slab_mem ex_heap 4096 (mkLayout 100 8) = Panic Unwrapped /\
  exists p m h m' h', Heap_alloc ex_slab_mem ex_heap (mkLayout 100 8) = Done (p, m, h) /\
    Heap_dealloc m h p (mkLayout 100 8) = Done (m', h').
Proof.
  split.
  - destruct (heap_dealloc_correct ex_slab_mem ex_heap (fun _ => []) [] 5 (mkLayout 100 8) Slab128 4096) as [_ H2];
      [apply ex_heap_repr; lia | reflexivity |]. apply H2. intros (b & fs & []%not_elem_of_nil & _).
  - pose proof (ex_heap_repr 6 ltac:(lia)) as HR. pose proof HR as [HRc Hlay _].
    destruct (allocate_ok _ _ _ _ _ _ (HRc Slab128) (class_count_pos Slab128 ltac:(done)))
      as (p & m & a & M & k & E & HR' & El & _ & Hm & Hnew & _ & _ & Hh).
    assert (heap_repr m (heap_set ex_heap Slab128 a) (set_model (fun _ => []) Slab128 M) [] k) as HR2.
    { eapply heap_update; [exact HR | done | by rewrite El | | done]. eapply same_mem_mono; [exact Hm |]. intros b Hb. apply elem_of_app. by right. }
    destruct (heap_dealloc_correct m (heap_set ex_heap Slab128 a) (set_model (fun _ => []) Slab128 M) [] k (mkLayout 100 8) Slab128 p HR2 eq_refl)
      as [H1 _]. destruct H1 as (m' & Ms' & E' & _).
    { apply hheld_set. rewrite decide_True by done. rewrite <- (Hlay Slab128). apply Hh. by right. }
    exists p, m, (heap_set ex_heap Slab128 a), m', (heap_set ex_heap Slab128 a). split; [| exact E'].
    unfold Heap_alloc. change (layout_to_allocator (mkLayout 100 8)) with (Done (A := SizeClass) Slab128).
    by rewrite bind_Done, E, bind_Done.
Defined.

Lemma heap_large_requests_witness : exists m h,
  Heap_alloc ex_slab_mem ex_heap (mkLayout 3000 8) = Done (0, m, h) /\
  Heap_alloc ex_slab_mem ex_heap (mkLayout 5000 8) = Panic Asserted.
Proof.
  destruct (heap_large_requests ex_slab_mem ex_heap (fun _ => []) [] 5 (mkLayout 3000 8)) as [H1 _];
    [apply ex_heap_repr; lia | by split |].
  destruct (heap_large_requests ex_slab_mem ex_heap (fun _ => []) [] 5 (mkLayout 5000 8)) as [_ H2];
    [apply ex_heap_repr; lia | by split |].
  destruct H1 as (b & m & h & Ms & E & _); [by vm_compute |]. exists m, h. split; [exact E | apply H2; by vm_compute].
Defined.

Lemma heap_reap_correct_witness : exists m h, Heap_reap ex_slab_mem ex_heap = Done (0, m, h).
Proof.
  destruct (heap_reap_correct ex_slab_mem ex_heap (fun _ => []) [] 5) as (m & h & Ms & E & _); [apply ex_heap_repr; lia |].
  exists m, h. exact E.
Defined.

Lemma typed_slab_correct_witness : exists p m a,
  SlabAllocator_allocate ex_layout ex_slab_mem ex_slabs ex_layout = Done (p, 2048, m, a).
Proof.
  destruct (typed_slab_correct ex_layout ex_slab_mem ex_slabs 1 [] [] 5 ex_layout) as [H1 _];
    [apply ex_represents; lia | lia |].
  destruct (H1 eq_refl) as (p & m & a & M & k & E & _). exists p, m, a. exact E.
Defined.
