(* ===== verification/PageTable.v ===== *)
(** * Page tables: definitions ([kernel/src/arch/x86_64/paging/mod.rs])

    The tables live in physical frames of 512 entries; a reference to a table
    is the physical address of its frame, which the kernel reaches through the
    higher-half offset [hhdm].  A reference to an entry is a frame and an
    index.  The physical memory manager is any [PmmAllocator]; its state is
    threaded beside the frames. *)

From S2P Require Import Prelude Pmm PageFlags.

Definition ENTRIES_PER_TABLE : nat := 512.

Abbreviation Entry := Z (only parsing).

(** ** Entries *)
Definition Entry_get_flags (e : Entry) : Flags := Z.land e 0xFFF.

Definition Entry_set_flags (e : Entry) (flags : Flags) : Entry :=
  Z.lor (Z.land e (usize_not 0xFFF)) flags.

Definition Entry_get_addr (e : Entry) (page_size : PageSize) : res PhysAddr :=
  mask ← get_offset_mask page_size;
  _ ← assert_ (Z.land (Z.land e (usize_not 0xFFF)) mask =? 0);
  Done (Z.land e (usize_not mask)).

Definition Entry_set_addr (e : Entry) (addr : PhysAddr) (page_size : PageSize) : res Entry :=
  mask ← get_offset_mask page_size;
  _ ← assert_ (Z.land addr mask =? 0);
  Done (Z.lor (Z.land e mask) (Z.land addr (usize_not mask))).

(** [(addr >> (12 + level * 9)) & 0b1_1111_1111]. *)
Definition next_level_index (addr : VirtAddr) (level : nat) : nat :=
  Z.to_nat (Z.land (Z.shiftr addr (12 + Z.of_nat level * 9)) 511).

Record PtState (P : Type) := mkPtState { frames : gmap Z (list Entry); pmm : P }.
Arguments mkPtState {P}.
Arguments frames {P}.
Arguments pmm {P}.

Section page_table.
Context {P : Type} `{PmmAllocator P} (hhdm : Z).
Implicit Types (s : PtState P).

(** The table behind a physical address: a non-null pointer in the higher half. *)
Definition table_of (phys_addr : PhysAddr) : res PhysAddr :=
  v ← PhysAddr_add_hhdm_offset hhdm phys_addr;
  if v =? 0 then Panic Unwrapped else Done phys_addr.

Definition Entry_next_level_table (e : Entry) : res PhysAddr :=
  a ← Entry_get_addr e size_4kb; table_of a.

Definition Entry_map (e : Entry) (phys_addr : PhysAddr) (flags : Flags) (page_size : PageSize)
    : res (result unit PagingError * Entry) :=
  if get_present (Entry_get_flags e) then Done (Err PageAlreadyPresent, e) else
  e ← Entry_set_addr e phys_addr page_size;
  match Flags_join (set_last_entry (set_present flags true) true) (Flags_from page_size) with
  | None => Done (Err InvalidFlags, e)
  | Some flags => Done (Ok (), Entry_set_flags e flags)
  end.

Definition Entry_release (p : P) (e : Entry) (page_size : PageSize)
    : res (result unit PagingError * Entry * P) :=
  let flags := Entry_get_flags e in
  if negb (get_present flags) then Done (Err PageNotPresent, e, p) else
  p ← (if get_allocated flags then
         phys_addr ← Entry_get_addr e page_size;
         '(r, p) ← pmm_free p phys_addr 1;
         _ ← unwrap_ok r;
         Done p
       else Done p);
  Done (Ok (), Entry_set_flags e (set_present flags false), p).

(** [table[i]] and its update through a mutable reference. *)
Definition read_entry s (table : PhysAddr) (i : nat) : res Entry :=
  match frames s !! table with None => Panic BadPointer | Some t => index t i end.
Definition write_entry s (table : PhysAddr) (i : nat) (e : Entry) : res (PtState P) :=
  match frames s !! table with
  | None => Panic BadPointer
  | Some t => if decide (i < length t)%nat then
      Done (mkPtState (<[table := <[i := e]> t]> (frames s)) (pmm s)) else Panic IndexOutOfBounds
  end.

(** [PageTable::new]: a zeroed frame of the physical memory manager. *)
Definition PageTable_new s : res (PhysAddr * PtState P) :=
  '(r, p) ← pmm_allocate (pmm s) (page_alignment size_4kb) 1;
  phys_addr ← unwrap_ok r;
  a ← table_of phys_addr;
  Done (a, mkPtState (<[a := replicate ENTRIES_PER_TABLE 0]> (frames s)) p).

(** [get_entry]: the loop over [(0..=MAX_BOTTOM_PAGING_LEVEL).rev()], from the
    table of [level].  The entry is its table and index. *)
Fixpoint get_entry_from s (table : PhysAddr) (virt_addr : VirtAddr) (level : nat)
    : res (option (PhysAddr * nat * PageSize)) :=
  let i := next_level_index virt_addr level in
  e ← read_entry s table i;
  let flags := Entry_get_flags e in
  if get_last_entry flags then
    match from_bottom_paging_level level with
    | None => Done None
    | Some page_size => Done (Some (table, i, page_size))
    end
  else if get_present flags then
    table ← Entry_next_level_table e;
    match level with
    | O => Panic Unreached
    | S level => get_entry_from s table virt_addr level
    end
  else Done None.

Definition PageTable_get_entry s (table : PhysAddr) (virt_addr : VirtAddr) :=
  get_entry_from s table virt_addr MAX_BOTTOM_PAGING_LEVEL.

Definition PageTable_translate s (table : PhysAddr) (base_addr : VirtAddr) : res (option PhysAddr) :=
  o ← PageTable_get_entry s table base_addr;
  match o with
  | None => Done None
  | Some (table, i, page_size) =>
      e ← read_entry s table i;
      if negb (get_present (Entry_get_flags e)) then Done None else
      a ← Entry_get_addr e page_size; Done (Some a)
  end.

(** [for level in (bottom + 1..=3).rev()]: [n] levels are left, the next is
    [bottom + n]. *)
Fixpoint get_create_from s (table : PhysAddr) (base_addr : VirtAddr) (bottom n : nat)
    : res (PhysAddr * PtState P) :=
  match n with
  | O => Done (table, s)
  | S n' =>
      let i := next_level_index base_addr (bottom + n) in
      e ← read_entry s table i;
      let flags := Entry_get_flags e in
      s ← (if negb (get_present flags) then
             s ← write_entry s table i (Entry_set_flags e (set_read_write (set_present flags true) true));
             '(phys_addr, s) ← PageTable_new s;
             e ← read_entry s table i;
             e ← Entry_set_addr e phys_addr size_4kb;
             write_entry s table i e
           else Done s);
      e ← read_entry s table i;
      table ← Entry_next_level_table e;
      get_create_from s table base_addr bottom n'
  end.

Definition get_create_table_range s (table : PhysAddr) (base_addr : VirtAddr) (page_size : PageSize)
    : res (PhysAddr * PtState P) :=
  r ← usize_rem base_addr page_size;
  _ ← assert_ (r =? 0);
  bottom ← bottom_paging_level page_size;
  get_create_from s table base_addr bottom (MAX_BOTTOM_PAGING_LEVEL - bottom).

Fixpoint get_table_from s (table : PhysAddr) (base_addr : VirtAddr) (bottom n : nat)
    : res (option PhysAddr) :=
  match n with
  | O => Done (Some table)
  | S n' =>
      e ← read_entry s table (next_level_index base_addr (bottom + n));
      if negb (get_present (Entry_get_flags e)) then Done None else
      table ← Entry_next_level_table e;
      get_table_from s table base_addr bottom n'
  end.

Definition get_table_range s (table : PhysAddr) (base_addr : VirtAddr) (page_size : PageSize)
    : res (option PhysAddr) :=
  r ← usize_rem base_addr page_size;
  _ ← assert_ (r =? 0);
  bottom ← bottom_paging_level page_size;
  get_table_from s table base_addr bottom (MAX_BOTTOM_PAGING_LEVEL - bottom).

(** [for (i, entry) in table.iter_mut().skip(to_skip).take(page_count).enumerate()]:
    [n] entries are left, the next is the [i]-th. *)
Fixpoint map_entries s (table : PhysAddr) (to_skip : nat) (i : nat) (n : nat)
    (phys_addr : PhysAddr) (flags : Flags) (page_size : PageSize) : res (result unit PagingError * PtState P) :=
  match n with
  | O => Done (Ok (), s)
  | S n =>
      e ← read_entry s table (to_skip + i);
      o ← usize_mul (Z.of_nat i) page_size;
      a ← usize_add phys_addr o;
      '(r, e) ← Entry_map e a flags page_size;
      s ← write_entry s table (to_skip + i) e;
      match r with
      | Err err => Done (Err err, s)
      | Ok _ => map_entries s table to_skip (S i) n phys_addr flags page_size
      end
  end.

Definition PageTable_map_pages s (table : PhysAddr) (base_addr : VirtAddr) (phys_addr : PhysAddr)
    (page_count : nat) (page_size : PageSize) (flags : Flags) : res (result unit PagingError * PtState P) :=
  r ← usize_rem base_addr page_size;
  if negb (r =? 0) then Done (Err InvalidVirtualAddress, s) else
  r ← usize_rem phys_addr page_size;
  if negb (r =? 0) then Done (Err InvalidPhysicalAddress, s) else
  '(table, s) ← get_create_table_range s table base_addr page_size;
  bottom ← bottom_paging_level page_size;
  let to_skip := next_level_index base_addr bottom in
  e ← usize_add (Z.of_nat to_skip) (Z.of_nat page_count);
  if Z.of_nat ENTRIES_PER_TABLE <? e then Done (Err BadPageCountAndAddressCombination, s) else
  map_entries s table to_skip 0 page_count phys_addr flags page_size.

Fixpoint release_entries s (table : PhysAddr) (i : nat) (n : nat) (page_size : PageSize)
    : res (result unit PagingError * PtState P) :=
  match n with
  | O => Done (Ok (), s)
  | S n =>
      e ← read_entry s table i;
      '(r, e, p) ← Entry_release (pmm s) e page_size;
      s ← write_entry (mkPtState (frames s) p) table i e;
      match r with
      | Err err => Done (Err err, s)
      | Ok _ => release_entries s table (S i) n page_size
      end
  end.

Definition PageTable_unmap_pages s (table : PhysAddr) (base_addr : VirtAddr) (page_count : nat)
    (page_size : PageSize) : res (result unit PagingError * PtState P) :=
  r ← usize_rem base_addr page_size;
  if negb (r =? 0) then Done (Err InvalidVirtualAddress, s) else
  o ← get_table_range s table base_addr page_size;
  match o with
  | None => Done (Err PageNotPresent, s)
  | Some table =>
      bottom ← bottom_paging_level page_size;
      let to_skip := next_level_index base_addr bottom in
      e ← usize_add (Z.of_nat to_skip) (Z.of_nat page_count);
      if Z.of_nat ENTRIES_PER_TABLE <? e then Done (Err BadPageCountAndAddressCombination, s) else
      release_entries s table to_skip page_count page_size
  end.

(** [get_pml]: the table CR3 points to. *)
Definition get_pml (cr3_top_pml : Z) : res PhysAddr := table_of (Z.shiftl cr3_top_pml 12).
End page_table.
