(* ===== verification/PageTableCorrect.v ===== *)
(** * Page tables: what mapping and unmapping do to translation

    A table tree is well formed when every frame reached from the root holds
    512 entries that fit its level, and no frame is reached by two paths.
    Translation is then a function [pt_translate] of the frames, and each
    operation is shown to change it at the addresses of the mapped pages and
    nowhere else. *)

From S2P Require Import Prelude Pmm PageFlags PageTable.

(** ** Entries as bits *)
Abbreviation present e := (Z.testbit e 0) (only parsing).
Abbreviation last e := (Z.testbit e 10) (only parsing).

(** The offset bits of a page of level [l], and the address bits of an entry. *)
Definition off_bits (l : nat) : Z := 12 + 9 * Z.of_nat l.
Definition level_size (l : nat) : Z := 2 ^ off_bits l.
Definition addr_bits (l : nat) (e : Z) : Z := Z.land e (usize_not (Z.ones (off_bits l))).

Lemma level_size_spec l : (l <= 2)%nat -> from_bottom_paging_level l = Some (level_size l).
Proof. destruct l as [| [| [| l]]]; done || lia. Qed.

Lemma bottom_level l : (l <= 2)%nat -> bottom_paging_level (level_size l) = Done l.
Proof. destruct l as [| [| [| l]]]; done || lia. Qed.

Lemma offset_mask l : (l <= 2)%nat -> get_offset_mask (level_size l) = Done (Z.ones (off_bits l)).
Proof. destruct l as [| [| [| l]]]; done || lia. Qed.

Lemma off_bits_bound l : (l <= 2)%nat -> 12 <= off_bits l <= 30.
Proof. unfold off_bits. lia. Qed.

Lemma ones_is_usize k : 0 <= k <= 64 -> is_usize (Z.ones k).
Proof.
  intros Hk. rewrite Z.ones_equiv. unfold is_usize, usize_MAX.
  pose proof (Z.pow_pos_nonneg 2 k). assert (2 ^ k <= 2 ^ 64) by (apply Z.pow_le_mono_r; lia). lia.
Qed.

Lemma testbit_ones_le k n : 0 <= k -> 0 <= n -> Z.testbit (Z.ones k) n = (n <? k).
Proof.
  intros Hk Hn. destruct (Z.ltb_spec n k); [apply Z.ones_spec_low; lia | apply Z.ones_spec_high; lia].
Qed.

Lemma testbit_clear_low e k n : is_usize e -> 0 <= k <= 64 -> 0 <= n ->
  Z.testbit (Z.land e (usize_not (Z.ones k))) n = (k <=? n) && Z.testbit e n.
Proof.
  intros He Hk Hn. rewrite land_usize_not by (done || by apply ones_is_usize).
  rewrite Z.ldiff_spec, testbit_ones_le by lia.
  rewrite andb_comm, <- Z.leb_antisym. done.
Qed.

Lemma flags_testbit e n : 0 <= n -> Z.testbit (Entry_get_flags e) n = (n <? 12) && Z.testbit e n.
Proof.
  intros Hn. unfold Entry_get_flags. change 0xFFF with (Z.ones 12).
  rewrite Z.land_spec, testbit_ones_le by lia. apply andb_comm.
Qed.

Lemma flags_present e : get_present (Entry_get_flags e) = present e.
Proof. unfold get_present. change FLAG_P with (Z.shiftl 1 0). by rewrite Flags_get_bit, flags_testbit. Qed.

Lemma flags_last e : get_last_entry (Entry_get_flags e) = last e.
Proof. unfold get_last_entry, FLAG_LAST_ENTRY. by rewrite Flags_get_bit, flags_testbit. Qed.

Lemma flags_allocated e : get_allocated (Entry_get_flags e) = Z.testbit e 9.
Proof. unfold get_allocated, FLAG_ALLOCATED. by rewrite Flags_get_bit, flags_testbit. Qed.

(** The address bits of a multiple of the page size. *)
Lemma aligned_testbit a k n : 0 <= k -> (2 ^ k | a) -> 0 <= n < k -> Z.testbit a n = false.
Proof.
  intros Hk [q ->] Hn. rewrite <- Z.shiftl_mul_pow2 by done. by rewrite Z.shiftl_spec_low by lia.
Qed.

Lemma land_ones_divide a k : 0 <= k -> Z.land a (Z.ones k) = 0 <-> (2 ^ k | a).
Proof.
  intros Hk. rewrite Z.land_ones by done. apply mod0_divide. by apply Z.pow_pos_nonneg.
Qed.

Lemma get_addr_ok e l : is_usize e -> (l <= 2)%nat ->
  (forall n, 12 <= n < off_bits l -> Z.testbit e n = false) ->
  Entry_get_addr e (level_size l) = Done (addr_bits l e).
Proof.
  intros He Hl Hb. unfold Entry_get_addr. rewrite offset_mask, bind_Done by done.
  assert (Z.land (Z.land e (usize_not 4095)) (Z.ones (off_bits l)) = 0) as ->; [| done].
  pose proof (off_bits_bound l Hl). apply Z.bits_inj'. intros n Hn. change 4095 with (Z.ones 12).
  rewrite Z.land_spec, testbit_clear_low, testbit_ones_le, Z.bits_0 by (done || lia).
  destruct (Z.leb_spec 12 n), (Z.ltb_spec n (off_bits l)); cbn; try done; [| by rewrite andb_false_r].
  by rewrite Hb by lia.
Qed.

Lemma table_addr_ok e : is_usize e -> Entry_get_addr e size_4kb = Done (addr_bits 0 e).
Proof. intros He. apply (get_addr_ok e 0); [done | lia | unfold off_bits; lia]. Qed.

Lemma addr_bits_testbit l e n : is_usize e -> (l <= 2)%nat -> 0 <= n ->
  Z.testbit (addr_bits l e) n = (off_bits l <=? n) && Z.testbit e n.
Proof. intros. unfold addr_bits. pose proof (off_bits_bound l). by apply testbit_clear_low; [| lia |]. Qed.

(** ** Indices and paths *)
Lemma next_level_index_spec va l : 0 <= va ->
  next_level_index va l = Z.to_nat ((va / level_size l) mod 512).
Proof.
  intros Hva. unfold next_level_index, level_size, off_bits. f_equal. change 511 with (Z.ones 9).
  rewrite Z.land_ones, Z.shiftr_div_pow2 by lia. do 2 f_equal. f_equal. lia.
Qed.

Lemma next_level_index_lt va l : (next_level_index va l < 512)%nat.
Proof.
  unfold next_level_index. change 511 with (Z.ones 9). rewrite Z.land_ones by lia.
  pose proof (Z.mod_pos_bound (Z.shiftr va (12 + Z.of_nat l * 9)) (2 ^ 9)). lia.
Qed.

(** The indices of levels 3 down to [l + 1]: the path to the table of level [l]. *)
Definition vpath (va : VirtAddr) (l : nat) : list nat :=
  (fun k => next_level_index va (3 - k)) <$> seq 0 (3 - l).

Lemma vpath_S va l : (l < 3)%nat -> vpath va l = vpath va (S l) ++ [next_level_index va (S l)].
Proof.
  intros Hl. unfold vpath. replace (3 - l)%nat with (S (3 - S l)) by lia.
  rewrite seq_S, fmap_app. cbn. do 3 f_equal. lia.
Qed.

(** Two addresses in the same page of level [l]. *)
Definition same_page (l : nat) (va va' : VirtAddr) : Prop :=
  forall k, (l <= k <= 3)%nat -> next_level_index va k = next_level_index va' k.

Lemma same_page_vpath l va va' : (l <= 3)%nat ->
  same_page l va va' <-> vpath va l = vpath va' l /\ next_level_index va l = next_level_index va' l.
Proof.
  intros Hl. unfold vpath. split.
  - intros H. split; [| apply H; lia]. apply list_fmap_ext. intros j k Hk.
    apply list_elem_of_lookup_2, elem_of_seq in Hk. apply H. lia.
  - intros [Hp Hi] k Hk. destruct (decide (k = l)) as [-> | Hne]; [done |].
    apply (f_equal (fun p => p !! (3 - k)%nat)) in Hp. rewrite !list_lookup_fmap, !lookup_seq_lt in Hp by lia.
    cbn in Hp. injection Hp as Hp. by replace (3 - (3 - k))%nat with k in Hp by lia.
Qed.

(** ** The tree of tables *)
Abbreviation frameset := (gmap Z (list Z)) (only parsing).

Definition entry_at (fr : frameset) (a : Z) (i : nat) : option Z := t ← fr !! a; t !! i.

(** An entry that points to a table of the next level. *)
Definition is_table (e : Z) : Prop := present e = true /\ last e = false.

Inductive reach (fr : frameset) (root : Z) : nat -> list nat -> Z -> Prop :=
  | reach_root : reach fr root 3 [] root
  | reach_step l p a i e : reach fr root (S l) p a -> entry_at fr a i = Some e -> is_table e ->
      reach fr root l (p ++ [i]) (addr_bits 0 e).

(** The entries that fit a table of level [l]. *)
Record entry_ok (l : nat) (e : Z) : Prop := {
  eok_usize : is_usize e;
  eok_leaf : present e = true -> last e = true ->
    (l <= 2)%nat /\ forall n, 12 <= n < off_bits l -> Z.testbit e n = false;
  eok_table : is_table e -> (1 <= l)%nat;
}.

Record tree_ok (hhdm : Z) (fr : frameset) (root : Z) : Prop := {
  to_entry l p a i : reach fr root l p a -> (i < 512)%nat ->
    exists e, entry_at fr a i = Some e /\ entry_ok l e;
  to_inj l p a l' p' : reach fr root l p a -> reach fr root l' p' a -> p = p';
  to_hhdm l p a : reach fr root l p a -> 0 < a + hhdm <= usize_MAX;
}.

(** Entries of the upper levels that are not present have never been used:
    [map_pages] needs it, and unmapping a large page breaks it. *)
Definition tree_clean (fr : frameset) (root : Z) : Prop :=
  forall l p a i e, reach fr root (S l) p a -> entry_at fr a i = Some e -> present e = false -> e = 0.

Lemma reach_length fr root l p a : reach fr root l p a -> (length p + l = 3)%nat.
Proof. induction 1; [done |]. rewrite length_app. cbn. lia. Qed.

Lemma reach_level fr root l l' p a a' : reach fr root l p a -> reach fr root l' p a' -> l = l'.
Proof. intros H1%reach_length H2%reach_length. lia. Qed.

Lemma reach_same hhdm fr root l p a l' p' : tree_ok hhdm fr root -> reach fr root l p a ->
  reach fr root l' p' a -> l = l' /\ p = p'.
Proof.
  intros Ht H1 H2. pose proof (to_inj _ _ _ Ht _ _ _ _ _ H1 H2) as ->. split; [| done].
  by eapply reach_level.
Qed.

Lemma reach_le fr root l p a : reach fr root l p a -> (l <= 3)%nat.
Proof. intros H%reach_length. lia. Qed.

Lemma entry_on_path hhdm fr root l p a va : tree_ok hhdm fr root -> reach fr root l p a ->
  exists e, entry_at fr a (next_level_index va l) = Some e /\ entry_ok l e.
Proof. intros Ht Hr. by apply (to_entry _ _ _ Ht _ _ _ _ Hr), next_level_index_lt. Qed.

(** ** Translation as a function of the frames *)
Fixpoint look (fr : frameset) (a : Z) (va : VirtAddr) (l : nat) : option (Z * nat * nat * Z) :=
  match entry_at fr a (next_level_index va l) with
  | None => None
  | Some e =>
      if last e then Some (a, next_level_index va l, l, e)
      else if present e then
        match l with O => None | S l => look fr (addr_bits 0 e) va l end
      else None
  end.

Definition pt_translate (fr : frameset) (root : Z) (va : VirtAddr) : option PhysAddr :=
  match look fr root va 3 with
  | Some (_, _, l, e) => if present e then Some (addr_bits l e) else None
  | None => None
  end.

Section translate.
Context {P : Type} `{PmmAllocator P} (hhdm : Z).
Implicit Types (s : PtState P).

Lemma read_entry_at s a i : read_entry s a i =
  match entry_at (frames s) a i with
  | Some e => Done e
  | None => match frames s !! a with None => Panic BadPointer | Some _ => Panic IndexOutOfBounds end
  end.
Proof.
  unfold read_entry, entry_at, index. destruct (frames s !! a) as [t |]; cbn; [| done].
  by destruct (t !! i).
Qed.

Lemma read_entry_ok s a i e : entry_at (frames s) a i = Some e -> read_entry s a i = Done e.
Proof. intros E. by rewrite read_entry_at, E. Qed.

Lemma next_table_ok s root l p a i e : tree_ok hhdm (frames s) root -> reach (frames s) root (S l) p a ->
  entry_at (frames s) a i = Some e -> is_usize e -> is_table e ->
  Entry_next_level_table hhdm e = Done (addr_bits 0 e).
Proof.
  intros Ht Hr He Hu Hta. unfold Entry_next_level_table. rewrite table_addr_ok, bind_Done by done.
  pose proof (to_hhdm _ _ _ Ht _ _ _ (reach_step _ _ _ _ _ _ _ Hr He Hta)).
  unfold table_of, PhysAddr_add_hhdm_offset. rewrite usize_add_ok, bind_Done by lia.
  by rewrite (proj2 (Z.eqb_neq _ _)) by lia.
Qed.

Lemma get_entry_look s root va l : forall a, tree_ok hhdm (frames s) root ->
  reach (frames s) root l (vpath va l) a ->
  get_entry_from hhdm s a va l = Done (
    match look (frames s) a va l with
    | Some (a', i, l', _) =>
        match from_bottom_paging_level l' with Some ps => Some (a', i, ps) | None => None end
    | None => None
    end).
Proof.
  induction l as [| l IH]; intros a Ht Hr; cbn [get_entry_from look];
    destruct (entry_on_path _ _ _ _ _ _ va Ht Hr) as (e & He & [Hu Hlf Htb]);
    rewrite He, (read_entry_ok _ _ _ _ He), bind_Done, flags_last, flags_present.
  - destruct (last e) eqn:El; [done |]. destruct (present e) eqn:Ep; [| done].
    specialize (Htb (conj Ep El)). lia.
  - destruct (last e) eqn:El.
    { by destruct (from_bottom_paging_level (S l)). }
    destruct (present e) eqn:Ep; [| done].
    rewrite (next_table_ok s root l _ a _ e Ht Hr He Hu (conj Ep El)), bind_Done.
    apply IH; [done |]. pose proof (reach_le _ _ _ _ _ Hr).
    rewrite vpath_S by lia. by apply (reach_step _ _ _ _ a).
Qed.

(** What a lookup finds is an entry of a reached table. *)
Lemma look_reach fr root va l : forall a a' i l' e, reach fr root l (vpath va l) a ->
  look fr a va l = Some (a', i, l', e) ->
  reach fr root l' (vpath va l') a' /\ i = next_level_index va l' /\ entry_at fr a' i = Some e /\
  last e = true /\ (l' <= l)%nat.
Proof.
  induction l as [| l IH]; intros a a' i l' e Hr; cbn [look];
    destruct (entry_at fr a _) as [e0 |] eqn:He; try done; destruct (last e0) eqn:El;
    try (intros [= <- <- <- <-]; done); destruct (present e0) eqn:Ep; try done.
  intros Hl. destruct (IH (addr_bits 0 e0) a' i l' e) as (? & ? & ? & ? & ?); [| done | split_and!; done || lia].
  pose proof (reach_le _ _ _ _ _ Hr). rewrite vpath_S by lia. by apply (reach_step _ _ _ _ a).
Qed.

Lemma translate_spec s root va : tree_ok hhdm (frames s) root ->
  PageTable_translate hhdm s root va = Done (pt_translate (frames s) root va).
Proof.
  intros Ht. unfold PageTable_translate, PageTable_get_entry, pt_translate, MAX_BOTTOM_PAGING_LEVEL.
  assert (reach (frames s) root 3 (vpath va 3) root) as Hr by apply reach_root.
  rewrite (get_entry_look s root va 3 root Ht Hr), bind_Done.
  destruct (look (frames s) root va 3) as [[[[a i] l] e] |] eqn:El; [| done].
  destruct (look_reach _ _ _ _ _ _ _ _ _ Hr El) as (Hr' & -> & He & Hlast & _).
  destruct (entry_on_path _ _ _ _ _ _ va Ht Hr') as (e' & He' & [Hu Hlf _]).
  rewrite He in He'. injection He' as <-. destruct (decide (l <= 2)%nat) as [Hl | Hl].
  - rewrite (level_size_spec l Hl), (read_entry_ok _ _ _ _ He), bind_Done, flags_present.
    destruct (present e) eqn:Ep; [| done]. destruct (Hlf eq_refl Hlast) as [_ Hz]. cbn [negb].
    by rewrite get_addr_ok, bind_Done.
  - pose proof (reach_le _ _ _ _ _ Hr'). assert (l = 3%nat) as -> by lia. cbn [from_bottom_paging_level].
    destruct (present e) eqn:Ep; [| done]. destruct (Hlf eq_refl Hlast). lia.
Qed.
End translate.

(** ** Changing one entry *)

(** [fr'] is [fr] with entry [i0] of frame [a0] set to [e0], as seen from the
    frames other than those of [hidden]. *)
Definition entry_set (fr fr' : frameset) (hidden : Z -> Prop) (a0 : Z) (i0 : nat) (e0 : Z) : Prop :=
  entry_at fr' a0 i0 = Some e0 /\
  forall a i, ~ hidden a -> (a, i) <> (a0, i0) -> entry_at fr' a i = entry_at fr a i.

Lemma look_agree hhdm fr fr' root hidden l0 p0 a0 i0 e0 va : tree_ok hhdm fr root ->
  reach fr root l0 p0 a0 -> entry_set fr fr' hidden a0 i0 e0 ->
  (forall l p a, reach fr root l p a -> ~ hidden a) ->
  ~ (vpath va l0 = p0 /\ next_level_index va l0 = i0) ->
  forall l a, reach fr root l (vpath va l) a -> look fr' a va l = look fr a va l.
Proof.
  intros Ht H0 [_ Hset] Hhid Hne.
  assert (forall l a, reach fr root l (vpath va l) a ->
    entry_at fr' a (next_level_index va l) = entry_at fr a (next_level_index va l)) as Hsame.
  { intros l a Hr. apply Hset; [by eapply Hhid |]. intros [= Ea Ei]. subst a.
    destruct (reach_same _ _ _ _ _ _ _ _ Ht Hr H0) as [El Ep]. apply Hne. by rewrite <- El. }
  induction l as [| l IH]; intros a Hr; cbn [look]; rewrite (Hsame _ _ Hr);
    (destruct (entry_at fr a _) as [e |] eqn:He; [| done]); (destruct (last e) eqn:El; [done |]);
    (destruct (present e) eqn:Ep; [| done]); [done |].
  apply IH. pose proof (reach_le _ _ _ _ _ Hr).
  rewrite vpath_S by lia. by apply (reach_step _ _ _ _ a).
Qed.

Lemma reach_mono fr fr' root l p a :
  (forall l p a i e, reach fr root (S l) p a -> entry_at fr a i = Some e -> is_table e ->
     entry_at fr' a i = Some e) ->
  reach fr root l p a -> reach fr' root l p a.
Proof. intros Hsub. induction 1; [constructor |]. eapply reach_step; eauto. Qed.

(** A lookup passes through every table of its path. *)
Lemma look_from fr root l p a : reach fr root l p a -> forall va, p = vpath va l ->
  look fr root va 3 = look fr a va l.
Proof.
  induction 1 as [| l p a i e Hr IH He [Hp Hl]]; intros va Eq; [done |].
  pose proof (reach_le _ _ _ _ _ Hr). rewrite vpath_S in Eq by lia.
  apply app_inj_tail in Eq as [-> ->]. rewrite (IH va eq_refl). cbn [look]. by rewrite He, Hl, Hp.
Qed.

(** One table per path. *)
Lemma reach_inv fr root l p a : reach fr root l p a ->
  (p = [] /\ a = root) \/
  exists p' b i e, p = p' ++ [i] /\ reach fr root (S l) p' b /\ entry_at fr b i = Some e /\
    is_table e /\ a = addr_bits 0 e.
Proof. destruct 1; [by left | right; eauto 10]. Qed.

Lemma reach_det fr root l p a : reach fr root l p a -> forall a', reach fr root l p a' -> a = a'.
Proof.
  induction 1 as [| l p a i e Hr IH He Hta];
    intros a' [[E ->] | (p' & b & i' & e' & E & Hr2 & He2 & _ & ->)]%reach_inv; try done.
  - by destruct p'.
  - by destruct p.
  - apply app_inj_tail in E as [<- <-]. rewrite <- (IH b Hr2), He in He2. by injection He2 as ->.
Qed.

(** A page that is mapped: a present last entry of a table of level [l]. *)
Definition leaf_at (fr : frameset) (root : Z) (l : nat) (p : list nat) (i : nat) (e : Z) : Prop :=
  exists a, reach fr root l p a /\ entry_at fr a i = Some e /\ present e = true /\ last e = true.

Section leaf.
Context (hhdm : Z) (fr fr' : frameset) (root : Z) (l0 : nat) (p0 : list nat) (a0 : Z) (i0 : nat) (e1 e0 : Z).
Hypothesis Ht : tree_ok hhdm fr root.
Hypothesis H0 : reach fr root l0 p0 a0.
Hypothesis Hold : entry_at fr a0 i0 = Some e1.
Hypothesis Hset : entry_set fr fr' (fun _ => False) a0 i0 e0.
Hypothesis Hnt1 : ~ is_table e1.
Hypothesis Hnt0 : ~ is_table e0.

(** Replacing an entry that is no table by another such entry. *)
Lemma leaf_reach l p a : reach fr' root l p a <-> reach fr root l p a.
Proof.
  destruct Hset as [Hs1 Hs2]. split; apply reach_mono.
  - intros l' p' a' i e _ He Htab. destruct (decide ((a', i) = (a0, i0))) as [[= -> ->] | Hne].
    + rewrite Hs1 in He. injection He as ->. done.
    + rewrite <- Hs2; [done | tauto | done].
  - intros l' p' a' i e _ He Htab. destruct (decide ((a', i) = (a0, i0))) as [[= -> ->] | Hne].
    + rewrite Hold in He. injection He as ->. done.
    + rewrite Hs2; [done | tauto | done].
Qed.

Lemma leaf_tree_ok : entry_ok l0 e0 -> tree_ok hhdm fr' root.
Proof.
  intros Hok. destruct Hset as [Hs1 Hs2]. split.
  - intros l p a i Hr%leaf_reach Hi. destruct (decide ((a, i) = (a0, i0))) as [[= -> ->] | Hne].
    + exists e0. split; [done |]. by destruct (reach_same _ _ _ _ _ _ _ _ Ht Hr H0) as [-> _].
    + rewrite Hs2 by (done || tauto). by apply (to_entry _ _ _ Ht _ p).
  - intros l p a l' p' Hr%leaf_reach Hr'%leaf_reach. by eapply Ht.
  - intros l p a Hr%leaf_reach. by eapply Ht.
Qed.

Lemma leaf_clean : (present e0 = false -> l0 = 0%nat) -> tree_clean fr root -> tree_clean fr' root.
Proof.
  intros Hcl Hc l p a i e Hr%leaf_reach He Hp. destruct Hset as [Hs1 Hs2].
  destruct (decide ((a, i) = (a0, i0))) as [[= -> ->] | Hne].
  - rewrite Hs1 in He. injection He as ->. destruct (reach_same _ _ _ _ _ _ _ _ Ht Hr H0) as [E _].
    rewrite (Hcl Hp) in E. done.
  - rewrite Hs2 in He by (done || tauto). by eapply Hc.
Qed.

Lemma leaf_other va : ~ (vpath va l0 = p0 /\ next_level_index va l0 = i0) ->
  pt_translate fr' root va = pt_translate fr root va.
Proof.
  intros Hne. unfold pt_translate.
  by rewrite (look_agree hhdm fr fr' root (fun _ => False) l0 p0 a0 i0 e0 va Ht H0 Hset
    (fun _ _ _ _ f => f) Hne 3 root (reach_root _ _)).
Qed.

Lemma leaf_this va : vpath va l0 = p0 -> next_level_index va l0 = i0 ->
  pt_translate fr' root va = if present e0 && last e0 then Some (addr_bits l0 e0) else None.
Proof.
  intros Hp Hi. unfold pt_translate.
  rewrite (look_from fr' root l0 p0 a0 (proj2 (leaf_reach _ _ _) H0) va (eq_sym Hp)).
  destruct Hset as [Hs1 _]. unfold is_table in Hnt0.
  destruct l0; cbn [look]; rewrite Hi, Hs1; destruct (last e0), (present e0) eqn:Epr; try done; tauto.
Qed.

(** Pages other than the one at the entry stay as they were. *)
Lemma leaf_leaves m p i e : ~ (m = l0 /\ p = p0 /\ i = i0) -> leaf_at fr' root m p i e <-> leaf_at fr root m p i e.
Proof.
  intros Hne. unfold leaf_at. apply exist_proper. intros a. rewrite leaf_reach. destruct Hset as [_ Hs2].
  split; intros (Hr & He & ?); (split; [done |]).
  all: rewrite Hs2 in * by (tauto || (intros [= -> ->]; apply Hne; by destruct (reach_same _ _ _ _ _ _ _ _ Ht Hr H0))).
  all: done.
Qed.

Lemma leaf_leaf e : leaf_at fr' root l0 p0 i0 e -> e = e0 /\ present e0 = true.
Proof.
  intros (a & Hr%leaf_reach & He & Hp & _). destruct Hset as [Hs1 _].
  assert (a = a0) as -> by (by eapply reach_det). rewrite Hs1 in He. by injection He as <-.
Qed.
End leaf.

Section create.
Context (hhdm : Z) (fr fr' : frameset) (root : Z) (l : nat) (p0 : list nat) (a0 : Z) (i0 : nat) (e0 : Z).
Hypothesis Ht : tree_ok hhdm fr root.
Hypothesis H0 : reach fr root (S l) p0 a0.
Hypothesis Hold : entry_at fr a0 i0 = Some 0.
Hypothesis Hset : entry_set fr fr' (eq (addr_bits 0 e0)) a0 i0 e0.
Hypothesis Htab : is_table e0.
Hypothesis Hok : entry_ok (S l) e0.
Hypothesis Hfresh : forall k p a, reach fr root k p a -> a <> addr_bits 0 e0.
Hypothesis Hzero : forall i, (i < 512)%nat -> entry_at fr' (addr_bits 0 e0) i = Some 0.
Hypothesis Hzero' : forall i e, entry_at fr' (addr_bits 0 e0) i = Some e -> e = 0.
Hypothesis Hhhdm : 0 < addr_bits 0 e0 + hhdm <= usize_MAX.

Lemma create_other k p a i : reach fr root k p a -> (a, i) <> (a0, i0) ->
  entry_at fr' a i = entry_at fr a i.
Proof.
  intros Hr Hne. destruct Hset as [_ Hs2]. apply Hs2; [| done]. intros E. by apply (Hfresh k p a).
Qed.

Lemma create_reach_old k p a : reach fr root k p a -> reach fr' root k p a.
Proof.
  apply reach_mono. intros k' p' a' i e Hr He Hta. rewrite (create_other (S k') p'); try done.
  intros [= -> ->]. rewrite Hold in He. injection He as <-. by destruct Hta.
Qed.

Lemma create_reach_new : reach fr' root l (p0 ++ [i0]) (addr_bits 0 e0).
Proof. eapply reach_step; [apply create_reach_old, H0 | apply Hset | done]. Qed.

(** Exactly one table is new. *)
Lemma create_reach k p a : reach fr' root k p a ->
  reach fr root k p a \/ (k = l /\ p = p0 ++ [i0] /\ a = addr_bits 0 e0).
Proof.
  induction 1 as [| k p a i e Hr IH He Hta]; [left; constructor |].
  destruct IH as [IH | (_ & -> & ->)].
  - destruct (decide ((a, i) = (a0, i0))) as [[= -> ->] | Hne].
    + right. destruct (reach_same _ _ _ _ _ _ _ _ Ht IH H0) as [[= ->] ->].
      rewrite (proj1 Hset) in He. by injection He as ->.
    + left. rewrite (create_other (S k) p) in He by done. by apply (reach_step _ _ _ _ a).
  - apply Hzero' in He. subst e. by destruct Hta.
Qed.

Lemma create_tree_ok : tree_ok hhdm fr' root.
Proof.
  split.
  - intros k p a i [Hr | (-> & -> & ->)]%create_reach Hi.
    + destruct (decide ((a, i) = (a0, i0))) as [[= -> ->] | Hne].
      * exists e0. split; [apply Hset |]. by destruct (reach_same _ _ _ _ _ _ _ _ Ht Hr H0) as [-> _].
      * rewrite (create_other k p) by done. by apply (to_entry _ _ _ Ht _ p).
    + exists 0. split; [by apply Hzero |]. split; [by vm_compute | done | by intros []].
  - intros k p a k' p' [Hr | (-> & -> & ->)]%create_reach [Hr' | (-> & -> & E)]%create_reach; [| | | done].
    + by eapply Ht.
    + by apply Hfresh in Hr.
    + by apply Hfresh in Hr'.
  - intros k p a [Hr | (-> & -> & ->)]%create_reach; [by eapply Ht | done].
Qed.

Lemma create_clean : tree_clean fr root -> tree_clean fr' root.
Proof.
  intros Hc k p a i e [Hr | (_ & _ & ->)]%create_reach He Hp; [| by eapply Hzero'].
  destruct (decide ((a, i) = (a0, i0))) as [[= -> ->] | Hne].
  - rewrite (proj1 Hset) in He. injection He as <-. destruct Htab. congruence.
  - rewrite (create_other (S k) p) in He by done. by eapply Hc.
Qed.

(** An empty table maps nothing, as the absent entry did. *)
Lemma create_translate va : pt_translate fr' root va = pt_translate fr root va.
Proof.
  unfold pt_translate. pose proof (reach_le _ _ _ _ _ H0).
  destruct (decide (vpath va (S l) = p0 /\ next_level_index va (S l) = i0)) as [[Hp Hi] | Hne].
  - assert (look fr root va 3 = None) as ->.
    { rewrite (look_from fr root (S l) p0 a0 H0 va (eq_sym Hp)). cbn [look]. by rewrite Hi, Hold. }
    assert (p0 ++ [i0] = vpath va l) as Ep by (by rewrite vpath_S, Hp, Hi by lia).
    rewrite (look_from fr' root l _ _ create_reach_new va Ep).
    by destruct l; cbn [look]; rewrite Hzero by apply next_level_index_lt.
  - rewrite (look_agree hhdm fr fr' root (eq (addr_bits 0 e0)) (S l) p0 a0 i0 e0 va Ht H0 Hset); try done.
    + intros k p a Hr E. by apply (Hfresh k p a).
    + constructor.
Qed.

Lemma create_leaves m p i e : leaf_at fr' root m p i e <-> leaf_at fr root m p i e.
Proof.
  split; intros (a & Hr & He & Hp & Hl); exists a.
  - apply create_reach in Hr as [Hr | (_ & _ & ->)]; [| by apply Hzero' in He; subst e].
    destruct (decide ((a, i) = (a0, i0))) as [[= -> ->] | Hne].
    + rewrite (proj1 Hset) in He. injection He as <-. destruct Htab. congruence.
    + by rewrite (create_other m p) in He.
  - split; [by apply create_reach_old |]. rewrite (create_other m p); try done.
    intros [= -> ->]. rewrite Hold in He. injection He as <-. done.
Qed.
End create.

(** ** The operations *)
Section ops.
Context {P : Type} `{PmmLaws P} (hhdm : Z) (root : Z).
Implicit Types (s : PtState P).

(** The invariant of the paging code: a well-formed and clean tree whose
    frames the physical memory manager does not consider free, and free pages
    that the higher half maps. *)
Record pt_inv s : Prop := {
  pi_tree : tree_ok hhdm (frames s) root;
  pi_clean : tree_clean (frames s) root;
  pi_ready : pmm_ready (pmm s);
  pi_used l p a : reach (frames s) root l p a -> ~ pmm_free_page (pmm s) a;
  pi_hhdm a : pmm_free_page (pmm s) a -> 0 < a + hhdm <= usize_MAX;
}.

(** At least [n] pages are free. *)
Definition free_pages (p : P) (n : nat) : Prop :=
  exists fs, NoDup fs /\ length fs = n /\ forall a, a ∈ fs -> pmm_free_page p a.

Lemma write_entry_ok s a i e1 e : entry_at (frames s) a i = Some e1 ->
  exists fr', write_entry s a i e = Done (mkPtState fr' (pmm s)) /\
    entry_set (frames s) fr' (fun _ => False) a i e.
Proof.
  unfold entry_at, write_entry. intros E. destruct (frames s !! a) as [t |] eqn:Et; [| done]. cbn in E.
  pose proof (lookup_lt_Some _ _ _ E) as Hlt. rewrite decide_True by done. eexists. split; [done |].
  split; unfold entry_at.
  - rewrite lookup_insert_eq. cbn. by apply list_lookup_insert_eq.
  - intros a' i' _ Hne. destruct (decide (a' = a)) as [-> | Ha].
    + rewrite lookup_insert_eq, Et. cbn. apply list_lookup_insert_ne. congruence.
    + by rewrite lookup_insert_ne.
Qed.

Lemma new_entry_bits b n : (BASIC_PAGE_SIZE | b) -> is_usize b -> 0 <= n ->
  Z.testbit (Z.lor (Z.land 3 4095) (Z.land b (usize_not 4095))) n =
    (n <=? 1) || Z.testbit b n.
Proof.
  intros Hd Hb Hn. change (Z.land 3 4095) with (Z.ones 2). change 4095 with (Z.ones 12).
  rewrite Z.lor_spec, testbit_ones_le, testbit_clear_low by (done || lia).
  destruct (Z.ltb_spec n 2), (Z.leb_spec n 1); try lia; try done. cbn [orb].
  destruct (Z.leb_spec 12 n); [done |]. cbn. symmetry. apply (aligned_testbit b 12); [lia | done | lia].
Qed.

(** The body of the loop of [get_create_table_range] on an absent entry. *)
Lemma create_step s l p a i : pt_inv s -> reach (frames s) root (S l) p a ->
  entry_at (frames s) a i = Some 0 -> (exists b, pmm_free_page (pmm s) b) ->
  exists b e0 s1,
    (s ← write_entry s a i (Entry_set_flags 0 (set_read_write (set_present (Entry_get_flags 0) true) true));
     '(phys_addr, s) ← PageTable_new hhdm s;
     e ← read_entry s a i;
     e ← Entry_set_addr e phys_addr size_4kb;
     write_entry s a i e) = Done s1 /\
    b = addr_bits 0 e0 /\ is_table e0 /\ entry_ok (S l) e0 /\
    entry_set (frames s) (frames s1) (eq b) a i e0 /\
    (forall i, (i < 512)%nat -> entry_at (frames s1) b i = Some 0) /\
    (forall i e, entry_at (frames s1) b i = Some e -> e = 0) /\
    pmm_free_page (pmm s) b /\ pmm_ready (pmm s1) /\
    (forall c, pmm_free_page (pmm s1) c <-> pmm_free_page (pmm s) c /\ c <> b) /\
    (forall c, pmm_taken (pmm s) c -> pmm_taken (pmm s1) c).
Proof.
  intros [Ht Hc Hrd Hused Hh] Hr He [b0 Hb0].
  change (Entry_set_flags 0 (set_read_write (set_present (Entry_get_flags 0) true) true)) with 3.
  destruct (write_entry_ok s a i 0 3 He) as (fr1 & -> & Hs1 & Hs2). rewrite bind_Done.
  unfold PageTable_new. change (page_alignment size_4kb) with 1. cbn [pmm frames].
  destruct (pmm_allocate_page (pmm s) Hrd) as [(b & p' & -> & Hrd' & Hb & Hfree & _ & Htk) | [_ Hno]];
    [| by apply Hno in Hb0]. rewrite bind_Done. cbn [unwrap_ok]. rewrite bind_Done.
  destruct (pmm_page_bounds _ _ Hrd Hb) as [Hd Hbd]. pose proof (Hh b Hb) as Hhb.
  unfold table_of, PhysAddr_add_hhdm_offset. rewrite usize_add_ok, bind_Done by lia.
  rewrite (proj2 (Z.eqb_neq _ _)), bind_Done by lia.
  assert (a <> b) as Hab by (intros ->; by apply (Hused _ _ _ Hr)).
  assert (forall i', entry_at (<[b := replicate ENTRIES_PER_TABLE 0]> fr1) a i' = entry_at fr1 a i') as Ha.
  { intros i'. unfold entry_at. by rewrite lookup_insert_ne. }
  rewrite bind_Done. rewrite (read_entry_ok _ a i 3) by (cbn [frames]; by rewrite Ha). rewrite bind_Done.
  assert (is_usize b) as Hu.
  { change (2 ^ 63) with 9223372036854775808 in Hbd. unfold is_usize, usize_MAX. lia. }
  unfold Entry_set_addr. change (get_offset_mask size_4kb) with (Done 4095). rewrite bind_Done.
  change (Z.land b 4095) with (Z.land b (Z.ones 12)).
  rewrite (proj2 (land_ones_divide b 12 ltac:(lia)) Hd). cbn [assert_ Z.eqb]. rewrite !bind_Done.
  pose proof (fun n => new_entry_bits b n Hd Hu) as Hbits.
  set (e0 := Z.lor (Z.land 3 4095) (Z.land b (usize_not 4095))) in *.
  destruct (write_entry_ok (mkPtState (<[b := replicate ENTRIES_PER_TABLE 0]> fr1) p') a i 3 e0)
    as (fr2 & -> & Hs3 & Hs4); [cbn [frames]; by rewrite Ha |]. cbn [frames pmm] in *.
  assert (is_usize e0) as Hu0.
  { apply lor_is_usize; [by vm_compute |]. apply land_is_usize; [done | by vm_compute]. }
  assert (addr_bits 0 e0 = b) as Eb.
  { apply Z.bits_inj'. intros n Hn. rewrite addr_bits_testbit, Hbits by (done || lia).
    change (off_bits 0) with 12. destruct (Z.leb_spec 12 n), (Z.leb_spec n 1); try done; try lia; cbn.
    - symmetry. apply (aligned_testbit b 12); [lia | done | lia].
    - symmetry. apply (aligned_testbit b 12); [lia | done | lia]. }
  assert (is_table e0) as Hta.
  { split; rewrite Hbits by lia; [done |]. cbn [orb Z.leb]. apply (aligned_testbit b 12); [lia | done | lia]. }
  assert (forall i' e', entry_at fr2 b i' = Some e' <-> replicate ENTRIES_PER_TABLE 0 !! i' = Some e') as Hz.
  { intros i' e'. rewrite Hs4; [| tauto | congruence]. unfold entry_at. by rewrite lookup_insert_eq. }
  exists b, e0, (mkPtState fr2 p'). cbn [frames pmm]. split_and!; try done.
  - split; [done | intros _ E; by destruct Hta as [_ E']; rewrite E in E' | intros _; lia].
  - split; [done |]. intros a' i' Hne1 Hne2. rewrite Hs4 by (done || tauto). unfold entry_at.
    rewrite lookup_insert_ne by done. apply Hs2; [tauto | done].
  - intros i' Hi. apply Hz. apply lookup_replicate. split; [done |]. unfold ENTRIES_PER_TABLE. lia.
  - intros i' e' [-> _]%Hz%lookup_replicate. done.
Qed.

(** No large page lies on the path to the table of level [bottom]. *)
Definition path_clear (fr : frameset) (va : VirtAddr) (bottom : nat) : Prop :=
  forall l a e, (bottom < l)%nat -> reach fr root l (vpath va l) a ->
    entry_at fr a (next_level_index va l) = Some e -> present e = true -> last e = false.

(** [s'] is [s] with empty tables added above level [bottom], on the path of
    [va0], out of free pages. *)
Record grown (va0 : VirtAddr) (bottom : nat) s s' : Prop := {
  gr_inv : pt_inv s';
  gr_translate va : pt_translate (frames s') root va = pt_translate (frames s) root va;
  gr_present l p a i e : reach (frames s') root l p a -> (l <= bottom)%nat ->
    entry_at (frames s') a i = Some e -> present e = true ->
    reach (frames s) root l p a /\ entry_at (frames s) a i = Some e;
  gr_reach l p a : reach (frames s') root l p a ->
    reach (frames s) root l p a \/ (p = vpath va0 l /\ pmm_free_page (pmm s) a);
  gr_old l p a : reach (frames s) root l p a -> reach (frames s') root l p a;
  gr_free a : pmm_free_page (pmm s') a -> pmm_free_page (pmm s) a;
  gr_taken a : pmm_taken (pmm s) a -> pmm_taken (pmm s') a;
  gr_leaf m p i e : leaf_at (frames s') root m p i e <-> leaf_at (frames s) root m p i e;
}.

Lemma grown_refl va0 bottom s : pt_inv s -> grown va0 bottom s s.
Proof. intros. split; auto. Qed.

Lemma grown_trans va0 bottom s1 s2 s3 : grown va0 bottom s1 s2 -> grown va0 bottom s2 s3 -> grown va0 bottom s1 s3.
Proof.
  intros [_ Ht1 Hp1 Hr1 Ho1 Hf1 Hk1 Hl1] [Hi2 Ht2 Hp2 Hr2 Ho2 Hf2 Hk2 Hl2].
  split; [done | intros va; by rewrite Ht2 | | | auto | auto | auto | intros; by rewrite Hl2].
  - intros l p a i e Hr Hl He Hpr. destruct (Hp2 l p a i e Hr Hl He Hpr). by apply (Hp1 l p a i e).
  - intros l p a [Hr | [-> Hf]]%Hr2; [by apply Hr1 | right; auto].
Qed.

Lemma free_pages_take p p' n b : free_pages p (S n) ->
  (forall c, pmm_free_page p' c <-> pmm_free_page p c /\ c <> b) -> free_pages p' n.
Proof.
  intros (fs & Hnd & Hlen & Hfs) Hfree. destruct (decide (b ∈ fs)) as [Hin | Hni].
  - apply elem_of_Permutation in Hin as [fs' Hp]. rewrite Hp in Hnd.
    apply NoDup_cons in Hnd as [Hb Hnd]. exists fs'. split_and!; [done | rewrite Hp in Hlen; by injection Hlen |].
    intros c Hc. apply Hfree. split; [apply Hfs; rewrite Hp; by right | by intros ->].
  - destruct fs as [| f fs]; [done |]. apply NoDup_cons in Hnd as [Hf Hnd]. exists fs.
    split_and!; [done | by injection Hlen |]. intros c Hc. apply Hfree.
    split; [apply Hfs; by right |]. intros ->. apply Hni. by right.
Qed.

Lemma free_pages_le p n n' : (n' <= n)%nat -> free_pages p n -> free_pages p n'.
Proof.
  intros Hle (fs & Hnd & Hlen & Hfs). exists (take n' fs). split_and!.
  - rewrite <- (take_drop n' fs) in Hnd. by apply NoDup_app in Hnd as [? _].
  - rewrite length_take. lia.
  - intros a Ha. apply Hfs. rewrite <- (take_drop n' fs), elem_of_app. by left.
Qed.

(** One created table, with everything the loop and its callers need. *)
Lemma create_grown s va bottom n a : pt_inv s ->
  reach (frames s) root (S (bottom + n)) (vpath va (S (bottom + n))) a ->
  entry_at (frames s) a (next_level_index va (S (bottom + n))) = Some 0 ->
  path_clear (frames s) va bottom -> free_pages (pmm s) (S n) ->
  exists e0 s1,
    (s ← write_entry s a (next_level_index va (S (bottom + n)))
           (Entry_set_flags 0 (set_read_write (set_present (Entry_get_flags 0) true) true));
     '(phys_addr, s) ← PageTable_new hhdm s;
     e ← read_entry s a (next_level_index va (S (bottom + n)));
     e ← Entry_set_addr e phys_addr size_4kb;
     write_entry s a (next_level_index va (S (bottom + n))) e) = Done s1 /\
    entry_at (frames s1) a (next_level_index va (S (bottom + n))) = Some e0 /\ is_table e0 /\
    reach (frames s1) root (S (bottom + n)) (vpath va (S (bottom + n))) a /\
    grown va bottom s s1 /\ path_clear (frames s1) va bottom /\
    (forall k, free_pages (pmm s) (S k) -> free_pages (pmm s1) k).
Proof.
  intros Hi Hr He Hpc Hfp. pose proof Hi as [Ht Hcl Hrd Hused Hh].
  assert (exists b, pmm_free_page (pmm s) b) as Hex.
  { destruct Hfp as ([| f fs] & _ & Hlen & Hfs); [done |]. exists f. apply Hfs. by left. }
  destruct (create_step s _ _ a _ Hi Hr He Hex)
    as (b & e0 & s1 & Hrun & Eb & Hta & Hok & Hset & Hz & Hz' & Hb & Hrd1 & Hf1 & Htk1). subst b.
  assert (forall k p a, reach (frames s) root k p a -> a <> addr_bits 0 e0) as Hfresh.
  { intros k p c Hrc ->. by apply (Hused _ _ _ Hrc). }
  pose proof (Hh _ Hb) as Hhb.
  pose proof (create_reach hhdm _ _ root _ _ a _ e0 Ht Hr Hset Hta Hok Hfresh Hz Hz' Hhb) as Hreach.
  pose proof (create_other _ _ root a _ e0 Hset Hfresh) as Hother.
  exists e0, s1. split_and!; try done.
  - apply Hset.
  - by apply (create_reach_old _ _ root a _ e0 He Hset Hfresh).
  - split.
    + split.
      * by apply (create_tree_ok hhdm _ _ root _ _ a _ e0 Ht Hr Hset Hta Hok Hfresh Hz Hz' Hhb).
      * by apply (create_clean hhdm _ _ root _ _ a _ e0 Ht Hr Hset Hta Hok Hfresh Hz Hz' Hhb).
      * done.
      * intros k p c [Hrc | (_ & _ & ->)]%Hreach; rewrite Hf1; [| tauto].
        intros [? _]. by apply (Hused _ _ _ Hrc).
      * intros c [Hc _]%Hf1. by apply Hh.
    + intros va'. by apply (create_translate hhdm _ _ root _ _ a _ e0 Ht Hr He Hset Hta Hok Hfresh Hz).
    + intros k p c i e [Hrc | (_ & _ & ->)]%Hreach Hk Hec Hp.
      * split; [done |]. rewrite <- (Hother k p c i Hrc); [done |]. intros [= -> _].
        destruct (reach_same _ _ _ _ _ _ _ _ Ht Hrc Hr) as [-> _]. lia.
      * apply Hz' in Hec. by subst e.
    + intros k p c [Hrc | (-> & -> & ->)]%Hreach; [by left | right]. split; [| done].
      pose proof (reach_le _ _ _ _ _ Hr). by rewrite (vpath_S va (bottom + n)) by lia.
    + intros k p c. by apply (create_reach_old _ _ root a _ e0 He Hset Hfresh).
    + by intros c [Hc _]%Hf1.
    + done.
    + by apply (create_leaves hhdm _ _ root _ _ a _ e0 Ht Hr He Hset Hta Hok Hfresh Hz Hz' Hhb).
  - intros k c e Hk [Hrc | (_ & _ & ->)]%Hreach Hec Hp; [| apply Hz' in Hec; by subst e].
    destruct (decide ((c, next_level_index va k) = (a, next_level_index va (S (bottom + n))))) as [[= -> E] | Hne].
    + rewrite E, (proj1 Hset) in Hec. injection Hec as <-. apply Hta.
    + rewrite (Hother _ _ _ _ Hrc Hne) in Hec. by apply (Hpc k c e).
  - intros k Hk. by eapply free_pages_take.
Qed.

Lemma get_create_from_ok va bottom n : forall s a, pt_inv s ->
  reach (frames s) root (bottom + n) (vpath va (bottom + n)) a ->
  path_clear (frames s) va bottom -> free_pages (pmm s) n ->
  exists a' s', get_create_from hhdm s a va bottom n = Done (a', s') /\ grown va bottom s s' /\
    reach (frames s') root bottom (vpath va bottom) a' /\
    (forall k, free_pages (pmm s) (n + k) -> free_pages (pmm s') k).
Proof.
  induction n as [| n IH]; intros s a Hi Hr Hpc Hfp; cbn [get_create_from].
  { exists a, s. rewrite Nat.add_0_r in Hr. split_and!; [done | by apply grown_refl | done | done]. }
  rewrite Nat.add_succ_r in *. set (i := next_level_index va (S (bottom + n))).
  pose proof (pi_tree _ Hi) as Ht. pose proof (reach_le _ _ _ _ _ Hr) as Hle.
  destruct (entry_on_path _ _ _ _ _ _ va Ht Hr) as (e & He & Hok). fold i in He.
  rewrite (read_entry_ok _ _ _ _ He), bind_Done, flags_present.
  assert (forall s1 e0, grown va bottom s s1 -> entry_at (frames s1) a i = Some e0 -> is_table e0 ->
    reach (frames s1) root (S (bottom + n)) (vpath va (S (bottom + n))) a ->
    path_clear (frames s1) va bottom -> (forall k, free_pages (pmm s) (S k) -> free_pages (pmm s1) k) ->
    exists a' s', (e ← read_entry s1 a i; table ← Entry_next_level_table hhdm e;
        get_create_from hhdm s1 table va bottom n) = Done (a', s') /\ grown va bottom s s' /\
      reach (frames s') root bottom (vpath va bottom) a' /\
      (forall k, free_pages (pmm s) (S n + k) -> free_pages (pmm s') k)) as Hgo.
  { intros s1 e0 Hg He0 Hta Hr1 Hpc1 Hfp1. pose proof (pi_tree _ (gr_inv _ _ _ _ Hg)) as Ht1.
    destruct (entry_on_path _ _ _ _ _ _ va Ht1 Hr1) as (e0' & He0' & [Hu _ _]).
    fold i in He0'. rewrite He0 in He0'. injection He0' as <-.
    rewrite (read_entry_ok _ _ _ _ He0), bind_Done.
    rewrite (next_table_ok hhdm s1 root _ _ a i e0 Ht1 Hr1 He0 Hu Hta), bind_Done.
    destruct (IH s1 (addr_bits 0 e0)) as (a' & s' & -> & Hg' & Hr' & Hk'); [apply Hg | | done | by apply Hfp1 |].
    - rewrite vpath_S by lia. by apply (reach_step _ _ _ _ a).
    - exists a', s'. split_and!; [done | by eapply grown_trans | done |]. intros k Hk. by apply Hk', Hfp1. }
  destruct (present e) eqn:Ep; cbn [negb].
  - rewrite bind_Done. apply (Hgo s e); try done.
    + by apply grown_refl.
    + split; [done |]. by apply (Hpc (S (bottom + n)) a e); [lia | | |].
    + intros k. apply free_pages_le. lia.
  - pose proof (pi_clean _ Hi _ _ _ _ _ Hr He Ep) as E0. rewrite E0 in *.
    destruct (create_grown s va bottom n a Hi Hr He Hpc Hfp)
      as (e0 & s1 & Hrun & He0 & Hta & Hr1 & Hg & Hpc1 & Hfp1).
    unfold i in Hgo |- *. rewrite Hrun, bind_Done. by apply (Hgo s1 e0).
Qed.

(** ** Leaf entries *)
Lemma small_testbit f n : 0 <= f < 4096 -> 12 <= n -> Z.testbit f n = false.
Proof.
  intros Hf Hn. rewrite <- (Z.mod_small f (2 ^ 12)) by lia. apply Z.mod_pow2_bits_high. lia.
Qed.

Definition leaf_flags (l : nat) (f : Flags) : Flags :=
  Flags_set (set_last_entry (set_present f true) true) (Flags_from (level_size l)) true.

Lemma leaf_flags_testbit l f n : (l <= 2)%nat -> 0 <= n ->
  Z.testbit (leaf_flags l f) n =
    Z.testbit f n || (n =? 0) || (n =? 10) || ((n =? 7) && negb (Nat.eqb l 0)).
Proof.
  intros Hl Hn. unfold leaf_flags, set_last_entry, set_present, Flags_set, FLAG_LAST_ENTRY, FLAG_P.
  rewrite !Z.lor_spec, !testbit_flag by lia. do 2 f_equal.
  destruct l as [| [| [| l]]]; [| | | lia].
  - change (Flags_from (level_size 0)) with 0. rewrite Z.bits_0. by rewrite andb_false_r.
  - change (Flags_from (level_size 1)) with (Z.shiftl 1 7). rewrite testbit_flag by lia. by rewrite andb_true_r.
  - change (Flags_from (level_size 2)) with (Z.shiftl 1 7). rewrite testbit_flag by lia. by rewrite andb_true_r.
Qed.

Lemma leaf_join l f : (l <= 2)%nat -> Z.testbit f 7 = false ->
  Flags_join (set_last_entry (set_present f true) true) (Flags_from (level_size l)) = Some (leaf_flags l f).
Proof.
  intros Hl H7. unfold Flags_join.
  assert (Z.land (set_last_entry (set_present f true) true) (Flags_from (level_size l)) = 0) as ->; [| done].
  apply Z.bits_inj'. intros n Hn. rewrite Z.land_spec, Z.bits_0.
  unfold set_last_entry, set_present, Flags_set, FLAG_LAST_ENTRY, FLAG_P.
  rewrite !Z.lor_spec, !testbit_flag by lia.
  assert (Z.testbit (Flags_from (level_size l)) n = (n =? 7) && negb (Nat.eqb l 0)) as ->.
  { destruct l as [| [| [| l]]]; [| | | lia].
    - change (Flags_from (level_size 0)) with 0. by rewrite Z.bits_0, andb_false_r.
    - change (Flags_from (level_size 1)) with (Z.shiftl 1 7). by rewrite testbit_flag, andb_true_r.
    - change (Flags_from (level_size 2)) with (Z.shiftl 1 7). by rewrite testbit_flag, andb_true_r. }
  destruct (Z.eqb_spec n 7) as [-> |]; [by rewrite H7 | by rewrite !andb_false_r].
Qed.

(** A fresh entry mapped to an aligned address. *)
Lemma Entry_map_ok e l phys f : is_usize e -> present e = false -> l = 0%nat \/ e = 0 -> (l <= 2)%nat ->
  (level_size l | phys) -> is_usize phys -> 0 <= f < 4096 -> Z.testbit f 7 = false ->
  exists e', Entry_map e phys f (level_size l) = Done (Ok (), e') /\
    present e' = true /\ last e' = true /\ entry_ok l e' /\ addr_bits l e' = phys /\
    Z.testbit e' 9 = Z.testbit f 9.
Proof.
  intros He Hp Hcl Hl Hd Hu Hf H7. unfold Entry_map. rewrite flags_present, Hp.
  unfold Entry_set_addr. pose proof (off_bits_bound l Hl) as Hob. rewrite offset_mask, bind_Done by done.
  rewrite (proj2 (land_ones_divide phys (off_bits l) ltac:(lia)) Hd). cbn [assert_ Z.eqb].
  rewrite !bind_Done, leaf_join by done. eexists. split; [done |].
  set (e' := Entry_set_flags _ _).
  assert (forall n, 0 <= n -> Z.testbit e' n = if n <? 12 then Z.testbit (leaf_flags l f) n
    else (off_bits l <=? n) && Z.testbit phys n) as Hbits.
  { intros n Hn. unfold e', Entry_set_flags. change 0xFFF with (Z.ones 12).
    assert (is_usize (Z.lor (Z.land e (Z.ones (off_bits l))) (Z.land phys (usize_not (Z.ones (off_bits l))))))
      as Hux by (apply lor_is_usize; apply land_is_usize; try done; [apply ones_is_usize |
        apply usize_not_is_usize, ones_is_usize]; lia).
    rewrite Z.lor_spec, testbit_clear_low, Z.lor_spec, Z.land_spec, testbit_clear_low, testbit_ones_le
      by (done || lia).
    destruct (Z.ltb_spec n 12); [by rewrite (proj2 (Z.leb_gt 12 n)) by lia |].
    rewrite (proj2 (Z.leb_le 12 n)) by lia. rewrite leaf_flags_testbit, (small_testbit f n) by (done || lia).
    destruct (Z.eqb_spec n 0), (Z.eqb_spec n 10), (Z.eqb_spec n 7); try lia. cbn. rewrite orb_false_r.
    destruct Hcl as [-> | ->]; [| by rewrite Z.bits_0].
    change (off_bits 0) with 12. by rewrite (proj2 (Z.ltb_ge n 12)), andb_false_r by lia. }
  assert (is_usize e') as Hue.
  { apply bits_above_is_usize.
    - unfold e', Entry_set_flags. apply Z.lor_nonneg. split.
      + apply Z.land_nonneg. right. by vm_compute.
      + unfold leaf_flags, set_last_entry, set_present, Flags_set. rewrite !Z.lor_nonneg.
        destruct l as [| [| [| l]]]; [| | | lia]; split_and!; lia || by vm_compute.
    - intros n Hn. rewrite Hbits by lia. rewrite (proj2 (Z.ltb_ge n 12)), (usize_bits_above phys) by (done || lia).
      apply andb_false_r. }
  assert (present e' = true) as Epr.
  { rewrite Hbits, leaf_flags_testbit by lia. cbn. by rewrite !orb_true_r. }
  assert (last e' = true) as Ela.
  { rewrite Hbits, leaf_flags_testbit by lia. cbn. by rewrite !orb_true_r. }
  split_and!; try done.
  - split; [done | | intros [_ E]; congruence]. intros _ _. split; [done |]. intros n Hn.
    rewrite Hbits by lia. rewrite (proj2 (Z.ltb_ge n 12)), (proj2 (Z.leb_gt _ n)) by lia. done.
  - apply Z.bits_inj'. intros n Hn. rewrite addr_bits_testbit, Hbits by (done || lia).
    destruct (Z.leb_spec (off_bits l) n).
    + by rewrite (proj2 (Z.ltb_ge n 12)) by lia.
    + cbn. symmetry. apply (aligned_testbit phys (off_bits l)); [lia | done | lia].
  - rewrite Hbits, leaf_flags_testbit by lia. cbn. by rewrite !orb_false_r.
Qed.

(** Writing a leaf entry keeps the invariant. *)
Lemma leaf_inv s fr' l p a i e1 e0 : pt_inv s -> reach (frames s) root l p a ->
  entry_at (frames s) a i = Some e1 -> entry_set (frames s) fr' (fun _ => False) a i e0 ->
  ~ is_table e1 -> ~ is_table e0 -> entry_ok l e0 -> (present e0 = false -> l = 0%nat) ->
  pt_inv (mkPtState fr' (pmm s)).
Proof.
  intros [Ht Hc Hrd Hus Hh] Hr He Hs Hn1 Hn0 Hok Hcl. split; cbn [frames pmm]; try done.
  - by apply (leaf_tree_ok hhdm (frames s) fr' root l p a i e1 e0).
  - by apply (leaf_clean hhdm (frames s) fr' root l p a i e1 e0).
  - intros l' p' a' Hr'. apply (Hus l' p'). by apply (leaf_reach (frames s) fr' root a i e1 e0).
Qed.

Lemma map_entries_ok l p table to_skip phys f n : (l <= 2)%nat -> (level_size l | phys) -> 0 <= phys ->
  0 <= f < 4096 -> Z.testbit f 7 = false ->
  forall i s, pt_inv s -> reach (frames s) root l p table -> (to_skip + i + n <= 512)%nat ->
  phys + Z.of_nat (i + n) * level_size l <= usize_MAX ->
  (forall k e, (i <= k < i + n)%nat -> entry_at (frames s) table (to_skip + k) = Some e -> present e = false) ->
  exists s', map_entries s table to_skip i n phys f (level_size l) = Done (Ok (), s') /\ pt_inv s' /\
    (forall va k, vpath va l = p -> (i <= k < i + n)%nat -> next_level_index va l = (to_skip + k)%nat ->
       pt_translate (frames s') root va = Some (phys + Z.of_nat k * level_size l)) /\
    (forall va, ~ (vpath va l = p /\ (to_skip + i <= next_level_index va l < to_skip + i + n)%nat) ->
       pt_translate (frames s') root va = pt_translate (frames s) root va) /\
    reach (frames s') root l p table /\
    (forall j, ~ (to_skip + i <= j < to_skip + i + n)%nat ->
       entry_at (frames s') table j = entry_at (frames s) table j) /\
    (forall k e, (i <= k < i + n)%nat -> entry_at (frames s') table (to_skip + k) = Some e ->
       present e = true /\ last e = true /\ Z.testbit e 9 = Z.testbit f 9) /\
    (forall l p a, reach (frames s') root l p a <-> reach (frames s) root l p a) /\ pmm s' = pmm s /\
    (forall m q j e, ~ (m = l /\ q = p /\ (to_skip + i <= j < to_skip + i + n)%nat) ->
       leaf_at (frames s') root m q j e <-> leaf_at (frames s) root m q j e).
Proof.
  intros Hl Hd Hph Hf H7. assert (0 < level_size l) as Hsz by (apply Z.pow_pos_nonneg; pose proof (off_bits_bound l Hl); lia).
  induction n as [| n IH]; intros i s Hi Hr Hlen Hmax Habs; cbn [map_entries].
  { exists s. split_and!; try done; intros; lia. }
  destruct (to_entry _ _ _ (pi_tree _ Hi) _ _ _ (to_skip + i) Hr ltac:(lia)) as (e & He & Hok).
  pose proof (Habs i e ltac:(lia) He) as Hp.
  assert (l = 0%nat \/ e = 0) as Hcl.
  { destruct l as [| l]; [by left | right]. by apply (pi_clean _ Hi _ _ _ _ _ Hr He). }
  rewrite (read_entry_ok _ _ _ _ He), bind_Done.
  assert (phys + Z.of_nat i * level_size l <= usize_MAX) as Hb by nia.
  rewrite usize_mul_ok, bind_Done, usize_add_ok, bind_Done by nia.
  destruct (Entry_map_ok e l (phys + Z.of_nat i * level_size l) f) as (e' & -> & Hp' & Hl' & Hok' & Ha' & H9');
    [apply Hok | done | done | done | by apply Z.divide_add_r; [| apply Z.divide_factor_r]
    | unfold is_usize; nia | done | done |].
  rewrite bind_Done. destruct (write_entry_ok s table _ e e' He) as (fr' & -> & Hs). rewrite bind_Done.
  assert (~ is_table e) as Hn1 by (intros [E _]; congruence).
  assert (~ is_table e') as Hn0 by (intros [_ E]; congruence).
  assert (pt_inv (mkPtState fr' (pmm s))) as Hi'.
  { apply (leaf_inv s fr' l p table _ e e' Hi Hr He Hs Hn1 Hn0 Hok'). congruence. }
  destruct (IH (S i) (mkPtState fr' (pmm s)) Hi') as (s' & -> & Hi2 & Hin & Hout & Hr2 & Hsame & Hleaf & Hre & Hpm & Hlv).
  - cbn [frames]. by apply (leaf_reach (frames s) fr' root table _ e e' He Hs Hn1 Hn0).
  - lia.
  - by replace (S i + n)%nat with (i + S n)%nat by lia.
  - intros k ek Hk. cbn [frames]. rewrite (proj2 Hs); [| tauto | intros [= E]; lia]. apply Habs. lia.
  - cbn [frames] in *. exists s'. split_and!; try done.
    + intros va k Hv Hk Hx. destruct (decide (k = i)) as [-> | Hne]; [| by apply Hin; [| lia |]].
      rewrite Hout by (rewrite Hx; lia).
      rewrite (leaf_this (frames s) fr' root l p table _ e e' Hr He Hs Hn1 Hn0 va Hv Hx).
      by rewrite Hp', Hl', Ha'.
    + intros va Hv. rewrite Hout by (intros [? ?]; apply Hv; split; [done | lia]).
      apply (leaf_other hhdm (frames s) fr' root l p table _ e' (pi_tree _ Hi) Hr Hs).
      intros [? ?]. apply Hv. split; [done | lia].
    + intros j Hj. rewrite Hsame by lia. apply (proj2 Hs); [tauto | intros [= E]; lia].
    + intros k ek Hk. destruct (decide (k = i)) as [-> | Hne]; [| apply Hleaf; lia].
      rewrite Hsame, (proj1 Hs) by lia. by intros [= <-].
    + intros l' p' a'. rewrite Hre. by apply (leaf_reach (frames s) fr' root table _ e e' He Hs Hn1 Hn0).
    + intros m q j ek Hne. rewrite Hlv by (intros (? & ? & ?); apply Hne; split_and!; done || lia).
      apply (leaf_leaves hhdm (frames s) fr' root l p table _ e e' (pi_tree _ Hi) Hr He Hs Hn1 Hn0).
      intros (? & ? & ->). apply Hne. split_and!; done || lia.
Qed.

Lemma release_bits e : is_usize e -> let e' := Entry_set_flags e (set_present (Entry_get_flags e) false) in
  is_usize e' /\ present e' = false /\ (forall n, 0 < n -> Z.testbit e' n = Z.testbit e n).
Proof.
  intros He e'.
  assert (is_usize (Entry_get_flags e)) as Hf by (apply land_is_usize; [done | lia]).
  assert (is_usize (set_present (Entry_get_flags e) false)) as Hs
    by (apply Flags_set_is_usize; [done | by apply flag_is_usize; lia]).
  assert (is_usize e') as Hu.
  { apply lor_is_usize; [| done]. apply land_is_usize; [done | by vm_compute]. }
  assert (forall n, 0 <= n -> Z.testbit e' n = if n =? 0 then false else Z.testbit e n) as Hb.
  { intros n Hn. unfold e', Entry_set_flags, set_present. change 0xFFF with (Z.ones 12).
    change FLAG_P with (Z.shiftl 1 0).
    rewrite Z.lor_spec, testbit_clear_low, Flags_set_testbit, flags_testbit by (done || lia).
    destruct (Z.eqb_spec n 0) as [-> |]; [done |].
    destruct (Z.leb_spec 12 n), (Z.ltb_spec n 12); try lia; cbn; [apply orb_false_r | done]. }
  split_and!; [done | by rewrite Hb | ]. intros n Hn. rewrite Hb by lia. by destruct (Z.eqb_spec n 0); [lia |].
Qed.

Lemma release_entries_ok l p table n : (l <= 2)%nat ->
  forall i s, tree_ok hhdm (frames s) root -> reach (frames s) root l p table -> (i + n <= 512)%nat ->
  (forall k e, (i <= k < i + n)%nat -> entry_at (frames s) table k = Some e ->
     present e = true /\ last e = true /\ Z.testbit e 9 = false) ->
  exists s', release_entries s table i n (level_size l) = Done (Ok (), s') /\ pmm s' = pmm s /\
    tree_ok hhdm (frames s') root /\ (l = 0%nat -> pt_inv s -> pt_inv s') /\
    (forall va, vpath va l = p -> (i <= next_level_index va l < i + n)%nat ->
       pt_translate (frames s') root va = None) /\
    (forall va, ~ (vpath va l = p /\ (i <= next_level_index va l < i + n)%nat) ->
       pt_translate (frames s') root va = pt_translate (frames s) root va) /\
    (forall l p a, reach (frames s') root l p a <-> reach (frames s) root l p a) /\
    (forall m q j e, leaf_at (frames s') root m q j e <->
       leaf_at (frames s) root m q j e /\ ~ (m = l /\ q = p /\ (i <= j < i + n)%nat)).
Proof.
  intros Hl. induction n as [| n IH]; intros i s Ht Hr Hlen Hpr; cbn [release_entries].
  { exists s. split_and!; try done; intros; [lia |]. split; [| tauto]. intros Hlf. split; [done | lia]. }
  destruct (to_entry _ _ _ Ht _ _ _ i Hr ltac:(lia)) as (e & He & Hok).
  destruct (Hpr i e ltac:(lia) He) as (Hp & Hla & H9).
  rewrite (read_entry_ok _ _ _ _ He), bind_Done. unfold Entry_release.
  rewrite flags_present, flags_allocated, Hp, H9. cbn [negb]. rewrite !bind_Done.
  destruct (release_bits e (eok_usize _ _ Hok)) as (Hu' & Hp' & Hb').
  set (e' := Entry_set_flags e _) in *.
  destruct (write_entry_ok (mkPtState (frames s) (pmm s)) table i e e' He) as (fr' & -> & Hs).
  cbn [frames pmm] in *. rewrite bind_Done.
  assert (~ is_table e) as Hn1 by (intros [_ E]; congruence).
  assert (~ is_table e') as Hn0 by (intros [E _]; congruence).
  assert (entry_ok l e') as Hok' by (split; [done | congruence | done]).
  destruct (IH (S i) (mkPtState fr' (pmm s))) as (s' & -> & Epm & Ht2 & Hiv & Hin & Hout & Hre & Hlv); cbn [frames pmm] in *.
  - by apply (leaf_tree_ok hhdm (frames s) fr' root l p table i e e').
  - by apply (leaf_reach (frames s) fr' root table i e e' He Hs Hn1 Hn0).
  - lia.
  - intros k ek Hk. rewrite (proj2 Hs); [| tauto | intros [= E]; lia]. apply Hpr. lia.
  - exists s'. split_and!; try done.
    + intros -> Hinv. apply Hiv; [done |]. by apply (leaf_inv s fr' 0 p table i e e').
    + intros va Hv Hx. destruct (decide (next_level_index va l = i)) as [E | Hne]; [| apply Hin; [done | lia]].
      rewrite Hout by lia. rewrite (leaf_this (frames s) fr' root l p table i e e' Hr He Hs Hn1 Hn0 va Hv E).
      by rewrite Hp'.
    + intros va Hv. rewrite Hout by (intros [? ?]; apply Hv; split; [done | lia]).
      apply (leaf_other hhdm (frames s) fr' root l p table i e' Ht Hr Hs).
      intros [? ?]. apply Hv. split; [done | lia].
    + intros l' p' a'. rewrite Hre. by apply (leaf_reach (frames s) fr' root table i e e' He Hs Hn1 Hn0).
    + intros m q j ek. rewrite Hlv. destruct (decide (m = l /\ q = p /\ j = i)) as [(-> & -> & ->) | Hne].
      * split; [| intros [_ []]; split_and!; done || lia].
        intros [Hlf _]. apply (leaf_leaf (frames s) fr' root l p table i e e' Hr He Hs Hn1 Hn0) in Hlf as [_ E]. congruence.
      * rewrite (leaf_leaves hhdm (frames s) fr' root l p table i e e' Ht Hr He Hs Hn1 Hn0) by done.
        split; intros [Hlf Hx]; (split; [done |]); intros (E1 & E2 & E3); apply Hx; (split; [done |]); (split; [done |]).
        -- destruct (decide (j = i)); [by destruct Hne | lia].
        -- lia.
Qed.

(** ** Walking down an existing path *)
Lemma reach_prev fr va l t : reach fr root l (vpath va l) t -> (l < 3)%nat ->
  exists a e, reach fr root (S l) (vpath va (S l)) a /\
    entry_at fr a (next_level_index va (S l)) = Some e /\ is_table e /\ t = addr_bits 0 e.
Proof.
  intros Hr Hl. rewrite vpath_S in Hr by done.
  apply reach_inv in Hr as [[E _] | (p & b & i & e & E & Hr2 & He2 & Hta & ->)].
  - by destruct (vpath va (S l)).
  - apply app_inj_tail in E as [<- <-]. eauto 6.
Qed.

Lemma reach_up fr va l t m : reach fr root l (vpath va l) t -> (l < m <= 3)%nat ->
  exists a e, reach fr root m (vpath va m) a /\
    entry_at fr a (next_level_index va m) = Some e /\ is_table e.
Proof.
  intros Hr Hm. remember (m - S l)%nat as d eqn:Ed. revert l t Hr Hm Ed.
  induction d as [| d IH]; intros l t Hr Hm Ed; destruct (reach_prev fr va l t Hr ltac:(lia)) as (a & e & Hr' & He & Hta & _).
  - assert (m = S l) as -> by lia. eauto.
  - apply (IH (S l) a Hr'); lia.
Qed.

Lemma get_table_from_ok s va bottom n table : forall a, tree_ok hhdm (frames s) root ->
  reach (frames s) root bottom (vpath va bottom) table ->
  reach (frames s) root (bottom + n) (vpath va (bottom + n)) a ->
  get_table_from hhdm s a va bottom n = Done (Some table).
Proof.
  induction n as [| n IH]; intros a Ht Hb Hr; cbn [get_table_from].
  { rewrite Nat.add_0_r in Hr. by rewrite (reach_det _ _ _ _ _ Hb a Hr). }
  rewrite Nat.add_succ_r in *. pose proof (reach_le _ _ _ _ _ Hr).
  destruct (reach_up _ va _ _ (S (bottom + n)) Hb ltac:(lia)) as (a' & e & Hr' & He & Hta).
  pose proof (reach_det _ _ _ _ _ Hr a' Hr') as <-.
  rewrite (read_entry_ok _ _ _ _ He), bind_Done, flags_present. pose proof Hta as [-> _]. cbn [negb].
  destruct (entry_on_path _ _ _ _ _ _ va Ht Hr) as (e2 & He2 & [Hu _ _]).
  rewrite He in He2. injection He2 as <-.
  rewrite (next_table_ok hhdm s root _ _ a _ e Ht Hr He Hu Hta), bind_Done.
  apply IH; [done | done |]. rewrite vpath_S by lia. by apply (reach_step _ _ _ _ a).
Qed.
End ops.

(** ** Consecutive pages of one table *)
Lemma level_size_pos l : 0 < level_size l.
Proof. unfold level_size, off_bits. apply Z.pow_pos_nonneg; lia. Qed.

Lemma level_size_add l k : level_size (l + k) = level_size l * 512 ^ Z.of_nat k.
Proof.
  unfold level_size, off_bits. change 512 with (2 ^ 9).
  rewrite <- Z.pow_mul_r, <- Z.pow_add_r by lia. f_equal. lia.
Qed.

Lemma page_add l va k : 0 <= va -> (level_size l | va) -> (l <= 3)%nat ->
  (next_level_index va l + k < 512)%nat ->
  next_level_index (va + Z.of_nat k * level_size l) l = (next_level_index va l + k)%nat /\
  vpath (va + Z.of_nat k * level_size l) l = vpath va l.
Proof.
  intros Hva [m ->] Hl Hk. pose proof (level_size_pos l) as Hp.
  assert (0 <= m) as Hm by nia. assert (forall q, q * level_size l / level_size l = q) as Hq
    by (intros; by rewrite Z.div_mul by lia).
  rewrite (next_level_index_spec (m * level_size l)), Hq in Hk by done.
  pose proof (Z.mod_pos_bound m 512 eq_refl) as Hmb.
  assert ((m + Z.of_nat k) mod 512 = m mod 512 + Z.of_nat k) as Emod.
  { rewrite <- (Z.mod_small (m mod 512 + Z.of_nat k) 512) by lia. rewrite <- Zplus_mod_idemp_l. done. }
  assert ((m + Z.of_nat k) / 512 = m / 512) as Ediv.
  { pose proof (Z.div_mod (m + Z.of_nat k) 512 ltac:(lia)). pose proof (Z.div_mod m 512 ltac:(lia)). lia. }
  replace (m * level_size l + Z.of_nat k * level_size l) with ((m + Z.of_nat k) * level_size l) by lia.
  split.
  - rewrite !next_level_index_spec, !Hq, Emod by nia. lia.
  - unfold vpath. apply list_fmap_ext. intros j x Hx. apply list_elem_of_lookup_2, elem_of_seq in Hx.
    rewrite !next_level_index_spec by nia. do 2 f_equal.
    replace (3 - x)%nat with (l + S (2 - x - l))%nat by lia. rewrite level_size_add.
    rewrite <- !Z.div_div by (pose proof (Z.pow_pos_nonneg 512 (Z.of_nat (S (2 - x - l)))); lia).
    rewrite !Hq, Nat2Z.inj_succ, Z.pow_succ_r by lia.
    rewrite <- !Z.div_div by (pose proof (Z.pow_pos_nonneg 512 (Z.of_nat (2 - x - l))); lia).
    by rewrite Ediv.
Qed.
