(* ===== verification/PageTableTheorems.v ===== *)
(** * The guarantees of the page tables

    [map_pages], [unmap_pages] and [translate] of
    [kernel/src/arch/x86_64/paging/mod.rs], for any physical memory manager
    that satisfies [PmmLaws], with the buddy allocator as the witness. *)

From S2P Require Import Prelude Pmm Buddy BuddyBlocks BuddyCorrect BuddyTheorems BuddyLaws PageFlags PageTable PageTableCorrect.

Section claims.
Context {P : Type} `{PmmLaws P} (hhdm root : Z).
Implicit Types (s : PtState P).

(** The pages asked for: [count] pages of level [l] (4KB, 2MB or 1GB) from
    [va] to [phys], aligned, inside one table, without the page-size bit. *)
Record request_ok (l : nat) (va phys : Z) (count : nat) (flags : Flags) : Prop := {
  rq_level : (l <= 2)%nat;
  rq_va : (level_size l | va) /\ 0 <= va;
  rq_phys : (level_size l | phys) /\ 0 <= phys;
  rq_max : phys + Z.of_nat count * level_size l <= usize_MAX;
  rq_table : (next_level_index va l + count <= 512)%nat;
  rq_flags : 0 <= flags < 4096 /\ Z.testbit flags 7 = false;
}.

(** Nothing is mapped there yet: no large page on the way, no entry in use. *)
Definition unmapped s (l : nat) (va : VirtAddr) (count : nat) : Prop :=
  path_clear root (frames s) va l /\
  forall a k e, reach (frames s) root l (vpath va l) a -> (k < count)%nat ->
    entry_at (frames s) a (next_level_index va l + k) = Some e -> present e = false.

(** The pages are mapped by entries of level [l] the allocator does not own. *)
Definition mapped s (l : nat) (va : VirtAddr) (count : nat) : Prop :=
  exists a, reach (frames s) root l (vpath va l) a /\
  forall k e, (k < count)%nat -> entry_at (frames s) a (next_level_index va l + k) = Some e ->
    present e = true /\ last e = true /\ Z.testbit e 9 = false.

Lemma rem_ok a l : (level_size l | a) -> usize_rem a (level_size l) = Done 0.
Proof.
  intros Hd. pose proof (level_size_pos l). rewrite usize_rem_ok by done. f_equal. by apply mod0_divide.
Qed.

(** Walking an existing path creates nothing. *)
Lemma create_existing s va bottom n table : forall a, tree_ok hhdm (frames s) root ->
  reach (frames s) root bottom (vpath va bottom) table ->
  reach (frames s) root (bottom + n) (vpath va (bottom + n)) a ->
  get_create_from hhdm s a va bottom n = Done (table, s).
Proof.
  induction n as [| n IH]; intros a Ht Hb Hr; cbn [get_create_from].
  { rewrite Nat.add_0_r in Hr. by rewrite (reach_det _ root _ _ _ Hb a Hr). }
  rewrite Nat.add_succ_r in *. pose proof (reach_le _ _ _ _ _ Hr).
  destruct (reach_up root _ va _ _ (S (bottom + n)) Hb ltac:(lia)) as (a' & e & Hr' & He & Hta).
  pose proof (reach_det _ root _ _ _ Hr a' Hr') as <-.
  rewrite (read_entry_ok _ _ _ _ He), bind_Done, flags_present. pose proof Hta as [-> _]. cbn [negb].
  destruct (entry_on_path _ _ _ _ _ _ va Ht Hr) as (e2 & He2 & [Hu _ _]).
  rewrite He in He2. injection He2 as <-. rewrite bind_Done, (read_entry_ok _ _ _ _ He), bind_Done.
  rewrite (next_table_ok hhdm s root _ _ a _ e Ht Hr He Hu Hta), bind_Done.
  apply IH; [done | done |]. rewrite vpath_S by lia. by apply (reach_step _ _ _ _ a).
Qed.

(** Table walks up to the level of the pages: three pages at most are taken,
    none when the table is there. *)
Definition walkable s (l : nat) (va : VirtAddr) : Prop :=
  (exists a, reach (frames s) root l (vpath va l) a) \/ free_pages (pmm s) 3.

Lemma create_range_ok s l va count phys flags : pt_inv hhdm root s -> request_ok l va phys count flags ->
  unmapped s l va count -> walkable s l va ->
  exists table s', get_create_table_range hhdm s root va (level_size l) = Done (table, s') /\
    grown hhdm root va l s s' /\ reach (frames s') root l (vpath va l) table /\
    (forall k, free_pages (pmm s) (3 + k) -> free_pages (pmm s') k) /\
    (forall k e, (k < count)%nat ->
       entry_at (frames s') table (next_level_index va l + k) = Some e -> present e = false) /\
    (forall a, reach (frames s) root l (vpath va l) a -> s' = s).
Proof.
  intros Hi [Hl [Hva Hva0] _ _ _ _] [Hpc Habs] Hw. unfold get_create_table_range.
  rewrite rem_ok, bind_Done by done. cbn [assert_ Z.eqb]. rewrite bind_Done, bottom_level, bind_Done by done.
  unfold MAX_BOTTOM_PAGING_LEVEL.
  assert (reach (frames s) root (l + (3 - l)) (vpath va (l + (3 - l))) root) as Hroot.
  { replace (l + (3 - l))%nat with 3%nat by lia. constructor. }
  assert (forall a, reach (frames s) root l (vpath va l) a -> get_create_from hhdm s root va l (3 - l) = Done (a, s)) as Hex.
  { intros a Ha. apply create_existing; [apply Hi | done | done]. }
  destruct Hw as [[a Ha] | Hfp].
  - exists a, s. rewrite (Hex a Ha). split_and!; try done; [by apply grown_refl | |].
    + intros k. apply free_pages_le. lia.
    + intros k e Hk He. by apply (Habs a k e).
  - destruct (get_create_from_ok hhdm root va l (3 - l) s root) as (a & s' & E & Hg & Hr & Hk'); try done.
    + by apply (free_pages_le _ 3); [lia |].
    + exists a, s'. rewrite E. split_and!; try done.
      { intros k Hk. apply Hk'. revert Hk. apply free_pages_le. lia. }
      { intros k e Hk He. destruct (present e) eqn:Ep; [| done].
        destruct (gr_present _ _ _ _ _ _ Hg l _ a _ e Hr (le_n l) He Ep) as [Hr0 He0].
        rewrite <- Ep. by apply (Habs a k e). }
      intros b Hb. rewrite (Hex b Hb) in E. by injection E.
Qed.

Lemma map_pages_gen s l va phys count flags : pt_inv hhdm root s -> request_ok l va phys count flags ->
  unmapped s l va count -> walkable s l va ->
  exists s', PageTable_map_pages hhdm s root va phys count (level_size l) flags = Done (Ok (), s') /\
    pt_inv hhdm root s' /\
    (forall k va', (k < count)%nat -> same_page l va' (va + Z.of_nat k * level_size l) ->
       pt_translate (frames s') root va' = Some (phys + Z.of_nat k * level_size l)) /\
    (forall va', (forall k, (k < count)%nat -> ~ same_page l va' (va + Z.of_nat k * level_size l)) ->
       pt_translate (frames s') root va' = pt_translate (frames s) root va') /\
    (Z.testbit flags 9 = false -> mapped s' l va count) /\
    (forall k, free_pages (pmm s) (3 + k) -> free_pages (pmm s') k) /\
    (forall m p a, reach (frames s') root m p a ->
       reach (frames s) root m p a \/ (p = vpath va m /\ pmm_free_page (pmm s) a)) /\
    (forall a, pmm_free_page (pmm s') a -> pmm_free_page (pmm s) a) /\
    (forall a, pmm_taken (pmm s) a -> pmm_taken (pmm s') a) /\
    (forall m q j e, ~ (m = l /\ q = vpath va l /\ (next_level_index va l <= j < next_level_index va l + count)%nat) ->
       leaf_at (frames s') root m q j e <-> leaf_at (frames s) root m q j e) /\
    (forall a, reach (frames s) root l (vpath va l) a -> pmm s' = pmm s) /\
    (exists a, reach (frames s') root l (vpath va l) a).
Proof.
  intros Hi Hrq Hun Hfp.
  destruct (create_range_ok s l va count phys flags Hi Hrq Hun Hfp) as (table & s1 & E1 & Hg & Hr & Hfp1 & Habs & Hsame).
  destruct Hrq as [Hl [Hva Hva0] [Hph Hph0] Hmax Htab [Hf H7]].
  unfold PageTable_map_pages. rewrite rem_ok, bind_Done by done. cbn [negb Z.eqb].
  rewrite rem_ok, bind_Done by done. cbn [negb Z.eqb]. rewrite E1, bind_Done, bottom_level, bind_Done by done.
  rewrite usize_add_ok, bind_Done by (unfold usize_MAX; lia).
  rewrite (proj2 (Z.ltb_ge _ _)) by (unfold ENTRIES_PER_TABLE; lia).
  destruct (map_entries_ok hhdm root l (vpath va l) table (next_level_index va l) phys flags count Hl Hph Hph0
    Hf H7 0 s1 (gr_inv _ _ _ _ _ _ Hg) Hr ltac:(lia) Hmax) as (s' & -> & Hi' & Hin & Hout & Hr' & _ & Hleaf & Hre & Hpm & Hlv).
  { intros k e Hk. apply Habs. lia. }
  exists s'. split_and!; try done.
  - intros k va' Hk [Hv Hx]%same_page_vpath; [| lia].
    destruct (page_add l va k Hva0 Hva ltac:(lia) ltac:(lia)) as [Hx' Hv'].
    apply Hin; [congruence | lia | congruence].
  - intros va' Hne. rewrite Hout, (gr_translate _ _ _ _ _ _ Hg); [done |]. intros [Hv Hx].
    apply (Hne (next_level_index va' l - next_level_index va l)%nat); [lia |].
    destruct (page_add l va (next_level_index va' l - next_level_index va l) Hva0 Hva ltac:(lia) ltac:(lia))
      as [Hx' Hv']. apply same_page_vpath; [lia |]. rewrite Hx', Hv'. split; [done | lia].
  - intros H9. exists table. split; [done |]. intros k e Hk He.
    destruct (Hleaf k e ltac:(lia) He) as (? & ? & ?). by rewrite <- H9.
  - intros k Hk. rewrite Hpm. by apply Hfp1.
  - intros m p a Hra. by apply (gr_reach _ _ _ _ _ _ Hg), Hre.
  - intros a. rewrite Hpm. apply Hg.
  - intros a. rewrite Hpm. apply Hg.
  - intros m q j e Hne. rewrite Hlv; [apply Hg |]. intros (? & ? & ?). apply Hne. split_and!; done || lia.
  - intros a Ha. by rewrite Hpm, (Hsame a Ha).
  - by exists table.
Qed.

Lemma map_pages_core s l va phys count flags : pt_inv hhdm root s -> request_ok l va phys count flags ->
  unmapped s l va count -> free_pages (pmm s) 3 ->
  exists s', PageTable_map_pages hhdm s root va phys count (level_size l) flags = Done (Ok (), s') /\
    pt_inv hhdm root s' /\
    (forall k va', (k < count)%nat -> same_page l va' (va + Z.of_nat k * level_size l) ->
       pt_translate (frames s') root va' = Some (phys + Z.of_nat k * level_size l)) /\
    (forall va', (forall k, (k < count)%nat -> ~ same_page l va' (va + Z.of_nat k * level_size l)) ->
       pt_translate (frames s') root va' = pt_translate (frames s) root va') /\
    (Z.testbit flags 9 = false -> mapped s' l va count) /\
    (forall k, free_pages (pmm s) (3 + k) -> free_pages (pmm s') k) /\
    (forall m p a, reach (frames s') root m p a ->
       reach (frames s) root m p a \/ (p = vpath va m /\ pmm_free_page (pmm s) a)) /\
    (forall a, pmm_free_page (pmm s') a -> pmm_free_page (pmm s) a) /\
    (forall a, pmm_taken (pmm s) a -> pmm_taken (pmm s') a) /\
    (forall m q j e, ~ (m = l /\ q = vpath va l /\ (next_level_index va l <= j < next_level_index va l + count)%nat) ->
       leaf_at (frames s') root m q j e <-> leaf_at (frames s) root m q j e).
Proof.
  intros Hi Hrq Hun Hfp. destruct (map_pages_gen s l va phys count flags Hi Hrq Hun (or_intror Hfp))
    as (s' & ? & ? & ? & ? & ? & ? & ? & ? & ? & ? & _). by exists s'.
Qed.

Lemma unmap_pages_core s l va count : tree_ok hhdm (frames s) root -> (l <= 2)%nat ->
  (level_size l | va) -> 0 <= va -> (next_level_index va l + count <= 512)%nat -> mapped s l va count ->
  exists s', PageTable_unmap_pages hhdm s root va count (level_size l) = Done (Ok (), s') /\
    tree_ok hhdm (frames s') root /\ (l = 0%nat -> pt_inv hhdm root s -> pt_inv hhdm root s') /\
    (forall k va', (k < count)%nat -> same_page l va' (va + Z.of_nat k * level_size l) ->
       pt_translate (frames s') root va' = None) /\
    (forall va', (forall k, (k < count)%nat -> ~ same_page l va' (va + Z.of_nat k * level_size l)) ->
       pt_translate (frames s') root va' = pt_translate (frames s) root va') /\
    pmm s' = pmm s /\ (forall l p a, reach (frames s') root l p a <-> reach (frames s) root l p a) /\
    (forall m q j e, leaf_at (frames s') root m q j e <-> leaf_at (frames s) root m q j e /\
       ~ (m = l /\ q = vpath va l /\ (next_level_index va l <= j < next_level_index va l + count)%nat)).
Proof.
  intros Ht Hl Hva Hva0 Htab (table & Hr & Hent). unfold PageTable_unmap_pages.
  rewrite rem_ok, bind_Done by done. cbn [negb Z.eqb]. unfold get_table_range, MAX_BOTTOM_PAGING_LEVEL.
  rewrite rem_ok, bind_Done by done. cbn [assert_ Z.eqb]. rewrite bind_Done, bottom_level, bind_Done by done.
  rewrite (get_table_from_ok hhdm root s va l (3 - l) table root Ht Hr), !bind_Done.
  2:{ replace (l + (3 - l))%nat with 3%nat by lia. constructor. }
  rewrite usize_add_ok, bind_Done by (unfold usize_MAX; lia).
  rewrite (proj2 (Z.ltb_ge _ _)) by (unfold ENTRIES_PER_TABLE; lia).
  destruct (release_entries_ok hhdm root l (vpath va l) table count Hl (next_level_index va l) s Ht Hr Htab)
    as (s' & -> & Hpm & Ht' & Hiv & Hin & Hout & Hre & Hlv).
  { intros k e Hk He. apply (Hent (k - next_level_index va l)%nat); [lia |].
    by replace (next_level_index va l + (k - next_level_index va l))%nat with k by lia. }
  exists s'. split_and!; try done.
  - intros k va' Hk [Hv Hx]%same_page_vpath; [| lia].
    destruct (page_add l va k Hva0 Hva ltac:(lia) ltac:(lia)) as [Hx' Hv']. apply Hin; [congruence | lia].
  - intros va' Hne. apply Hout. intros [Hv Hx].
    apply (Hne (next_level_index va' l - next_level_index va l)%nat); [lia |].
    destruct (page_add l va (next_level_index va' l - next_level_index va l) Hva0 Hva ltac:(lia) ltac:(lia))
      as [Hx' Hv']. apply same_page_vpath; [lia |]. rewrite Hx', Hv'. split; [done | lia].
Qed.

(** A lookup that has not reached a large page either reaches the table of
    level [l] or finds nothing. *)
Lemma look_stop fr va l : tree_clean fr root -> path_clear root fr va l ->
  forall m a, (l <= m)%nat -> reach fr root m (vpath va m) a ->
  look fr a va m = None \/ exists a', reach fr root l (vpath va l) a'.
Proof.
  intros Hcl Hpc. induction m as [| m IH]; intros a Hm Hr.
  { assert (l = 0%nat) as -> by lia. eauto. }
  destruct (decide (l = S m)) as [-> | Hne]; [eauto |]. cbn [look].
  destruct (entry_at fr a _) as [e |] eqn:He; [| by left].
  destruct (present e) eqn:Ep.
  - rewrite (Hpc (S m) a e ltac:(lia) Hr He Ep). apply IH; [lia |].
    pose proof (reach_le _ _ _ _ _ Hr). rewrite vpath_S by lia. apply (reach_step _ _ _ _ a); [done | done |].
    split; [done |]. by apply (Hpc (S m) a e ltac:(lia) Hr He).
  - rewrite (Hcl _ _ _ _ _ Hr He Ep). by left.
Qed.

Lemma path_clear_same fr va va' l : (forall m, (l < m <= 3)%nat ->
    vpath va' m = vpath va m /\ next_level_index va' m = next_level_index va m) ->
  path_clear root fr va l -> path_clear root fr va' l.
Proof.
  intros Hs Hpc m a e Hm Hr. destruct (Hs m) as [Ev Ei]; [pose proof (reach_le _ _ _ _ _ Hr); lia |].
  rewrite Ev in Hr. rewrite Ei. by apply Hpc.
Qed.

Lemma vpath_up va va' l : vpath va' l = vpath va l -> forall m, (l < m <= 3)%nat ->
  vpath va' m = vpath va m /\ next_level_index va' m = next_level_index va m.
Proof.
  intros Hv m Hm. apply same_page_vpath; [lia |]. intros k Hk.
  apply (f_equal (fun p => p !! (3 - k)%nat)) in Hv. unfold vpath in Hv.
  rewrite !list_lookup_fmap, !lookup_seq_lt in Hv by lia. cbn in Hv. injection Hv as Hv.
  by replace (3 - (3 - k))%nat with k in Hv by lia.
Qed.

(** Addresses of an unmapped range do not translate. *)
Lemma unmapped_none s l va count k va' : pt_inv hhdm root s -> (l <= 2)%nat -> (k < count)%nat ->
  unmapped s l va count -> vpath va' l = vpath va l -> next_level_index va' l = (next_level_index va l + k)%nat ->
  pt_translate (frames s) root va' = None.
Proof.
  intros Hi Hl Hk [Hpc Habs] Hv Hx. unfold pt_translate.
  assert (path_clear root (frames s) va' l) as Hpc' by (eapply path_clear_same; [by apply vpath_up | done]).
  destruct (look_stop (frames s) va' l (pi_clean _ _ _ Hi) Hpc' 3 root ltac:(lia) (reach_root _ _))
    as [-> | (a & Hr)]; [done |].
  rewrite (look_from (frames s) root l _ a Hr va' eq_refl). rewrite Hv in Hr.
  destruct (entry_on_path _ _ _ _ _ _ va' (pi_tree _ _ _ Hi) Hr) as (e & He & _).
  assert (present e = false) as Ep by (rewrite Hx in He; by apply (Habs a k e)).
  destruct l; cbn [look]; rewrite He; destruct (last e); rewrite ?Ep; done.
Qed.

(** C3: mapping free pages succeeds, creates the tables it needs, and changes
    translation exactly at the mapped pages: each page of the request then
    translates to its physical page, and every other address translates as
    before. *)
Theorem page_map_correct s l va phys count flags : pt_inv hhdm root s ->
  request_ok l va phys count flags -> unmapped s l va count -> free_pages (pmm s) 3 ->
  exists s', PageTable_map_pages hhdm s root va phys count (level_size l) flags = Done (Ok (), s') /\
    pt_inv hhdm root s' /\
    (forall k va', (k < count)%nat -> same_page l va' (va + Z.of_nat k * level_size l) ->
       PageTable_translate hhdm s' root va' = Done (Some (phys + Z.of_nat k * level_size l))) /\
    (forall va', (forall k, (k < count)%nat -> ~ same_page l va' (va + Z.of_nat k * level_size l)) ->
       PageTable_translate hhdm s' root va' = PageTable_translate hhdm s root va').
Proof.
  intros Hi Hrq Hun Hfp. destruct (map_pages_core s l va phys count flags Hi Hrq Hun Hfp)
    as (s' & E & Hi' & Hin & Hout & _). exists s'. split_and!; try done.
  - intros k va' Hk Hva'. rewrite (translate_spec hhdm s' root _ (pi_tree _ _ _ Hi')). by rewrite (Hin k).
  - intros va' Hne. rewrite !translate_spec by (apply Hi || apply Hi'). by rewrite Hout.
Qed.

(** C12: unmapping mapped pages removes exactly their translations; with 4KB
    pages the paging invariant is kept, so the tables can be mapped again. *)
Theorem page_unmap_correct s l va count : tree_ok hhdm (frames s) root -> (l <= 2)%nat ->
  (level_size l | va) -> 0 <= va -> (next_level_index va l + count <= 512)%nat -> mapped s l va count ->
  exists s', PageTable_unmap_pages hhdm s root va count (level_size l) = Done (Ok (), s') /\
    tree_ok hhdm (frames s') root /\ (l = 0%nat -> pt_inv hhdm root s -> pt_inv hhdm root s') /\
    (forall k va', (k < count)%nat -> same_page l va' (va + Z.of_nat k * level_size l) ->
       PageTable_translate hhdm s' root va' = Done None) /\
    (forall va', (forall k, (k < count)%nat -> ~ same_page l va' (va + Z.of_nat k * level_size l)) ->
       PageTable_translate hhdm s' root va' = PageTable_translate hhdm s root va').
Proof.
  intros Ht Hl Hva Hva0 Htab Hm. destruct (unmap_pages_core s l va count Ht Hl Hva Hva0 Htab Hm)
    as (s' & E & Ht' & Hiv & Hin & Hout & _). exists s'. split_and!; try done.
  - intros k va' Hk Hva'. rewrite translate_spec by done. by rewrite (Hin k).
  - intros va' Hne. rewrite !translate_spec by done. by rewrite Hout.
Qed.

(** C34: mapping pages and unmapping them again leaves every translation as it
    was before. *)
Theorem page_map_unmap_roundtrip s l va phys count flags s1 : pt_inv hhdm root s ->
  request_ok l va phys count flags -> unmapped s l va count -> free_pages (pmm s) 3 ->
  Z.testbit flags 9 = false ->
  PageTable_map_pages hhdm s root va phys count (level_size l) flags = Done (Ok (), s1) ->
  exists s2, PageTable_unmap_pages hhdm s1 root va count (level_size l) = Done (Ok (), s2) /\
    forall va', PageTable_translate hhdm s2 root va' = PageTable_translate hhdm s root va'.
Proof.
  intros Hi Hrq Hun Hfp H9 E. destruct (map_pages_core s l va phys count flags Hi Hrq Hun Hfp)
    as (s' & E' & Hi1 & _ & Hout1 & Hm & _). rewrite E in E'. injection E' as <-.
  destruct Hrq as [Hl [Hva Hva0] _ _ Htab _].
  destruct (unmap_pages_core s1 l va count (pi_tree _ _ _ Hi1) Hl Hva Hva0 Htab (Hm H9))
    as (s2 & -> & Ht2 & _ & Hin2 & Hout2 & _). exists s2. split; [done |]. intros va'.
  rewrite !translate_spec by (done || apply Hi). f_equal.
  destruct (decide (vpath va' l = vpath va l /\
    (next_level_index va l <= next_level_index va' l < next_level_index va l + count)%nat)) as [[Hv Hx] | Hne].
  - set (k := (next_level_index va' l - next_level_index va l)%nat).
    destruct (page_add l va k Hva0 Hva ltac:(lia) ltac:(lia)) as [Hx' Hv'].
    rewrite (Hin2 k va'); [| lia | apply same_page_vpath; [lia |]; rewrite Hv', Hx'; split; [done | lia]].
    symmetry. apply (unmapped_none s l va count k); done || lia.
  - assert (forall k, (k < count)%nat -> ~ same_page l va' (va + Z.of_nat k * level_size l)) as Hns.
    { intros k Hk [Hv Hx]%same_page_vpath; [| lia]. apply Hne.
      destruct (page_add l va k Hva0 Hva ltac:(lia) ltac:(lia)) as [Hx' Hv']. rewrite Hv, Hv', Hx, Hx'.
      split; [done | lia]. }
    by rewrite Hout2, Hout1.
Qed.

Lemma write_same s a i e : entry_at (frames s) a i = Some e -> write_entry s a i e = Done s.
Proof.
  unfold entry_at, write_entry. destruct (frames s !! a) as [t |] eqn:Et; [| done]. cbn. intros E.
  rewrite decide_True by (by eapply lookup_lt_Some). rewrite list_insert_id, insert_id by done. by destruct s.
Qed.

(** requests that cannot be served are refused with their own error and
    change nothing: misaligned addresses, and pages that are already mapped. *)
Theorem page_map_refusals s l va phys count flags : pt_inv hhdm root s -> (l <= 2)%nat ->
  (~ (level_size l | va) ->
     PageTable_map_pages hhdm s root va phys count (level_size l) flags = Done (Err InvalidVirtualAddress, s)) /\
  ((level_size l | va) -> ~ (level_size l | phys) ->
     PageTable_map_pages hhdm s root va phys count (level_size l) flags = Done (Err InvalidPhysicalAddress, s)) /\
  (request_ok l va phys (S count) flags -> mapped s l va 1 ->
     PageTable_map_pages hhdm s root va phys (S count) (level_size l) flags = Done (Err PageAlreadyPresent, s)).
Proof.
  intros Hi Hl. pose proof (level_size_pos l) as Hp. unfold PageTable_map_pages.
  assert (forall a, ~ (level_size l | a) -> (a mod level_size l =? 0) = false) as Hnd.
  { intros a Ha. apply Z.eqb_neq. by rewrite mod0_divide. }
  split_and!.
  - intros Hn. rewrite (usize_rem_ok va), bind_Done by done. by rewrite (Hnd _ Hn).
  - intros Hd Hn. rewrite (rem_ok va), bind_Done by done. cbn [negb Z.eqb].
    rewrite usize_rem_ok, bind_Done by done. by rewrite (Hnd _ Hn).
  - intros [_ [Hva _] [Hph Hph0] Hmax Htab [Hf H7]] (table & Hr & Hent).
    rewrite rem_ok, bind_Done by done. cbn [negb Z.eqb]. rewrite rem_ok, bind_Done by done. cbn [negb Z.eqb].
    unfold get_create_table_range, MAX_BOTTOM_PAGING_LEVEL. rewrite rem_ok, bind_Done by done.
    cbn [assert_ Z.eqb]. rewrite bind_Done, bottom_level, bind_Done by done.
    rewrite (create_existing s va l (3 - l) table root); [| apply Hi | done |
      replace (l + (3 - l))%nat with 3%nat by lia; constructor].
    rewrite !bind_Done, usize_add_ok, bind_Done by (unfold usize_MAX; lia).
    rewrite (proj2 (Z.ltb_ge _ _)) by (unfold ENTRIES_PER_TABLE; lia). cbn [map_entries].
    destruct (to_entry _ _ _ (pi_tree _ _ _ Hi) _ _ _ (next_level_index va l + 0) Hr ltac:(lia)) as (e & He & Hok).
    destruct (Hent 0%nat e ltac:(lia) He) as (Hpe & _). rewrite (read_entry_ok _ _ _ _ He), bind_Done.
    rewrite usize_mul_ok, bind_Done, usize_add_ok, bind_Done by (unfold usize_MAX in *; lia).
    unfold Entry_map. rewrite flags_present, Hpe, bind_Done, (write_same _ _ _ _ He), bind_Done. done.
Qed.
End claims.

(** ** A fresh table over the buddy allocator *)
Definition fresh_pt {P} (root : Z) (p : P) : PtState P :=
  mkPtState {[root := replicate 512 0]} p.

Lemma fresh_entry_at {P} root (p : P) a i : entry_at (frames (fresh_pt root p)) a i =
  if decide (a = root) then replicate 512 0 !! i else None.
Proof.
  unfold entry_at, fresh_pt. cbn [frames]. case_decide as E.
  - subst a. by rewrite lookup_singleton_eq.
  - by rewrite lookup_singleton_ne.
Qed.

Lemma fresh_entry {P} root (p : P) a i e : entry_at (frames (fresh_pt root p)) a i = Some e -> e = 0.
Proof. rewrite fresh_entry_at. case_decide; [| done]. by intros [-> _]%lookup_replicate. Qed.

Lemma fresh_reach {P} root (p : P) l q a : reach (frames (fresh_pt root p)) root l q a ->
  l = 3%nat /\ q = [] /\ a = root.
Proof. induction 1 as [| ? ? ? ? e _ _ He%fresh_entry [Hp _]]; [done | by subst e]. Qed.

Lemma fresh_inv {P} `{PmmLaws P} hhdm root (p : P) : pmm_ready p -> ~ pmm_free_page p root ->
  0 < root + hhdm <= usize_MAX -> (forall a, pmm_free_page p a -> 0 < a + hhdm <= usize_MAX) ->
  pt_inv hhdm root (fresh_pt root p).
Proof.
  intros Hr Hn Hh Hf. split; cbn [pmm fresh_pt]; try done.
  - split.
    + intros l q a i (-> & -> & ->)%fresh_reach Hi. exists 0. split.
      * rewrite fresh_entry_at, decide_True by done. by apply lookup_replicate.
      * split; [by vm_compute | done | by intros []].
    + intros l q a l' q' (_ & -> & _)%fresh_reach (_ & -> & _)%fresh_reach. done.
    + by intros l q a (_ & _ & ->)%fresh_reach.
  - by intros l q a i e _ He%fresh_entry _.
  - by intros l q a (_ & _ & ->)%fresh_reach.
Qed.

Lemma fresh_unmapped {P} root (p : P) l va count : (l <= 2)%nat -> unmapped root (fresh_pt root p) l va count.
Proof.
  intros Hl. split.
  - intros m a e _ _ He%fresh_entry. by subst e.
  - intros a k e [E _]%fresh_reach. lia.
Qed.

Definition ex_pt : PtState BuddyAllocator := fresh_pt 0x6000 ex_b.

Lemma ex_ready : buddy_ready ex_b.
Proof.
  exists ex_limit, ex_m. split_and!; [exact ex_repr | exact ex_wf | cbn; lia | vm_compute; lia].
Qed.

Lemma ex_free_page a : buddy_free_page ex_b a -> 0 <= a < 0x4000.
Proof.
  intros (_ & m & HR & Hf). pose proof (buddy_repr_functional _ _ _ ex_repr HR) as <-.
  apply ex_free, Hf. unfold in_block. pose proof (bsize_pos 0). lia.
Qed.

Lemma ex_inv : pt_inv ex_hhdm 0x6000 ex_pt.
Proof.
  apply fresh_inv.
  - exact ex_ready.
  - intros Hf%ex_free_page. lia.
  - by vm_compute.
  - intros a Hf%ex_free_page. unfold ex_hhdm, usize_MAX. lia.
Qed.

Lemma ex_pages : free_pages ex_b 3.
Proof.
  exists [0; 0x1000; 0x2000]. split_and!; [apply (bool_decide_eq_true_1 _); reflexivity | done |].
  intros a Ha. split.
  - apply elem_of_cons in Ha as [-> | [-> | [-> | []%not_elem_of_nil]%elem_of_cons]%elem_of_cons];
      [by exists 0 | by exists 1 | by exists 2].
  - exists ex_m. split; [exact ex_repr |]. intros x Hx. apply ex_free.
    change (a <= x < a + 4096) in Hx.
    apply elem_of_cons in Ha as [-> | [-> | [-> | []%not_elem_of_nil]%elem_of_cons]%elem_of_cons]; lia.
Qed.

Lemma ex_request : request_ok 0 0x40001000 0x5000 2 FLAG_RW.
Proof.
  split.
  - lia.
  - split; [by exists 0x40001 | lia].
  - split; [by exists 5 | lia].
  - by vm_compute.
  - vm_compute. lia.
  - split; [by vm_compute | done].
Qed.

Lemma page_map_correct_witness :
  exists s', PageTable_map_pages ex_hhdm ex_pt 0x6000 0x40001000 0x5000 2 (level_size 0) FLAG_RW
      = Done (Ok (), s') /\ pt_inv ex_hhdm 0x6000 s' /\
    (forall k va', (k < 2)%nat -> same_page 0 va' (0x40001000 + Z.of_nat k * level_size 0) ->
       PageTable_translate ex_hhdm s' 0x6000 va' = Done (Some (0x5000 + Z.of_nat k * level_size 0))) /\
    (forall va', (forall k, (k < 2)%nat -> ~ same_page 0 va' (0x40001000 + Z.of_nat k * level_size 0)) ->
       PageTable_translate ex_hhdm s' 0x6000 va' = PageTable_translate ex_hhdm ex_pt 0x6000 va').
Proof.
  apply (page_map_correct ex_hhdm 0x6000 ex_pt 0 0x40001000 0x5000 2 FLAG_RW ex_inv ex_request).
  - apply fresh_unmapped. lia.
  - exact ex_pages.
Defined.

(** The state after that mapping. *)
Definition ex_pt1 : PtState BuddyAllocator :=
  match PageTable_map_pages ex_hhdm ex_pt 0x6000 0x40001000 0x5000 2 (level_size 0) FLAG_RW with
  | Done (_, s) => s | Panic _ => ex_pt end.

Lemma ex_map_run :
  PageTable_map_pages ex_hhdm ex_pt 0x6000 0x40001000 0x5000 2 (level_size 0) FLAG_RW = Done (Ok (), ex_pt1).
Proof.
  destruct (map_pages_core ex_hhdm 0x6000 ex_pt 0 0x40001000 0x5000 2 FLAG_RW ex_inv ex_request)
    as (s & E & _); [apply fresh_unmapped; lia | exact ex_pages |]. unfold ex_pt1. by rewrite E.
Qed.

Lemma ex_pt1_ok : pt_inv ex_hhdm 0x6000 ex_pt1 /\ mapped 0x6000 ex_pt1 0 0x40001000 2.
Proof.
  destruct (map_pages_core ex_hhdm 0x6000 ex_pt 0 0x40001000 0x5000 2 FLAG_RW ex_inv ex_request)
    as (s & E & Hi & _ & _ & Hm & _); [apply fresh_unmapped; lia | exact ex_pages |].
  unfold ex_pt1. rewrite E. split; [exact Hi | exact (Hm eq_refl)].
Qed.

Lemma page_unmap_correct_witness :
  exists s', PageTable_unmap_pages ex_hhdm ex_pt1 0x6000 0x40001000 2 (level_size 0) = Done (Ok (), s') /\
    tree_ok ex_hhdm (frames s') 0x6000 /\
    (0%nat = 0%nat -> pt_inv ex_hhdm 0x6000 ex_pt1 -> pt_inv ex_hhdm 0x6000 s') /\
    (forall k va', (k < 2)%nat -> same_page 0 va' (0x40001000 + Z.of_nat k * level_size 0) ->
       PageTable_translate ex_hhdm s' 0x6000 va' = Done None) /\
    (forall va', (forall k, (k < 2)%nat -> ~ same_page 0 va' (0x40001000 + Z.of_nat k * level_size 0)) ->
       PageTable_translate ex_hhdm s' 0x6000 va' = PageTable_translate ex_hhdm ex_pt1 0x6000 va').
Proof.
  apply (page_unmap_correct ex_hhdm 0x6000 ex_pt1 0 0x40001000 2);
    [exact (pi_tree _ _ _ (proj1 ex_pt1_ok)) | lia | by exists 0x40001 | lia | vm_compute; lia |
     exact (proj2 ex_pt1_ok)].
Defined.

Lemma page_map_unmap_roundtrip_witness :
  exists s2, PageTable_unmap_pages ex_hhdm ex_pt1 0x6000 0x40001000 2 (level_size 0) = Done (Ok (), s2) /\
    forall va', PageTable_translate ex_hhdm s2 0x6000 va' = PageTable_translate ex_hhdm ex_pt 0x6000 va'.
Proof.
  apply (page_map_unmap_roundtrip ex_hhdm 0x6000 ex_pt 0 0x40001000 0x5000 2 FLAG_RW ex_pt1 ex_inv ex_request);
    [apply fresh_unmapped; lia | exact ex_pages | reflexivity | exact ex_map_run].
Defined.

Lemma page_map_refusals_witness :
  PageTable_map_pages ex_hhdm ex_pt 0x6000 0x1234 0x5000 1 (level_size 0) FLAG_RW =
    Done (Err InvalidVirtualAddress, ex_pt).
Proof.
  apply (proj1 (page_map_refusals ex_hhdm 0x6000 ex_pt 0 0x1234 0x5000 1 FLAG_RW ex_inv ltac:(lia))).
  intros [q Hq]. change (level_size 0) with 4096 in Hq. lia.
Defined.

(** Releasing a 2MB page leaves its entry marked as a last entry.  When the
    range is mapped again with a 4KB page, the entry is made to point to a new
    table but keeps the mark, so the lookup stops at it and the address of the
    table is taken for a misaligned 2MB page. *)
Definition ex_stale : res (result unit PagingError * result unit PagingError * result unit PagingError
    * res (option PhysAddr)) :=
  '(r1, s) ← PageTable_map_pages ex_hhdm ex_pt 0x6000 0 0x40000000 1 size_2mb FLAG_RW;
  '(r2, s) ← PageTable_unmap_pages ex_hhdm s 0x6000 0 1 size_2mb;
  '(r3, s) ← PageTable_map_pages ex_hhdm s 0x6000 0 0x5000 1 size_4kb FLAG_RW;
  Done (r1, r2, r3, PageTable_translate ex_hhdm s 0x6000 0).

Example page_stale_large_entry : ex_stale = Done (Ok (), Ok (), Ok (), Panic Asserted).
Proof. vm_compute. reflexivity. Qed.
