(* ===== verification/Paging.v ===== *)
(** * The paging service of the kernel: definitions

    The virtual address allocator ([kernel/src/mem/vaa.rs]), the methods of
    [PagingManager] ([kernel/src/mem/paging.rs]) with their x86-64
    implementation ([kernel/src/arch/x86_64/mod.rs]), and the construction of
    the kernel's page tables at boot ([arch/x86_64/paging/mod.rs],
    [map_in_entry] to [finalize_init]).

    The fields of the control registers the code reads and writes are fields
    of [Cpu], as are the model specific registers and the CPUID words. *)

From S2P Require Import Prelude Ids Pmm PageFlags PageTable.

(** ** The virtual address allocator *)
Record VirtualAddressAllocator := mkVaa { hander : IdHander }.

Definition MIN_MEM_SPAN : Z := 8 * 0x1000 * 0x1000 * 0x1000 * 0x1000.

Definition VirtualAddressAllocator_new (hhdm : Z) (start_addr : VirtAddr) : res VirtualAddressAllocator :=
  r ← usize_rem start_addr BASIC_PAGE_SIZE;
  _ ← assert_ (r =? 0);
  span ← usize_sub hhdm start_addr;
  _ ← assert_ (MIN_MEM_SPAN <=? span);
  let start_id := start_addr / BASIC_PAGE_SIZE in
  Done (mkVaa (IdHander_new_starting_from start_id Id_MAX_ID)).

Definition VirtualAddressAllocator_uninit : VirtualAddressAllocator := mkVaa (IdHander_new 1000).

(** [(p as *const ()).align_offset(a)]: the pointee has size 0, so no number
    of steps aligns a pointer that is not aligned, and the answer is then
    [usize::MAX]. *)
Definition align_offset_unit (p a : Z) : res Z :=
  _ ← assert_ (is_power_of_two a); Done (if p mod a =? 0 then 0 else usize_MAX).

Definition VirtualAddressAllocator_handout (v : VirtualAddressAllocator) (count page_alignment : Z)
    : res (VirtAddr * VirtualAddressAllocator) :=
  let next := IdHander_peek_next (hander v) in
  skip ← align_offset_unit next page_alignment;
  n ← usize_add skip count;
  '(o, h) ← IdHander_handout_and_skip (hander v) n;
  page_id ← unwrap o;
  a ← usize_mul page_id BASIC_PAGE_SIZE;
  Done (a, mkVaa h).

Definition init_vaa_from_limine (hhdm : Z) (mem_map : list MemEntry) : res VirtualAddressAllocator :=
  last_entry ← unwrap (list.last mem_map);
  addr ← usize_add (base last_entry) (length_ last_entry);
  VirtualAddressAllocator_new hhdm addr.

(** ** The paging manager *)
Record Paging (P : Type) := mkPaging { tables : PtState P; vaa : VirtualAddressAllocator }.
Arguments mkPaging {P}.
Arguments tables {P}.
Arguments vaa {P}.

Section manager.
Context {P : Type} `{PmmAllocator P} (hhdm cr3_top_pml : Z).
Implicit Types (s : PtState P) (g : Paging P).

Definition map_pages_to s (phys_addr : PhysAddr) (virt_addr : VirtAddr) (count : nat) (flags : Flags)
    (page_size : PageSize) : res (result unit PagingError * PtState P) :=
  pml ← get_pml hhdm cr3_top_pml;
  PageTable_map_pages hhdm s pml virt_addr phys_addr count page_size flags.

Definition unmap_pages s (virt_addr : VirtAddr) (page_count : nat) (page_size : PageSize)
    : res (result unit PagingError * PtState P) :=
  pml ← get_pml hhdm cr3_top_pml;
  PageTable_unmap_pages hhdm s pml virt_addr page_count page_size.

Definition translate s (virt_addr : VirtAddr) : res (option PhysAddr) :=
  pml ← get_pml hhdm cr3_top_pml;
  PageTable_translate hhdm s pml virt_addr.

(** [for i in 0..page_count] of [allocate_pages], from [i] with [n] left. *)
Fixpoint allocate_each s (base_virt_addr : VirtAddr) (flags : Flags) (page_size : PageSize) (i n : nat)
    : res (result unit PagingError * PtState P) :=
  match n with
  | O => Done (Ok (), s)
  | S n =>
      o ← usize_mul (Z.of_nat i) page_size;
      virt_addr ← usize_add base_virt_addr o;
      '(r, p) ← pmm_allocate (pmm s) 1 (to_default_page_count page_size);
      phys_addr ← unwrap_ok r;
      '(r, s) ← map_pages_to (mkPtState (frames s) p) phys_addr virt_addr 1 flags page_size;
      match r with
      | Err e => Done (Err e, s)
      | Ok _ => allocate_each s base_virt_addr flags page_size (S i) n
      end
  end.

Definition PagingManager_allocate_pages g (page_count : nat) (flags : Flags) (page_size : PageSize)
    : res (result VirtAddr PagingError * Paging P) :=
  '(base_virt_addr, v) ← VirtualAddressAllocator_handout (vaa g) (Z.of_nat page_count) (page_alignment page_size);
  '(r, s) ← allocate_each (tables g) base_virt_addr flags page_size 0 page_count;
  match r with
  | Err e => Done (Err e, mkPaging s v)
  | Ok _ => if base_virt_addr =? 0 then Panic Unwrapped else Done (Ok base_virt_addr, mkPaging s v)
  end.

(** [for i in 0..count] of [free_pages]. *)
Fixpoint free_each s (virt_addr : VirtAddr) (count : nat) (page_size : PageSize) (i n : nat)
    : res (result unit PagingError * PtState P) :=
  match n with
  | O => Done (Ok (), s)
  | S n =>
      o ← usize_mul (Z.of_nat i) page_size;
      addr ← usize_add virt_addr o;
      o ← translate s virt_addr;
      match o with
      | None => Done (Err PageNotPresent, s)
      | Some phys_addr =>
          '(r, s) ← unmap_pages s addr count page_size;
          match r with
          | Err e => Done (Err e, s)
          | Ok _ =>
              '(r, p) ← pmm_free (pmm s) phys_addr (to_default_page_count page_size);
              match r with
              | Err _ => Done (Err PageNotPresent, mkPtState (frames s) p)
              | Ok _ => free_each (mkPtState (frames s) p) virt_addr count page_size (S i) n
              end
          end
      end
  end.

Definition PagingManager_free_pages g (virt_addr : VirtAddr) (count : nat) (page_size : PageSize)
    : res (result unit PagingError * Paging P) :=
  '(r, s) ← free_each (tables g) virt_addr count page_size 0 count;
  Done (r, mkPaging s (vaa g)).

Definition PagingManager_map_pages g (phys_addr : PhysAddr) (page_count : nat) (flags : Flags)
    (page_size : PageSize) : res (result VirtAddr PagingError * Paging P) :=
  '(virt_addr, v) ← VirtualAddressAllocator_handout (vaa g) 1 (page_alignment page_size);
  '(r, s) ← map_pages_to (tables g) phys_addr virt_addr page_count flags page_size;
  match r with
  | Err e => Done (Err e, mkPaging s v)
  | Ok _ => Done (Ok virt_addr, mkPaging s v)
  end.
End manager.

(** ** The kernel's own tables *)
Section boot.
Context {P : Type} `{PmmAllocator P} (hhdm : Z).
Implicit Types (s : PtState P).

(** The largest page that fits what is left of the entry. *)
Definition pick_page_size (base_virt_addr : VirtAddr) (base_phys_addr : PhysAddr) (total_size : Z)
    : res PageSize :=
  let fits (size : Z) := (size <=? total_size) && (base_phys_addr mod size =? 0) && (base_virt_addr mod size =? 0) in
  if fits size_1gb then Done size_1gb
  else if fits size_2mb then Done size_2mb
  else if fits size_4kb then Done size_4kb
  else Panic Unreached.

(** [while total_size != 0]; every turn takes at least 4KB off. *)
Fixpoint map_in_entry_loop (fuel : nat) s (new_pml : PhysAddr) (base_virt_addr : VirtAddr)
    (base_phys_addr : PhysAddr) (total_size : Z) (flags : Flags) (pat : option PatType) : res (PtState P) :=
  if total_size =? 0 then Done s else
  match fuel with
  | O => Panic Unreached
  | S fuel =>
      page_size ← pick_page_size base_virt_addr base_phys_addr total_size;
      let flags := match pat with Some pat_type => set_pat flags pat_type page_size | None => flags end in
      '(r, s) ← PageTable_map_pages hhdm s new_pml base_virt_addr base_phys_addr 1 page_size flags;
      _ ← unwrap_ok r;
      total_size ← usize_sub total_size page_size;
      base_phys_addr ← usize_add base_phys_addr page_size;
      base_virt_addr ← usize_add base_virt_addr page_size;
      map_in_entry_loop fuel s new_pml base_virt_addr base_phys_addr total_size flags pat
  end.

Definition map_in_entry s (new_pml : PhysAddr) (base_virt_addr : VirtAddr) (base_phys_addr : PhysAddr)
    (total_size : Z) (flags : Flags) (pat : option PatType) : res (PtState P) :=
  map_in_entry_loop (Z.to_nat (total_size / SIZE_4KB)) s new_pml base_virt_addr base_phys_addr total_size flags pat.

(** The [match entry.entry_type]; [framebuffer] is the cargo feature. *)
Definition map_mem_entry (framebuffer : bool) s (new_pml : PhysAddr) (kernel_virt : VirtAddr)
    (kernel_phys : PhysAddr) (entry : MemEntry) : res (PtState P) :=
  let flags := set_read_write Flags_new true in
  match entry_type entry with
  | EXECUTABLE_AND_MODULES => map_in_entry s new_pml kernel_virt kernel_phys (length_ entry) flags None
  | ACPI_RECLAIMABLE | BOOTLOADER_RECLAIMABLE | USABLE =>
      v ← PhysAddr_add_hhdm_offset hhdm (base entry);
      map_in_entry s new_pml v (base entry) (length_ entry) flags None
  | FRAMEBUFFER =>
      if framebuffer then
        v ← PhysAddr_add_hhdm_offset hhdm (base entry);
        map_in_entry s new_pml v (base entry) (length_ entry) flags (Some WriteCombining)
      else Done s
  | _ => Done s
  end.

Fixpoint map_mem_entries (framebuffer : bool) s (new_pml : PhysAddr) (kernel_virt : VirtAddr)
    (kernel_phys : PhysAddr) (entries : list MemEntry) : res (PtState P) :=
  match entries with
  | [] => Done s
  | entry :: entries =>
      s ← map_mem_entry framebuffer s new_pml kernel_virt kernel_phys entry;
      map_mem_entries framebuffer s new_pml kernel_virt kernel_phys entries
  end.

(** ** Control registers and model specific registers *)
Record MsrData := mkMsrData { low : Z; high : Z }.
Definition MsrData_into_u64 (data : MsrData) : Z := Z.lor (Z.shiftl (high data) 32) (low data).
Definition MsrData_from_u64 (value : Z) : MsrData :=
  mkMsrData (Z.land value 0xFFFFFFFF) (Z.land (Z.shiftr value 32) 0xFFFFFFFF).

Record Cpu := mkCpu {
  top_pml : Z;              (* CR3.top_pml, 52 bits *)
  pge : Z;                  (* CR4.pge *)
  efer : MsrData;
  ia32_pat : Z;
  cpuid_1_edx : Z;
  cpuid_80000001_edx : Z;
}.

Definition Efer_NX : Z := Z.shiftl 1 11.

Definition check_pge_support (c : Cpu) : res unit :=
  assert_ (negb (Z.land (cpuid_1_edx c) (Z.shiftl 1 12) =? 0)).

Definition check_nx_support (c : Cpu) : res unit :=
  assert_ (negb (Z.land (cpuid_80000001_edx c) (Z.shiftl 1 20) =? 0)).

Definition enable_nx (c : Cpu) : res Cpu :=
  _ ← check_nx_support c;
  let v := Z.lor (MsrData_into_u64 (efer c)) Efer_NX in
  Done (mkCpu (top_pml c) (pge c) (MsrData_from_u64 v) (ia32_pat c) (cpuid_1_edx c) (cpuid_80000001_edx c)).

Definition finalize_init (c : Cpu) (pml_phys_addr : PhysAddr) : res Cpu :=
  _ ← check_pge_support c;
  pat ← setup_pat (cpuid_1_edx c) (ia32_pat c);
  c ← enable_nx (mkCpu (top_pml c) (pge c) (efer c) pat (cpuid_1_edx c) (cpuid_80000001_edx c));
  let t := Z.shiftr pml_phys_addr 12 in
  _ ← assert_ (t <? 2 ^ 52);
  Done (mkCpu t 1 (efer c) (ia32_pat c) (cpuid_1_edx c) (cpuid_80000001_edx c)).

(** [init_from_limine] of the paging module. *)
Definition paging_init_from_limine (framebuffer : bool) s (c : Cpu) (mem_map : list MemEntry)
    (kernel_virt : VirtAddr) (kernel_phys : PhysAddr) (used_by_pmm : MemEntry) : res (PtState P * Cpu) :=
  '(new_pml, s) ← PageTable_new hhdm s;
  v ← PhysAddr_add_hhdm_offset hhdm (base used_by_pmm);
  s ← map_in_entry s new_pml v (base used_by_pmm) (length_ used_by_pmm) (set_read_write Flags_new true) None;
  s ← map_mem_entries framebuffer s new_pml kernel_virt kernel_phys
        (List.filter (fun entry => negb (base entry =? base used_by_pmm)) mem_map);
  c ← finalize_init c new_pml;
  Done (s, c).

(** The memory part of [kmain]: [pmm_init] is what [pmm::init_from_limine]
    does on this memory map, [fr] the frames the boot loader left. *)
Definition boot_paging (fb : bool) (fr : gmap Z (list Z)) (pmm_init : res (P * MemEntry)) (c : Cpu)
    (mem_map : list MemEntry) (kv : VirtAddr) (kp : PhysAddr) : res (Paging P * Cpu) :=
  v ← init_vaa_from_limine hhdm mem_map;
  '(p, used_by_pmm) ← pmm_init;
  '(s, c) ← paging_init_from_limine fb (mkPtState fr p) c mem_map kv kp used_by_pmm;
  Done (mkPaging s v, c).
End boot.
