(* ===== verification/BootMap.v ===== *)
(** * The kernel's own page tables, from the memory map

    [map_in_entry] and [init_from_limine] of
    [kernel/src/arch/x86_64/paging/mod.rs]: what the tables built at boot
    translate.  Translation looks at 48 bits of an address, so the virtual
    ranges here are ranges of [va mod 2^48]. *)

From S2P Require Import Prelude Pmm Buddy BuddyBlocks BuddyCorrect BuddyTheorems BuddyLaws PageFlags PageTable PageTableCorrect PageTableTheorems Paging.

(** The part of an address that the tables look at. *)
Definition low48 (va : VirtAddr) : Z := va mod 2 ^ 48.

Lemma low48_bound va : 0 <= low48 va < 2 ^ 48.
Proof. by apply Z.mod_pos_bound. Qed.

Lemma low48_testbit va n : 0 <= n -> Z.testbit (low48 va) n = (n <? 48) && Z.testbit va n.
Proof.
  intros Hn. unfold low48. destruct (Z.ltb_spec n 48); [by apply Z.mod_pow2_bits_low |].
  by apply Z.mod_pow2_bits_high.
Qed.

Lemma index_testbit va k n : 0 <= n -> Z.testbit (Z.land (Z.shiftr va (12 + Z.of_nat k * 9)) 511) n =
  (n <? 9) && Z.testbit va (n + off_bits k).
Proof.
  intros Hn. change 511 with (Z.ones 9). rewrite Z.land_spec, Z.shiftr_spec, (testbit_ones_le 9) by lia.
  unfold off_bits. rewrite andb_comm. do 2 f_equal. lia.
Qed.

Lemma index_eq_bits va va' k : next_level_index va k = next_level_index va' k <->
  forall n, off_bits k <= n < off_bits (S k) -> Z.testbit va n = Z.testbit va' n.
Proof.
  unfold next_level_index. rewrite Z2Nat.inj_iff by (apply Z.land_nonneg; lia). split.
  - intros E n Hn. apply (f_equal (fun x => Z.testbit x (n - off_bits k))) in E.
    rewrite !index_testbit in E by lia. rewrite (proj2 (Z.ltb_lt _ _)) in E by (unfold off_bits in *; lia).
    cbn in E. by rewrite Z.sub_add in E.
  - intros Hb. apply Z.bits_inj'. intros n Hn. rewrite !index_testbit by done.
    destruct (Z.ltb_spec n 9); [| done]. cbn. apply Hb. unfold off_bits. lia.
Qed.

Lemma same_page_bits l va va' : (l <= 3)%nat ->
  same_page l va va' <-> forall n, off_bits l <= n < 48 -> Z.testbit va n = Z.testbit va' n.
Proof.
  intros Hl. unfold same_page. split.
  - intros Hs n Hn. set (k := Z.to_nat ((n - 12) / 9)). unfold off_bits in Hn.
    pose proof (Z.div_mod (n - 12) 9 ltac:(lia)). pose proof (Z.mod_pos_bound (n - 12) 9 ltac:(lia)).
    assert (Z.of_nat k = (n - 12) / 9) as Ek by (unfold k; lia).
    apply (index_eq_bits va va' k); [apply Hs; lia | unfold off_bits; lia].
  - intros Hb k Hk. apply index_eq_bits. intros n Hn. apply Hb. unfold off_bits in *. lia.
Qed.

Lemma same_page_low48 l va va' : (l <= 3)%nat ->
  same_page l va va' <-> low48 va / level_size l = low48 va' / level_size l.
Proof.
  intros Hl. rewrite same_page_bits by done. unfold level_size.
  assert (0 <= off_bits l) by (unfold off_bits; lia). rewrite <- !Z.shiftr_div_pow2 by done. split.
  - intros Hb. apply Z.bits_inj'. intros n Hn. rewrite !Z.shiftr_spec, !low48_testbit by lia.
    destruct (Z.ltb_spec (n + off_bits l) 48); [| done]. cbn. apply Hb. lia.
  - intros E n Hn. apply (f_equal (fun x => Z.testbit x (n - off_bits l))) in E.
    rewrite !Z.shiftr_spec, !low48_testbit, Z.sub_add in E by lia.
    by rewrite (proj2 (Z.ltb_lt _ _)) in E by lia.
Qed.

Lemma level_size_48 l : (l <= 3)%nat -> (level_size l | 2 ^ 48).
Proof.
  intros Hl. exists (2 ^ (48 - off_bits l)). unfold level_size, off_bits. rewrite <- Z.pow_add_r by lia. f_equal. lia.
Qed.

Lemma low48_aligned l va : (l <= 3)%nat -> (level_size l | va) -> (level_size l | low48 va).
Proof.
  intros Hl Hd. unfold low48. rewrite Z.mod_eq by lia. apply Z.divide_sub_r; [done |].
  apply Z.divide_mul_l. by apply level_size_48.
Qed.

(** The addresses of one page are the next [level_size l] ones. *)
Lemma same_page_range l va va' : (l <= 3)%nat -> (level_size l | va) ->
  same_page l va' va <-> low48 va <= low48 va' < low48 va + level_size l.
Proof.
  intros Hl Hd. rewrite same_page_low48 by done. pose proof (level_size_pos l).
  destruct (low48_aligned l va Hl Hd) as [q Eq]. rewrite Eq, Z.div_mul by lia.
  pose proof (Z.div_mod (low48 va') (level_size l) ltac:(lia)).
  pose proof (Z.mod_pos_bound (low48 va') (level_size l) ltac:(lia)). split; [intros <-; nia |].
  intros Hr. symmetry. apply (Z.div_unique _ _ _ (low48 va' - q * level_size l)); lia.
Qed.

Lemma page_fits_48 l va : (l <= 3)%nat -> (level_size l | va) -> low48 va + level_size l <= 2 ^ 48.
Proof.
  intros Hl Hd. destruct (low48_aligned l va Hl Hd) as [q Eq]. destruct (level_size_48 l Hl) as [m Em].
  pose proof (low48_bound va) as Hb. pose proof (level_size_pos l) as Hp. rewrite Em, Eq in *.
  assert (q < m) by (apply (Zmult_gt_0_lt_reg_r _ _ (level_size l)); lia). nia.
Qed.

Lemma low48_add va d : 0 <= d -> low48 va + d < 2 ^ 48 -> low48 (va + d) = low48 va + d.
Proof.
  intros Hd Hb. unfold low48 in *. rewrite <- Zplus_mod_idemp_l. apply Z.mod_small.
  pose proof (Z.mod_pos_bound va (2 ^ 48) ltac:(lia)). lia.
Qed.

Section boot.
Context {P : Type} `{PmmLaws P} (hhdm root : Z).
Implicit Types (s : PtState P).

(** Every table is there for some mapped address. *)
Definition tight s : Prop :=
  forall l p a, reach (frames s) root l p a -> (l < 3)%nat ->
    exists va, vpath va l = p /\ pt_translate (frames s) root va <> None.

Lemma look_leaf fr l a va e : reach fr root l (vpath va l) a -> entry_at fr a (next_level_index va l) = Some e ->
  present e = true -> last e = true -> pt_translate fr root va = Some (addr_bits l e).
Proof.
  intros Hr He Hp Hl. unfold pt_translate. rewrite (look_from fr root l _ a Hr va eq_refl).
  destruct l; cbn [look]; by rewrite He, Hl, Hp.
Qed.

(** In tight tables a page without translations is free to map. *)
Lemma tight_unmapped s l va : pt_inv hhdm root s -> tight s -> (l <= 2)%nat ->
  (forall va', same_page l va' va -> pt_translate (frames s) root va' = None) -> unmapped root s l va 1.
Proof.
  intros Hi Ht Hl Hno. assert (pt_translate (frames s) root va = None) as Hva by (apply Hno; done). split.
  - intros m a e Hm Hr He Hp. destruct (last e) eqn:El; [| done].
    by rewrite (look_leaf _ m a va e Hr He Hp El) in Hva.
  - intros a k e Hr Hk He. assert (k = 0%nat) as -> by lia. rewrite Nat.add_0_r in He.
    destruct (present e) eqn:Ep; [| done]. destruct (last e) eqn:El.
    { by rewrite (look_leaf _ l a va e Hr He Ep El) in Hva. }
    destruct (entry_on_path _ _ _ _ _ _ va (pi_tree _ _ _ Hi) Hr) as (e' & He' & [_ _ Htab]).
    rewrite He in He'. injection He' as <-. destruct l as [| l]; [pose proof (Htab (conj Ep El)); lia |].
    destruct (Ht l (vpath va (S l) ++ [next_level_index va (S l)]) (addr_bits 0 e)) as (va' & Hv & Hsome);
      [by apply (reach_step _ _ _ _ a) | lia |].
    destruct Hsome. apply Hno. apply same_page_vpath; [lia |]. rewrite <- vpath_S in Hv by lia.
    apply (vpath_up va va' l); [done | lia].
Qed.

(** One page mapped. *)
Lemma map_one s l va phys flags : pt_inv hhdm root s -> tight s -> (l <= 2)%nat ->
  (level_size l | va) -> 0 <= va -> (level_size l | phys) -> 0 <= phys -> phys + level_size l <= usize_MAX ->
  0 <= flags < 4096 -> Z.testbit flags 7 = false -> walkable root s l va ->
  (forall va', same_page l va' va -> pt_translate (frames s) root va' = None) ->
  exists s', PageTable_map_pages hhdm s root va phys 1 (level_size l) flags = Done (Ok (), s') /\
    pt_inv hhdm root s' /\ tight s' /\
    (forall va', same_page l va' va -> pt_translate (frames s') root va' = Some phys) /\
    (forall va', ~ same_page l va' va -> pt_translate (frames s') root va' = pt_translate (frames s) root va') /\
    (forall k, free_pages (pmm s) (3 + k) -> free_pages (pmm s') k) /\
    (forall a, reach (frames s) root l (vpath va l) a -> pmm s' = pmm s) /\
    (exists a, reach (frames s') root l (vpath va l) a).
Proof.
  intros Hi Ht Hl Hva Hva0 Hph Hph0 Hmax Hf H7 Hfp Hno.
  assert (request_ok l va phys 1 flags) as Hrq.
  { split; try done; [lia |]. pose proof (next_level_index_lt va l). lia. }
  destruct (map_pages_gen hhdm root s l va phys 1 flags Hi Hrq (tight_unmapped s l va Hi Ht Hl Hno) Hfp)
    as (s' & E & Hi' & Hin & Hout & _ & Hk & Hre & _ & _ & _ & Hsame & Hreach).
  assert (forall va', same_page l va' va -> pt_translate (frames s') root va' = Some phys) as Hin'.
  { intros va' Hs. specialize (Hin 0%nat va' ltac:(lia)). rewrite Z.mul_0_l, !Z.add_0_r in Hin. auto. }
  assert (forall va', ~ same_page l va' va -> pt_translate (frames s') root va' = pt_translate (frames s) root va') as Hout'.
  { intros va' Hs. apply Hout. intros k Hk1. assert (k = 0%nat) as -> by lia. by rewrite Z.mul_0_l, Z.add_0_r. }
  exists s'. split_and!; try done. intros m p a Hr Hm. destruct (Hre m p a Hr) as [Hr0 | [-> _]].
  - destruct (Ht m p a Hr0 Hm) as (va0 & Hv & Hs). exists va0. split; [done |].
    rewrite Hout'; [done |]. intros Hsp. by apply Hs, Hno.
  - exists va. split; [done |]. by rewrite Hin'.
Qed.

(** ** A range of memory *)
Definition in_range (v size : Z) (va : VirtAddr) : Prop := low48 v <= low48 va < low48 v + size.

(** The address translates to its page (of some size), and adding the offset
    into the page gives the byte at the same place of the physical range. *)
Definition goes_to s (va : VirtAddr) (byte : PhysAddr) : Prop :=
  exists l pa, (l <= 2)%nat /\ pt_translate (frames s) root va = Some pa /\
    (level_size l | pa) /\ pa + low48 va mod level_size l = byte.

(** All addresses of the page of size [level_size l] around [va] translate to
    [pa]: the page is mapped by one entry of that level or of a higher one. *)
Definition whole_page s (l : nat) (va : VirtAddr) (pa : PhysAddr) : Prop :=
  forall va', same_page l va' va -> pt_translate (frames s) root va' = Some pa.

(** What is left of a range starts with a page of a size, and with no larger. *)
Definition fits (l : nat) (v phys size : Z) : Prop := level_size l <= size /\ (level_size l | phys) /\ (level_size l | v).
Definition largest (l : nat) (v phys size : Z) : Prop :=
  (l <= 2)%nat /\ fits l v phys size /\ forall l', (l < l' <= 2)%nat -> ~ fits l' v phys size.

(** A range that can be mapped: whole pages, in machine range, which do not
    wrap around the 48 bits. *)
Record range_ok (v phys size : Z) : Prop := {
  ro_v : (SIZE_4KB | v) /\ 0 <= v /\ v + size <= usize_MAX;
  ro_phys : (SIZE_4KB | phys) /\ 0 <= phys /\ phys + size <= usize_MAX;
  ro_size : (SIZE_4KB | size) /\ 0 <= size;
  ro_48 : low48 v + size <= 2 ^ 48;
}.

Definition pages_of_size (size : Z) : nat := Z.to_nat (size / SIZE_4KB).

(** The 2MB slots that a range touches: three tables at most for each, one of
    every level below the top. *)
Definition slots (v size : Z) : nat := Z.to_nat ((v + size + SIZE_2MB - 1) / SIZE_2MB - v / SIZE_2MB).

(** [s'] is [s] with the range mapped, and nothing else changed; [m] pages of
    memory are enough for the tables. *)
Record range_mapped s s' (v phys size : Z) (m : nat) : Prop := {
  rm_inv : pt_inv hhdm root s';
  rm_tight : tight s';
  rm_in va : in_range v size va -> goes_to s' va (phys + (low48 va - low48 v));
  rm_large va : in_range v size va -> exists l pa, whole_page s' l va pa /\
    largest l (v + (pa - phys)) pa (size - (pa - phys)) /\ pa + low48 va mod level_size l = phys + (low48 va - low48 v);
  rm_out va : ~ in_range v size va -> pt_translate (frames s') root va = pt_translate (frames s) root va;
  rm_free k : free_pages (pmm s) (m + k) -> free_pages (pmm s') k;
}.

Lemma fits_test l v phys size :
  (level_size l <=? size) && (phys mod level_size l =? 0) && (v mod level_size l =? 0) = true <-> fits l v phys size.
Proof.
  pose proof (level_size_pos l). unfold fits. rewrite !andb_true_iff, Z.leb_le, !Z.eqb_eq, !mod0_divide by lia. tauto.
Qed.

Lemma fits_test_false l v phys size :
  (level_size l <=? size) && (phys mod level_size l =? 0) && (v mod level_size l =? 0) = false -> ~ fits l v phys size.
Proof. intros E Hf. apply fits_test in Hf. congruence. Qed.

Lemma pick_ok v phys size : range_ok v phys size -> size <> 0 ->
  exists l, pick_page_size v phys size = Done (level_size l) /\ largest l v phys size.
Proof.
  intros [[Hv [Hv0 _]] [Hp [Hp0 _]] [Hs Hs0] _] Hne.
  assert (SIZE_4KB <= size) by (destruct Hs as [q ->]; unfold SIZE_4KB in *; lia).
  unfold pick_page_size. change size_1gb with (level_size 2). change size_2mb with (level_size 1).
  change size_4kb with (level_size 0). unfold largest.
  destruct ((level_size 2 <=? size) && (phys mod level_size 2 =? 0) && (v mod level_size 2 =? 0)) eqn:E2.
  { exists 2%nat. apply fits_test in E2. split_and!; [done | lia | done | lia]. }
  apply fits_test_false in E2.
  destruct ((level_size 1 <=? size) && (phys mod level_size 1 =? 0) && (v mod level_size 1 =? 0)) eqn:E1.
  { exists 1%nat. apply fits_test in E1. split_and!; [done | lia | done |]. intros l' Hl. by assert (l' = 2%nat) as -> by lia. }
  apply fits_test_false in E1. assert (fits 0 v phys size) as H0'. { split; [done | by split]. }
  rewrite (proj2 (fits_test 0 v phys size) H0'). exists 0%nat. split_and!; [done | lia | done |].
  intros l' Hl. by assert (l' = 1%nat \/ l' = 2%nat) as [-> | ->] by lia.
Qed.

Lemma basic_divides l : (SIZE_4KB | level_size l).
Proof.
  exists (512 ^ Z.of_nat l). pose proof (level_size_add 0 l) as E. cbn [Nat.add] in E.
  rewrite E. change (level_size 0) with SIZE_4KB. lia.
Qed.

Lemma range_split l v phys size va : range_ok v phys size -> (l <= 2)%nat -> level_size l <= size ->
  (level_size l | v) ->
  (in_range v size va <-> same_page l va v \/ in_range (v + level_size l) (size - level_size l) va) /\
  ~ (same_page l va v /\ in_range (v + level_size l) (size - level_size l) va).
Proof.
  intros [_ _ _ H48] Hl Hle Hv. pose proof (level_size_pos l). rewrite (same_page_range l v va) by (done || lia).
  unfold in_range. destruct (decide (size = level_size l)) as [-> | Hne]; [lia |].
  rewrite (low48_add v) by lia. lia.
Qed.

Lemma range_rest l v phys size : range_ok v phys size -> (l <= 2)%nat -> level_size l <= size ->
  (level_size l | v) -> (level_size l | phys) -> range_ok (v + level_size l) (phys + level_size l) (size - level_size l).
Proof.
  intros [[Hv [Hv0 Hvm]] [Hp [Hp0 Hpm]] [Hs Hs0] H48] Hl Hle Hlv Hlp. pose proof (level_size_pos l).
  pose proof (basic_divides l) as Hb.
  split; [| | split; [by apply Z.divide_sub_r | lia] |].
  - split_and!; [by apply Z.divide_add_r | lia | lia].
  - split_and!; [by apply Z.divide_add_r | lia | lia].
  - destruct (decide (size = level_size l)) as [-> | Hne].
    + pose proof (low48_bound (v + level_size l)). lia.
    + rewrite low48_add by lia. lia.
Qed.

Lemma pages_step l size : (l <= 2)%nat -> level_size l <= size ->
  (1 + pages_of_size (size - level_size l) <= pages_of_size size)%nat.
Proof.
  intros Hl Hle. unfold pages_of_size. destruct (basic_divides l) as [q Eq]. pose proof (level_size_pos l).
  assert (1 <= q) by (unfold SIZE_4KB in *; lia).
  assert (size / SIZE_4KB = (size - level_size l) / SIZE_4KB + q) as ->.
  { rewrite <- Z.div_add by done. f_equal. lia. }
  assert (0 <= (size - level_size l) / SIZE_4KB) by (apply Z.div_pos; unfold SIZE_4KB; lia). lia.
Qed.

Lemma range_mapped_nil s v phys m : pt_inv hhdm root s -> tight s -> range_mapped s s v phys 0 m.
Proof. intros. split; try done; [unfold in_range; lia .. |]. intros k. apply free_pages_le. lia. Qed.

(** The first page of the range, then the rest of it. *)
Lemma range_mapped_cons s s1 s' l v phys size m m1 : range_ok v phys size -> largest l v phys size ->
  (forall va, same_page l va v -> pt_translate (frames s1) root va = Some phys) ->
  (forall va, ~ same_page l va v -> pt_translate (frames s1) root va = pt_translate (frames s) root va) ->
  (forall k, free_pages (pmm s) (m + k) -> free_pages (pmm s1) (m1 + k)) ->
  range_mapped s1 s' (v + level_size l) (phys + level_size l) (size - level_size l) m1 ->
  range_mapped s s' v phys size m.
Proof.
  intros Hro Hlg Hin Hout Hk [Hi Ht Hin' Hlg' Hout' Hk']. pose proof Hlg as (Hl & (Hle & Hp & Hv) & _).
  pose proof (level_size_pos l) as Hpos.
  assert (forall va, same_page l va v -> low48 va mod level_size l = low48 va - low48 v) as Hoff.
  { intros va Hs. apply (same_page_range l v va) in Hs; [| lia | done]. destruct (low48_aligned l v ltac:(lia) Hv) as [q Eq].
    symmetry. apply (Z.mod_unique_pos _ _ q); lia. }
  split; try done.
  - intros va Hva. destruct (range_split l v phys size va Hro Hl Hle Hv) as [Hsp Hdj].
    apply Hsp in Hva as [Hs | Hr].
    + exists l, phys. split_and!; [done | | done |]; [rewrite Hout'; [by apply Hin | tauto] |].
      by rewrite Hoff.
    + destruct (Hin' va Hr) as (j & pa & Hm & E & Hd & Eb). exists j, pa. split_and!; try done. rewrite Eb.
      assert (size <> level_size l) by (intros ->; unfold in_range in Hr; lia).
      rewrite low48_add; [lia | lia |]. destruct Hro. lia.
  - intros va Hva. destruct (range_split l v phys size va Hro Hl Hle Hv) as [Hsp Hdj].
    apply Hsp in Hva as [Hs | Hr].
    + exists l, phys. split_and!; [| by rewrite Z.sub_diag, Z.add_0_r, Z.sub_0_r | by rewrite Hoff].
      intros va' Hs'. destruct (range_split l v phys size va' Hro Hl Hle Hv) as [_ Hdj'].
      assert (same_page l va' v) as Hs'' by (intros k Hk0; by rewrite Hs', Hs). rewrite Hout' by tauto. by apply Hin.
    + destruct (Hlg' va Hr) as (j & pa & Hw & Hj & Eb). exists j, pa. split; [done |].
      replace (v + level_size l + (pa - (phys + level_size l))) with (v + (pa - phys)) in Hj by lia.
      replace (size - level_size l - (pa - (phys + level_size l))) with (size - (pa - phys)) in Hj by lia.
      split; [done |]. rewrite Eb. assert (size <> level_size l) by (intros ->; unfold in_range in Hr; lia).
      rewrite low48_add; [lia | lia |]. destruct Hro. lia.
  - intros va Hva. destruct (range_split l v phys size va Hro Hl Hle Hv) as [Hsp Hdj].
    rewrite Hout' by tauto. apply Hout. tauto.
  - intros k Hfp. by apply Hk', Hk.
Qed.

(** A page of 4KB ends its slot or stays in it; a larger one begins a slot. *)
Lemma slots_small v size : (level_size 0 | v) -> level_size 0 <= size -> 0 <= v ->
  (SIZE_2MB | v + level_size 0) /\ (S (slots (v + level_size 0) (size - level_size 0)) <= slots v size)%nat \/
  v / SIZE_2MB = (v + level_size 0) / SIZE_2MB /\ ~ (SIZE_2MB | v + level_size 0) /\
    slots (v + level_size 0) (size - level_size 0) = slots v size.
Proof.
  change (level_size 0) with 4096. intros [q ->] Hs Hv. unfold slots, SIZE_2MB.
  replace (q * 4096 + 4096 + (size - 4096)) with (q * 4096 + size) by lia.
  pose proof (Z.div_mod (q * 4096) (2097152) ltac:(lia)) as E1.
  pose proof (Z.mod_pos_bound (q * 4096) (2097152) ltac:(lia)).
  pose proof (Z.div_mod (q * 4096 + 4096) (2097152) ltac:(lia)) as E2.
  pose proof (Z.mod_pos_bound (q * 4096 + 4096) (2097152) ltac:(lia)).
  pose proof (Z.div_mod (q * 4096 + size + 2097152 - 1) (2097152) ltac:(lia)) as E3.
  pose proof (Z.mod_pos_bound (q * 4096 + size + 2097152 - 1) (2097152) ltac:(lia)).
  set (a := q * 4096 / _) in *. set (b := (q * 4096 + 4096) / _) in *. set (c := (q * 4096 + size + 2097152 - 1) / _) in *.
  set (ra := (q * 4096) mod _) in *. set (rb := (q * 4096 + 4096) mod _) in *.
  destruct (decide (rb = 0)) as [E | E].
  - left. split; [exists b; lia | lia].
  - right. assert (a = b) as <- by lia. split; [done |]. split; [| done]. intros [d Ed].
    assert (a = d) by (unfold a; lia). lia.
Qed.

Lemma slots_large l v size : (1 <= l <= 2)%nat -> (level_size l | v) -> level_size l <= size -> 0 <= v ->
  (SIZE_2MB | v) /\ (S (slots (v + level_size l) (size - level_size l)) <= slots v size)%nat.
Proof.
  intros Hl Hd Hs Hv. assert (exists n, level_size l = n * SIZE_2MB /\ 1 <= n) as (n & En & Hn).
  { destruct l as [| [| [| l]]]; try lia; [by exists 1 | by exists 512]. }
  rewrite En in *. split; [by destruct Hd as [q ->]; exists (q * n); lia |]. destruct Hd as [q ->]. unfold slots.
  replace (q * (n * SIZE_2MB)) with (q * n * SIZE_2MB) by lia.
  replace (q * n * SIZE_2MB + n * SIZE_2MB) with ((q * n + n) * SIZE_2MB) by lia.
  replace ((q * n + n) * SIZE_2MB + (size - n * SIZE_2MB)) with (q * n * SIZE_2MB + size) by lia. rewrite !Z.div_mul by done.
  assert (q * n + n <= (q * n * SIZE_2MB + size + SIZE_2MB - 1) / SIZE_2MB); [| lia].
  apply Z.div_le_lower_bound; unfold SIZE_2MB in *; lia.
Qed.

(** Addresses of one 2MB slot are under the same table of 4KB pages. *)
Lemma slot_path v v' : 0 <= v -> 0 <= v' -> v / SIZE_2MB = v' / SIZE_2MB -> vpath v 0 = vpath v' 0.
Proof.
  intros Hv Hv' E. assert (same_page 1 v v') as Hs.
  { apply same_page_bits; [lia |]. change (off_bits 1) with 21. intros n Hn.
    change SIZE_2MB with (2 ^ 21) in E. rewrite <- !Z.shiftr_div_pow2 in E by lia.
    apply (f_equal (fun x => Z.testbit x (n - 21))) in E. by rewrite !Z.shiftr_spec, Z.sub_add in E by lia. }
  apply same_page_vpath in Hs as [Hp Hi]; [| lia]. rewrite !(vpath_S _ 0) by lia. by rewrite Hp, Hi.
Qed.

(** Slots that may still take tables: all that the rest of the range touches,
    without the first if a 4KB page of it was mapped before. *)
Definition budget s (v size : Z) (m : nat) : Prop :=
  (slots v size <= m)%nat \/
  (slots v size <= S m)%nat /\ ~ (SIZE_2MB | v) /\ exists a, reach (frames s) root 0 (vpath v 0) a.

Lemma slots_pos v size : 0 <= v -> 0 < size -> (0 < slots v size)%nat.
Proof.
  intros Hv Hs. unfold slots. replace (v + size + SIZE_2MB - 1) with (v + size - 1 + 1 * SIZE_2MB) by lia.
  rewrite Z.div_add by done. pose proof (Z.div_le_mono v (v + size - 1) SIZE_2MB ltac:(done) ltac:(lia)). lia.
Qed.

(** One page of the range: what it takes and what it leaves to the rest. *)
Lemma budget_step s s1 l v size m : (l <= 2)%nat -> (level_size l | v) -> level_size l <= size -> 0 <= v -> budget s v size m ->
  free_pages (pmm s) (3 * m) ->
  walkable root s l v /\
  ((forall k, free_pages (pmm s) (3 + k) -> free_pages (pmm s1) k) ->
   (forall a, reach (frames s) root l (vpath v l) a -> pmm s1 = pmm s) ->
   (exists a, reach (frames s1) root l (vpath v l) a) ->
   exists m1, budget s1 (v + level_size l) (size - level_size l) m1 /\
     forall k, free_pages (pmm s) (3 * m + k) -> free_pages (pmm s1) (3 * m1 + k)).
Proof.
  intros Hl Hd Hs Hv Hb Hfp. pose proof (level_size_pos l). pose proof (slots_pos v size Hv ltac:(lia)) as Hpos.
  destruct l as [| l].
  - pose proof (slots_small v size Hd Hs Hv) as Hst. destruct Hb as [Hb | (Hb & Hn & a & Ha)].
    + split; [right; revert Hfp; apply free_pages_le; lia |]. intros Hk _ [a Ha]. exists (m - 1)%nat. split.
      * destruct Hst as [[_ Hst] | (E & Hn & Es)]; [left; lia | right]. split; [lia |]. split; [done |].
        exists a. rewrite <- (slot_path v); [done | done | lia | done].
      * intros k Hf. apply Hk. by replace (3 + (3 * (m - 1) + k))%nat with (3 * m + k)%nat by lia.
    + split; [left; by exists a |]. intros _ Hsame [a' Ha']. exists m. split.
      * destruct Hst as [[_ Hst] | (E & Hn' & Es)]; [left; lia | right]. split; [lia |]. split; [done |].
        exists a'. rewrite <- (slot_path v); [done | done | lia | done].
      * intros k. by rewrite (Hsame a Ha).
  - destruct (slots_large (S l) v size ltac:(lia) Hd Hs Hv) as [Hd2 Hst]. destruct Hb as [Hb | (_ & Hn & _)]; [| done].
    split; [right; revert Hfp; apply free_pages_le; lia |]. intros Hk _ _. exists (m - 1)%nat. split; [left; lia |].
    intros k Hf. apply Hk. by replace (3 + (3 * (m - 1) + k))%nat with (3 * m + k)%nat by lia.
Qed.

Lemma map_in_entry_loop_ok flags n : 0 <= flags < 4096 -> Z.testbit flags 7 = false ->
  forall s v phys size m, pt_inv hhdm root s -> tight s -> range_ok v phys size -> (pages_of_size size <= n)%nat ->
  budget s v size m -> free_pages (pmm s) (3 * m) ->
  (forall va, in_range v size va -> pt_translate (frames s) root va = None) ->
  exists s', map_in_entry_loop hhdm n s root v phys size flags None = Done s' /\ range_mapped s s' v phys size (3 * m).
Proof.
  intros Hf H7. induction n as [| n IH]; intros s v phys size m Hi Ht Hro Hn Hb Hfp Hno; cbn [map_in_entry_loop].
  all: destruct (Z.eqb_spec size 0) as [-> | Hne]; [exists s; split; [done | by apply range_mapped_nil] |].
  all: destruct (pick_ok v phys size Hro Hne) as (l & Epick & Hlg).
  all: pose proof Hlg as (Hl & (Hle & Hlp & Hlv) & _).
  all: pose proof (pages_step l size Hl Hle) as Hst.
  { lia. }
  rewrite Epick, bind_Done. pose proof Hro as [[_ [Hv0 Hvm]] [_ [Hp0 Hpm]] _ _].
  destruct (budget_step s s l v size m Hl Hlv Hle Hv0 Hb Hfp) as [Hw _].
  destruct (map_one s l v phys flags) as (s1 & -> & Hi1 & Ht1 & Hin & Hout & Hk & Hsame & Hreach); try done; [lia | |].
  { intros va Hs. apply Hno. apply (range_split l v phys size va Hro Hl Hle Hlv). by left. }
  destruct (budget_step s s1 l v size m Hl Hlv Hle Hv0 Hb Hfp) as [_ Hrest].
  destruct (Hrest Hk Hsame Hreach) as (m1 & Hb1 & Hk1).
  rewrite bind_Done. cbn [unwrap_ok]. rewrite bind_Done, usize_sub_ok, bind_Done by done.
  pose proof (level_size_pos l). rewrite !usize_add_ok, !bind_Done by lia.
  destruct (IH s1 (v + level_size l) (phys + level_size l) (size - level_size l) m1) as (s' & -> & Hrm); try done.
  - by apply range_rest.
  - lia.
  - rewrite <- (Nat.add_0_r (3 * m1)). apply Hk1. by rewrite Nat.add_0_r.
  - intros va Hva. destruct (range_split l v phys size va Hro Hl Hle Hlv) as [Hsp Hdj].
    rewrite Hout by tauto. apply Hno. tauto.
  - exists s'. split; [done |]. by apply (range_mapped_cons s s1 s' l _ _ _ _ (3 * m1)).
Qed.

(** ** The ranges of a memory map *)
Record Range := mkRange { r_virt : Z; r_phys : Z; r_size : Z }.

Definition r_ok (r : Range) : Prop := range_ok (r_virt r) (r_phys r) (r_size r).
Definition r_in (r : Range) (va : VirtAddr) : Prop := in_range (r_virt r) (r_size r) va.
Definition r_byte (r : Range) (va : VirtAddr) : PhysAddr := r_phys r + (low48 va - low48 (r_virt r)).
Definition r_disjoint (r r' : Range) : Prop := forall va, ~ (r_in r va /\ r_in r' va).
(** Pages that are enough for the tables of a range and of several. *)
Definition range_tables (r : Range) : nat := 3 * slots (r_virt r) (r_size r).
Definition tables_of (rs : list Range) : nat := sum_list_with range_tables rs.

Record ranges_mapped s s' (rs : list Range) : Prop := {
  rsm_inv : pt_inv hhdm root s';
  rsm_tight : tight s';
  rsm_in r va : r ∈ rs -> r_in r va -> goes_to s' va (r_byte r va);
  rsm_out va : (forall r, r ∈ rs -> ~ r_in r va) -> pt_translate (frames s') root va = pt_translate (frames s) root va;
  rsm_free k : free_pages (pmm s) (tables_of rs + k) -> free_pages (pmm s') k;
}.

Lemma ranges_mapped_nil s : pt_inv hhdm root s -> tight s -> ranges_mapped s s [].
Proof. intros. split; try done. by intros r va []%not_elem_of_nil. Qed.

Lemma ranges_mapped_cons s s1 s' r rs : range_mapped s s1 (r_virt r) (r_phys r) (r_size r) (range_tables r) ->
  (forall r', r' ∈ rs -> r_disjoint r r') -> ranges_mapped s1 s' rs -> ranges_mapped s s' (r :: rs).
Proof.
  intros [_ _ Hin _ Hout Hk] Hdj [Hi Ht Hin' Hout' Hk']. split; try done.
  - intros r' va [-> | Hr']%elem_of_cons Hva; [| by apply Hin'].
    destruct (Hin va Hva) as (l & pa & ? & E & ? & ?). exists l, pa. split_and!; try done.
    rewrite Hout'; [done |]. intros r' Hr' Hva'. by apply (Hdj r' Hr' va).
  - intros va Hva. rewrite Hout' by (intros r' Hr'; apply Hva; by right). apply Hout.
    apply (Hva r). by left.
  - intros k Hfp. apply Hk', Hk. revert Hfp. apply free_pages_le. unfold tables_of. cbn [sum_list_with]. lia.
Qed.

Lemma map_range_ok s r flags : pt_inv hhdm root s -> tight s -> r_ok r -> 0 <= flags < 4096 ->
  Z.testbit flags 7 = false -> free_pages (pmm s) (range_tables r) ->
  (forall va, r_in r va -> pt_translate (frames s) root va = None) ->
  exists s', map_in_entry hhdm s root (r_virt r) (r_phys r) (r_size r) flags None = Done s' /\
    range_mapped s s' (r_virt r) (r_phys r) (r_size r) (range_tables r).
Proof.
  intros Hi Ht Hr Hf H7 Hfp Hno. apply (map_in_entry_loop_ok flags); try done. by left.
Qed.

(** What each entry of the memory map is mapped to; entries of the other
    types are left out. *)
Definition entry_range (kernel_virt : VirtAddr) (kernel_phys : PhysAddr) (e : MemEntry) : option Range :=
  match entry_type e with
  | EXECUTABLE_AND_MODULES => Some (mkRange kernel_virt kernel_phys (length_ e))
  | ACPI_RECLAIMABLE | BOOTLOADER_RECLAIMABLE | USABLE => Some (mkRange (base e + hhdm) (base e) (length_ e))
  | _ => None
  end.

Lemma map_mem_entry_ok fb s kv kp e : pt_inv hhdm root s -> tight s ->
  (fb = true -> entry_type e <> FRAMEBUFFER) ->
  match entry_range kv kp e with
  | None => map_mem_entry hhdm fb s root kv kp e = Done s
  | Some r => r_ok r -> free_pages (pmm s) (range_tables r) ->
      (forall va, r_in r va -> pt_translate (frames s) root va = None) ->
      exists s', map_mem_entry hhdm fb s root kv kp e = Done s' /\
        range_mapped s s' (r_virt r) (r_phys r) (r_size r) (range_tables r)
  end.
Proof.
  intros Hi Ht Hfb. unfold entry_range, map_mem_entry.
  assert (forall r, r_virt r = base e + hhdm -> r_phys r = base e -> r_ok r ->
    PhysAddr_add_hhdm_offset hhdm (base e) = Done (r_virt r)) as Hadd.
  { intros r Ev E [[_ [Hv Hm]] _ [_ Hs] _]. rewrite Ev in *. by apply usize_add_ok; lia. }
  destruct (entry_type e); try done.
  all: try (destruct fb; [by specialize (Hfb eq_refl) | done]).
  all: intros Hr Hfp Hno; try (rewrite (Hadd (mkRange (base e + hhdm) (base e) (length_ e)) eq_refl eq_refl Hr), bind_Done).
  4: by apply (map_range_ok s (mkRange kv kp (length_ e))).
  all: by apply (map_range_ok s (mkRange (base e + hhdm) (base e) (length_ e))).
Qed.

Lemma map_mem_entries_ok fb kv kp entries : (fb = true -> Forall (fun e => entry_type e <> FRAMEBUFFER) entries) ->
  forall s, pt_inv hhdm root s -> tight s -> let rs := omap (entry_range kv kp) entries in
  Forall r_ok rs -> ForallOrdPairs r_disjoint rs -> free_pages (pmm s) (tables_of rs) ->
  (forall r va, r ∈ rs -> r_in r va -> pt_translate (frames s) root va = None) ->
  exists s', map_mem_entries hhdm fb s root kv kp entries = Done s' /\ ranges_mapped s s' rs.
Proof.
  induction entries as [| e entries IH]; intros Hfb s Hi Ht rs Hok Hdj Hfp Hno; subst rs; cbn [map_mem_entries].
  { exists s. split; [done | by apply ranges_mapped_nil]. }
  assert (fb = true -> entry_type e <> FRAMEBUFFER) as Hfb1 by (intros E; by apply Hfb in E as [? _]%Forall_cons).
  assert (fb = true -> Forall (fun e => entry_type e <> FRAMEBUFFER) entries) as Hfb2
    by (intros E; by apply Hfb in E as [_ ?]%Forall_cons).
  pose proof (map_mem_entry_ok fb s kv kp e Hi Ht Hfb1) as Hone. cbn [omap list_omap] in *.
  destruct (entry_range kv kp e) as [r |]; [| by rewrite Hone, bind_Done; apply IH].
  apply Forall_cons in Hok as [Hr Hok]. inversion Hdj as [| ? ? Hd Hdj']; subst.
  rewrite Forall_forall in Hd. unfold tables_of in Hfp. cbn [sum_list_with] in Hfp.
  destruct Hone as (s1 & -> & Hrm); [done | | |].
  - revert Hfp. apply free_pages_le. unfold tables_of. cbn [sum_list_with]. lia.
  - intros va. apply Hno. by left.
  - rewrite bind_Done. destruct (IH Hfb2 s1) as (s' & -> & Hrms); [apply Hrm | apply Hrm | done | done | | |].
    + apply Hrm. revert Hfp. apply free_pages_le. unfold tables_of. cbn [sum_list_with]. lia.
    + intros r' va Hr' Hva. rewrite (rm_out _ _ _ _ _ _ Hrm).
      * apply (Hno r'); [by right | done].
      * intros Hin. by apply (Hd r' Hr' va).
    + exists s'. split; [done |]. by apply (ranges_mapped_cons s s1).
Qed.
End boot.

(** ** The new top-level table *)
Section root.
Context {P : Type} `{PmmLaws P} (hhdm : Z).
Implicit Types (s : PtState P).

Definition zero_table (fr : frameset) (root : Z) : Prop := fr !! root = Some (replicate ENTRIES_PER_TABLE 0).

Lemma zero_entry fr root i e : zero_table fr root -> entry_at fr root i = Some e -> e = 0 /\ (i < 512)%nat.
Proof. unfold zero_table, entry_at. intros ->. cbn [mbind option_bind]. by intros [-> ?]%lookup_replicate. Qed.

Lemma zero_reach fr root l p a : zero_table fr root -> reach fr root l p a -> l = 3%nat /\ p = [] /\ a = root.
Proof.
  intros Hz. induction 1 as [| l p a i e _ (_ & -> & ->) He [Hp _]]; [done |].
  apply (zero_entry _ _ _ _ Hz) in He as [-> _]. done.
Qed.

Lemma zero_inv s root : zero_table (frames s) root -> pmm_ready (pmm s) -> ~ pmm_free_page (pmm s) root ->
  0 < root + hhdm <= usize_MAX -> (forall a, pmm_free_page (pmm s) a -> 0 < a + hhdm <= usize_MAX) ->
  pt_inv hhdm root s.
Proof.
  intros Hz Hr Hn Hh Hf. split; try done.
  - split.
    + intros l q a i (-> & -> & ->)%(zero_reach _ _ _ _ _ Hz) Hi. exists 0. split.
      * unfold entry_at. rewrite Hz. cbn [mbind option_bind]. by apply lookup_replicate.
      * split; [by vm_compute | done | by intros []].
    + intros l q a l' q' (_ & -> & _)%(zero_reach _ _ _ _ _ Hz) (_ & -> & _)%(zero_reach _ _ _ _ _ Hz). done.
    + by intros l q a (_ & _ & ->)%(zero_reach _ _ _ _ _ Hz).
  - intros l q a i e (_ & _ & ->)%(zero_reach _ _ _ _ _ Hz) He _. by apply (zero_entry _ _ _ _ Hz) in He as [-> _].
  - by intros l q a (_ & _ & ->)%(zero_reach _ _ _ _ _ Hz).
Qed.

Lemma zero_translate fr root va : zero_table fr root -> pt_translate fr root va = None.
Proof.
  intros Hz. unfold pt_translate. cbn [look]. destruct (entry_at fr root _) as [e |] eqn:E; [| done].
  by apply (zero_entry _ _ _ _ Hz) in E as [-> _].
Qed.

Lemma new_root s : pmm_ready (pmm s) -> free_pages (pmm s) 1 ->
  (forall a, pmm_free_page (pmm s) a -> 0 < a + hhdm <= usize_MAX) ->
  exists a s', PageTable_new hhdm s = Done (a, s') /\ pt_inv hhdm a s' /\ tight a s' /\
    (forall va, pt_translate (frames s') a va = None) /\
    (forall n, free_pages (pmm s) (S n) -> free_pages (pmm s') n) /\
    (BASIC_PAGE_SIZE | a) /\ 0 <= a < 2 ^ 63.
Proof.
  intros Hrd Hfp Hh. unfold PageTable_new. change (page_alignment size_4kb) with 1.
  destruct (pmm_allocate_page (pmm s) Hrd) as [(b & p' & -> & Hrd' & Hb & Hfree & _) | [_ Hno]].
  2:{ destruct Hfp as ([| f fs] & _ & Hlen & Hfs); [done |]. destruct (Hno f). apply Hfs. by left. }
  rewrite bind_Done. cbn [unwrap_ok]. rewrite bind_Done. pose proof (Hh b Hb) as Hhb.
  unfold table_of, PhysAddr_add_hhdm_offset. rewrite usize_add_ok, bind_Done by lia.
  rewrite (proj2 (Z.eqb_neq _ _)), bind_Done by lia.
  set (s' := mkPtState (<[b := replicate ENTRIES_PER_TABLE 0]> (frames s)) p').
  assert (zero_table (frames s') b) as Hz by apply lookup_insert_eq.
  exists b, s'. split_and!; [done | | | | | by apply (pmm_page_bounds (pmm s)) ..].
  - apply zero_inv; cbn [pmm s']; [done | done | rewrite Hfree; tauto | done |]. intros a [Ha _]%Hfree. by apply Hh.
  - intros l p a (-> & _)%(zero_reach _ _ _ _ _ Hz) Hl. lia.
  - intros va. by apply zero_translate.
  - intros n Hn. by eapply free_pages_take.
Qed.

(** ** The processor after [finalize_init] *)
Definition cpu_supports (c : Cpu) : Prop :=
  Z.testbit (cpuid_1_edx c) 12 = true /\ Z.testbit (cpuid_1_edx c) 16 = true /\
  Z.testbit (cpuid_80000001_edx c) 20 = true.

Lemma finalize_ok c a : cpu_supports c -> is_usize (ia32_pat c) -> (BASIC_PAGE_SIZE | a) -> 0 <= a < 2 ^ 63 ->
  exists c', finalize_init c a = Done c' /\ Z.shiftl (top_pml c') 12 = a /\ pge c' = 1 /\
    Z.testbit (MsrData_into_u64 (efer c')) 11 = true /\
    (forall t, PatEntry_get_type (ia32_pat c') (PatEntry_from t) = Done t).
Proof.
  intros (H12 & H16 & H20) Hp [q Eq] Ha. unfold finalize_init, check_pge_support.
  fold (Flags_get (cpuid_1_edx c) (Z.shiftl 1 12)). rewrite Flags_get_bit, H12 by lia. cbn [assert_]. rewrite bind_Done.
  destruct (proj2 (setup_pat_ok (cpuid_1_edx c) (ia32_pat c) Hp) H16) as (pat' & -> & Ht & _). rewrite bind_Done.
  unfold enable_nx, check_nx_support. cbn [cpuid_80000001_edx efer].
  fold (Flags_get (cpuid_80000001_edx c) (Z.shiftl 1 20)). rewrite Flags_get_bit, H20 by lia. cbn [assert_]. rewrite !bind_Done.
  unfold BASIC_PAGE_SIZE in Eq. assert (Z.shiftr a 12 = q) as Es.
  { rewrite Z.shiftr_div_pow2 by lia. change (2 ^ 12) with 4096. subst a. by rewrite Z.div_mul. }
  rewrite Es. rewrite (proj2 (Z.ltb_lt _ _)) by lia. cbn [assert_]. rewrite bind_Done.
  eexists. split; [done |]. cbn [top_pml pge ia32_pat efer]. split_and!; [| done | | done].
  - rewrite Z.shiftl_mul_pow2 by lia. subst a. change (2 ^ 12) with 4096. lia.
  - unfold MsrData_into_u64, MsrData_from_u64. cbn [low high]. change 0xFFFFFFFF with (Z.ones 32).
    rewrite !Z.lor_spec, Z.land_spec, Z.lor_spec, (testbit_ones_le 32) by lia.
    change (Z.testbit Efer_NX 11) with true. by rewrite !orb_true_r.
Qed.
End root.
