(* ===== verification/BootTheorems.v ===== *)
(** * What the tables built at boot translate

    The guarantees of [map_in_entry] and [init_from_limine] of
    [kernel/src/arch/x86_64/paging/mod.rs], for any physical memory manager
    that satisfies [PmmLaws]; the witnesses run on a free list of pages. *)

From S2P Require Import Prelude Pmm PageFlags PageTable PageTableCorrect PageTableTheorems Paging BootMap.

Section claims.
Context {P : Type} `{PmmLaws P} (hhdm : Z).
Implicit Types (s : PtState P).

(** The entry that holds the memory manager's own buffer comes first; the
    other entries are mapped by their type. *)
Definition boot_ranges (mem_map : list MemEntry) (kernel_virt : VirtAddr) (kernel_phys : PhysAddr)
    (used_by_pmm : MemEntry) : list Range :=
  mkRange (base used_by_pmm + hhdm) (base used_by_pmm) (length_ used_by_pmm) ::
  omap (entry_range hhdm kernel_virt kernel_phys)
    (List.filter (fun entry => negb (base entry =? base used_by_pmm)) mem_map).

(** Ranges of whole pages that do not overlap, and pages enough for the tables
    (three at most for each 2MB slot that a range touches). *)
Record bootable s (rs : list Range) : Prop := {
  ba_ready : pmm_ready (pmm s);
  ba_hhdm a : pmm_free_page (pmm s) a -> 0 < a + hhdm <= usize_MAX;
  ba_ok : Forall r_ok rs;
  ba_disjoint : ForallOrdPairs r_disjoint rs;
  ba_pages : free_pages (pmm s) (S (tables_of rs));
}.

Lemma filter_no_framebuffer fb (f : MemEntry -> bool) mem_map :
  (fb = true -> Forall (fun e => entry_type e <> FRAMEBUFFER) mem_map) ->
  fb = true -> Forall (fun e => entry_type e <> FRAMEBUFFER) (List.filter f mem_map).
Proof.
  intros Hm Hfb. apply Hm in Hfb. rewrite Forall_forall in *. intros e He.
  apply Hfb. apply list_elem_of_In in He. apply filter_In in He as [He _]. by apply list_elem_of_In.
Qed.

Lemma boot_map_ok fb s c mem_map kv kp used : let rs := boot_ranges mem_map kv kp used in
  bootable s rs -> (fb = true -> Forall (fun e => entry_type e <> FRAMEBUFFER) mem_map) ->
  cpu_supports c -> is_usize (ia32_pat c) ->
  exists root s0 s' c', paging_init_from_limine hhdm fb s c mem_map kv kp used = Done (s', c') /\
    ranges_mapped hhdm root s0 s' rs /\ (forall va, pt_translate (frames s0) root va = None) /\
    Z.shiftl (top_pml c') 12 = root /\ 0 < root + hhdm <= usize_MAX /\ pge c' = 1 /\
    Z.testbit (MsrData_into_u64 (efer c')) 11 = true /\
    (forall t, PatEntry_get_type (ia32_pat c') (PatEntry_from t) = Done t) /\
    (forall k, free_pages (pmm s) (S (tables_of rs + k)) -> free_pages (pmm s') k).
Proof.
  intros rs [Hrd Hh Hok Hdj Hfp] Hfb Hc Hp. subst rs.
  assert (free_pages (pmm s) 1) as Hf1 by (revert Hfp; apply free_pages_le; lia).
  destruct (new_root hhdm s Hrd Hf1 Hh) as (root & s0 & E0 & Hi & Ht & Hno & Hk0 & Ha & Hb).
  pose proof (Hk0 _ Hfp) as Hfp0.
  unfold paging_init_from_limine, boot_ranges in *. rewrite E0, bind_Done.
  set (r := mkRange _ _ _) in *. set (es := List.filter _ _) in *.
  apply Forall_cons in Hok as [Hr Hok]. inversion Hdj as [| ? ? Hd Hdj']; subst. rewrite Forall_forall in Hd.
  unfold tables_of in Hfp0. cbn [sum_list_with] in Hfp0.
  unfold PhysAddr_add_hhdm_offset. rewrite usize_add_ok, bind_Done by (destruct Hr as [[_ [_ Hm]] _ [_ Hs] _]; cbn in *; lia).
  destruct (map_range_ok hhdm root s0 r (set_read_write Flags_new true) Hi Ht Hr) as (s1 & E1 & Hrm);
    [by vm_compute | done | revert Hfp0; apply free_pages_le; cbn; lia | intros; apply Hno |].
  cbn [r r_virt r_phys r_size] in E1. rewrite E1, bind_Done.
  destruct (map_mem_entries_ok hhdm root fb kv kp es (filter_no_framebuffer _ _ _ Hfb) s1
    (rm_inv _ _ _ _ _ _ _ _ Hrm) (rm_tight _ _ _ _ _ _ _ _ Hrm) Hok Hdj') as (s' & -> & Hrms).
  - apply Hrm. revert Hfp0. apply free_pages_le. unfold tables_of. lia.
  - intros r' va Hr' Hva. rewrite (rm_out _ _ _ _ _ _ _ _ Hrm); [apply Hno |]. intros Hin. by apply (Hd r' Hr' va).
  - rewrite bind_Done. destruct (finalize_ok c root Hc Hp Ha Hb) as (c' & -> & Eroot & ? & ? & ?). rewrite bind_Done.
    pose proof (ranges_mapped_cons hhdm root s0 s1 s' r _ Hrm Hd Hrms) as Hall.
    exists root, s0, s', c'. split_and!; try done; [apply (to_hhdm _ _ _ (pi_tree _ _ _ Hi) 3 []); constructor .. |].
    intros k Hk%Hk0. by apply Hall.
Qed.

Lemma translate_pml cr3 s va root : Z.shiftl cr3 12 = root -> 0 < root + hhdm <= usize_MAX ->
  pt_inv hhdm root s -> translate hhdm cr3 s va = Done (pt_translate (frames s) root va).
Proof.
  intros <- Hr Hi. unfold translate, get_pml, table_of, PhysAddr_add_hhdm_offset.
  rewrite usize_add_ok, bind_Done by lia. rewrite (proj2 (Z.eqb_neq _ _)), bind_Done by lia.
  by apply translate_spec, Hi.
Qed.

(** C6: after [init_from_limine] every address of the memory manager's buffer,
    of the usable and reclaimable memory in the higher half and of the kernel
    translates to its physical byte, through pages of one of the three sizes;
    no other address translates; and global pages, the no-execute bit and the
    PAT are set up. *)
Theorem boot_tables_correct fb s c mem_map kv kp used : let rs := boot_ranges mem_map kv kp used in
  bootable s rs -> (fb = true -> Forall (fun e => entry_type e <> FRAMEBUFFER) mem_map) ->
  cpu_supports c -> is_usize (ia32_pat c) ->
  exists s' c', paging_init_from_limine hhdm fb s c mem_map kv kp used = Done (s', c') /\
    (forall r va, r ∈ rs -> r_in r va -> exists l pa, (l <= 2)%nat /\
       translate hhdm (top_pml c') s' va = Done (Some pa) /\ (level_size l | pa) /\
       pa + low48 va mod level_size l = r_byte r va) /\
    (forall va, (forall r, r ∈ rs -> ~ r_in r va) -> translate hhdm (top_pml c') s' va = Done None) /\
    pge c' = 1 /\ Z.testbit (MsrData_into_u64 (efer c')) 11 = true /\
    (forall t, PatEntry_get_type (ia32_pat c') (PatEntry_from t) = Done t).
Proof.
  intros rs Hb Hfb Hc Hp.
  destruct (boot_map_ok fb s c mem_map kv kp used Hb Hfb Hc Hp)
    as (root & s0 & s' & c' & E & [Hi _ Hin Hout _] & Hno & Er & Hr & Hg & Hnx & Hpat & _).
  pose proof (fun va => translate_pml (top_pml c') s' va root Er Hr Hi) as Ht.
  exists s', c'. split_and!; [done | | | done | done | done].
  - intros r va Hr' Hva. destruct (Hin r va Hr' Hva) as (l & pa & ? & Epa & ?). exists l, pa. by rewrite Ht, Epa.
  - intros va Hva. by rewrite Ht, Hout, Hno.
Qed.

(** C31: with tables in order and three free pages for each slot of 2MB that it
    touches, [map_in_entry] of a range of whole pages in which nothing is mapped
    terminates (here for flags without a memory type).  Every byte is mapped to
    the byte at the same place of the physical range; the page it is in starts
    at some offset of the range, is mapped whole, and has the largest of the
    sizes 1GB, 2MB and 4KB that fits there: aligned in both address spaces and
    no longer than what is left of the range.  No other translation changes. *)
Theorem map_in_entry_correct root s v phys size flags : pt_inv hhdm root s -> tight root s ->
  range_ok v phys size -> 0 <= flags < 4096 -> Z.testbit flags 7 = false ->
  free_pages (pmm s) (3 * slots v size) ->
  (forall va, in_range v size va -> PageTable_translate hhdm s root va = Done None) ->
  exists s', map_in_entry hhdm s root v phys size flags None = Done s' /\ pt_inv hhdm root s' /\ tight root s' /\
    (forall va, in_range v size va -> exists l pa,
       (forall va', same_page l va' va -> PageTable_translate hhdm s' root va' = Done (Some pa)) /\
       largest l (v + (pa - phys)) pa (size - (pa - phys)) /\
       pa + low48 va mod level_size l = phys + (low48 va - low48 v)) /\
    (forall va, ~ in_range v size va -> PageTable_translate hhdm s' root va = PageTable_translate hhdm s root va).
Proof.
  intros Hi Ht Hro Hf H7 Hfp Hno.
  destruct (map_range_ok hhdm root s (mkRange v phys size) flags Hi Ht Hro Hf H7 Hfp) as (s' & E & [Hi' Ht' _ Hlg Hout _]).
  { intros va Hva. specialize (Hno va Hva). rewrite translate_spec in Hno by apply Hi. by injection Hno. }
  exists s'. split_and!; try done.
  - intros va Hva. destruct (Hlg va Hva) as (l & pa & Hw & ? & ?). exists l, pa. split_and!; try done.
    intros va' Hs. rewrite translate_spec by apply Hi'. by rewrite Hw.
  - intros va Hva. rewrite !translate_spec by (apply Hi || apply Hi'). by rewrite Hout.
Qed.
End claims.

(** ** Witnesses: a free list of pages as the physical memory manager *)
#[export] Instance list_pmm : PmmAllocator (list PhysAddr) := {
  pmm_allocate p _ _ := match p with [] => Done (Err NoAvailableBlock, p) | r :: p => Done (Ok r, p) end;
  pmm_allocate_at p a _ :=
    if decide (a ∈ p) then Done (Ok (), list_difference p [a]) else Done (Err NoAvailableBlock, p);
  pmm_free p a _ := if decide (a ∈ p) then Done (Err FreeOfAlreadyFree, p) else Done (Ok (), a :: p);
  pmm_is_page_free p a _ := Done (Ok (bool_decide (a ∈ p)));
}.

Definition list_ready (p : list PhysAddr) : Prop :=
  NoDup p /\ forall a, a ∈ p -> (BASIC_PAGE_SIZE | a) /\ 0 <= a < 2 ^ 63.

Definition list_taken (p : list PhysAddr) (a : PhysAddr) : Prop :=
  (a ∉ p) /\ (BASIC_PAGE_SIZE | a) /\ 0 <= a < 2 ^ 63.

Lemma list_allocate_page p : list_ready p ->
  (exists r p', pmm_allocate p 1 1 = Done (Ok r, p') /\ list_ready p' /\ r ∈ p /\
     (forall a, a ∈ p' <-> a ∈ p /\ a <> r) /\ list_taken p' r /\ (forall a, list_taken p a -> list_taken p' a)) \/
  (pmm_allocate p 1 1 = Done (Err NoAvailableBlock, p) /\ forall a, a ∉ p).
Proof.
  intros [Hnd Hb]. destruct p as [| r p]; [right; split; [done | intros a; apply not_elem_of_nil] |].
  left. apply NoDup_cons in Hnd as [Hr Hnd]. exists r, p. split_and!; [done | split; [done |] | by left | | |].
  - intros a Ha. apply Hb. by right.
  - intros a. rewrite elem_of_cons. split; [intros Ha; split; [by right | by intros ->] | tauto].
  - split; [done |]. apply Hb. by left.
  - intros a [Ha Hab]. split; [| done]. intros Hin. apply Ha. by right.
Qed.

Lemma list_free_taken p a : list_ready p -> list_taken p a ->
  exists p', pmm_free p a 1 = Done (Ok (), p') /\ list_ready p' /\
    (forall b, b ∈ p' <-> b ∈ p \/ b = a) /\ (forall b, list_taken p b -> b <> a -> list_taken p' b).
Proof.
  intros [Hnd Hb] [Ha Hab]. exists (a :: p). split_and!.
  - cbn. by rewrite decide_False.
  - split; [by apply NoDup_cons |]. intros b [-> | Hin]%elem_of_cons; [done | by apply Hb].
  - intros b. rewrite elem_of_cons. tauto.
  - intros b [Hb1 Hb2] Hne. split; [| done]. by intros [-> | Hin]%elem_of_cons.
Qed.

#[export] Instance list_laws : PmmLaws (list PhysAddr) := {
  pmm_ready := list_ready;
  pmm_free_page p a := a ∈ p;
  pmm_taken := list_taken;
  pmm_page_bounds p a Hp := proj2 Hp a;
  pmm_allocate_page := list_allocate_page;
  pmm_free_taken := list_free_taken;
  pmm_taken_used p a _ Ha := Ha;
}.

Definition ex_frames (n : nat) : list PhysAddr := (fun i => 0x1000000 + Z.of_nat i * BASIC_PAGE_SIZE) <$> seq 0 n.

Lemma ex_frames_ready n : Z.of_nat n <= 2 ^ 40 -> list_ready (ex_frames n).
Proof.
  intros Hn. split.
  - apply NoDup_fmap_2; [| apply NoDup_seq]. intros i j E. unfold BASIC_PAGE_SIZE in E. lia.
  - intros a (i & -> & Hi%elem_of_seq)%list_elem_of_fmap. unfold BASIC_PAGE_SIZE. split; [| lia].
    exists (0x1000 + Z.of_nat i). lia.
Qed.

Lemma ex_frames_free n k : (k <= n)%nat -> Z.of_nat n <= 2 ^ 40 -> free_pages (ex_frames n) k.
Proof.
  intros Hk Hn. exists (ex_frames k). split_and!; [apply ex_frames_ready; lia | by unfold ex_frames; rewrite length_fmap, length_seq |].
  intros a (i & -> & Hi%elem_of_seq)%list_elem_of_fmap. apply list_elem_of_fmap. exists i. split; [done |].
  apply elem_of_seq. lia.
Qed.

Definition ex_boot_hhdm : Z := 0xffff800000000000.
Definition ex_boot_state : PtState (list PhysAddr) := mkPtState ∅ (ex_frames 3100).
Definition ex_cpu : Cpu := mkCpu 0 0 (mkMsrData 0x500 0) 0x0007040600070406 0x11000 0x100000.
Definition ex_used : MemEntry := mkMemEntry 0x1000 0x1000 USABLE.
Definition ex_boot_map : list MemEntry :=
  [ex_used; mkMemEntry 0x2000 0x1000 RESERVED_ENTRY; mkMemEntry 0x200000 0x200000 EXECUTABLE_AND_MODULES;
   mkMemEntry 0x3ff000 0x201000 USABLE; mkMemEntry 0xa0000000 0x1000 FRAMEBUFFER].
Definition ex_kernel_virt : VirtAddr := 0xffffffff80000000.

Ltac range_okay := split; cbn; [split_and!; [by apply mod0_divide | lia | by vm_compute] .. | split; [by apply mod0_divide | lia] | by vm_compute].

Definition ex_ranges : list Range :=
  [mkRange 0xffff800000001000 0x1000 0x1000; mkRange ex_kernel_virt 0x200000 0x200000;
   mkRange 0xffff8000003ff000 0x3ff000 0x201000].

Lemma ex_boot_ranges : boot_ranges ex_boot_hhdm ex_boot_map ex_kernel_virt 0x200000 ex_used = ex_ranges.
Proof. done. Qed.

Lemma ex_bootable : bootable ex_boot_hhdm ex_boot_state (boot_ranges ex_boot_hhdm ex_boot_map ex_kernel_virt 0x200000 ex_used).
Proof.
  rewrite ex_boot_ranges. split.
  - by apply ex_frames_ready.
  - intros a (i & -> & Hi%elem_of_seq)%list_elem_of_fmap. unfold ex_boot_hhdm, BASIC_PAGE_SIZE, usize_MAX. lia.
  - unfold ex_ranges, ex_kernel_virt. repeat (apply Forall_cons_2; [range_okay |]). done.
  - assert (low48 0xffff800000001000 = 0x800000001000) as E1 by done.
    assert (low48 ex_kernel_virt = 0xffff80000000) as E2 by done.
    assert (low48 0xffff8000003ff000 = 0x8000003ff000) as E3 by done.
    repeat constructor; intros va [H1 H2]; unfold r_in, in_range in *; cbn [r_virt r_size] in *;
      rewrite ?E1, ?E2, ?E3 in *; lia.
  - apply ex_frames_free; [vm_compute; lia | done].
Qed.

Lemma boot_tables_correct_witness :
  exists s' c', paging_init_from_limine ex_boot_hhdm false ex_boot_state ex_cpu ex_boot_map ex_kernel_virt 0x200000 ex_used
      = Done (s', c') /\
    (forall va, r_in (mkRange ex_kernel_virt 0x200000 0x200000) va -> exists l pa, (l <= 2)%nat /\
       translate ex_boot_hhdm (top_pml c') s' va = Done (Some pa) /\ (level_size l | pa) /\
       pa + low48 va mod level_size l = 0x200000 + (low48 va - 0xffff80000000)) /\ pge c' = 1.
Proof.
  destruct (boot_tables_correct ex_boot_hhdm false ex_boot_state ex_cpu ex_boot_map ex_kernel_virt 0x200000 ex_used
    ex_bootable ltac:(discriminate) ltac:(split_and!; reflexivity) ltac:(by vm_compute)) as (s' & c' & E & Hin & _ & Hg & _).
  exists s', c'. split_and!; [exact E | | exact Hg]. intros va Hva.
  refine (Hin (mkRange ex_kernel_virt 0x200000 0x200000) va _ Hva).
  right. left.
Defined.

Definition ex_empty_pt : PtState (list PhysAddr) := fresh_pt 0x6000 (ex_frames 100).

Lemma ex_fresh_inv n : Z.of_nat n <= 2 ^ 30 -> pt_inv ex_boot_hhdm 0x6000 (fresh_pt 0x6000 (ex_frames n)).
Proof.
  intros Hn. apply fresh_inv; [apply ex_frames_ready; lia | | by vm_compute |].
  - intros (i & E & _)%list_elem_of_fmap. unfold BASIC_PAGE_SIZE in E. lia.
  - intros a (i & -> & Hi%elem_of_seq)%list_elem_of_fmap. unfold ex_boot_hhdm, BASIC_PAGE_SIZE, usize_MAX. lia.
Qed.

Lemma ex_empty_inv : pt_inv ex_boot_hhdm 0x6000 ex_empty_pt.
Proof. apply ex_fresh_inv. lia. Qed.

Lemma ex_empty_tight : tight 0x6000 ex_empty_pt.
Proof. intros l p a [-> _]%fresh_reach Hl. lia. Qed.

(** Three pages below a boundary of 2MB and 2MB from it on: the byte at the
    boundary is in a page of 2MB. *)
Lemma map_in_entry_correct_witness :
  exists s', map_in_entry ex_boot_hhdm ex_empty_pt 0x6000 0xffff8000001fd000 0x1fd000 0x203000 FLAG_RW None = Done s' /\
    exists l pa, PageTable_translate ex_boot_hhdm s' 0x6000 0xffff800000200000 = Done (Some pa) /\
      largest l (0xffff8000001fd000 + (pa - 0x1fd000)) pa (0x203000 - (pa - 0x1fd000)) /\
      pa + low48 0xffff800000200000 mod level_size l = 0x200000.
Proof.
  destruct (map_in_entry_correct ex_boot_hhdm 0x6000 ex_empty_pt 0xffff8000001fd000 0x1fd000 0x203000 FLAG_RW
    ex_empty_inv ex_empty_tight ltac:(range_okay) ltac:(by vm_compute) eq_refl) as (s' & E & _ & _ & Hin & _).
  - apply ex_frames_free; [vm_compute; lia | done].
  - intros va _. rewrite translate_spec by apply ex_empty_inv. f_equal. apply zero_translate. by apply lookup_singleton_eq.
  - exists s'. split; [exact E |].
    assert (in_range 0xffff8000001fd000 0x203000 0xffff800000200000) as Hr by (split; vm_compute; [discriminate | reflexivity]).
    destruct (Hin 0xffff800000200000 Hr) as (l & pa & Hw & Hl & Eb).
    exists l, pa. split; [exact (Hw _ (fun k _ => eq_refl)) |]. exact (conj Hl Eb).
Defined.

(** A write-combining range, as the framebuffer's: [flags] is carried from one
    page to the next, so the PAT bit of a 4KB page (the page-size bit of a
    large one) makes the next 2MB page fail, and the PAT bit of a 2MB page
    (bit 12) goes into the address of the next 4KB page. *)
Example framebuffer_small_then_large :
  map_in_entry ex_boot_hhdm ex_empty_pt 0x6000 0xffff8000001ff000 0x1ff000 0x201000 FLAG_RW (Some WriteCombining)
    = Panic Unwrapped.
Proof. vm_compute. reflexivity. Qed.

Example framebuffer_large_then_small :
  (s ← map_in_entry ex_boot_hhdm ex_empty_pt 0x6000 0xffff800000200000 0x200000 0x201000 FLAG_RW (Some WriteCombining);
   a ← PageTable_translate ex_boot_hhdm s 0x6000 0xffff800000400000; Done a) = Done (Some 0x401000).
Proof. vm_compute. reflexivity. Qed.

Example framebuffer_large_translate :
  (s ← map_in_entry ex_boot_hhdm ex_empty_pt 0x6000 0xffff800000200000 0x200000 0x200000 FLAG_RW (Some WriteCombining);
   PageTable_translate ex_boot_hhdm s 0x6000 0xffff800000200000) = Panic Asserted.
Proof. vm_compute. reflexivity. Qed.
