(* ===== verification/KernelPages.v ===== *)
(** * The kernel's page service keeps the promises of [PageLaws]

    [allocate_pages] and [free_pages] of single basic pages
    ([kernel/src/mem/paging.rs]): the virtual address allocator, the physical
    memory manager and the page tables together discharge the interface the
    slab allocator and the heap are verified against. *)

From S2P Require Import Prelude Ids Pmm PageFlags Pages PageTable PageTableCorrect PageTableTheorems Paging BootMap.

(** ** Pages by number: the low half of the address space *)
Definition page_va (i : Z) : VirtAddr := i * BASIC_PAGE_SIZE.

Definition same_slot (l : nat) (va va' : VirtAddr) : Prop :=
  vpath va l = vpath va' l /\ next_level_index va l = next_level_index va' l.

Lemma page_va_inj i j : 0 <= i < 2 ^ 36 -> 0 <= j < 2 ^ 36 -> same_slot 0 (page_va i) (page_va j) -> i = j.
Proof.
  intros Hi Hj Hs. assert (same_page 0 (page_va i) (page_va j)) as Hp by (by apply same_page_vpath; [lia |]).
  apply same_page_low48 in Hp; [| lia]. unfold low48, page_va in Hp. change (level_size 0) with BASIC_PAGE_SIZE in Hp.
  unfold BASIC_PAGE_SIZE in Hp. rewrite !Z.mod_small in Hp by lia. by rewrite !Z.div_mul in Hp.
Qed.

Section kernel.
Context {P : Type} `{PmmLaws P} (hhdm cr3_top_pml : Z).
Implicit Types (s : PtState P) (g : Paging P).

Definition pml : PhysAddr := Z.shiftl cr3_top_pml 12.

Definition next_page g : Z := hander_next (hander (vaa g)).

(** [va] is mapped to [phys], a page in use that holds no table. *)
Record slot s (va : VirtAddr) (phys : PhysAddr) : Prop := {
  sl_leaf : exists e, leaf_at (frames s) pml 0 (vpath va 0) (next_level_index va 0) e /\
    Z.testbit e 9 = false /\ addr_bits 0 e = phys;
  sl_taken : pmm_taken (pmm s) phys;
  sl_table l p : ~ reach (frames s) pml l p phys;
  sl_hhdm : 0 < phys + hhdm <= usize_MAX;
}.

(** No page on the way to [va]. *)
Definition vacant s (va : VirtAddr) : Prop :=
  forall l e, ~ leaf_at (frames s) pml l (vpath va l) (next_level_index va l) e.

Record paging_inv g (held : list VirtAddr) (k : nat) : Prop := {
  gi_pt : pt_inv hhdm pml (tables g);
  gi_next : 0 < next_page g /\ next_page g + Z.of_nat k <= 2 ^ 35;
  gi_max : hander_max (hander (vaa g)) = Id_MAX_ID;
  gi_pages : PageTableCorrect.free_pages (pmm (tables g)) (4 * k);
  gi_vacant i : next_page g <= i < 2 ^ 35 -> vacant (tables g) (page_va i);
  gi_held : exists hps, hps.*1 ≡ₚ held /\ NoDup held /\ NoDup hps.*2 /\
    forall va phys, (va, phys) ∈ hps -> slot (tables g) va phys /\
      exists i, va = page_va i /\ 0 < i < next_page g;
}.

Lemma vacant_unmapped s va : tree_ok hhdm (frames s) pml -> vacant s va -> unmapped pml s 0 va 1.
Proof.
  intros Ht Hv. split.
  - intros l a e _ Hr He Hp. destruct (last e) eqn:El; [| done]. destruct (Hv l e). by exists a.
  - intros a k e Hr Hk He. assert (k = 0%nat) as -> by lia. rewrite Nat.add_0_r in He.
    destruct (present e) eqn:Ep; [| done]. destruct (last e) eqn:El; [destruct (Hv 0%nat e); by exists a |].
    destruct (entry_on_path _ _ _ _ _ _ va Ht Hr) as (e' & He' & [_ _ Htab]). rewrite He in He'. injection He' as <-.
    pose proof (Htab (conj Ep El)). lia.
Qed.

Lemma slot_mapped s va phys : slot s va phys -> mapped pml s 0 va 1.
Proof.
  intros [(e & (a & Hr & He & Hp & Hl) & H9 & _) _ _ _]. exists a. split; [done |]. intros k e' Hk He'.
  assert (k = 0%nat) as -> by lia. rewrite Nat.add_0_r, He in He'. by injection He' as <-.
Qed.

Lemma slot_translate s va phys : slot s va phys -> pt_translate (frames s) pml va = Some phys.
Proof.
  intros [(e & (a & Hr & He & Hp & Hl) & _ & <-) _ _ _]. by apply (look_leaf pml (frames s) 0 a).
Qed.

(** The page tables only grow, other pages stay: a slot elsewhere is kept. *)
Lemma slot_kept s s' va phys :
  (forall e, leaf_at (frames s) pml 0 (vpath va 0) (next_level_index va 0) e ->
     leaf_at (frames s') pml 0 (vpath va 0) (next_level_index va 0) e) ->
  pmm_taken (pmm s') phys -> (forall l p, ~ reach (frames s') pml l p phys) -> slot s va phys -> slot s' va phys.
Proof. intros Hl Ht Hr [(e & Hlf & Hrest) _ _ Hh]. split; [exists e; split; [by apply Hl | done] | done ..]. Qed.

Lemma pml_ok s : pt_inv hhdm pml s -> get_pml hhdm cr3_top_pml = Done pml.
Proof.
  intros Hi. pose proof (to_hhdm _ _ _ (pi_tree _ _ _ Hi) 3 [] pml (reach_root _ _)) as Hr.
  unfold get_pml, table_of, PhysAddr_add_hhdm_offset. fold pml. rewrite usize_add_ok, bind_Done by lia.
  by rewrite (proj2 (Z.eqb_neq _ _)) by lia.
Qed.

(** ** The virtual address allocator *)
Lemma handout_ok v count : 0 < hander_next (hander v) -> hander_next (hander v) + count < 2 ^ 36 -> 0 <= count ->
  hander_max (hander v) = Id_MAX_ID ->
  VirtualAddressAllocator_handout v count 1 =
    Done (page_va (hander_next (hander v)), mkVaa (mkIdHander (hander_next (hander v) + count) Id_MAX_ID)).
Proof.
  intros H1 H2 Hc Hm. unfold VirtualAddressAllocator_handout, align_offset_unit, IdHander_peek_next.
  change (is_power_of_two 1) with true. cbn [assert_]. rewrite bind_Done, Z.mod_1_r. cbn [Z.eqb]. rewrite bind_Done.
  rewrite usize_add_ok, bind_Done, Z.add_0_l by (unfold usize_MAX; lia).
  unfold IdHander_handout_and_skip. rewrite Hm, (proj2 (Z.ltb_ge _ _)) by (unfold Id_MAX_ID, usize_MAX; lia).
  rewrite usize_add_ok, !bind_Done by (unfold usize_MAX; lia). cbn [unwrap]. rewrite bind_Done.
  rewrite usize_mul_ok, bind_Done by (unfold BASIC_PAGE_SIZE, usize_MAX; lia). done.
Qed.

(** ** One page allocated *)
Definition rw : Flags := set_read_write Flags_new true.

(** Physical memory gives a page: the tables are as they were. *)
Lemma take_page s n : pt_inv hhdm pml s -> PageTableCorrect.free_pages (pmm s) (S n) ->
  exists r p', pmm_allocate (pmm s) 1 1 = Done (Ok r, p') /\ pt_inv hhdm pml (mkPtState (frames s) p') /\
    pmm_free_page (pmm s) r /\ ~ pmm_free_page p' r /\ pmm_taken p' r /\
    (forall a, pmm_taken (pmm s) a -> pmm_taken p' a) /\ (forall a, pmm_free_page p' a -> pmm_free_page (pmm s) a) /\
    PageTableCorrect.free_pages p' n.
Proof.
  intros [Ht Hc Hrd Hus Hh] Hfp.
  destruct (pmm_allocate_page (pmm s) Hrd) as [(r & p' & E & Hrd' & Hr & Hfree & Htk & Htk') | [_ Hno]].
  - exists r, p'. split_and!; try done.
    + split; try done; cbn [pmm frames].
      * intros l p a Hra [Hf _]%Hfree. by apply (Hus l p a).
      * intros a [Ha _]%Hfree. by apply Hh.
    + rewrite Hfree. tauto.
    + by intros a [Ha _]%Hfree.
    + by eapply free_pages_take.
  - destruct Hfp as ([| f fs] & _ & Hlen & Hfs); [done |]. destruct (Hno f). apply Hfs. by left.
Qed.

Lemma page_request i phys : 0 <= i < 2 ^ 36 -> (BASIC_PAGE_SIZE | phys) -> 0 <= phys < 2 ^ 63 ->
  request_ok 0 (page_va i) phys 1 rw.
Proof.
  intros Hi Hp Hb. split; [lia | | | | | by vm_compute].
  - split; [exists i; done | unfold page_va, BASIC_PAGE_SIZE; lia].
  - split; [done | lia].
  - change (level_size 0) with 4096. unfold usize_MAX. lia.
  - pose proof (next_level_index_lt (page_va i) 0). lia.
Qed.

Lemma allocate_each_one s i n : pt_inv hhdm pml s -> 0 <= i < 2 ^ 36 -> vacant s (page_va i) ->
  PageTableCorrect.free_pages (pmm s) (4 + n) ->
  exists r s', allocate_each hhdm cr3_top_pml s (page_va i) rw size_4kb 0 1 = Done (Ok (), s') /\
    pt_inv hhdm pml s' /\ slot s' (page_va i) r /\ pmm_free_page (pmm s) r /\
    PageTableCorrect.free_pages (pmm s') n /\
    (forall a, pmm_taken (pmm s) a -> pmm_taken (pmm s') a) /\
    (forall m p a, reach (frames s') pml m p a -> reach (frames s) pml m p a \/ pmm_free_page (pmm s) a) /\
    (forall m q j e, ~ (m = 0%nat /\ q = vpath (page_va i) 0 /\ j = next_level_index (page_va i) 0) ->
       leaf_at (frames s') pml m q j e <-> leaf_at (frames s) pml m q j e) /\
    (forall va, ~ same_page 0 va (page_va i) -> pt_translate (frames s') pml va = pt_translate (frames s) pml va).
Proof.
  intros Hi Hb Hv Hfp. pose proof (pml_ok s Hi) as Hpml. cbn [allocate_each].
  rewrite usize_mul_ok, bind_Done, Z.mul_0_l by (unfold usize_MAX; lia).
  rewrite usize_add_ok, bind_Done, Z.add_0_r by (unfold page_va, BASIC_PAGE_SIZE, usize_MAX; lia).
  change (to_default_page_count size_4kb) with 1.
  destruct (take_page s (3 + n) Hi Hfp) as (r & p' & -> & Hi' & Hr & Hnr & Htr & Htk & Hfr & Hfp').
  rewrite bind_Done. cbn [unwrap_ok]. rewrite bind_Done. unfold map_pages_to. rewrite Hpml, bind_Done.
  set (s0 := mkPtState (frames s) p') in *. change size_4kb with (level_size 0).
  destruct (pmm_page_bounds _ _ (pi_ready _ _ _ Hi) Hr) as [Hd Hbr].
  destruct (map_pages_core hhdm pml s0 0 (page_va i) r 1 rw Hi' (page_request i r Hb Hd Hbr)
    (vacant_unmapped s0 _ (pi_tree _ _ _ Hi') Hv)) as (s' & -> & Hi2 & Hin & Hout & Hm & Hk & Hre & _ & Htk2 & Hlv).
  { revert Hfp'. apply free_pages_le. lia. }
  rewrite bind_Done. exists r, s'. split_and!; try done.
  - destruct (Hm eq_refl) as (a & Hra & Ha).
    destruct (entry_on_path _ _ _ _ _ _ (page_va i) (pi_tree _ _ _ Hi2) Hra) as (e & He & _).
    destruct (Ha 0%nat e ltac:(lia)) as (Hp & Hl & H9); [by rewrite Nat.add_0_r |].
    assert (leaf_at (frames s') pml 0 (vpath (page_va i) 0) (next_level_index (page_va i) 0) e) as Hlf by (by exists a).
    split; [| by apply Htk2 | | by apply (pi_hhdm _ _ _ Hi)].
    + exists e. split_and!; [done | done |]. specialize (Hin 0%nat (page_va i) ltac:(lia)).
      rewrite (look_leaf pml (frames s') 0 a) with (e := e), Z.mul_0_l, !Z.add_0_r in Hin by done.
      by injection (Hin (fun _ _ => eq_refl)).
    + intros l p [Hr0 | [_ Hf]]%Hre; [by apply (pi_used _ _ _ Hi) in Hr0 | done].
  - by apply Hk.
  - intros a Ha. by apply Htk2, Htk.
  - intros m p a [Hr0 | [_ Hf]]%Hre; [by left | right; by apply Hfr].
  - intros m q j e Hne. apply Hlv. intros (-> & -> & ?). apply Hne. split_and!; done || lia.
  - intros va Hva. apply (Hout va). intros k Hk1. assert (k = 0%nat) as -> by lia. by rewrite Z.mul_0_l, Z.add_0_r.
Qed.

Lemma not_same_slot i j : 0 <= i < 2 ^ 36 -> 0 <= j < 2 ^ 36 -> i <> j ->
  ~ (vpath (page_va i) 0 = vpath (page_va j) 0 /\ next_level_index (page_va i) 0 = next_level_index (page_va j) 0).
Proof. intros Hi Hj Hne Hs. by apply Hne, page_va_inj. Qed.

Lemma allocate_inv g held k : paging_inv g held (S k) ->
  exists r g', PagingManager_allocate_pages hhdm cr3_top_pml g 1 rw size_4kb = Done (Ok (page_va (next_page g)), g') /\
    paging_inv g' (page_va (next_page g) :: held) k /\ (page_va (next_page g) ∉ held) /\
    slot (tables g') (page_va (next_page g)) r /\ pmm_free_page (pmm (tables g)) r /\
    (forall va, ~ same_page 0 va (page_va (next_page g)) ->
       pt_translate (frames (tables g')) pml va = pt_translate (frames (tables g)) pml va).
Proof.
  intros [Hi [Hn0 Hn] Hmax Hfp Hvac (hps & Hp1 & Hnd1 & Hnd2 & Hh)]. set (i := next_page g) in *.
  destruct (allocate_each_one (tables g) i (4 * k) Hi ltac:(lia) (Hvac i ltac:(lia)))
    as (r & s' & E & Hi' & Hsl & Hr & Hfp' & Htk & Hre & Hlv & Hout).
  { revert Hfp. apply free_pages_le. lia. }
  assert (page_va i ∉ held) as Hni.
  { rewrite <- Hp1. intros ([va ph] & Ei & (_ & j & Ej & Hj)%Hh)%list_elem_of_fmap. cbn in Ei.
    unfold page_va, BASIC_PAGE_SIZE in *. lia. }
  assert (forall va phys, (va, phys) ∈ hps -> phys <> r) as Hne.
  { intros va phys [Hs _]%Hh ->.
    by destruct (pmm_taken_used _ _ (pi_ready _ _ _ Hi) (sl_taken _ _ _ Hs)) as [? _]. }
  exists r, (mkPaging s' (mkVaa (mkIdHander (i + 1) Id_MAX_ID))).
  unfold PagingManager_allocate_pages. change (page_alignment size_4kb) with 1. change (Z.of_nat 1) with 1.
  rewrite handout_ok, bind_Done; fold (next_page g); fold i; [| done | lia | lia | done]. rewrite E, bind_Done.
  rewrite (proj2 (Z.eqb_neq _ _)) by (unfold page_va, BASIC_PAGE_SIZE; lia).
  split_and!; try done. split; try done; cbn [tables vaa hander next_page hander_next hander_max].
  - unfold next_page. cbn [vaa hander hander_next]. lia.
  - intros j Hj l e Hlf. unfold next_page in Hj. cbn [vaa hander hander_next] in Hj. apply Hlv in Hlf.
    + by apply (Hvac j ltac:(lia) l e).
    + intros (-> & Hs1 & Hs2). by apply (not_same_slot j i ltac:(lia) ltac:(lia) ltac:(lia)).
  - exists ((page_va i, r) :: hps). split_and!.
    + cbn. by rewrite Hp1.
    + by apply NoDup_cons.
    + cbn. apply NoDup_cons. split; [| done]. intros ([va ph] & Er & Hin)%list_elem_of_fmap. cbn in Er. by apply Hne in Hin.
    + unfold next_page. cbn [vaa hander hander_next]. intros va phys [[= -> ->] | Hin]%elem_of_cons.
      { split; [done |]. exists i. split; [done | lia]. }
      destruct (Hh va phys Hin) as [Hs (j & -> & Hj)]. split; [| exists j; split; [done | lia]].
      apply (slot_kept (tables g)); [| by apply Htk, Hs | | done].
      * intros e. apply Hlv. intros (_ & Hs1 & Hs2). by apply (not_same_slot j i ltac:(lia) ltac:(lia) ltac:(lia)).
      * intros l p [Hr0 | Hf]%Hre; [by apply (sl_table _ _ _ Hs) in Hr0 |].
        by destruct (pmm_taken_used _ _ (pi_ready _ _ _ Hi) (sl_taken _ _ _ Hs)) as [? _].
Qed.

(** ** One page freed *)
Lemma free_each_one s i phys : pt_inv hhdm pml s -> 0 <= i < 2 ^ 36 -> slot s (page_va i) phys ->
  exists s', free_each hhdm cr3_top_pml s (page_va i) 1 size_4kb 0 1 = Done (Ok (), s') /\ pt_inv hhdm pml s' /\
    (forall b, pmm_free_page (pmm s') b <-> pmm_free_page (pmm s) b \/ b = phys) /\
    (forall b, pmm_taken (pmm s) b -> b <> phys -> pmm_taken (pmm s') b) /\
    (forall l p a, reach (frames s') pml l p a <-> reach (frames s) pml l p a) /\
    (forall m q j e, leaf_at (frames s') pml m q j e <-> leaf_at (frames s) pml m q j e /\
       ~ (m = 0%nat /\ q = vpath (page_va i) 0 /\ j = next_level_index (page_va i) 0)) /\
    (forall va, pt_translate (frames s') pml va =
       if decide (same_slot 0 va (page_va i)) then None else pt_translate (frames s) pml va).
Proof.
  intros Hi Hb Hs. pose proof (pml_ok s Hi) as Hpml. cbn [free_each].
  rewrite usize_mul_ok, bind_Done, Z.mul_0_l by (unfold usize_MAX; lia).
  rewrite usize_add_ok, bind_Done, Z.add_0_r by (unfold page_va, BASIC_PAGE_SIZE, usize_MAX; lia).
  unfold translate. rewrite Hpml, bind_Done, (translate_spec hhdm s pml _ (pi_tree _ _ _ Hi)).
  rewrite (slot_translate s _ _ Hs), bind_Done. unfold unmap_pages. rewrite Hpml, bind_Done.
  change size_4kb with (level_size 0).
  destruct (unmap_pages_core hhdm pml s 0 (page_va i) 1 (pi_tree _ _ _ Hi) ltac:(lia)) as (s1 & -> & _ & Hiv & Hin & Hout & Epm & Hre & Hlv).
  { by exists i. } { unfold page_va, BASIC_PAGE_SIZE. lia. }
  { pose proof (next_level_index_lt (page_va i) 0). lia. } { by apply (slot_mapped s _ phys). }
  rewrite bind_Done. change (to_default_page_count (level_size 0)) with 1. rewrite Epm.
  destruct (pmm_free_taken (pmm s) phys (pi_ready _ _ _ Hi) (sl_taken _ _ _ Hs)) as (p' & -> & Hrd' & Hfree & Htk).
  rewrite bind_Done. exists (mkPtState (frames s1) p'). specialize (Hiv eq_refl Hi). destruct Hiv as [Ht Hc _ Hus Hh].
  rewrite Epm in *. split_and!; cbn [frames pmm]; try done.
  - split; cbn [frames pmm]; try done.
    + intros l p a Hra [Hf | ->]%Hfree; [by apply (Hus l p a) |]. apply Hre in Hra. by apply (sl_table _ _ _ Hs) in Hra.
    + intros a [Hf | ->]%Hfree; [by apply Hh | by apply Hs].
  - intros m q j e. rewrite Hlv. split; intros [Hlf Hx]; (split; [done |]); intros (? & ? & ?); apply Hx; split_and!; done || lia.
  - intros va. destruct (decide (same_slot 0 va (page_va i))) as [Hsl | Hsl].
    + apply (Hin 0%nat); [lia |]. rewrite Z.mul_0_l, Z.add_0_r. by apply same_page_vpath; [lia |].
    + apply Hout. intros k Hk. assert (k = 0%nat) as -> by lia. rewrite Z.mul_0_l, Z.add_0_r.
      by intros ?%same_page_vpath; [| lia].
Qed.

Lemma free_inv g held held' a k : paging_inv g held k -> held ≡ₚ a :: held' ->
  exists phys g', PagingManager_free_pages hhdm cr3_top_pml g a 1 size_4kb = Done (Ok (), g') /\
    paging_inv g' held' k /\ slot (tables g) a phys /\
    (forall b, pmm_free_page (pmm (tables g')) b <-> pmm_free_page (pmm (tables g)) b \/ b = phys) /\
    (forall va, pt_translate (frames (tables g')) pml va =
       if decide (same_slot 0 va a) then None else pt_translate (frames (tables g)) pml va).
Proof.
  intros [Hi [Hn0 Hn] Hmax Hfp Hvac (hps & Hp1 & Hnd1 & Hnd2 & Hh)] Hp.
  assert (a ∈ hps.*1) as Ha by (rewrite Hp1, Hp; by left).
  apply list_elem_of_fmap in Ha as ([a' phys] & Ea & Hin). cbn in Ea. subst a'.
  destruct (Hh a phys Hin) as [Hs (i & -> & Hib)].
  apply elem_of_Permutation in Hin as [hps' Eh].
  destruct (free_each_one (tables g) i phys Hi ltac:(lia) Hs) as (s' & E & Hi' & Hfree & Htk & Hre & Hlv & Htr).
  exists phys, (mkPaging s' (vaa g)). unfold PagingManager_free_pages. rewrite E, bind_Done.
  split_and!; try done. split; try done; cbn [tables vaa].
  - destruct Hfp as (fs & ? & ? & Hfs). exists fs. split_and!; try done. intros b Hb. apply Hfree. left. by apply Hfs.
  - intros j Hj l e [Hlf _]%Hlv. by apply (Hvac j Hj l e).
  - exists hps'. assert (hps'.*1 ≡ₚ held') as Ep.
    { apply (Permutation_cons_inv (a := page_va i)). rewrite <- Hp, <- Hp1, Eh. done. }
    rewrite Hp in Hnd1. rewrite Eh in Hnd2. cbn in Hnd2. apply NoDup_cons in Hnd1 as [Hni Hnd1].
    apply NoDup_cons in Hnd2 as [Hnp Hnd2]. split_and!; [done | done | done |]. intros va ph Hvp.
    destruct (Hh va ph) as [Hs' (j & -> & Hjb)]; [rewrite Eh; by right |]. split; [| by exists j].
    assert (ph <> phys) as Hne by (intros ->; apply Hnp, list_elem_of_fmap; by eexists (_, phys)).
    assert (j <> i) as Hji.
    { intros ->. apply Hni. rewrite <- Ep. apply list_elem_of_fmap. by eexists (_, ph). }
    apply (slot_kept (tables g)); [| by apply Htk; [apply Hs' |] | | done].
    + intros e Hlf. apply Hlv. split; [done |]. intros (_ & H1 & H2).
      by apply (not_same_slot j i ltac:(lia) ltac:(lia) ltac:(lia)).
    + intros l p Hr%Hre. by apply (sl_table _ _ _ Hs') in Hr.
Qed.

(** ** The interface *)
Definition kernel_pages : PageProvider (Paging P) := {|
  allocate_pages g count := PagingManager_allocate_pages hhdm cr3_top_pml g (Z.to_nat count) rw size_4kb;
  Pages.free_pages g ptr count := PagingManager_free_pages hhdm cr3_top_pml g ptr (Z.to_nat count) size_4kb;
|}.

Lemma paging_inv_proper : Proper ((=) ==> (≡ₚ) ==> (=) ==> iff) paging_inv.
Proof.
  intros g ? <- hs hs' Hp k ? <-. split; intros [? ? ? ? ? (hps & H1 & H2 & H3 & H4)]; split; try done;
    exists hps; split_and!; try done.
  - by rewrite <- Hp.
  - by rewrite <- Hp.
  - by rewrite Hp.
  - by rewrite Hp.
Qed.

Lemma kernel_allocate_one g hs n : paging_inv g hs (S n) ->
  exists a g', allocate_pages (PageProvider := kernel_pages) g 1 = Done (Ok a, g') /\ paging_inv g' (a :: hs) n /\
    (BASIC_PAGE_SIZE | a) /\ 0 < a /\ a + BASIC_PAGE_SIZE <= usize_MAX /\ a ∉ hs.
Proof.
  intros Hinv. destruct (allocate_inv g hs n Hinv) as (r & g' & E & Hinv' & Hni & _).
  destruct (gi_next _ _ _ Hinv) as [Hn0 Hn]. exists (page_va (next_page g)), g'.
  split_and!; try done; [by exists (next_page g) | |]; unfold page_va, BASIC_PAGE_SIZE, usize_MAX; lia.
Qed.

Lemma kernel_free_one g hs hs' a n : paging_inv g hs n -> hs ≡ₚ a :: hs' ->
  exists g', Pages.free_pages (PageProvider := kernel_pages) g a 1 = Done (Ok (), g') /\ paging_inv g' hs' n.
Proof.
  intros Hinv Hp. destruct (free_inv g hs hs' a n Hinv Hp) as (phys & g' & E & Hinv' & _). by exists g'.
Qed.

Definition kernel_laws : PageLaws (Paging P) (H := kernel_pages) := {|
  pages_inv := paging_inv;
  pages_inv_proper := paging_inv_proper;
  pages_allocate_one := kernel_allocate_one;
  pages_free_one := kernel_free_one;
|}.
End kernel.
