(* ===== verification/KernelPagesTheorems.v ===== *)
(** * The page service of the kernel and its clients

    What [allocate_pages] and [free_pages] of [kernel/src/mem/paging.rs]
    guarantee for single pages, that boot leaves the kernel in a state where
    they do, and the slab allocator on top of the kernel's own paging. *)

From S2P Require Import Prelude Ids LinkedList StackList Pmm PageFlags Pages Slab SlabCorrect SlabRepr SlabTheorems PageTable PageTableCorrect PageTableTheorems Paging BootMap BootTheorems KernelPages.

(** ** A run of the page service
    A client that asks for pages and gives back pages it holds; [returned] are
    all addresses it was ever given. *)
Inductive page_request := PageAllocate | PageFree (i : nat).

Definition pages_asked (qs : list page_request) : nat :=
  length (List.filter (fun q => match q with PageAllocate => true | PageFree _ => false end) qs).

Section run.
Context {P : Type} `{PmmAllocator P} (hhdm cr3_top_pml : Z).

Definition serve_page (st : Paging P * list VirtAddr * list VirtAddr) (q : page_request)
    : res (Paging P * list VirtAddr * list VirtAddr) :=
  let '(g, held, returned) := st in
  match q with
  | PageAllocate =>
      '(r, g) ← PagingManager_allocate_pages hhdm cr3_top_pml g 1 rw size_4kb;
      va ← unwrap_ok r;
      Done (g, va :: held, va :: returned)
  | PageFree i =>
      match held !! i with
      | None => Done st
      | Some va =>
          '(r, g) ← PagingManager_free_pages hhdm cr3_top_pml g va 1 size_4kb;
          _ ← unwrap_ok r;
          Done (g, delete i held, returned)
      end
  end.

Fixpoint serve_pages (st : Paging P * list VirtAddr * list VirtAddr) (qs : list page_request)
    : res (Paging P * list VirtAddr * list VirtAddr) :=
  match qs with
  | [] => Done st
  | q :: qs => st ← serve_page st q; serve_pages st qs
  end.
End run.

Section claims.
Context {P : Type} `{PmmLaws P} (hhdm cr3_top_pml : Z).
Implicit Types (s : PtState P) (g : Paging P).

Lemma translate_ok s va : pt_inv hhdm (pml cr3_top_pml) s ->
  translate hhdm cr3_top_pml s va = Done (pt_translate (frames s) (pml cr3_top_pml) va).
Proof.
  intros Hi. unfold translate. rewrite (pml_ok hhdm cr3_top_pml s Hi), bind_Done. by apply translate_spec, Hi.
Qed.

(** All of [returned] lies below the next address, each once. *)
Definition below_next g (returned : list VirtAddr) : Prop :=
  NoDup returned /\ forall va, va ∈ returned -> exists i, va = page_va i /\ 0 < i < next_page g.

Lemma held_below_next g held k : paging_inv hhdm cr3_top_pml g held k -> below_next g held.
Proof.
  intros Hinv. destruct (gi_held _ _ _ _ _ Hinv) as (hps & Hp & Hnd & _ & Hh). split; [done |].
  intros va Hva. rewrite <- Hp in Hva. apply list_elem_of_fmap in Hva as ([va' phys] & -> & Hin). by apply (Hh va' phys).
Qed.

Lemma page_va_eq i j : page_va i = page_va j -> i = j.
Proof. unfold page_va, BASIC_PAGE_SIZE. lia. Qed.

Lemma fresh_below g returned : below_next g returned -> page_va (next_page g) ∉ returned.
Proof. intros [_ Hb] Hin. apply Hb in Hin as (i & E & Hi). apply page_va_eq in E. lia. Qed.

Lemma allocate_below g held g' k returned : paging_inv hhdm cr3_top_pml g' (page_va (next_page g) :: held) k ->
  below_next g returned -> below_next g' (page_va (next_page g) :: returned).
Proof.
  intros Hinv Hb. destruct (proj2 (held_below_next _ _ _ Hinv) (page_va (next_page g)) (list_elem_of_here _ _)) as (i & E & Hi).
  apply page_va_eq in E. subst i. split; [apply NoDup_cons; split; [by apply fresh_below | apply Hb] |].
  intros va [-> | Hva]%elem_of_cons; [by exists (next_page g) |]. apply (proj2 Hb) in Hva as (i & -> & ?). exists i. split; [done | lia].
Qed.

Lemma free_keeps_next g va r g' : PagingManager_free_pages hhdm cr3_top_pml g va 1 size_4kb = Done (r, g') -> next_page g' = next_page g.
Proof. unfold PagingManager_free_pages. intros E. destruct (free_each _ _ _ _ _ _ _ _) as [[r0 s0] | ?]; [| done]. rewrite bind_Done in E. by injection E as _ <-. Qed.

Lemma serve_pages_ok qs : forall g held returned k, paging_inv hhdm cr3_top_pml g held (pages_asked qs + k) ->
  below_next g returned ->
  exists g' held' returned', serve_pages hhdm cr3_top_pml (g, held, returned) qs = Done (g', held', returned') /\
    paging_inv hhdm cr3_top_pml g' held' k /\ below_next g' returned' /\ returned ⊆ returned'.
Proof.
  induction qs as [| q qs IH]; intros g held returned k Hinv Hb; cbn [serve_pages]; [by exists g, held, returned |].
  destruct q as [| i]; cbn [serve_page].
  - destruct (allocate_inv hhdm cr3_top_pml g held (pages_asked qs + k) Hinv) as (r & g1 & -> & Hinv1 & _).
    rewrite !bind_Done. cbn [unwrap_ok]. rewrite !bind_Done.
    destruct (IH g1 _ (page_va (next_page g) :: returned) k Hinv1) as (g' & held' & returned' & -> & ? & ? & Hs);
      [by eapply allocate_below |]. exists g', held', returned'. split_and!; try done. set_solver.
  - destruct (held !! i) as [va |] eqn:Ei; [| rewrite bind_Done; by apply IH].
    destruct (free_inv hhdm cr3_top_pml g held (delete i held) va (pages_asked qs + k) Hinv (delete_Permutation _ _ _ Ei))
      as (phys & g1 & E & Hinv1 & _).
    rewrite E, !bind_Done. cbn [unwrap_ok]. rewrite !bind_Done. apply IH; [done |].
    unfold below_next. by rewrite (free_keeps_next _ _ _ _ E).
Qed.

(** C14: after any run of allocations and frees of held pages, for which and
    for one page more there is memory, nothing has failed and the addresses
    returned are all different; one more allocation returns an address that
    was never handed out before, not even to a page freed since.  It is mapped
    to a physical page that was free; every address of another page translates
    as it did, and the invariant of the service holds with that page held. *)
Theorem kernel_allocate_correct g0 held0 qs k : paging_inv hhdm cr3_top_pml g0 held0 (pages_asked qs + S k) ->
  exists g held returned, serve_pages hhdm cr3_top_pml (g0, held0, held0) qs = Done (g, held, returned) /\
  paging_inv hhdm cr3_top_pml g held (S k) /\ NoDup returned /\ held0 ⊆ returned /\
  exists va phys g', PagingManager_allocate_pages hhdm cr3_top_pml g 1 rw size_4kb = Done (Ok va, g') /\
    paging_inv hhdm cr3_top_pml g' (va :: held) k /\ (va ∉ returned) /\ (va ∉ held) /\ (BASIC_PAGE_SIZE | va) /\ 0 < va < 2 ^ 47 /\
    pmm_free_page (pmm (tables g)) phys /\ pmm_taken (pmm (tables g')) phys /\
    translate hhdm cr3_top_pml (tables g') va = Done (Some phys) /\
    (forall va', ~ same_page 0 va' va ->
       translate hhdm cr3_top_pml (tables g') va' = translate hhdm cr3_top_pml (tables g) va').
Proof.
  intros Hinv0. destruct (serve_pages_ok qs g0 held0 held0 (S k) Hinv0 (held_below_next _ _ _ Hinv0))
    as (g & held & returned & E0 & Hinv & Hb & Hsub).
  exists g, held, returned. split_and!; [done | done | apply Hb | done |].
  destruct (allocate_inv hhdm cr3_top_pml g held k Hinv) as (r & g' & E & Hinv' & Hni & Hs & Hr & Hout).
  destruct (gi_next _ _ _ _ _ Hinv) as [Hn0 Hn]. pose proof (gi_pt _ _ _ _ _ Hinv) as Hi. pose proof (gi_pt _ _ _ _ _ Hinv') as Hi'.
  exists (page_va (next_page g)), r, g'. split_and!; try done.
  - by apply fresh_below.
  - by exists (next_page g).
  - unfold page_va, BASIC_PAGE_SIZE. lia.
  - unfold page_va, BASIC_PAGE_SIZE. lia.
  - apply Hs.
  - rewrite translate_ok by done. by rewrite (slot_translate _ _ _ _ _ Hs).
  - intros va' Hne. rewrite !translate_ok by done. by rewrite Hout.
Qed.

(** C15: freeing a page that is held succeeds: its address no longer translates,
    its physical page is free again, and nothing else changes. *)
Theorem kernel_free_correct g held held' va k : paging_inv hhdm cr3_top_pml g held k -> held ≡ₚ va :: held' ->
  exists phys g', PagingManager_free_pages hhdm cr3_top_pml g va 1 size_4kb = Done (Ok (), g') /\
    paging_inv hhdm cr3_top_pml g' held' k /\
    translate hhdm cr3_top_pml (tables g) va = Done (Some phys) /\
    translate hhdm cr3_top_pml (tables g') va = Done None /\
    (forall b, pmm_free_page (pmm (tables g')) b <-> pmm_free_page (pmm (tables g)) b \/ b = phys) /\
    (forall va', ~ same_page 0 va' va ->
       translate hhdm cr3_top_pml (tables g') va' = translate hhdm cr3_top_pml (tables g) va').
Proof.
  intros Hinv Hp. destruct (free_inv hhdm cr3_top_pml g held held' va k Hinv Hp) as (phys & g' & E & Hinv' & Hs & Hf & Htr).
  pose proof (gi_pt _ _ _ _ _ Hinv) as Hi. pose proof (gi_pt _ _ _ _ _ Hinv') as Hi'.
  exists phys, g'. split_and!; try done.
  - rewrite translate_ok by done. by rewrite (slot_translate _ _ _ _ _ Hs).
  - rewrite translate_ok by done. by rewrite Htr, decide_True.
  - intros va' Hne. rewrite !translate_ok, Htr, decide_False by (done || intros Hsl; by apply Hne, same_page_vpath; [lia |]).
    done.
Qed.

(** an alignment that [next] already has costs nothing: the address handed
    out is [next] and the [count] pages from it are never handed out again.
    Otherwise no page is handed out: [align_offset] on a pointer to the unit
    type answers [usize::MAX] and the addition of [count] overflows. *)
Theorem vaa_handout_correct v count al : is_power_of_two al = true -> 0 < count ->
  0 <= hander_next (hander v) -> hander_next (hander v) + count < 2 ^ 52 -> hander_max (hander v) = Id_MAX_ID ->
  (hander_next (hander v) mod al = 0 ->
     VirtualAddressAllocator_handout v count al =
       Done (page_va (hander_next (hander v)), mkVaa (mkIdHander (hander_next (hander v) + count) Id_MAX_ID))) /\
  (hander_next (hander v) mod al <> 0 -> VirtualAddressAllocator_handout v count al = Panic Overflow).
Proof.
  intros Hal Hc Hn0 Hn1 Hm. unfold VirtualAddressAllocator_handout, align_offset_unit, IdHander_peek_next.
  rewrite Hal. cbn [assert_]. rewrite !bind_Done. split.
  - intros ->. cbn [Z.eqb]. rewrite usize_add_ok, bind_Done, Z.add_0_l by (unfold usize_MAX; lia).
    unfold IdHander_handout_and_skip. rewrite Hm, (proj2 (Z.ltb_ge _ _)) by (unfold Id_MAX_ID, usize_MAX; lia).
    rewrite usize_add_ok, !bind_Done by (unfold usize_MAX; lia). cbn [unwrap]. rewrite bind_Done.
    by rewrite usize_mul_ok, bind_Done by (unfold BASIC_PAGE_SIZE, usize_MAX; lia).
  - intros Hne. rewrite (proj2 (Z.eqb_neq _ _)) by done. unfold usize_add.
    by rewrite (proj2 (Z.leb_gt _ _)) by lia.
Qed.
End claims.

(** ** From boot to the page service *)
Section boot.
Context {P : Type} `{PmmLaws P} (hhdm : Z).

(** The ranges lie in the upper half, and the addresses from the end of the
    memory map on are left to the allocator. *)
Record room_for (mem_map : list MemEntry) (rs : list Range) (k : nat) : Prop := {
  rf_upper r : r ∈ rs -> 2 ^ 47 <= low48 (r_virt r);
  rf_end : exists e, list.last mem_map = Some e /\ (BASIC_PAGE_SIZE | base e + length_ e) /\
    0 < base e + length_ e /\ base e + length_ e + Z.of_nat k * BASIC_PAGE_SIZE <= 2 ^ 47;
  rf_span : 2 ^ 51 + 2 ^ 47 <= hhdm;
}.

Lemma init_vaa_ok mem_map rs k : room_for mem_map rs k ->
  exists n, init_vaa_from_limine hhdm mem_map = Done (mkVaa (mkIdHander n Id_MAX_ID)) /\
    0 < n /\ n + Z.of_nat k <= 2 ^ 35.
Proof.
  intros [_ (e & El & [q Eq] & He0 & Hk) Hspan]. exists q. unfold init_vaa_from_limine. rewrite El. cbn [unwrap].
  rewrite bind_Done, usize_add_ok, bind_Done by (unfold usize_MAX, BASIC_PAGE_SIZE in *; lia).
  unfold VirtualAddressAllocator_new. unfold BASIC_PAGE_SIZE in *. rewrite Eq.
  rewrite usize_rem_ok, bind_Done, Z.mod_mul by lia. cbn [assert_ Z.eqb]. rewrite bind_Done.
  rewrite usize_sub_ok, bind_Done by lia. rewrite (proj2 (Z.leb_le _ _)) by (unfold MIN_MEM_SPAN; lia).
  cbn [assert_]. rewrite bind_Done, Z.div_mul by lia. split; [done | lia].
Qed.

(** From the memory map to the invariant of the page service. *)
Lemma boot_paging_ok fb s c mem_map kv kp used k : let rs := boot_ranges hhdm mem_map kv kp used in
  bootable hhdm s rs -> (fb = true -> Forall (fun e => entry_type e <> FRAMEBUFFER) mem_map) ->
  cpu_supports c -> is_usize (ia32_pat c) -> room_for mem_map rs k ->
  free_pages (pmm s) (S (tables_of rs + 4 * k)) ->
  exists g c', boot_paging hhdm fb (frames s) (Done (pmm s, used)) c mem_map kv kp = Done (g, c') /\ paging_inv hhdm (top_pml c') g [] k.
Proof.
  intros rs Hb Hfb Hc Hp Hroom Hfp. destruct (init_vaa_ok mem_map rs k Hroom) as (n & Ev & Hn0 & Hn).
  destruct (boot_map_ok hhdm fb s c mem_map kv kp used Hb Hfb Hc Hp)
    as (root & s0 & s' & c' & E & [Hi _ _ Hout _] & Hno & Er & Hr & _ & _ & _ & Hk).
  exists (mkPaging s' (mkVaa (mkIdHander n Id_MAX_ID))), c'. unfold boot_paging.
  rewrite Ev, !bind_Done. destruct s as [fr p]. cbn [frames pmm]. rewrite E, bind_Done.
  split; [done |]. unfold pml in *. split; cbn [tables vaa]; unfold pml, next_page; cbn [vaa hander hander_next hander_max]; rewrite ?Er; try done.
  - by apply Hk.
  - intros i Hi1 l e (a & Hra & He & Hpr & Hl). unfold pml in *. rewrite Er in *.
    assert (pt_translate (frames s') root (page_va i) = None) as Hn1.
    { rewrite Hout; [apply Hno |]. intros r Hr1 [Hge _]. pose proof (rf_upper _ _ _ Hroom r Hr1) as Hu.
      unfold page_va, low48, BASIC_PAGE_SIZE in Hge. rewrite (Z.mod_small (i * 4096)) in Hge by lia. unfold low48 in Hu. lia. }
    by rewrite (look_leaf root (frames s') l a (page_va i) e Hra He Hpr Hl) in Hn1.
  - exists []. split_and!; [done | by apply NoDup_nil | by apply NoDup_nil |]. by intros va phys []%not_elem_of_nil.
Qed.

(** C9: the boot sequence ends in the invariant of the page service: with four
    pages of physical memory for each page that will be asked for beyond what
    the kernel's own tables take, [k] pages can be allocated. *)
Theorem boot_starts_paging fb s c mem_map kv kp used k : let rs := boot_ranges hhdm mem_map kv kp used in
  bootable hhdm s rs -> (fb = true -> Forall (fun e => entry_type e <> FRAMEBUFFER) mem_map) ->
  cpu_supports c -> is_usize (ia32_pat c) -> room_for mem_map rs k ->
  free_pages (pmm s) (S (tables_of rs + 4 * k)) ->
  exists g c', boot_paging hhdm fb (frames s) (Done (pmm s, used)) c mem_map kv kp = Done (g, c') /\ paging_inv hhdm (top_pml c') g [] k.
Proof. intros rs Hb Hfb Hc Hp Hroom Hfp. exact (boot_paging_ok fb s c mem_map kv kp used k Hb Hfb Hc Hp Hroom Hfp). Qed.
End boot.

(** ** The slab allocator on the kernel's paging *)
Section slabs.
Context {P : Type} `{PmmLaws P} (hhdm cr3_top_pml : Z).

#[local] Instance the_pages : PageProvider (Paging P) := kernel_pages hhdm cr3_top_pml.
#[local] Instance the_laws : PageLaws (Paging P) := kernel_laws hhdm cr3_top_pml.

Lemma held_slot (g : Paging P) held k b : paging_inv hhdm cr3_top_pml g held k -> b ∈ held ->
  exists i phys, b = page_va i /\ 0 < i < next_page g /\ slot hhdm cr3_top_pml (tables g) b phys.
Proof.
  intros [_ _ _ _ _ (hps & Hp & _ & _ & Hh)] Hb. rewrite <- Hp in Hb.
  apply list_elem_of_fmap in Hb as ([b' phys] & E & Hin). cbn in E. subst b'.
  destruct (Hh b phys Hin) as [Hs (i & -> & Hi)]. by exists i, phys.
Qed.

(** An address inside a held page translates as the page does. *)
Lemma inside_translates (g : Paging P) held k b p : paging_inv hhdm cr3_top_pml g held k -> b ∈ held ->
  b <= p < b + BASIC_PAGE_SIZE -> exists phys, pmm_taken (pmm (tables g)) phys /\
    translate hhdm cr3_top_pml (tables g) p = Done (Some phys).
Proof.
  intros Hinv Hb Hp. destruct (held_slot g held k b Hinv Hb) as (i & phys & -> & Hi & Hs).
  destruct (gi_next _ _ _ _ _ Hinv) as [_ Hn]. exists phys. split; [apply Hs |].
  rewrite (translate_ok hhdm cr3_top_pml) by apply Hinv. f_equal.
  destruct (sl_leaf _ _ _ _ _ Hs) as (e & (a & Hr & He & Hpr & Hl) & _ & <-).
  assert (same_page 0 p (page_va i)) as Hsp.
  { apply same_page_range; [lia | by exists i |]. change (level_size 0) with BASIC_PAGE_SIZE.
    unfold low48, page_va, BASIC_PAGE_SIZE in *. rewrite !Z.mod_small by lia. lia. }
  apply same_page_vpath in Hsp as [Ev Ei]; [| lia].
  apply (look_leaf _ _ 0 a); [by rewrite Ev | by rewrite Ei | done | done].
Qed.

(** C5: any run of slab requests on the kernel's own paging, from a state with
    a page for each allocation, succeeds; the objects held at its end do not
    overlap, and each lies in memory that the page tables map to physical pages
    in use. *)
Theorem kernel_slab_safe (g : Paging P) k l qs : paging_inv hhdm cr3_top_pml g [] k -> adjusted_ok l ->
  size (adjust_layout l) <= 4040 -> (pages_needed qs <= k)%nat ->
  exists a m' a' live, InternalSlabAllocator_new l = Done a /\
    serve_slab_all (mkSlabMem ∅ ∅ g, a, []) qs = Done (m', a', live) /\ NoDup live /\
    (forall p q, p ∈ live -> q ∈ live -> p <> q -> p + size (layout a) <= q \/ q + size (layout a) <= p) /\
    (forall p x, p ∈ live -> p <= x < p + size (layout a) -> exists phys,
       pmm_taken (pmm (tables (paging m'))) phys /\
       translate hhdm cr3_top_pml (tables (paging m')) x = Done (Some phys)).
Proof.
  intros Hinv Hl Hsz Hk. destruct (@new_ok (Paging P) the_pages the_laws (mkSlabMem ∅ ∅ g) l [] k Hl Hinv) as (a & Ea & El & HR).
  assert (0 < objects_per_page l)%nat as Hn.
  { unfold objects_per_page. pose proof (adjust_size l). pose proof (Z.div_le_lower_bound 4040 (size (adjust_layout l)) 1). lia. }
  destruct (serve_from_new _ a _ [] k qs HR Hn Hk) as (m' & a' & M & k' & live & E & HR' & Hnd & _ & Hdj & Hin).
  exists a, m', a', live. split_and!; try done. intros p x Hp Hx.
  destruct (Hin p Hp) as (_ & b & Hb & _ & Hb1 & Hb2). destruct HR' as [ss HR']. pose proof HR' as [_ _ _ _ _ _ _ Hinv'].
  apply (inside_translates (paging m') (M.*1 ++ []) k' b); [exact Hinv' | by rewrite app_nil_r |].
  assert (node_addr (layout a) (objects_per_page l) b <= b + BASIC_PAGE_SIZE); [| lia].
  destruct HR as [ss0 HR0]. pose proof HR0 as [Hlo _ _ _ _ _ _ _].
  destruct (node_in_page (layout a) (objects_per_page l) b [b] Hlo) as (b' & ->%list_elem_of_singleton & ?); [by left | lia].
Qed.
End slabs.

(** ** Witnesses: empty tables over a hundred pages of memory *)
Definition fresh_paging (n : nat) : Paging (list PhysAddr) := mkPaging (fresh_pt 0x6000 (ex_frames n)) (mkVaa (mkIdHander 5 Id_MAX_ID)).
Definition ex_paging : Paging (list PhysAddr) := fresh_paging 100.

Lemma fresh_paging_inv n k : (4 * k <= n)%nat -> Z.of_nat n <= 2 ^ 30 -> paging_inv ex_boot_hhdm 6 (fresh_paging n) [] k.
Proof.
  intros Hk Hn. assert (pml 6 = 0x6000) as Er by done. split; rewrite ?Er; try done.
  - by apply ex_fresh_inv.
  - unfold next_page. cbn [fresh_paging vaa hander hander_next]. lia.
  - apply ex_frames_free; lia.
  - intros i _ l e (a & [-> [_ ->]]%fresh_reach & He%fresh_entry & Hp & _). by subst e.
  - exists []. split_and!; [done | by apply NoDup_nil | by apply NoDup_nil |]. by intros va phys []%not_elem_of_nil.
Qed.

Lemma ex_paging_inv k : (k <= 25)%nat -> paging_inv ex_boot_hhdm 6 ex_paging [] k.
Proof. intros Hk. apply fresh_paging_inv; lia. Qed.

(** Two pages taken and the first given back: the third address is new. *)
Lemma kernel_allocate_correct_witness :
  exists g va va' held, serve_pages ex_boot_hhdm 6 (ex_paging, [], []) [PageAllocate; PageAllocate; PageFree 1] = Done (g, held, [va'; va]) /\
    exists va'' phys g', PagingManager_allocate_pages ex_boot_hhdm 6 g 1 rw size_4kb = Done (Ok va'', g') /\
    va'' <> va /\ va'' <> va' /\ translate ex_boot_hhdm 6 (tables g') va'' = Done (Some phys).
Proof.
  destruct (kernel_allocate_correct ex_boot_hhdm 6 ex_paging [] [PageAllocate; PageAllocate; PageFree 1] 3 (ex_paging_inv 6 ltac:(cbn; lia)))
    as (g & held & returned & E & _ & _ & _ & va'' & phys & g' & E' & _ & Hni & _ & _ & _ & _ & _ & Et & _).
  assert (returned = [page_va 6; page_va 5]) as ->.
  { revert E. vm_compute. intros E. by injection E as _ _ <-. }
  exists g, (page_va 5), (page_va 6), held. split; [exact E |]. exists va'', phys, g'.
  split; [exact E' |]. apply not_elem_of_cons in Hni as [H1 H2]. apply not_elem_of_cons in H2 as [H2 _].
  split; [exact H2 |]. split; [exact H1 | exact Et].
Defined.

Lemma kernel_free_correct_witness :
  exists g va g', PagingManager_allocate_pages ex_boot_hhdm 6 ex_paging 1 rw size_4kb = Done (Ok va, g) /\
    PagingManager_free_pages ex_boot_hhdm 6 g va 1 size_4kb = Done (Ok (), g') /\
    translate ex_boot_hhdm 6 (tables g') va = Done None.
Proof.
  destruct (allocate_inv ex_boot_hhdm 6 ex_paging [] 3 (ex_paging_inv 4 ltac:(lia))) as (r & g & E & Hinv & _).
  destruct (kernel_free_correct ex_boot_hhdm 6 g _ [] _ 3 Hinv (Permutation_refl _)) as (phys & g' & E' & _ & _ & Et & _).
  exists g, (page_va (next_page ex_paging)), g'. split_and!; [exact E | exact E' | exact Et].
Defined.

Lemma vaa_handout_correct_witness :
  VirtualAddressAllocator_handout (mkVaa (mkIdHander 512 Id_MAX_ID)) 3 512 =
    Done (0x200000, mkVaa (mkIdHander 515 Id_MAX_ID)) /\
  VirtualAddressAllocator_handout (mkVaa (mkIdHander 515 Id_MAX_ID)) 1 512 = Panic Overflow.
Proof.
  split.
  - exact (proj1 (vaa_handout_correct (mkVaa (mkIdHander 512 Id_MAX_ID)) 3 512
      eq_refl ltac:(lia) ltac:(cbn; lia) ltac:(cbn; lia) eq_refl) eq_refl).
  - exact (proj2 (vaa_handout_correct (mkVaa (mkIdHander 515 Id_MAX_ID)) 1 512
      eq_refl ltac:(lia) ltac:(cbn; lia) ltac:(cbn; lia) eq_refl) ltac:(vm_compute; lia)).
Defined.

Lemma ex_boot_room : room_for ex_boot_hhdm ex_boot_map (boot_ranges ex_boot_hhdm ex_boot_map ex_kernel_virt 0x200000 ex_used) 5.
Proof.
  rewrite ex_boot_ranges. split.
  - intros r Hr. unfold ex_ranges in Hr. repeat apply elem_of_cons in Hr as [-> | Hr]; [by vm_compute .. |].
    by apply not_elem_of_nil in Hr.
  - exists (mkMemEntry 0xa0000000 0x1000 FRAMEBUFFER). split_and!; [done | by exists 0xa0001 | by vm_compute | by vm_compute].
  - by vm_compute.
Qed.

Lemma boot_starts_paging_witness :
  exists g c', boot_paging ex_boot_hhdm false ∅ (Done (ex_frames 3100, ex_used)) ex_cpu ex_boot_map ex_kernel_virt 0x200000 = Done (g, c') /\
    paging_inv ex_boot_hhdm (top_pml c') g [] 5.
Proof.
  apply (boot_starts_paging ex_boot_hhdm false ex_boot_state ex_cpu ex_boot_map ex_kernel_virt 0x200000 ex_used 5
    ex_bootable ltac:(discriminate) ltac:(split_and!; reflexivity) ltac:(by vm_compute) ex_boot_room).
  apply ex_frames_free; [apply Nat.leb_le; vm_compute; reflexivity | done].
Defined.

Lemma kernel_slab_safe_witness :
  exists a m' a' live, InternalSlabAllocator_new ex_layout = Done a /\
    serve_slab_all (H := kernel_pages ex_boot_hhdm 6) (mkSlabMem ∅ ∅ ex_paging, a, [])
      [RqAllocate; RqAllocate; RqFree 1; RqReap; RqAllocate] = Done (m', a', live) /\ NoDup live.
Proof.
  destruct (kernel_slab_safe ex_boot_hhdm 6 ex_paging 20 ex_layout [RqAllocate; RqAllocate; RqFree 1; RqReap; RqAllocate]
    (ex_paging_inv 20 ltac:(lia)) (ex_adjusted 2048 ltac:(auto))) as (a & m' & a' & live & Ea & E & Hnd & _);
    [by vm_compute | by apply Nat.leb_le; vm_compute |].
  exists a, m', a', live. split_and!; [exact Ea | exact E | exact Hnd].
Defined.
