(* ===== verification/Bitfield.v ===== *)
(** * Bit fields and 32-bit arithmetic

    The kernel declares the layout of hardware words (redirection entries, gate
    descriptors, timer registers) with the [modular_bitfield] crate, which
    generates a getter and a setter per field.  The crate is not part of the
    repository: [Bitfields] is its interface, with what its documentation says
    of a field of [w] bits at bit [off] as [BitfieldLaws]: the getter returns
    the bits of the field, the setter replaces them and leaves the rest, and
    panics when the value does not fit.  [plain_bitfields] is an instance with
    which the examples are evaluated. *)

From S2P Require Import Prelude.

Definition u32_MAX : Z := 2 ^ 32 - 1.

Definition u32_add (a b : Z) : res Z :=
  if a + b <=? u32_MAX then Done (a + b) else Panic Overflow.
Definition u32_sub (a b : Z) : res Z :=
  if b <=? a then Done (a - b) else Panic Overflow.
Definition u32_mul (a b : Z) : res Z :=
  if a * b <=? u32_MAX then Done (a * b) else Panic Overflow.

Lemma u32_add_ok a b : a + b <= u32_MAX -> u32_add a b = Done (a + b).
Proof. intros H. unfold u32_add. by rewrite (proj2 (Z.leb_le _ _)). Qed.

Lemma u32_sub_ok a b : b <= a -> u32_sub a b = Done (a - b).
Proof. intros H. unfold u32_sub. by rewrite (proj2 (Z.leb_le _ _)). Qed.

Lemma u32_mul_ok a b : a * b <= u32_MAX -> u32_mul a b = Done (a * b).
Proof. intros H. unfold u32_mul. by rewrite (proj2 (Z.leb_le _ _)). Qed.

(** The [w] bits of [x] from bit [off] on. *)
Definition bits_at (off w x : Z) : Z := Z.shiftr x off mod 2 ^ w.

Definition in_field (off w i : Z) : bool := (off <=? i) && (i <? off + w).

Class Bitfields := {
  bf_get : Z -> Z -> Z -> Z;
  bf_set : Z -> Z -> Z -> Z -> res Z;
}.

Class BitfieldLaws `{Bitfields} := {
  bf_get_law off w x : 0 <= off -> 0 < w -> 0 <= x -> bf_get off w x = bits_at off w x;
  bf_set_law off w x v : 0 <= off -> 0 < w -> 0 <= x -> 0 <= v < 2 ^ w ->
    exists y, bf_set off w x v = Done y /\ 0 <= y /\
      forall i, 0 <= i -> Z.testbit y i = if in_field off w i then Z.testbit v (i - off) else Z.testbit x i;
  bf_set_range off w x v : 0 <= off -> 0 < w -> 0 <= x -> 2 ^ w <= v -> exists p, bf_set off w x v = Panic p;
}.

(** ** Words bit by bit *)
Lemma testbit_small x n i : 0 <= x < 2 ^ n -> n <= i -> Z.testbit x i = false.
Proof.
  intros Hx Hi. assert (0 <= n) as Hn. { destruct (Z_lt_le_dec n 0); [| done]. rewrite Z.pow_neg_r in Hx by done. lia. }
  rewrite Z.testbit_false by lia. rewrite Z.div_small; [done |].
  pose proof (Z.pow_le_mono_r 2 n i ltac:(lia) Hi). lia.
Qed.

Lemma testbit_bound x n : 0 <= x -> 0 <= n -> (forall i, n <= i -> Z.testbit x i = false) -> x < 2 ^ n.
Proof.
  intros Hx Hn H. destruct (Z.eq_dec x 0) as [-> | Hne]; [apply Z.pow_pos_nonneg; lia |].
  apply Z.log2_lt_pow2; [lia |]. destruct (Z_lt_le_dec (Z.log2 x) n); [done |].
  pose proof (Z.bit_log2 x ltac:(lia)) as E. rewrite H in E by done. done.
Qed.

Lemma bits_at_testbit off w x i : 0 <= off -> 0 <= w -> 0 <= i ->
  Z.testbit (bits_at off w x) i = (i <? w) && Z.testbit x (off + i).
Proof.
  intros Ho Hw Hi. unfold bits_at. destruct (Z.ltb_spec i w).
  - rewrite Z.mod_pow2_bits_low, Z.shiftr_spec by lia. by rewrite (Z.add_comm off).
  - by rewrite Z.mod_pow2_bits_high by lia.
Qed.

Lemma bits_at_bound off w x : 0 <= w -> 0 <= bits_at off w x < 2 ^ w.
Proof. intros Hw. apply Z.mod_pos_bound, Z.pow_pos_nonneg; lia. Qed.

(** Two values of [w] bits are equal when their bits are. *)
Lemma bits_at_eq off w x v : 0 <= off -> 0 <= w -> 0 <= v < 2 ^ w ->
  (forall i, 0 <= i < w -> Z.testbit x (off + i) = Z.testbit v i) -> bits_at off w x = v.
Proof.
  intros Ho Hw Hv H. apply Z.bits_inj'. intros i Hi. rewrite bits_at_testbit by lia.
  destruct (Z.ltb_spec i w); cbn [andb]; [by apply H | by rewrite (testbit_small v w)].
Qed.

(** The test of one bit with a mask. *)
Lemma bit_test x i : 0 <= i -> negb (Z.land x (Z.shiftl 1 i) =? 0) = Z.testbit x i.
Proof.
  intros Hi. rewrite Z.shiftl_1_l. destruct (Z.eqb_spec (Z.land x (2 ^ i)) 0) as [E | E]; cbn [negb].
  - assert (Z.testbit (Z.land x (2 ^ i)) i = false) as Ht by (rewrite E; apply Z.testbit_0_l).
    by rewrite Z.land_spec, Z.pow2_bits_true, andb_true_r in Ht by done.
  - symmetry. apply not_false_iff_true. intros Ht. apply E. apply Z.bits_inj'. intros n Hn.
    rewrite Z.land_spec, Z.testbit_0_l. destruct (Z.eq_dec n i) as [-> |]; [by rewrite Ht |].
    by rewrite Z.pow2_bits_false, andb_false_r by lia.
Qed.

Section fields.
Context `{BitfieldLaws}.

(** Setting a field makes it read as the value, and no disjoint field change. *)
Lemma bf_set_get off w x v y : 0 <= off -> 0 < w -> 0 <= x -> 0 <= v < 2 ^ w -> bf_set off w x v = Done y ->
  bits_at off w y = v /\
  (forall off' w', 0 <= off' -> 0 <= w' -> off' + w' <= off \/ off + w <= off' -> bits_at off' w' y = bits_at off' w' x).
Proof.
  intros Ho Hw Hx Hv E. destruct (bf_set_law off w x v Ho Hw Hx Hv) as (y' & E' & Hy & Hb).
  rewrite E in E'. injection E' as <-. split.
  - apply bits_at_eq; [lia | lia | done |]. intros i Hi. rewrite Hb by lia. unfold in_field.
    rewrite (proj2 (Z.leb_le _ _)), (proj2 (Z.ltb_lt _ _)) by lia. cbn [andb]. f_equal. lia.
  - intros off' w' Ho' Hw' Hd. apply Z.bits_inj'. intros i Hi. rewrite !bits_at_testbit by lia.
    destruct (Z.ltb_spec i w'); [| done]. cbn [andb]. rewrite Hb by lia. unfold in_field.
    destruct Hd; [rewrite (proj2 (Z.leb_gt off _)) by lia | rewrite (proj2 (Z.ltb_ge _ (off + w))) by lia];
      by rewrite ?andb_false_r.
Qed.

Lemma bf_set_field off w x v : 0 <= off -> 0 < w -> 0 <= x -> 0 <= v < 2 ^ w ->
  exists y, bf_set off w x v = Done y /\ 0 <= y /\ bits_at off w y = v /\
    (forall off' w', 0 <= off' -> 0 <= w' -> off' + w' <= off \/ off + w <= off' -> bits_at off' w' y = bits_at off' w' x).
Proof.
  intros Ho Hw Hx Hv. destruct (bf_set_law off w x v Ho Hw Hx Hv) as (y & E & Hy & _).
  destruct (bf_set_get off w x v y Ho Hw Hx Hv E) as [Hg Hk]. eauto.
Qed.
Lemma bf_set_flag off x (b : bool) : 0 <= off -> 0 <= x -> exists y, bf_set off 1 x (Z.b2z b) = Done y /\ 0 <= y /\
  forall i, 0 <= i -> Z.testbit y i = if i =? off then b else Z.testbit x i.
Proof.
  intros Ho Hx. destruct (bf_set_law off 1 x (Z.b2z b) Ho ltac:(lia) Hx ltac:(destruct b; cbn; lia)) as (y & E & Hy & Hb).
  exists y. split_and!; [done | done |]. intros i Hi. rewrite Hb by done. unfold in_field. destruct (Z.eqb_spec i off) as [-> |].
  - replace ((off <=? off) && (off <? off + 1)) with true by lia. rewrite Z.sub_diag. by destruct b.
  - by replace ((off <=? i) && (i <? off + 1)) with false by lia.
Qed.
End fields.

(** ** An instance *)
Definition plain_bitfields : Bitfields := {|
  bf_get := bits_at;
  bf_set off w x v :=
    if v <? 2 ^ w then Done (Z.lor (Z.ldiff x (Z.shiftl (Z.ones w) off)) (Z.shiftl v off)) else Panic Asserted;
|}.

Lemma plain_bitfield_laws : @BitfieldLaws plain_bitfields.
Proof.
  split.
  - done.
  - intros off w x v Ho Hw Hx Hv. unfold bf_set, plain_bitfields. rewrite (proj2 (Z.ltb_lt _ _)) by lia.
    eexists. split; [done |]. split.
    + apply Z.lor_nonneg. split; [apply Z.ldiff_nonneg; by left | apply Z.shiftl_nonneg; lia].
    + intros i Hi. rewrite Z.lor_spec, Z.ldiff_spec, !Z.shiftl_spec by lia. unfold in_field.
      destruct (Z.leb_spec off i); cbn [andb].
      * destruct (Z.ltb_spec i (off + w)).
        -- rewrite Z.ones_spec_low by lia. cbn [negb]. by rewrite andb_false_r.
        -- rewrite Z.ones_spec_high, (testbit_small v w) by lia. cbn [negb]. by rewrite andb_true_r, orb_false_r.
      * rewrite !(Z.testbit_neg_r _ (i - off)) by lia. cbn [negb]. by rewrite andb_true_r, orb_false_r.
  - intros off w x v Ho Hw Hx Hv. unfold bf_set, plain_bitfields. rewrite (proj2 (Z.ltb_ge _ _)) by lia. eauto.
Qed.
