(* ===== verification/IoApic.v ===== *)
(** * The IO APIC driver: definitions

    Models kernel/src/arch/x86_64/apic/ioapic.rs and the enumerations of
    apic/mod.rs that it uses.  The memory-mapped registers are those of the
    hardware: [Mmio32] is what a volatile access of 32 bits does to the world,
    and [IoApicHw] says of an IO APIC what its data sheet says.  The statics
    [IO_APICS], [IRQ_OVERRIDES] and [IRQ_ALLOCATOR] are the fields of
    [IoApics]. *)

From S2P Require Import Prelude Ids Pmm PageFlags PageTable Paging Bitfield.

(** ** Memory-mapped registers *)
Class Mmio32 (W : Type) := {
  mmio_read : W -> Z -> Z;
  mmio_write : W -> Z -> Z -> W;
}.

Definition MmioCell : Type := Z.
Definition MmioCell_new (base : Z) : MmioCell := base.
Definition MmioCell_read `{Mmio32 W} (w : W) (cell : MmioCell) : Z := mmio_read w cell.
Definition MmioCell_write `{Mmio32 W} (w : W) (cell : MmioCell) (value : Z) : W := mmio_write w cell value.

(** ** Data *)
Inductive DeliveryMode := Fixed | LowestPriority | Smi | Nmi | Init | StartUp | ExtInt.

(** [delivery_mode as u8] *)
Definition DeliveryMode_repr (m : DeliveryMode) : Z :=
  match m with
  | Fixed => 0 | LowestPriority => 1 | Smi => 2 | Nmi => 4 | Init => 5 | StartUp => 6 | ExtInt => 7
  end.

Definition PHYSICAL_MODE : Z := 0.
Definition LOGICAL_MODE : Z := 1.

Inductive IoApicError := InvalidGsi | IdtError.

Record IrqOverride := mkIrqOverride { ov_irq : Z; ov_gsi : Z }.

Record IoApic := mkIoApic {
  io_sel : MmioCell;
  io_win : MmioCell;
  gsi_base : Z;
  gsi_count : Z;
  apic_id : Z;
}.

#[export] Instance IoApic_eq_dec : EqDecision IoApic.
Proof. solve_decision. Defined.

Definition APIC_VERSION : Z := 1.
Definition APIC_REDIRACTION_TABLE_BASE : Z := 16.
Definition OFFSET_FROM_SEL_TO_WIN : Z := 16.

Definition red_tbl_to_index (irq_index : Z) : res Z :=
  d ← u32_mul irq_index 2;
  u32_add d APIC_REDIRACTION_TABLE_BASE.

(** A redirection entry is its 64 bits; the setters are those of the fields of
    the structure in the order of the declaration. *)
Definition RedirectionEntry : Type := Z.

Section entry.
Context `{Bitfields}.
Definition set_vector (e : RedirectionEntry) (v : Z) : res RedirectionEntry := bf_set 0 8 e v.
Definition set_delivery_mode (e : RedirectionEntry) (v : Z) : res RedirectionEntry := bf_set 8 3 e v.
Definition set_destination_mode (e : RedirectionEntry) (v : Z) : res RedirectionEntry := bf_set 11 1 e v.
Definition set_pin_polarity (e : RedirectionEntry) (v : Z) : res RedirectionEntry := bf_set 13 1 e v.
Definition set_trigger_mode (e : RedirectionEntry) (v : Z) : res RedirectionEntry := bf_set 15 1 e v.
Definition set_mask (e : RedirectionEntry) (v : Z) : res RedirectionEntry := bf_set 16 1 e v.
Definition set_destination (e : RedirectionEntry) (v : Z) : res RedirectionEntry := bf_set 56 8 e v.
End entry.

Definition get_low (e : RedirectionEntry) : Z := Z.land e 0xffffffff.
Definition get_high (e : RedirectionEntry) : Z := Z.land (Z.shiftr e 32) 0xffffffff.

(** ** Operations on one IO APIC *)
Section apic.
Context {W : Type} `{Mmio32 W}.

Definition IoApic_new (w : W) (base gsi_base apic_id : Z) : res (IoApic * W) :=
  let io_sel := MmioCell_new base in
  let io_win := MmioCell_new (base + OFFSET_FROM_SEL_TO_WIN) in
  let w := MmioCell_write w io_sel APIC_VERSION in
  let version := MmioCell_read w io_win in
  let max_gsi := Z.land (Z.shiftr version 16) 0xff in
  _ ← assert_ ((0 <? max_gsi) && (max_gsi <? 256));
  count ← u32_add max_gsi 1;
  Done (mkIoApic io_sel io_win gsi_base count apic_id, w).

Definition read_redirection_entry (w : W) (a : IoApic) (offset : Z) : res (RedirectionEntry * W) :=
  let w := MmioCell_write w (io_sel a) offset in
  let raw := MmioCell_read w (io_win a) in
  one ← red_tbl_to_index 1;
  high ← u32_add offset one;
  let w := MmioCell_write w (io_sel a) high in
  let raw := Z.lor raw (Z.shiftl (MmioCell_read w (io_win a)) 32) in
  Done (raw, w).

Definition write_redirection_entry (w : W) (a : IoApic) (offset : Z) (entry : RedirectionEntry) : res W :=
  let w := MmioCell_write w (io_sel a) offset in
  let w := MmioCell_write w (io_win a) (get_low entry) in
  one ← red_tbl_to_index 1;
  high ← u32_add offset one;
  let w := MmioCell_write w (io_sel a) high in
  Done (MmioCell_write w (io_win a) (get_high entry)).
End apic.

(** ** All the IO APICs *)
Record IoApics (W : Type) := mkIoApics {
  world : W;
  IO_APICS : list IoApic;
  IRQ_OVERRIDES : list IrqOverride;
  IRQ_ALLOCATOR : IdTracker;
}.
Arguments mkIoApics {W}.
Arguments world {W}.
Arguments IO_APICS {W}.
Arguments IRQ_OVERRIDES {W}.
Arguments IRQ_ALLOCATOR {W}.

Definition with_world {W} (s : IoApics W) (w : W) : IoApics W :=
  mkIoApics w (IO_APICS s) (IRQ_OVERRIDES s) (IRQ_ALLOCATOR s).

(** [.find(|ioapic| ioapic.gsi_base <= gsi && gsi < (ioapic.gsi_base + ioapic.gsi_count))] *)
Fixpoint find_ioapic (l : list IoApic) (gsi : Z) : res (option IoApic) :=
  match l with
  | [] => Done None
  | a :: l =>
      if gsi_base a <=? gsi then
        e ← u32_add (gsi_base a) (gsi_count a);
        if gsi <? e then Done (Some a) else find_ioapic l gsi
      else find_ioapic l gsi
  end.

Definition irq_to_gsi (overrides : list IrqOverride) (irq : Z) : Z :=
  match List.find (fun o => ov_irq o =? irq) overrides with Some o => ov_gsi o | None => irq end.

(** [gsi as u8] keeps the low byte. *)
Definition gsi_to_irq (overrides : list IrqOverride) (gsi : Z) : Z :=
  match List.find (fun o => ov_gsi o =? gsi) overrides with Some o => ov_irq o | None => gsi mod 256 end.

Fixpoint sum_gsi_counts (l : list IoApic) (acc : Z) : res Z :=
  match l with
  | [] => Done acc
  | a :: l => acc ← usize_add acc (gsi_count a); sum_gsi_counts l acc
  end.

Section ops.
Context {W : Type} `{Mmio32 W} `{Bitfields}.
Implicit Types (s : IoApics W) (irq gsi vector : Z).

Definition init_irq_allocator s : res (IoApics W) :=
  gsi_count ← sum_gsi_counts (IO_APICS s) 0;
  max ← usize_sub gsi_count 1;
  t ← IdTracker_new 0 max;
  Done (mkIoApics (world s) (IO_APICS s) (IRQ_OVERRIDES s) t).

Definition allocate_irq_at s irq : res (result unit IdTrackerError * IoApics W) :=
  '(r, t) ← IdTracker_allocate_at (IRQ_ALLOCATOR s) irq;
  Done (r, mkIoApics (world s) (IO_APICS s) (IRQ_OVERRIDES s) t).

Definition map_irq_to_vector s vector irq : res (result unit IoApicError * IoApics W) :=
  let gsi := irq_to_gsi (IRQ_OVERRIDES s) irq in
  found ← find_ioapic (IO_APICS s) gsi;
  match found with
  | None => Done (Err InvalidGsi, s)
  | Some io_apic =>
      k ← u32_sub gsi (gsi_base io_apic);
      offset ← red_tbl_to_index k;
      '(entry, w) ← read_redirection_entry (world s) io_apic offset;
      entry ← set_vector entry vector;
      entry ← set_mask entry 1;
      w ← write_redirection_entry w io_apic offset entry;
      Done (Ok (), with_world s w)
  end.

Definition override_irq s irq gsi (flags : Z) (delivery_mode : option DeliveryMode) : res (IoApics W) :=
  found ← find_ioapic (IO_APICS s) gsi;
  io_apic ← unwrap found;
  k ← u32_sub gsi (gsi_base io_apic);
  offset ← red_tbl_to_index k;
  '(entry, w) ← read_redirection_entry (world s) io_apic offset;
  entry ← set_pin_polarity entry (Z.shiftr (Z.land flags 2) 1);
  entry ← set_trigger_mode entry (Z.shiftr (Z.land flags 8) 3);
  entry ← set_destination_mode entry PHYSICAL_MODE;
  entry ← set_destination entry (apic_id io_apic);
  entry ← match delivery_mode with
          | Some m => set_delivery_mode entry (DeliveryMode_repr m)
          | None => Done entry
          end;
  w ← write_redirection_entry w io_apic offset entry;
  Done (mkIoApics w (IO_APICS s) (IRQ_OVERRIDES s ++ [mkIrqOverride irq gsi]) (IRQ_ALLOCATOR s)).

Definition set_disabled s irq (status : bool) : res (result unit IoApicError * IoApics W) :=
  let gsi := irq_to_gsi (IRQ_OVERRIDES s) irq in
  found ← find_ioapic (IO_APICS s) gsi;
  match found with
  | None => Done (Err InvalidGsi, s)
  | Some ioapic =>
      k ← u32_sub gsi (gsi_base ioapic);
      offset ← red_tbl_to_index k;
      '(entry, w) ← read_redirection_entry (world s) ioapic offset;
      entry ← set_mask entry (Z.b2z status);
      w ← write_redirection_entry w ioapic offset entry;
      Done (Ok (), with_world s w)
  end.

(** [ioapic::add]: map the registers, then probe the IO APIC there. *)
Definition ioapic_add {P} `{PmmAllocator P} (hhdm root : Z) (g : Paging P) s (phys_addr gsi_base apic_id : Z)
    : res (Paging P * IoApics W) :=
  '(r, g) ← PagingManager_map_pages hhdm root g phys_addr 1 (set_read_write Flags_new true) size_4kb;
  ptr ← unwrap_ok r;
  '(a, w) ← IoApic_new (world s) ptr gsi_base apic_id;
  Done (g, mkIoApics w (IO_APICS s ++ [a]) (IRQ_OVERRIDES s) (IRQ_ALLOCATOR s)).
End ops.
