(* ===== verification/IoApicCorrect.v ===== *)
(** * The IO APIC driver: correctness

    [IoApicHw] states what the data sheet says of an IO APIC behind its two
    memory-mapped registers.  From it, the lemmas here say what the driver's
    operations do to the redirection entries of all IO APICs. *)

From S2P Require Import Prelude Ids Bitfield IoApic.

(** ** The hardware *)

(** The bits of a redirection entry that software can change: vector, delivery
    mode, destination mode, polarity, trigger mode, mask and destination.  The
    delivery status and the remote IRR are read-only, the others reserved. *)
Definition rte_rw (n : Z) : bool :=
  in_field 0 12 n || (n =? 13) || (n =? 15) || (n =? 16) || in_field 56 8 n.

(** Bit [n] of register [j] is such a bit of one of [count] entries. *)
Definition reg_rw (count j n : Z) : bool :=
  (16 <=? j) && (j <? 16 + 2 * count) && in_field 0 32 n && rte_rw (if Z.even j then n else 32 + n).

Class IoApicHw (W : Type) `{Mmio32 W} := {
  is_ioapic : W -> Z -> Prop;
  io_index : W -> Z -> Z;
  io_reg : W -> Z -> Z -> Z;
  io_reg_bound w b i : is_ioapic w b -> 0 <= io_reg w b i < 2 ^ 32;
  io_sel_write w b i : is_ioapic w b -> 0 <= i < 256 ->
    io_index (mmio_write w b i) b = i /\
    forall b', is_ioapic w b' -> is_ioapic (mmio_write w b i) b' /\
      forall j, io_reg (mmio_write w b i) b' j = io_reg w b' j;
  io_win_read w b : is_ioapic w b -> mmio_read w (b + 16) = io_reg w b (io_index w b);
  io_win_write w b v : is_ioapic w b -> 0 <= v < 2 ^ 32 ->
    (forall b', is_ioapic w b' -> is_ioapic (mmio_write w (b + 16) v) b' /\
       io_reg (mmio_write w (b + 16) v) b' 1 = io_reg w b' 1 /\
       forall j, b' <> b -> io_reg (mmio_write w (b + 16) v) b' j = io_reg w b' j) /\
    forall j n, reg_rw (1 + bits_at 16 8 (io_reg w b 1)) j n = true ->
      Z.testbit (io_reg (mmio_write w (b + 16) v) b j) n =
        if j =? io_index w b then Z.testbit v n else Z.testbit (io_reg w b j) n;
}.

(** ** The invariant *)
Definition owns (a : IoApic) (gsi : Z) : bool := (gsi_base a <=? gsi) && (gsi <? gsi_base a + gsi_count a).

Section ioapic.
Context {W : Type} `{IoApicHw W} `{BitfieldLaws}.
Implicit Types (w : W) (a b : IoApic) (s : IoApics W).

(** [a] drives an IO APIC with as many entries as its version register says.
    Its select register has eight bits, which bounds the number of entries
    that the driver can reach. *)
Record apic_ok w a : Prop := {
  ao_is : is_ioapic w (io_sel a);
  ao_win : io_win a = io_sel a + 16;
  ao_count : gsi_count a = 1 + bits_at 16 8 (io_reg w (io_sel a) 1);
  ao_max : gsi_count a <= 111;
  ao_gsi : 0 <= gsi_base a /\ gsi_base a + gsi_count a <= u32_MAX;
  ao_id : 0 <= apic_id a < 256;
}.

Record ioapics_ok s : Prop := {
  io_apics_ok a : a ∈ IO_APICS s -> apic_ok (world s) a;
  io_distinct a b : a ∈ IO_APICS s -> b ∈ IO_APICS s -> io_sel a = io_sel b -> a = b;
  io_disjoint a b gsi : a ∈ IO_APICS s -> b ∈ IO_APICS s -> owns a gsi = true -> owns b gsi = true -> a = b;
}.

(** Bit [n] of the redirection entry of pin [k]. *)
Definition rte_bit w a (k n : Z) : bool :=
  if n <? 32 then Z.testbit (io_reg w (io_sel a) (16 + 2 * k)) n
  else Z.testbit (io_reg w (io_sel a) (17 + 2 * k)) (n - 32).

(** From [s] to [s'], exactly the bits [new] gives of the entry of pin [k] of
    [a] change, of all bits of all entries that software can change. *)
Definition entry_updated s s' a (k : Z) (new : Z -> option bool) : Prop :=
  forall b j n, b ∈ IO_APICS s -> 0 <= j < gsi_count b -> rte_rw n = true ->
    rte_bit (world s') b j n =
      if decide (b = a /\ j = k) then default (rte_bit (world s) b j n) (new n) else rte_bit (world s) b j n.

(** ** Register accesses *)
Lemma rte_rw_bounds n : rte_rw n = true -> 0 <= n < 17 \/ 56 <= n < 64.
Proof. unfold rte_rw, in_field. intros E. lia. Qed.

Lemma red_tbl_ok k : 0 <= k < 2 ^ 30 -> red_tbl_to_index k = Done (16 + 2 * k).
Proof.
  intros Hk. unfold red_tbl_to_index, APIC_REDIRACTION_TABLE_BASE.
  rewrite u32_mul_ok, bind_Done, u32_add_ok by (unfold u32_MAX; lia). f_equal. lia.
Qed.

(** The two registers that [read_redirection_entry] puts together: the second
    one is the low half of the entry nine pins on. *)
Definition raw_entry w a (k : Z) : Z :=
  Z.lor (io_reg w (io_sel a) (16 + 2 * k)) (Z.shiftl (io_reg w (io_sel a) (34 + 2 * k)) 32).

Lemma raw_entry_nonneg w a k : apic_ok w a -> 0 <= raw_entry w a k.
Proof.
  intros Ha. pose proof (io_reg_bound w (io_sel a) (16 + 2 * k) (ao_is _ _ Ha)).
  pose proof (io_reg_bound w (io_sel a) (34 + 2 * k) (ao_is _ _ Ha)).
  apply Z.lor_nonneg. split; [lia | apply Z.shiftl_nonneg; lia].
Qed.

Lemma raw_entry_bits w a k n : apic_ok w a -> 0 <= n < 32 ->
  Z.testbit (raw_entry w a k) n = Z.testbit (io_reg w (io_sel a) (16 + 2 * k)) n /\
  Z.testbit (raw_entry w a k) (32 + n) = Z.testbit (io_reg w (io_sel a) (34 + 2 * k)) n.
Proof.
  intros Ha Hn. unfold raw_entry. rewrite !Z.lor_spec, !Z.shiftl_spec by lia. split.
  - by rewrite (Z.testbit_neg_r _ (n - 32)), orb_false_r by lia.
  - rewrite (testbit_small (io_reg w (io_sel a) (16 + 2 * k)) 32) by (lia || apply io_reg_bound, Ha).
    cbn [orb]. f_equal. lia.
Qed.

(** Two worlds with the same IO APICs and the same registers in them. *)
Definition same_regs w w' : Prop :=
  forall base, is_ioapic w base -> is_ioapic w' base /\ forall j, io_reg w' base j = io_reg w base j.

Lemma same_regs_trans w1 w2 w3 : same_regs w1 w2 -> same_regs w2 w3 -> same_regs w1 w3.
Proof.
  intros H12 H23 base Hb. destruct (H12 _ Hb) as [Hb2 E2]. destruct (H23 _ Hb2) as [Hb3 E3].
  split; [done |]. intros j. by rewrite E3, E2.
Qed.

Lemma select_ok w a i : is_ioapic w (io_sel a) -> 0 <= i < 256 ->
  same_regs w (MmioCell_write w (io_sel a) i) /\ io_index (MmioCell_write w (io_sel a) i) (io_sel a) = i.
Proof. intros Ha Hi. destruct (io_sel_write w (io_sel a) i Ha Hi) as [E Hs]. by split. Qed.

Lemma read_redirection_ok w a k : apic_ok w a -> 0 <= k < gsi_count a ->
  exists w', read_redirection_entry w a (16 + 2 * k) = Done (raw_entry w a k, w') /\ same_regs w w'.
Proof.
  intros Ha Hk. pose proof (ao_is _ _ Ha) as His. pose proof (ao_max _ _ Ha) as Hmax.
  unfold read_redirection_entry. rewrite red_tbl_ok, bind_Done, u32_add_ok, bind_Done by (unfold u32_MAX; lia).
  destruct (select_ok w a (16 + 2 * k) His ltac:(lia)) as [S1 I1]. destruct (S1 _ His) as [His1 R1].
  destruct (select_ok _ a (16 + 2 * k + (16 + 2 * 1)) His1 ltac:(lia)) as [S2 I2]. destruct (S2 _ His1) as [His2 R2].
  eexists. split; [| exact (same_regs_trans _ _ _ S1 S2)]. f_equal. f_equal.
  unfold MmioCell_read, raw_entry. rewrite (ao_win _ _ Ha), !io_win_read by done. rewrite I1, I2, R2, !R1. do 3 f_equal. lia.
Qed.

Lemma get_low_bits e n : 0 <= n < 32 -> Z.testbit (get_low e) n = Z.testbit e n.
Proof.
  intros Hn. unfold get_low. change 0xffffffff with (Z.ones 32).
  by rewrite Z.land_spec, Z.ones_spec_low, andb_true_r by lia.
Qed.

Lemma get_high_bits e n : 0 <= n < 32 -> Z.testbit (get_high e) n = Z.testbit e (32 + n).
Proof.
  intros Hn. unfold get_high. change 0xffffffff with (Z.ones 32).
  rewrite Z.land_spec, Z.ones_spec_low, andb_true_r, Z.shiftr_spec by lia. f_equal. lia.
Qed.

Lemma halves_bound e : 0 <= get_low e < 2 ^ 32 /\ 0 <= get_high e < 2 ^ 32.
Proof.
  unfold get_low, get_high. change 0xffffffff with (Z.ones 32). rewrite !Z.land_ones by lia.
  split; apply Z.mod_pos_bound; lia.
Qed.

(** What the write of the entry [e] at pin [k] of [a] does to the registers. *)
Record entry_written w w' a (k e : Z) : Prop := {
  ew_is base : is_ioapic w base -> is_ioapic w' base /\ io_reg w' base 1 = io_reg w base 1;
  ew_other base j : is_ioapic w base -> base <> io_sel a -> io_reg w' base j = io_reg w base j;
  ew_bits j n : reg_rw (gsi_count a) j n = true ->
    Z.testbit (io_reg w' (io_sel a) j) n =
      if j =? 16 + 2 * k then Z.testbit e n
      else if j =? 34 + 2 * k then Z.testbit e (32 + n) else Z.testbit (io_reg w (io_sel a) j) n;
}.

Lemma reg_rw_bounds count j n : reg_rw count j n = true -> 16 <= j < 16 + 2 * count /\ 0 <= n < 32.
Proof. unfold reg_rw, in_field. intros E. lia. Qed.

Lemma apic_ok_keeps w w' a : apic_ok w a ->
  (forall base, is_ioapic w base -> is_ioapic w' base /\ io_reg w' base 1 = io_reg w base 1) -> apic_ok w' a.
Proof. intros [? ? ? ? ? ?] Hk. destruct (Hk (io_sel a)) as [? E]; [done |]. split; try done. by rewrite E. Qed.

Lemma write_redirection_ok w a k e : apic_ok w a -> 0 <= k < gsi_count a ->
  exists w', write_redirection_entry w a (16 + 2 * k) e = Done w' /\ entry_written w w' a k e.
Proof.
  intros Ha Hk. pose proof (ao_is _ _ Ha) as His. pose proof (ao_max _ _ Ha) as Hmax.
  destruct (halves_bound e) as [Hlow Hhigh].
  unfold write_redirection_entry. rewrite red_tbl_ok, bind_Done, u32_add_ok, bind_Done by (unfold u32_MAX; lia).
  replace (16 + 2 * k + (16 + 2 * 1)) with (34 + 2 * k) by lia.
  destruct (select_ok w a (16 + 2 * k) His ltac:(lia)) as [S1 I1]. destruct (S1 _ His) as [His1 R1].
  set (w1 := MmioCell_write w (io_sel a) (16 + 2 * k)) in *.
  destruct (io_win_write w1 (io_sel a) (get_low e) His1 Hlow) as [K1 B1].
  set (w2 := mmio_write w1 (io_sel a + 16) (get_low e)) in *. destruct (K1 _ His1) as (His2 & V2 & _).
  destruct (select_ok w2 a (34 + 2 * k) His2 ltac:(lia)) as [S3 I3]. destruct (S3 _ His2) as [His3 R3].
  set (w3 := MmioCell_write w2 (io_sel a) (34 + 2 * k)) in *.
  destruct (io_win_write w3 (io_sel a) (get_high e) His3 Hhigh) as [K3 B3].
  exists (mmio_write w3 (io_sel a + 16) (get_high e)).
  split; [unfold w3, w2, w1, MmioCell_write; by rewrite (ao_win _ _ Ha) |]. rewrite R1, I1, <- (ao_count _ _ Ha) in B1.
  rewrite R3, V2, R1, I3, <- (ao_count _ _ Ha) in B3. split.
  - intros base Hb. destruct (S1 _ Hb) as [Hb1 E1]. destruct (K1 _ Hb1) as (Hb2 & E2 & _).
    destruct (S3 _ Hb2) as [Hb3 E3]. destruct (K3 _ Hb3) as (Hb4 & E4 & _). split; [done |]. by rewrite E4, E3, E2, E1.
  - intros base j Hb Hne. destruct (S1 _ Hb) as [Hb1 E1]. destruct (K1 _ Hb1) as (Hb2 & _ & E2).
    destruct (S3 _ Hb2) as [Hb3 E3]. destruct (K3 _ Hb3) as (_ & _ & E4). by rewrite E4, E3, E2, E1.
  - intros j n Hrw. destruct (reg_rw_bounds _ _ _ Hrw) as [Hj Hn].
    rewrite B3, R3, B1, R1, get_low_bits, get_high_bits by done.
    destruct (Z.eqb_spec j (16 + 2 * k)), (Z.eqb_spec j (34 + 2 * k)); try done; lia.
Qed.

(** ** Read, change, write *)
Lemma pin_rw a k n : 0 <= k < gsi_count a -> rte_rw n = true ->
  reg_rw (gsi_count a) (if n <? 32 then 16 + 2 * k else 17 + 2 * k) (if n <? 32 then n else n - 32) = true.
Proof.
  intros Hk Hn. pose proof (rte_rw_bounds n Hn). unfold reg_rw, in_field.
  destruct (Z.ltb_spec n 32).
  - replace (Z.even (16 + 2 * k)) with true by (by rewrite Z.even_add, Z.even_mul). rewrite Hn. lia.
  - replace (Z.even (17 + 2 * k)) with false by (by rewrite Z.even_add, Z.even_mul).
    replace (32 + (n - 32)) with n by lia. rewrite Hn. lia.
Qed.

Lemma even_rw count j n : reg_rw count (34 + 2 * j) n = true -> rte_rw n = true /\ 0 <= n < 17.
Proof.
  unfold reg_rw. replace (Z.even (34 + 2 * j)) with true by (by rewrite Z.even_add, Z.even_mul).
  unfold rte_rw, in_field. lia.
Qed.

(** Writing back the entry that was read, with some low bits changed, changes
    exactly those bits of the pin: the other register that is written gets
    back what it held, in the bits that can be changed. *)
Lemma written_updated s w1 w' a k e new : ioapics_ok s -> a ∈ IO_APICS s -> 0 <= k < gsi_count a ->
  same_regs (world s) w1 -> entry_written w1 w' a k e ->
  (forall n, rte_rw n = true -> n < 32 -> Z.testbit e n = default (Z.testbit (raw_entry (world s) a k) n) (new n)) ->
  (forall n, 0 <= n < 17 -> Z.testbit e (32 + n) = Z.testbit (raw_entry (world s) a k) (32 + n)) ->
  (forall n, 32 <= n -> new n = None) ->
  entry_updated s (with_world s w') a k new.
Proof.
  intros Hok Ha Hk Hs [_ Hother Hbits] Hlow Hhigh Hnew b j n Hb Hj Hn. cbn [world with_world].
  pose proof (io_apics_ok _ Hok _ Ha) as Hao. destruct (Hs _ (ao_is _ _ Hao)) as [_ R].
  pose proof (io_apics_ok _ Hok _ Hb) as Hbo. destruct (Hs _ (ao_is _ _ Hbo)) as [Hb1 Rb].
  pose proof (rte_rw_bounds n Hn) as Hnb. unfold rte_bit. destruct (decide (b = a)) as [-> | Hne].
  - pose proof (pin_rw a j n Hj Hn) as Hrw. destruct (Z.ltb_spec n 32).
    + rewrite Hbits, R by done. destruct (Z.eqb_spec (16 + 2 * j) (16 + 2 * k)) as [E | E].
      * assert (j = k) as -> by lia. rewrite decide_True by done. rewrite Hlow by done.
        by rewrite (proj1 (raw_entry_bits _ _ k n Hao ltac:(lia))).
      * rewrite decide_False by (intros [_ ->]; lia). destruct (Z.eqb_spec (16 + 2 * j) (34 + 2 * k)) as [E' |]; [| done].
        rewrite Hhigh by lia. rewrite (proj2 (raw_entry_bits _ _ k n Hao ltac:(lia))). by rewrite <- E'.
    + rewrite Hbits, R by done. rewrite (proj2 (Z.eqb_neq _ (16 + 2 * k))), (proj2 (Z.eqb_neq _ (34 + 2 * k))) by lia.
      rewrite Hnew by done. by case_decide.
  - rewrite decide_False by naive_solver.
    assert (io_sel b <> io_sel a) as Hsel by (intros E; by apply Hne, (io_distinct _ Hok)).
    by rewrite !Hother, !Rb by done.
Qed.

Lemma written_ok s w1 w' a k e : ioapics_ok s -> same_regs (world s) w1 -> entry_written w1 w' a k e ->
  ioapics_ok (with_world s w').
Proof.
  intros [Hao Hd Hj] Hs [Hk _ _]. split; [| done | done]. intros b Hb. cbn. apply (apic_ok_keeps (world s)); [by apply Hao |].
  intros base Hbase. destruct (Hs _ Hbase) as [H1' E1]. destruct (Hk _ H1') as [H2' E2]. split; [done |]. by rewrite E2, E1.
Qed.

(** ** Finding the IO APIC of a GSI *)
Lemma find_ioapic_ok s l gsi : ioapics_ok s -> l ⊆ IO_APICS s -> find_ioapic l gsi = Done (List.find (fun a => owns a gsi) l).
Proof.
  intros Hok. induction l as [| a l IH]; intros Hl; [done |]. cbn [find_ioapic List.find].
  pose proof (io_apics_ok _ Hok a ltac:(set_solver)) as Ha. destruct (ao_gsi _ _ Ha) as [Hg0 Hg1].
  specialize (IH ltac:(set_solver)). rewrite u32_add_ok, bind_Done, IH by done. destruct (owns a gsi) eqn:Eo; unfold owns in Eo.
  - apply andb_prop in Eo as [-> ->]. done.
  - destruct (gsi_base a <=? gsi); [| done]. cbn [andb] in Eo. by rewrite Eo.
Qed.

Lemma find_owner s a gsi : ioapics_ok s -> a ∈ IO_APICS s -> owns a gsi = true ->
  find_ioapic (IO_APICS s) gsi = Done (Some a).
Proof.
  intros Hok Ha Ho. rewrite (find_ioapic_ok s) by done. f_equal.
  destruct (List.find (fun a => owns a gsi) (IO_APICS s)) as [b |] eqn:E.
  - apply List.find_some in E as [Hb Hob]. apply list_elem_of_In in Hb. f_equal. by apply (io_disjoint _ Hok b a gsi).
  - apply list_elem_of_In in Ha. by rewrite (List.find_none _ _ E a Ha) in Ho.
Qed.

Lemma find_nobody s gsi : ioapics_ok s -> (forall a, a ∈ IO_APICS s -> owns a gsi = false) ->
  find_ioapic (IO_APICS s) gsi = Done None.
Proof.
  intros Hok Hno. rewrite (find_ioapic_ok s) by done. f_equal.
  destruct (List.find (fun a => owns a gsi) (IO_APICS s)) as [b |] eqn:E; [| done].
  apply List.find_some in E as [Hb Hob]. apply list_elem_of_In in Hb. by rewrite Hno in Hob.
Qed.

Lemma owns_pin s a gsi : ioapics_ok s -> a ∈ IO_APICS s -> owns a gsi = true ->
  0 <= gsi - gsi_base a < gsi_count a /\ gsi_count a <= 111 /\ u32_sub gsi (gsi_base a) = Done (gsi - gsi_base a) /\
  red_tbl_to_index (gsi - gsi_base a) = Done (16 + 2 * (gsi - gsi_base a)).
Proof.
  intros Hok Ha Ho. pose proof (ao_max _ _ (io_apics_ok _ Hok _ Ha)) as Hmax. unfold owns in Ho.
  split_and!; [lia | lia | done | apply u32_sub_ok; lia | apply red_tbl_ok; lia].
Qed.

(** ** The operations *)

(** The read and the write around a change of the entry that was read. *)
Lemma modify_ok s a k : ioapics_ok s -> a ∈ IO_APICS s -> 0 <= k < gsi_count a ->
  exists w1, read_redirection_entry (world s) a (16 + 2 * k) = Done (raw_entry (world s) a k, w1) /\
    forall e new,
      (forall n, 0 <= n < 32 -> Z.testbit e n = default (Z.testbit (raw_entry (world s) a k) n) (new n)) ->
      (forall n, 0 <= n < 17 -> Z.testbit e (32 + n) = Z.testbit (raw_entry (world s) a k) (32 + n)) ->
      (forall n, 32 <= n -> new n = None) ->
      exists w', write_redirection_entry w1 a (16 + 2 * k) e = Done w' /\
        ioapics_ok (with_world s w') /\ entry_updated s (with_world s w') a k new.
Proof.
  intros Hok Ha Hk. pose proof (io_apics_ok _ Hok _ Ha) as Hao.
  destruct (read_redirection_ok _ _ k Hao Hk) as (w1 & E1 & Hs). exists w1. split; [done |].
  intros e new Hlow Hhigh Hnew.
  assert (apic_ok w1 a) as Hao1. { apply (apic_ok_keeps (world s)); [done |]. intros base Hb. by destruct (Hs _ Hb) as [? ->]. }
  destruct (write_redirection_ok w1 a k e Hao1 Hk) as (w' & E' & Hw). exists w'. split; [done |].
  split; [by eapply written_ok |]. eapply written_updated; try done.
  intros n Hn Hn32. apply Hlow. pose proof (rte_rw_bounds n Hn). lia.
Qed.

(** What each operation changes of an entry. *)
Definition mask_update (status : bool) (n : Z) : option bool := if n =? 16 then Some status else None.
Definition vector_update (vector n : Z) : option bool :=
  if in_field 0 8 n then Some (Z.testbit vector n) else if n =? 16 then Some true else None.
Definition override_update (flags : Z) (m : option DeliveryMode) (n : Z) : option bool :=
  if n =? 13 then Some (Z.testbit flags 1)
  else if n =? 15 then Some (Z.testbit flags 3)
  else if n =? 11 then Some false
  else if in_field 8 3 n then (m ← m; Some (Z.testbit (DeliveryMode_repr m) (n - 8)))
  else None.

Lemma set_disabled_ok s irq status a : ioapics_ok s -> a ∈ IO_APICS s ->
  owns a (irq_to_gsi (IRQ_OVERRIDES s) irq) = true ->
  exists w', set_disabled s irq status = Done (Ok (), with_world s w') /\ ioapics_ok (with_world s w') /\
    entry_updated s (with_world s w') a (irq_to_gsi (IRQ_OVERRIDES s) irq - gsi_base a) (mask_update status).
Proof.
  intros Hok Ha Ho. destruct (owns_pin s a _ Hok Ha Ho) as (Hk & _ & Ek & Er). unfold set_disabled.
  rewrite (find_owner s a), bind_Done, Ek, bind_Done, Er, bind_Done by done.
  destruct (modify_ok s a _ Hok Ha Hk) as (w1 & -> & Hmod). rewrite bind_Done. unfold set_mask.
  pose proof (raw_entry_nonneg (world s) a (irq_to_gsi (IRQ_OVERRIDES s) irq - gsi_base a) (io_apics_ok _ Hok _ Ha)) as H0'.
  destruct (bf_set_law 16 1 _ (Z.b2z status) ltac:(lia) ltac:(lia) H0' ltac:(destruct status; cbn; lia)) as (e & -> & He & Hb).
  rewrite bind_Done. destruct (Hmod e (mask_update status)) as (w' & -> & Hok' & Hu).
  - intros n Hn. rewrite Hb by lia. unfold mask_update, in_field. destruct (Z.eqb_spec n 16) as [-> |].
    + by destruct status.
    + replace ((16 <=? n) && (n <? 16 + 1)) with false by lia. done.
  - intros n Hn. rewrite Hb by lia. unfold in_field. by replace ((16 <=? 32 + n) && (32 + n <? 16 + 1)) with false by lia.
  - intros n Hn. unfold mask_update. by rewrite (proj2 (Z.eqb_neq _ _)) by lia.
  - rewrite bind_Done. eauto.
Qed.

Lemma map_irq_ok s vector irq a : ioapics_ok s -> a ∈ IO_APICS s -> 0 <= vector < 256 ->
  owns a (irq_to_gsi (IRQ_OVERRIDES s) irq) = true ->
  exists w', map_irq_to_vector s vector irq = Done (Ok (), with_world s w') /\ ioapics_ok (with_world s w') /\
    entry_updated s (with_world s w') a (irq_to_gsi (IRQ_OVERRIDES s) irq - gsi_base a) (vector_update vector).
Proof.
  intros Hok Ha Hv Ho. destruct (owns_pin s a _ Hok Ha Ho) as (Hk & _ & Ek & Er). unfold map_irq_to_vector.
  rewrite (find_owner s a), bind_Done, Ek, bind_Done, Er, bind_Done by done.
  destruct (modify_ok s a _ Hok Ha Hk) as (w1 & -> & Hmod). rewrite bind_Done. unfold set_mask, set_vector.
  pose proof (raw_entry_nonneg (world s) a (irq_to_gsi (IRQ_OVERRIDES s) irq - gsi_base a) (io_apics_ok _ Hok _ Ha)) as H0'.
  destruct (bf_set_law 0 8 _ vector ltac:(lia) ltac:(lia) H0' ltac:(lia)) as (e1 & -> & He1 & Hb1). rewrite bind_Done.
  destruct (bf_set_law 16 1 e1 1 ltac:(lia) ltac:(lia) He1 ltac:(lia)) as (e & -> & He & Hb).
  rewrite bind_Done. destruct (Hmod e (vector_update vector)) as (w' & -> & Hok' & Hu).
  - intros n Hn. rewrite Hb, Hb1 by lia. unfold vector_update. destruct (Z.eqb_spec n 16) as [-> | Hne]; [done |].
    unfold in_field. replace ((16 <=? n) && (n <? 16 + 1)) with false by lia.
    destruct ((0 <=? n) && (n <? 0 + 8)); [| done]. cbn. f_equal. lia.
  - intros n Hn. rewrite Hb, Hb1 by lia. unfold in_field.
    replace ((16 <=? 32 + n) && (32 + n <? 16 + 1)) with false by lia.
    by replace ((0 <=? 32 + n) && (32 + n <? 0 + 8)) with false by lia.
  - intros n Hn. unfold vector_update, in_field. rewrite (proj2 (Z.eqb_neq _ _)) by lia.
    by replace ((0 <=? n) && (n <? 0 + 8)) with false by lia.
  - rewrite bind_Done. eauto.
Qed.

Lemma flag_bit flags i : 0 <= flags -> 0 <= i -> Z.shiftr (Z.land flags (2 ^ i)) i = Z.b2z (Z.testbit flags i).
Proof.
  intros Hf Hi. apply Z.bits_inj'. intros n Hn. rewrite Z.shiftr_spec, Z.land_spec by lia.
  destruct (Z.eq_dec n 0) as [-> | Hne].
  - rewrite Z.add_0_l, Z.pow2_bits_true, andb_true_r by lia. by destruct (Z.testbit flags i).
  - rewrite Z.pow2_bits_false, andb_false_r by lia. destruct (Z.testbit flags i); cbn; [| by rewrite Z.testbit_0_l].
    by rewrite (testbit_small 1 1) by lia.
Qed.

Lemma DeliveryMode_bound m : 0 <= DeliveryMode_repr m < 2 ^ 3.
Proof. destruct m; cbn; lia. Qed.

(** The entry after the setters of [override_irq]. *)
Lemma override_entry_ok x flags dest m : 0 <= x -> 0 <= flags -> 0 <= dest < 256 ->
  exists e1 e2 e3 e4 e,
    set_pin_polarity x (Z.shiftr (Z.land flags 2) 1) = Done e1 /\
    set_trigger_mode e1 (Z.shiftr (Z.land flags 8) 3) = Done e2 /\
    set_destination_mode e2 PHYSICAL_MODE = Done e3 /\ set_destination e3 dest = Done e4 /\
    match m with Some m => set_delivery_mode e4 (DeliveryMode_repr m) | None => Done e4 end = Done e /\
    (forall n, 0 <= n < 32 -> Z.testbit e n = default (Z.testbit x n) (override_update flags m n)) /\
    (forall n, 0 <= n < 17 -> Z.testbit e (32 + n) = Z.testbit x (32 + n)).
Proof.
  intros Hx Hf Hd. unfold set_pin_polarity, set_trigger_mode, set_destination_mode, set_destination, set_delivery_mode.
  change 2 with (2 ^ 1). change 8 with (2 ^ 3) at 1. rewrite !flag_bit by lia. change PHYSICAL_MODE with (Z.b2z false).
  destruct (bf_set_flag 13 x (Z.testbit flags 1) ltac:(lia) Hx) as (e1 & E1 & H1' & B1).
  destruct (bf_set_flag 15 e1 (Z.testbit flags 3) ltac:(lia) H1') as (e2 & E2 & H2' & B2).
  destruct (bf_set_flag 11 e2 false ltac:(lia) H2') as (e3 & E3 & H3' & B3).
  destruct (bf_set_law 56 8 e3 dest ltac:(lia) ltac:(lia) H3' ltac:(lia)) as (e4 & E4 & H4' & B4).
  assert (forall n, 0 <= n < 49 -> Z.testbit e4 n = if n =? 11 then false else if n =? 15 then Z.testbit flags 3
            else if n =? 13 then Z.testbit flags 1 else Z.testbit x n) as B.
  { intros n Hn. rewrite B4 by lia. unfold in_field. replace ((56 <=? n) && (n <? 56 + 8)) with false by lia.
    by rewrite B3, B2, B1 by lia. }
  assert (exists e, match m with Some m => bf_set 8 3 e4 (DeliveryMode_repr m) | None => Done e4 end = Done e /\
    forall n, 0 <= n < 49 -> Z.testbit e n = default (Z.testbit e4 n)
      (if in_field 8 3 n then m ← m; Some (Z.testbit (DeliveryMode_repr m) (n - 8)) else None)) as (e & E & Be).
  { destruct m as [m |]; [| exists e4; split; [done |]; intros n Hn; by destruct (in_field 8 3 n)].
    destruct (bf_set_law 8 3 e4 (DeliveryMode_repr m) ltac:(lia) ltac:(lia) H4' (DeliveryMode_bound m)) as (e & E & _ & Be).
    exists e. split; [done |]. intros n Hn. rewrite Be by lia. by destruct (in_field 8 3 n). }
  exists e1, e2, e3, e4, e. split_and!; try done.
  - intros n Hn. rewrite Be, B by lia. unfold override_update, in_field.
    destruct (Z.eqb_spec n 13), (Z.eqb_spec n 15), (Z.eqb_spec n 11); subst; try done; try lia.
  - intros n Hn. rewrite Be, B by lia. unfold in_field. replace ((8 <=? 32 + n) && (32 + n <? 8 + 3)) with false by lia.
    cbn [default]. by rewrite !(proj2 (Z.eqb_neq _ _)) by lia.
Qed.

Lemma override_irq_ok s irq gsi flags m a : ioapics_ok s -> a ∈ IO_APICS s -> owns a gsi = true -> 0 <= flags ->
  exists w', override_irq s irq gsi flags m =
      Done (mkIoApics w' (IO_APICS s) (IRQ_OVERRIDES s ++ [mkIrqOverride irq gsi]) (IRQ_ALLOCATOR s)) /\
    ioapics_ok (with_world s w') /\
    entry_updated s (with_world s w') a (gsi - gsi_base a) (override_update flags m).
Proof.
  intros Hok Ha Ho Hf. destruct (owns_pin s a _ Hok Ha Ho) as (Hk & _ & Ek & Er). unfold override_irq.
  rewrite (find_owner s a), bind_Done by done. cbn [unwrap]. rewrite bind_Done, Ek, bind_Done, Er, bind_Done.
  pose proof (io_apics_ok _ Hok _ Ha) as Hao. destruct (modify_ok s a _ Hok Ha Hk) as (w1 & -> & Hmod). rewrite bind_Done.
  destruct (override_entry_ok _ flags (apic_id a) m (raw_entry_nonneg (world s) a (gsi - gsi_base a) Hao) Hf (ao_id _ _ Hao))
    as (e1 & e2 & e3 & e4 & e & -> & E2 & E3 & E4 & E & Hlow & Hhigh).
  rewrite bind_Done, E2, bind_Done, E3, bind_Done, E4, bind_Done, E, bind_Done.
  destruct (Hmod e (override_update flags m) Hlow Hhigh) as (w' & -> & Hok' & Hu).
  - intros n Hn. unfold override_update, in_field. rewrite !(proj2 (Z.eqb_neq _ _)) by lia.
    by replace ((8 <=? n) && (n <? 8 + 3)) with false by lia.
  - rewrite bind_Done. eauto.
Qed.
End ioapic.
