(* ===== verification/Idt.v ===== *)
(** * The interrupt descriptor table and the registration of IRQs

    Models the gate descriptors, the installation of exception and interrupt
    handlers and [register_irq] of kernel/src/arch/x86_64/interrupts.rs.  The
    addresses of the handler stubs are those of assembly symbols and are
    arguments, as is the code segment read from the processor. *)

From S2P Require Import Prelude Bitfield IoApic IoApicCorrect.

Definition IDT_ENTRIES_NUM : nat := 256.
Definition GENERIC_ISR_VECTOR : nat := 255.

Inductive GateType := Interrupt | Trap.
Definition GateType_repr (t : GateType) : Z := match t with Interrupt => 14 | Trap => 15 end.

Inductive Dpl := KernelDpl | UserDpl.
Definition Dpl_repr (d : Dpl) : Z := match d with KernelDpl => 0 | UserDpl => 3 end.

Inductive PresentBit := NotPresentGate | PresentGate.
Definition Present_repr (p : PresentBit) : Z := match p with NotPresentGate => 0 | PresentGate => 1 end.

(** A gate descriptor is its 128 bits. *)
Abbreviation GateDescriptor := Z (only parsing).
Definition GateDescriptor_DEFAULT : GateDescriptor := 0.

Abbreviation Idt := (list Z) (only parsing).
Definition IDT_new : Idt := replicate IDT_ENTRIES_NUM GateDescriptor_DEFAULT.

Section idt.
Context `{Bitfields}.

(** The fields of a descriptor, in the order of the declaration. *)
Definition set_offset_0 (g : GateDescriptor) (v : Z) : res GateDescriptor := bf_set 0 16 g v.
Definition set_segment_selector (g : GateDescriptor) (v : Z) : res GateDescriptor := bf_set 16 16 g v.
Definition set_ist (g : GateDescriptor) (v : Z) : res GateDescriptor := bf_set 32 3 g v.
Definition set_gate_type (g : GateDescriptor) (v : Z) : res GateDescriptor := bf_set 40 4 g v.
Definition set_dpl (g : GateDescriptor) (v : Z) : res GateDescriptor := bf_set 45 2 g v.
Definition set_gate_present (g : GateDescriptor) (v : Z) : res GateDescriptor := bf_set 47 1 g v.
Definition set_offset_1 (g : GateDescriptor) (v : Z) : res GateDescriptor := bf_set 48 16 g v.
Definition set_offset_2 (g : GateDescriptor) (v : Z) : res GateDescriptor := bf_set 64 32 g v.
Definition gate_present (g : GateDescriptor) : Z := bf_get 47 1 g.

Definition GateDescriptor_install (g : GateDescriptor) (offset segment_selector ist : Z) (gate_type : GateType)
    (dpl : Dpl) (present : PresentBit) : res GateDescriptor :=
  g ← set_offset_0 g (offset mod 2 ^ 16);
  g ← set_segment_selector g segment_selector;
  g ← set_ist g ist;
  g ← set_gate_type g (GateType_repr gate_type);
  g ← set_dpl g (Dpl_repr dpl);
  g ← set_gate_present g (Present_repr present);
  g ← set_offset_1 g (Z.shiftr offset 16 mod 2 ^ 16);
  set_offset_2 g (Z.shiftr offset 32 mod 2 ^ 32).

(** [self.0[i].install(...)] *)
Definition install_at (idt : Idt) (i : nat) (offset segment_selector ist : Z) (gate_type : GateType)
    (dpl : Dpl) (present : PresentBit) : res Idt :=
  g ← index idt i;
  g ← GateDescriptor_install g offset segment_selector ist gate_type dpl present;
  Done (<[i := g]> idt).

(** The lines for the exceptions [i], [i + 1], ..., [i + n - 1]. *)
Fixpoint install_exceptions (stub_exception : nat -> Z) (cs : Z) (idt : Idt) (i n : nat) : res Idt :=
  match n with
  | O => Done idt
  | S n =>
      idt ← install_at idt i (stub_exception i) cs 0 Trap KernelDpl PresentGate;
      install_exceptions stub_exception cs idt (S i) n
  end.

Definition install_exception_isrs (stub_exception : nat -> Z) (stub_generic cs : Z) (idt : Idt) : res Idt :=
  idt ← install_exceptions stub_exception cs idt 0 32;
  install_at idt GENERIC_ISR_VECTOR stub_generic cs 0 Interrupt KernelDpl PresentGate.

(** [.iter_mut().enumerate().find(...)]: the first entry that is not present. *)
Fixpoint find_not_present (idt : Idt) (i : nat) : option nat :=
  match idt with
  | [] => None
  | g :: idt => if gate_present g =? Present_repr NotPresentGate then Some i else find_not_present idt (S i)
  end.

Definition install_isr (idt : Idt) (isr_stub segment_selector ist_field : Z) (gate_type : GateType)
    (dpl : Dpl) (present : PresentBit) : res (Z * Idt) :=
  entry_number ← unwrap (find_not_present idt 0);
  idt ← install_at idt entry_number isr_stub segment_selector ist_field gate_type dpl present;
  Done (Z.of_nat entry_number mod 256, idt).

Definition register_irq {W} `{Mmio32 W} (s : IoApics W) (idt : Idt) (cs irq isr_stub : Z) : res (IoApics W * Idt) :=
  '(r, s) ← set_disabled s irq true;
  _ ← unwrap_ok r;
  '(vector, idt) ← install_isr idt isr_stub cs 0 Interrupt KernelDpl PresentGate;
  '(r, s) ← map_irq_to_vector s vector irq;
  _ ← unwrap_ok r;
  '(r, s) ← set_disabled s irq false;
  _ ← unwrap_ok r;
  Done (s, idt).
End idt.

(** ** What a descriptor says to the processor *)
Definition gate_offset (g : GateDescriptor) : Z :=
  bits_at 0 16 g + 2 ^ 16 * bits_at 48 16 g + 2 ^ 32 * bits_at 64 32 g.

Record gate_is (g : GateDescriptor) (offset cs ist : Z) (t : GateType) (d : Dpl) (p : PresentBit) : Prop := {
  gate_offset_is : gate_offset g = offset;
  gate_selector_is : bits_at 16 16 g = cs;
  gate_ist_is : bits_at 32 3 g = ist;
  gate_type_is : bits_at 40 4 g = GateType_repr t;
  gate_dpl_is : bits_at 45 2 g = Dpl_repr d;
  gate_present_is : bits_at 47 1 g = Present_repr p;
}.

Lemma offset_halves offset : 0 <= offset < 2 ^ 64 ->
  offset mod 2 ^ 16 + 2 ^ 16 * (Z.shiftr offset 16 mod 2 ^ 16) + 2 ^ 32 * (Z.shiftr offset 32 mod 2 ^ 32) = offset.
Proof.
  intros Ho. rewrite !Z.shiftr_div_pow2 by lia.
  rewrite (Z.mod_small (offset / 2 ^ 32)) by (split; [apply Z.div_pos; lia | apply Z.div_lt_upper_bound; lia]).
  replace (offset / 2 ^ 32) with (offset / 2 ^ 16 / 2 ^ 16) by (rewrite Z.div_div by lia; done).
  pose proof (Z.div_mod offset (2 ^ 16) ltac:(lia)). pose proof (Z.div_mod (offset / 2 ^ 16) (2 ^ 16) ltac:(lia)).
  change (2 ^ 32) with (2 ^ 16 * 2 ^ 16). lia.
Qed.

Section install.
Context `{BitfieldLaws}.

Lemma gate_present_ok g : 0 <= g -> gate_present g = bits_at 47 1 g.
Proof. intros Hg. unfold gate_present. by rewrite bf_get_law by lia. Qed.

Lemma install_ok g offset cs ist t d p : 0 <= g -> 0 <= offset < 2 ^ 64 -> 0 <= cs < 2 ^ 16 -> 0 <= ist < 2 ^ 3 ->
  exists g', GateDescriptor_install g offset cs ist t d p = Done g' /\ 0 <= g' /\ gate_is g' offset cs ist t d p.
Proof.
  intros Hg Ho Hc Hi. unfold GateDescriptor_install, set_offset_0, set_segment_selector, set_ist, set_gate_type, set_dpl,
    set_gate_present, set_offset_1, set_offset_2.
  assert (forall x w, 0 <= w -> 0 <= x mod 2 ^ w < 2 ^ w) as Hm by (intros x w Hw; apply Z.mod_pos_bound, Z.pow_pos_nonneg; lia).
  destruct (bf_set_field 0 16 g (offset mod 2 ^ 16)) as (g1 & E1 & H1 & V1 & K1); [lia | lia | lia | by apply Hm |].
  destruct (bf_set_field 16 16 g1 cs) as (g2 & E2 & H2 & V2 & K2); [lia.. |].
  destruct (bf_set_field 32 3 g2 ist) as (g3 & E3 & H3 & V3 & K3); [lia.. |].
  assert (0 <= GateType_repr t < 2 ^ 4) as Ht by (destruct t; cbn; lia).
  destruct (bf_set_field 40 4 g3 (GateType_repr t)) as (g4 & E4 & H4 & V4 & K4); [lia.. |].
  assert (0 <= Dpl_repr d < 2 ^ 2) as Hd by (destruct d; cbn; lia).
  destruct (bf_set_field 45 2 g4 (Dpl_repr d)) as (g5 & E5 & H5 & V5 & K5); [lia.. |].
  assert (0 <= Present_repr p < 2 ^ 1) as Hp by (destruct p; cbn; lia).
  destruct (bf_set_field 47 1 g5 (Present_repr p)) as (g6 & E6 & H6 & V6 & K6); [lia.. |].
  destruct (bf_set_field 48 16 g6 (Z.shiftr offset 16 mod 2 ^ 16)) as (g7 & E7 & H7 & V7 & K7); [lia | lia | lia | by apply Hm |].
  destruct (bf_set_field 64 32 g7 (Z.shiftr offset 32 mod 2 ^ 32)) as (g8 & E8 & H8 & V8 & K8); [lia | lia | lia | by apply Hm |].
  exists g8. rewrite E1, bind_Done, E2, bind_Done, E3, bind_Done, E4, bind_Done, E5, bind_Done, E6, bind_Done, E7, bind_Done.
  split; [done |]. split; [done |]. split.
  - unfold gate_offset. rewrite V8, (K8 48), V7, (K8 0), (K7 0), (K6 0), (K5 0), (K4 0), (K3 0), (K2 0), V1 by lia.
    by apply offset_halves.
  - by rewrite K8, K7, K6, K5, K4, K3, V2 by lia.
  - by rewrite K8, K7, K6, K5, K4, V3 by lia.
  - by rewrite K8, K7, K6, K5, V4 by lia.
  - by rewrite K8, K7, K6, V5 by lia.
  - by rewrite K8, K7, V6 by lia.
Qed.

(** An IDT: 256 descriptors. *)
Definition idt_wf (idt : Idt) : Prop := length idt = IDT_ENTRIES_NUM /\ Forall (fun g => 0 <= g) idt.

Definition present_at (idt : Idt) (i : nat) : Prop := exists g, idt !! i = Some g /\ bits_at 47 1 g = 1.

Lemma install_at_ok idt i offset cs ist t d p : idt_wf idt -> (i < IDT_ENTRIES_NUM)%nat -> 0 <= offset < 2 ^ 64 ->
  0 <= cs < 2 ^ 16 -> 0 <= ist < 2 ^ 3 ->
  exists g, install_at idt i offset cs ist t d p = Done (<[i := g]> idt) /\ idt_wf (<[i := g]> idt) /\
    gate_is g offset cs ist t d p.
Proof.
  intros [Hl Hf] Hi Ho Hc Hist. destruct (lookup_lt_is_Some_2 idt i ltac:(lia)) as [g Eg].
  destruct (install_ok g offset cs ist t d p) as (g' & E & Hg' & Hgate); [by eapply Forall_lookup_1 in Hf | done.. |].
  exists g'. unfold install_at, index. rewrite Eg, bind_Done, E, bind_Done. split; [done |]. split; [| done].
  split; [rewrite <- Hl; apply length_insert |]. by apply Forall_insert.
Qed.
End install.
