(* ===== verification/IrqTheorems.v ===== *)
(** * Interrupt routing: theorems

    What a driver gets when it registers a handler for an IRQ: a free vector of
    the IDT that leads to its handler, and the pin of the IRQ routed to that
    vector and enabled, with every other pin and vector as before.  And what
    the interrupt source overrides of the firmware do. *)

From S2P Require Import Prelude Ids Bitfield IoApic IoApicCorrect Idt.

Section irq.
Context {W : Type} `{IoApicHw W} `{BitfieldLaws}.
Implicit Types (s : IoApics W) (idt : Idt).

(** The exceptions and the generic interrupt have their handlers. *)
Record idt_ready idt : Prop := {
  ir_wf : idt_wf idt;
  ir_present i : (i < 32)%nat \/ i = GENERIC_ISR_VECTOR -> present_at idt i;
}.

Lemma idt_wf_lookup idt i g : idt_wf idt -> idt !! i = Some g -> 0 <= g.
Proof. intros [_ Hf] E. by eapply Forall_lookup_1 in Hf. Qed.

Lemma find_not_present_spec l i j : Forall (fun g => 0 <= g) l -> find_not_present l i = Some j ->
  exists k g, j = (i + k)%nat /\ l !! k = Some g /\ bits_at 47 1 g = 0 /\
    forall k' g', (k' < k)%nat -> l !! k' = Some g' -> bits_at 47 1 g' <> 0.
Proof.
  revert i. induction l as [| g l IH]; intros i Hf E; [done |]. apply Forall_cons in Hf as [Hg Hf].
  cbn [find_not_present] in E. rewrite gate_present_ok in E by done. cbn [Present_repr] in E.
  destruct (Z.eqb_spec (bits_at 47 1 g) 0) as [Ez | Ez].
  - injection E as <-. exists 0%nat, g. split_and!; [lia | done | done | lia].
  - destruct (IH _ Hf E) as (k & g0 & -> & Ek & E0 & Hfirst). exists (S k), g0. split_and!; [lia | done | done |].
    intros [| k'] g' Hk E'; [by injection E' as <- | by apply (Hfirst k'); [lia |]].
Qed.

Lemma find_not_present_some l i k g : Forall (fun g => 0 <= g) l -> l !! k = Some g -> bits_at 47 1 g = 0 ->
  exists j, find_not_present l i = Some j.
Proof.
  revert i k. induction l as [| g0 l IH]; intros i k Hf Ek E0; [done |]. apply Forall_cons in Hf as [Hg Hf].
  cbn [find_not_present]. rewrite gate_present_ok by done. destruct (_ =? _) eqn:Eq; [eauto |].
  destruct k as [| k]; [| by apply (IH (S i) k)]. injection Ek as ->. rewrite E0 in Eq. done.
Qed.

(** [install_isr] takes the first vector without a handler. *)
Lemma install_isr_ok idt stub cs ist t d p i g : idt_wf idt -> idt !! i = Some g -> bits_at 47 1 g = 0 ->
  0 <= stub < 2 ^ 64 -> 0 <= cs < 2 ^ 16 -> 0 <= ist < 2 ^ 3 ->
  exists v g', install_isr idt stub cs ist t d p = Done (Z.of_nat v, <[v := g']> idt) /\ (v <= i)%nat /\
    ~ present_at idt v /\ (forall j, (j < v)%nat -> present_at idt j) /\
    idt_wf (<[v := g']> idt) /\ gate_is g' stub cs ist t d p.
Proof.
  intros Hwf Ei E0 Hs Hc Hist. pose proof Hwf as [Hlen Hf].
  destruct (find_not_present_some idt 0 i g Hf Ei E0) as [v Ev].
  destruct (find_not_present_spec idt 0 v Hf Ev) as (k & gv & Hk & Ek & Ek0 & Hfirst). cbn in Hk. subst k.
  assert (v < IDT_ENTRIES_NUM)%nat as Hv by (rewrite <- Hlen; by eapply lookup_lt_Some).
  destruct (install_at_ok idt v stub cs ist t d p Hwf Hv Hs Hc Hist) as (g' & E & Hwf' & Hg').
  exists v, g'. unfold install_isr. rewrite Ev. cbn [unwrap]. rewrite bind_Done, E, bind_Done.
  rewrite Z.mod_small by (unfold IDT_ENTRIES_NUM in Hv; lia). split; [done |]. split; [| split; [| split; [| done]]].
  - destruct (decide (v <= i)%nat); [done |]. by destruct (Hfirst i g ltac:(lia) Ei).
  - intros (g1 & E1 & E2). rewrite Ek in E1. injection E1 as <-. lia.
  - intros j Hj. destruct (lookup_lt_is_Some_2 idt j) as [gj Ej]; [lia |]. exists gj. split; [done |].
    pose proof (Hfirst j gj Hj Ej) as Hne. pose proof (bits_at_bound 47 1 gj ltac:(lia)). lia.
Qed.

(** Two updates of one entry, one after the other. *)
Lemma entry_updated_trans s s1 s2 a k u1 u2 : IO_APICS s1 = IO_APICS s -> entry_updated s s1 a k u1 ->
  entry_updated s1 s2 a k u2 -> entry_updated s s2 a k (fun n => match u2 n with Some b => Some b | None => u1 n end).
Proof.
  intros El U1 U2 b j n Hb Hj Hn. rewrite U2 by (rewrite ?El; done). rewrite U1 by done.
  case_decide; [| done]. by destruct (u2 n).
Qed.

(** Updates that agree bit by bit are the same. *)
Lemma entry_updated_ext s s' a k u u' : (forall n, u n = u' n) -> entry_updated s s' a k u -> entry_updated s s' a k u'.
Proof. intros Hu U b j n Hb Hj Hn. rewrite U by done. by rewrite Hu. Qed.

(** The entry of a pin whose IRQ is routed to [v] and enabled. *)
Definition routed_update (v n : Z) : option bool :=
  if in_field 0 8 n then Some (Z.testbit v n) else if n =? 16 then Some false else None.

Lemma register_irq_ok s idt a cs irq stub i g : ioapics_ok s -> a ∈ IO_APICS s ->
  owns a (irq_to_gsi (IRQ_OVERRIDES s) irq) = true -> idt_wf idt -> idt !! i = Some g -> bits_at 47 1 g = 0 ->
  0 <= stub < 2 ^ 64 -> 0 <= cs < 2 ^ 16 ->
  exists v g' w', register_irq s idt cs irq stub = Done (with_world s w', <[v := g']> idt) /\ (v <= i)%nat /\
    ~ present_at idt v /\ (forall j, (j < v)%nat -> present_at idt j) /\ idt_wf (<[v := g']> idt) /\
    gate_is g' stub cs 0 Interrupt KernelDpl PresentGate /\ ioapics_ok (with_world s w') /\
    entry_updated s (with_world s w') a (irq_to_gsi (IRQ_OVERRIDES s) irq - gsi_base a) (routed_update (Z.of_nat v)).
Proof.
  intros Hok Ha Ho Hwf Ei E0 Hs Hc. unfold register_irq.
  destruct (set_disabled_ok s irq true a Hok Ha Ho) as (w1 & -> & Hok1 & U1). rewrite bind_Done. cbn [unwrap_ok]. rewrite bind_Done.
  destruct (install_isr_ok idt stub cs 0 Interrupt KernelDpl PresentGate i g Hwf Ei E0 Hs Hc ltac:(lia))
    as (v & g' & -> & Hvi & Hnp & Hbelow & Hwf' & Hg'). rewrite bind_Done.
  assert (0 <= Z.of_nat v < 256) as Hv. { destruct Hwf as [Hl _]. apply lookup_lt_Some in Ei. unfold IDT_ENTRIES_NUM in *. lia. }
  destruct (map_irq_ok (with_world s w1) (Z.of_nat v) irq a Hok1 Ha Hv Ho) as (w2 & -> & Hok2 & U2).
  rewrite bind_Done. cbn [unwrap_ok]. rewrite bind_Done.
  destruct (set_disabled_ok (with_world (with_world s w1) w2) irq false a Hok2 Ha Ho) as (w3 & -> & Hok3 & U3).
  rewrite bind_Done. cbn [unwrap_ok]. rewrite bind_Done. exists v, g', w3. split_and!; try done.
  pose proof (entry_updated_trans s (with_world s w1) _ a _ _ _ eq_refl U1 U2) as U12.
  pose proof (entry_updated_trans s (with_world (with_world s w1) w2) _ a _ _ _ eq_refl U12 U3) as U.
  eapply entry_updated_ext; [| exact U].
  intros n. unfold mask_update, vector_update, routed_update, in_field. destruct (Z.eqb_spec n 16) as [-> |]; [done |].
  by destruct ((0 <=? n) && (n <? 0 + 8)).
Qed.

(** The lines of [install_exception_isrs] for the exceptions. *)
Lemma install_exceptions_ok stubs cs n : 0 <= cs < 2 ^ 16 -> (forall i, 0 <= stubs i < 2 ^ 64) -> forall idt i,
  idt_wf idt -> (i + n <= IDT_ENTRIES_NUM)%nat ->
  exists idt', install_exceptions stubs cs idt i n = Done idt' /\ idt_wf idt' /\
    (forall j, (i <= j < i + n)%nat -> exists g, idt' !! j = Some g /\ gate_is g (stubs j) cs 0 Trap KernelDpl PresentGate) /\
    (forall j, ~ (i <= j < i + n)%nat -> idt' !! j = idt !! j).
Proof.
  intros Hc Hst. induction n as [| n IH]; intros idt i Hwf Hi.
  - exists idt. split_and!; [done | done | lia | done].
  - cbn [install_exceptions].
    destruct (install_at_ok idt i (stubs i) cs 0 Trap KernelDpl PresentGate Hwf ltac:(lia) (Hst i) Hc ltac:(lia)) as (g & -> & Hwf1 & Hg).
    rewrite bind_Done. destruct (IH (<[i := g]> idt) (S i) Hwf1 ltac:(lia)) as (idt' & -> & Hwf' & Hin & Hout).
    exists idt'. split_and!; [done | done | |].
    + intros j Hj. destruct (decide (j = i)) as [-> | Hne]; [| apply Hin; lia]. exists g. split; [| done].
      rewrite Hout by lia. apply list_lookup_insert_eq. destruct Hwf as [Hl _]. lia.
    + intros j Hj. rewrite Hout by lia. apply list_lookup_insert_ne. lia.
Qed.

Lemma not_present_lookup idt i : idt_wf idt -> (i < IDT_ENTRIES_NUM)%nat -> ~ present_at idt i ->
  exists g, idt !! i = Some g /\ bits_at 47 1 g = 0.
Proof.
  intros [Hlen _] Hi Hni. destruct (lookup_lt_is_Some_2 idt i ltac:(lia)) as [g Eg]. exists g. split; [done |].
  pose proof (bits_at_bound 47 1 g ltac:(lia)). destruct (Z.eq_dec (bits_at 47 1 g) 0); [done |].
  destruct Hni. exists g. split; [done | lia].
Qed.

Lemma ready_insert idt v g' stub cs t : idt_ready idt -> idt_wf (<[v := g']> idt) ->
  gate_is g' stub cs 0 t KernelDpl PresentGate -> idt_ready (<[v := g']> idt).
Proof.
  intros [Hwf Hp] Hwf' Hg. split; [done |]. intros i Hi. destruct (Hp i Hi) as (g & E & Eg). unfold present_at.
  destruct (decide (i = v)) as [-> | Hne].
  - exists g'. split; [by eapply list_lookup_insert_eq, lookup_lt_Some | apply Hg].
  - exists g. by rewrite list_lookup_insert_ne by done.
Qed.

(** C16: registering a handler for an IRQ takes the first vector that has none
    (never one of the 32 exceptions or the generic vector), makes it an
    interrupt gate of ring 0 to the handler, and routes exactly the pin of the
    IRQ to that vector and enables it; nothing else of any redirection entry
    or of the IDT changes. *)
Theorem register_irq_correct s idt a cs irq stub : ioapics_ok s -> a ∈ IO_APICS s ->
  owns a (irq_to_gsi (IRQ_OVERRIDES s) irq) = true -> idt_ready idt ->
  (exists i, (i < IDT_ENTRIES_NUM)%nat /\ ~ present_at idt i) -> 0 <= stub < 2 ^ 64 -> 0 <= cs < 2 ^ 16 ->
  exists v g' w', register_irq s idt cs irq stub = Done (with_world s w', <[v := g']> idt) /\
    (32 <= v < 255)%nat /\ ~ present_at idt v /\ (forall j, (j < v)%nat -> present_at idt j) /\ idt_ready (<[v := g']> idt) /\
    gate_is g' stub cs 0 Interrupt KernelDpl PresentGate /\ ioapics_ok (with_world s w') /\
    entry_updated s (with_world s w') a (irq_to_gsi (IRQ_OVERRIDES s) irq - gsi_base a) (routed_update (Z.of_nat v)).
Proof.
  intros Hok Ha Ho Hr (i & Hi & Hni) Hs Hc.
  destruct (not_present_lookup idt i (ir_wf _ Hr) Hi Hni) as (g & Eg & E0).
  destruct (register_irq_ok s idt a cs irq stub i g Hok Ha Ho (ir_wf _ Hr) Eg E0 Hs Hc)
    as (v & g' & w' & E & Hvi & Hnv & Hbelow & Hwf' & Hg & Hok' & U).
  exists v, g', w'. split_and!; try done; [| | by eapply ready_insert].
  - destruct (decide (v < 32)%nat); [| lia]. destruct Hnv. apply (ir_present _ Hr). by left.
  - destruct (decide (v = 255)%nat) as [-> |]; [| unfold IDT_ENTRIES_NUM in Hi; lia].
    destruct Hnv. apply (ir_present _ Hr). by right.
Qed.

(** After [install_exception_isrs] each of the 32 exceptions is a trap gate
    to its handler and the generic vector an interrupt gate to its own; the
    other entries are as they were. *)
Theorem exception_isrs_installed idt stubs generic cs : idt_wf idt -> 0 <= cs < 2 ^ 16 ->
  (forall i, 0 <= stubs i < 2 ^ 64) -> 0 <= generic < 2 ^ 64 ->
  exists idt', install_exception_isrs stubs generic cs idt = Done idt' /\ idt_ready idt' /\
    (forall i, (i < 32)%nat -> exists g, idt' !! i = Some g /\ gate_is g (stubs i) cs 0 Trap KernelDpl PresentGate) /\
    (exists g, idt' !! GENERIC_ISR_VECTOR = Some g /\ gate_is g generic cs 0 Interrupt KernelDpl PresentGate) /\
    (forall i, (32 <= i < 255)%nat -> idt' !! i = idt !! i).
Proof.
  intros Hwf Hc Hst Hgen. unfold install_exception_isrs.
  destruct (install_exceptions_ok stubs cs 32 Hc Hst idt 0 Hwf ltac:(unfold IDT_ENTRIES_NUM; lia)) as (idt1 & -> & Hwf1 & Hin & Hout).
  rewrite bind_Done. destruct (install_at_ok idt1 GENERIC_ISR_VECTOR generic cs 0 Interrupt KernelDpl PresentGate Hwf1)
    as (g & -> & Hwf' & Hg); [unfold GENERIC_ISR_VECTOR, IDT_ENTRIES_NUM; lia | done | done | lia |].
  assert (forall i, (i < 32)%nat -> exists g0, <[GENERIC_ISR_VECTOR := g]> idt1 !! i = Some g0 /\
    gate_is g0 (stubs i) cs 0 Trap KernelDpl PresentGate) as Hex.
  { intros i Hi. rewrite list_lookup_insert_ne by (unfold GENERIC_ISR_VECTOR; lia). apply Hin. lia. }
  assert (<[GENERIC_ISR_VECTOR := g]> idt1 !! GENERIC_ISR_VECTOR = Some g) as Hgv.
  { apply list_lookup_insert_eq. destruct Hwf1 as [Hl _]. unfold IDT_ENTRIES_NUM, GENERIC_ISR_VECTOR in *. lia. }
  exists (<[GENERIC_ISR_VECTOR := g]> idt1). split_and!; [done | | done | by exists g |].
  - split; [done |]. intros i [Hi | ->]; [destruct (Hex i Hi) as (g0 & E & Hg0) | exists g]; [exists g0 |];
      (split; [done |]); [by apply Hg0 | by apply Hg].
  - intros i Hi. rewrite list_lookup_insert_ne by (unfold GENERIC_ISR_VECTOR; lia). apply Hout. lia.
Qed.

Lemma find_app {A} (f : A -> bool) l l' : List.find f (l ++ l') =
  match List.find f l with Some x => Some x | None => List.find f l' end.
Proof. induction l as [| x l IH]; [done |]. cbn. by destruct (f x). Qed.

(** An override for a GSI of some IO APIC sets the polarity and trigger
    mode of its pin from the flags, the physical destination mode and the
    delivery mode when one is given, and changes no other bit of any
    redirection entry: the destination of the pin is not set, since the driver
    writes the high half of the entry to another register.  From then on the
    IRQ and the GSI are looked up as each other, unless an earlier override
    has one of them.  An override for a GSI of no IO APIC stops the kernel. *)
Theorem override_irq_correct s irq gsi flags m : ioapics_ok s -> 0 <= flags ->
  (forall a, a ∈ IO_APICS s -> owns a gsi = true -> exists w',
     override_irq s irq gsi flags m =
       Done (mkIoApics w' (IO_APICS s) (IRQ_OVERRIDES s ++ [mkIrqOverride irq gsi]) (IRQ_ALLOCATOR s)) /\
     ioapics_ok (with_world s w') /\ entry_updated s (with_world s w') a (gsi - gsi_base a) (override_update flags m) /\
     (forall n, 56 <= n < 64 -> rte_bit w' a (gsi - gsi_base a) n = rte_bit (world s) a (gsi - gsi_base a) n)) /\
  ((forall a, a ∈ IO_APICS s -> owns a gsi = false) -> override_irq s irq gsi flags m = Panic Unwrapped) /\
  ((forall o, o ∈ IRQ_OVERRIDES s -> ov_irq o <> irq) ->
     irq_to_gsi (IRQ_OVERRIDES s ++ [mkIrqOverride irq gsi]) irq = gsi) /\
  ((forall o, o ∈ IRQ_OVERRIDES s -> ov_gsi o <> gsi) ->
     gsi_to_irq (IRQ_OVERRIDES s ++ [mkIrqOverride irq gsi]) gsi = irq).
Proof.
  intros Hok Hf. split_and!.
  - intros a Ha Ho. destruct (override_irq_ok s irq gsi flags m a Hok Ha Ho Hf) as (w' & E & Hok' & U).
    exists w'. split_and!; try done. intros n Hn. destruct (owns_pin s a gsi Hok Ha Ho) as [Hk _].
    assert (rte_rw n = true) as Hrw by (unfold rte_rw, in_field; lia).
    pose proof (U a _ n Ha Hk Hrw) as Eb. rewrite decide_True in Eb by done. cbn [world with_world] in Eb. rewrite Eb.
    unfold override_update, in_field. rewrite !(proj2 (Z.eqb_neq _ _)) by lia.
    by replace ((8 <=? n) && (n <? 8 + 3)) with false by lia.
  - intros Hno. unfold override_irq. by rewrite find_nobody, bind_Done by done.
  - intros Hno. unfold irq_to_gsi. rewrite find_app. destruct (List.find _ _) as [o |] eqn:E.
    + apply List.find_some in E as [Ho Eo]. apply list_elem_of_In in Ho. specialize (Hno _ Ho). lia.
    + cbn. by rewrite Z.eqb_refl.
  - intros Hno. unfold gsi_to_irq. rewrite find_app. destruct (List.find _ _) as [o |] eqn:E.
    + apply List.find_some in E as [Ho Eo]. apply list_elem_of_In in Ho. specialize (Hno _ Ho). lia.
    + cbn. by rewrite Z.eqb_refl.
Qed.

(** Masking or unmasking an IRQ changes exactly the mask of its pin; an IRQ
    whose GSI no IO APIC has is refused and nothing changes. *)
Theorem irq_mask_correct s irq status : ioapics_ok s ->
  (forall a, a ∈ IO_APICS s -> owns a (irq_to_gsi (IRQ_OVERRIDES s) irq) = true -> exists w',
     set_disabled s irq status = Done (Ok (), with_world s w') /\ ioapics_ok (with_world s w') /\
     entry_updated s (with_world s w') a (irq_to_gsi (IRQ_OVERRIDES s) irq - gsi_base a) (mask_update status)) /\
  ((forall a, a ∈ IO_APICS s -> owns a (irq_to_gsi (IRQ_OVERRIDES s) irq) = false) ->
     set_disabled s irq status = Done (Err InvalidGsi, s)).
Proof.
  intros Hok. split; [intros a; by apply set_disabled_ok |]. intros Hno. unfold set_disabled.
  by rewrite find_nobody, bind_Done by done.
Qed.
End irq.

(** ** A machine with one IO APIC *)

(** IO APICs by the page of their registers: the index selected and the
    registers, of which the version is read-only. *)
Abbreviation Machine := (gmap Z (Z * gmap Z Z)).

#[export] Instance machine_mmio : Mmio32 Machine := {
  mmio_read w addr :=
    match w !! (addr - addr mod 4096) with
    | Some (i, regs) => if addr mod 4096 =? 16 then default 0 (regs !! i) else i
    | None => 0
    end;
  mmio_write w addr v :=
    match w !! (addr - addr mod 4096) with
    | Some (i, regs) =>
        if addr mod 4096 =? 0 then <[addr := (v, regs)]> w
        else if (addr mod 4096 =? 16) && negb (i =? 1) then <[addr - 16 := (i, <[i := v]> regs)]> w
        else w
    | None => w
    end;
}.

Definition machine_ioapic (w : Machine) (b : Z) : Prop :=
  b mod 4096 = 0 /\ exists i regs, w !! b = Some (i, regs) /\ map_Forall (fun _ v => 0 <= v < 2 ^ 32) regs.

Definition machine_reg (w : Machine) (b i : Z) : Z :=
  match w !! b with Some (_, regs) => default 0 (regs !! i) | None => 0 end.

Definition machine_index (w : Machine) (b : Z) : Z := match w !! b with Some (i, _) => i | None => 0 end.

Lemma machine_window b : b mod 4096 = 0 -> (b + 16) mod 4096 = 16 /\ b + 16 - 16 = b.
Proof. intros Hb. split; [rewrite Z.add_mod, Hb by lia; done | lia]. Qed.

#[export] Instance machine_hw : IoApicHw Machine.
Proof.
  refine {| is_ioapic := machine_ioapic; io_index := machine_index; io_reg := machine_reg |}.
  - intros w b i (_ & j & regs & E & Hr). unfold machine_reg. rewrite E.
    destruct (regs !! i) as [v |] eqn:Ev; cbn; [by apply (Hr i) | lia].
  - intros w b i (Hb & j & regs & E & Hr) Hi. cbn. rewrite Hb, Z.sub_0_r, E. cbn. split.
    + unfold machine_index. by rewrite lookup_insert_eq.
    + intros b' (Hb' & j' & regs' & E' & Hr'). unfold machine_ioapic, machine_reg. destruct (decide (b' = b)) as [-> | Hne].
      * rewrite lookup_insert_eq, E. eauto 10.
      * rewrite lookup_insert_ne by done. eauto 10.
  - intros w b (Hb & j & regs & E & Hr). cbn. destruct (machine_window b Hb) as [-> ->]. unfold machine_reg, machine_index.
    by rewrite E.
  - intros w b v (Hb & j & regs & E & Hr) Hv. cbn. destruct (machine_window b Hb) as [-> ->]. rewrite E. cbn [Z.eqb Pos.eqb andb].
    destruct (Z.eqb_spec j 1) as [-> | Hj]; cbn [negb].
    + split; [intros b' Hb'; done |]. intros k n Hrw. apply reg_rw_bounds in Hrw as [Hk _].
      unfold machine_index. rewrite E. by rewrite (proj2 (Z.eqb_neq k 1)) by lia.
    + split.
      * intros b' (Hb' & j' & regs' & E' & Hr'). unfold machine_ioapic, machine_reg. destruct (decide (b' = b)) as [-> | Hne].
        -- rewrite lookup_insert_eq, E, lookup_insert_ne by done. split_and!; [done | | done | done].
           do 2 eexists. split; [done |]. by apply map_Forall_insert_2.
        -- rewrite lookup_insert_ne by done. eauto 10.
      * intros k n Hrw. unfold machine_reg, machine_index. rewrite lookup_insert_eq, E.
        destruct (Z.eqb_spec k j) as [-> |]; [by rewrite lookup_insert_eq | by rewrite lookup_insert_ne].
Defined.

(** Twenty-four pins from GSI 0, with the version register of the data sheet;
    at another page the registers of a timer block. *)
Definition ex_machine : Machine :=
  <[0x6000 := (0, {[ 0xf0 := 1000; 0x100 := 0xf0000000000030 ]})]> {[ 0x5000 := (0, {[ 1 := 0x170011 ]}) ]}.
Definition ex_apic : IoApic := mkIoApic 0x5000 0x5010 0 24 0.
Definition ex_ioapics : IoApics Machine := mkIoApics ex_machine [ex_apic] [mkIrqOverride 0 2] IdTracker_uninit.

(** The driver probes exactly this IO APIC. *)
Example ex_apic_probed : exists w, IoApic_new ex_machine 0x5000 0 0 = Done (ex_apic, w).
Proof. eexists. vm_compute. reflexivity. Qed.

Lemma ex_ioapics_ok : ioapics_ok ex_ioapics.
Proof.
  split; cbn [IO_APICS ex_ioapics].
  - intros a ->%list_elem_of_singleton. split.
    + split; [done |]. exists 0, {[ 1 := 0x170011 ]}. split; [done |]. intros i v E. apply lookup_singleton_Some in E as [_ <-]. lia.
    + done.
    + by vm_compute.
    + cbn. lia.
    + cbn. unfold u32_MAX. lia.
    + cbn. lia.
  - intros a b ->%list_elem_of_singleton ->%list_elem_of_singleton. done.
  - intros a b gsi ->%list_elem_of_singleton ->%list_elem_of_singleton. done.
Qed.

#[local] Existing Instance plain_bitfields.
#[local] Existing Instance plain_bitfield_laws.

Lemma idt_new_wf : idt_wf IDT_new.
Proof. split; [apply length_replicate | by apply Forall_replicate]. Qed.

Definition ex_stubs (i : nat) : Z := 0xffffffff80001000 + 16 * Z.of_nat (i mod 32).

Lemma ex_stubs_ok i : 0 <= ex_stubs i < 2 ^ 64.
Proof. unfold ex_stubs. pose proof (Nat.mod_upper_bound i 32). lia. Qed.

Definition ex_idt : Idt :=
  match install_exception_isrs ex_stubs 0xffffffff80002000 8 IDT_new with Done idt => idt | Panic _ => [] end.

Lemma ex_idt_ready : idt_ready ex_idt /\ (forall i, (32 <= i < 255)%nat -> ex_idt !! i = Some 0).
Proof.
  destruct (exception_isrs_installed IDT_new ex_stubs 0xffffffff80002000 8 idt_new_wf ltac:(lia) ex_stubs_ok ltac:(lia))
    as (idt' & E & Hr & _ & _ & Ho). unfold ex_idt. rewrite E. split; [done |]. intros i Hi. rewrite Ho by done.
  apply lookup_replicate_2. unfold IDT_ENTRIES_NUM. lia.
Qed.

Lemma ex_idt_free : exists i, (i < IDT_ENTRIES_NUM)%nat /\ ~ present_at ex_idt i.
Proof.
  exists 32%nat. split; [unfold IDT_ENTRIES_NUM; lia |]. intros (g & E & Eg). rewrite (proj2 ex_idt_ready) in E by lia.
  injection E as <-. done.
Qed.

(** The timer, IRQ 0, is on pin 2 by its override. *)
Lemma register_irq_correct_witness : exists v g' w',
  register_irq ex_ioapics ex_idt 8 0 0xffffffff80003000 = Done (with_world ex_ioapics w', <[v := g']> ex_idt) /\
  (32 <= v < 255)%nat /\ gate_is g' 0xffffffff80003000 8 0 Interrupt KernelDpl PresentGate /\
  entry_updated ex_ioapics (with_world ex_ioapics w') ex_apic 2 (routed_update (Z.of_nat v)).
Proof.
  destruct (register_irq_correct ex_ioapics ex_idt ex_apic 8 0 0xffffffff80003000 ex_ioapics_ok
    ltac:(by apply list_elem_of_here) eq_refl (proj1 ex_idt_ready) ex_idt_free ltac:(lia) ltac:(lia))
    as (v & g' & w' & E & Hv & _ & _ & _ & Hg & _ & U). exists v, g', w'. exact (conj E (conj Hv (conj Hg U))).
Defined.

Lemma override_irq_correct_witness : exists w',
  override_irq ex_ioapics 9 9 0xd None =
    Done (mkIoApics w' [ex_apic] [mkIrqOverride 0 2; mkIrqOverride 9 9] IdTracker_uninit) /\
  entry_updated ex_ioapics (with_world ex_ioapics w') ex_apic 9 (override_update 0xd None) /\
  (forall n, 56 <= n < 64 -> rte_bit w' ex_apic 9 n = rte_bit ex_machine ex_apic 9 n).
Proof.
  destruct (override_irq_correct ex_ioapics 9 9 0xd None ex_ioapics_ok ltac:(lia)) as (Hov & _).
  destruct (Hov ex_apic ltac:(by apply list_elem_of_here) eq_refl) as (w' & E & _ & U & Hd). exists w'. exact (conj E (conj U Hd)).
Defined.

(** The destination of the override lands in the entry nine pins on: the
    identifier 3 of the IO APIC goes to bits of the low half of pin 18 that
    are reserved, and pin 9 keeps its destination 0. *)
Example override_destination_lost :
  match override_irq (mkIoApics ex_machine [mkIoApic 0x5000 0x5010 0 24 3] [] IdTracker_uninit) 9 9 0xd None with
  | Done s => (machine_reg (world s) 0x5000 (16 + 2 * 9 + 1), machine_reg (world s) 0x5000 (16 + 2 * 18))
  | Panic _ => (0, 0)
  end = (0, Z.shiftl 3 24).
Proof. vm_compute. reflexivity. Qed.
