(* ===== verification/Hpet.v ===== *)
(** * The HPET driver

    Models drivers/src/timer/hpet.rs and the error type of timer/mod.rs.  A
    register access is a volatile access of 64 bits ([Mmio64]); the fields of
    the registers are bit fields.  The interrupt of a timer goes through the
    IRQ allocator, the IDT and the IO APICs, so the operations on timers are
    over all three ([Timers]). *)

From S2P Require Import Prelude Ids Bitfield IoApic IoApicCorrect Idt.

Class Mmio64 (W : Type) := {
  mmio_read64 : W -> Z -> Z;
  mmio_write64 : W -> Z -> Z -> W;
}.

Definition MmioArea : Type := Z.
Definition MmioArea_new (base : Z) : MmioArea := base.
Definition MmioArea_base (area : MmioArea) : Z := area.
Definition MmioArea_read `{Mmio64 W} (w : W) (area : MmioArea) (reg : Z) : Z := mmio_read64 w (area + reg).
Definition MmioArea_write `{Mmio64 W} (w : W) (area : MmioArea) (reg value : Z) : W := mmio_write64 w (area + reg) value.

Inductive TimerError :=
  | InvalidTimePeriod | NoTimerAvailable | UnsupportedTimerMode | InvalidTimerFlags | TimerIdtError | IrqError.

Definition PIT_IRQ : Z := 0.
Definition RTC_IRQ : Z := 8.

Inductive InterruptRoutingMode := Normal | Legacy.
Definition RoutingMode_repr (m : InterruptRoutingMode) : Z := match m with Normal => 0 | Legacy => 1 end.

Inductive TriggerMode := EdgeTriggered | LevelTriggered.
Definition TriggerMode_repr (m : TriggerMode) : Z := match m with EdgeTriggered => 0 | LevelTriggered => 1 end.

Inductive TimerMode := OneShot | Periodic.
Definition TimerMode_repr (m : TimerMode) : Z := match m with OneShot => 0 | Periodic => 1 end.

(** An [IsrStub] is the address of the stub, an [FsbInterruptRoute] its 64 bits. *)
Inductive HpetDelivery :=
  | HpetInterrupt (isr_stub : Z) (trigger : TriggerMode)
  | HpetFsb (route : Z).

Record AdditionalConfig := mkAdditionalConfig { receive_interrupts : bool; delivery_mode : HpetDelivery }.

Record Hpet := mkHpet {
  hpet_area : MmioArea;
  main_clock_period : Z;
  minimum_tick : Z;
  timer_ids : IdTracker;
  int_routing_mode : InterruptRoutingMode;
  hpet_size_64_bits : bool;
}.

Record HpetTimer := mkHpetTimer { timer_area : MmioArea; timer_id : Z; timer_size_64_bits : bool }.

Definition GENERAL_CAPABILITIES : Z := 0x0.
Definition GENERAL_CONFIGURATION : Z := 0x10.
Definition GENERAL_INTERRUPT_STATUS : Z := 0x20.
Definition MAIN_COUNTER_VALUE : Z := 0xf0.
Definition MAX_TIMER_AMOUNT : Z := 32.
Definition NANO_TO_FEMTOSEC : Z := 1000000.

Definition u128_mul (a b : Z) : res Z := if a * b <=? 2 ^ 128 - 1 then Done (a * b) else Panic Overflow.
Definition u128_add (a b : Z) : res Z := if a + b <=? 2 ^ 128 - 1 then Done (a + b) else Panic Overflow.

(** [time] is [Duration::as_nanos]. *)
Definition time_to_cycles (h : Hpet) (time : Z) : res Z :=
  time_femtosec ← u128_mul time NANO_TO_FEMTOSEC;
  if main_clock_period h =? 0 then Panic DivByZero else
  let remainder := time_femtosec mod main_clock_period h in
  adjusted_time ← (if negb (remainder =? 0) then u128_add time_femtosec (main_clock_period h - remainder) else Done time_femtosec);
  Done ((adjusted_time / main_clock_period h) mod 2 ^ 64).

Definition config_reg_offset (t : HpetTimer) : Z := 0x100 + 0x20 * timer_id t.
Definition comparator_reg_offset (t : HpetTimer) : Z := 0x108 + 0x20 * timer_id t.
Definition fsb_interrupt_route_reg_offset (t : HpetTimer) : Z := 0x110 + 0x20 * timer_id t.

Section hpet.
Context {W : Type} `{Mmio64 W} `{Bitfields}.
Implicit Types (w : W) (h : Hpet) (t : HpetTimer).

(** The fields of the registers: the general capabilities, *)
Definition rev_id (c : Z) : Z := bf_get 0 8 c.
Definition num_tim_cap (c : Z) : Z := bf_get 8 5 c.
Definition count_size_cap (c : Z) : Z := bf_get 13 1 c.
Definition leg_route_cap (c : Z) : Z := bf_get 15 1 c.
Definition counter_clock_period (c : Z) : Z := bf_get 32 32 c.

(** the general configuration, *)
Definition set_enable (c v : Z) : res Z := bf_set 0 1 c v.
Definition set_legacy_route (c v : Z) : res Z := bf_set 1 1 c v.

(** and the configuration of a timer. *)
Definition set_int_type (c v : Z) : res Z := bf_set 1 1 c v.
Definition set_int_enable (c v : Z) : res Z := bf_set 2 1 c v.
Definition set_timer_type (c v : Z) : res Z := bf_set 3 1 c v.
Definition periodic_int_capable (c : Z) : Z := bf_get 4 1 c.
Definition size_capable (c : Z) : Z := bf_get 5 1 c.
Definition set_value_set (c v : Z) : res Z := bf_set 6 1 c v.
Definition set_timer_32bit_mode (c v : Z) : res Z := bf_set 8 1 c v.
Definition set_fsb_int_enable (c v : Z) : res Z := bf_set 14 1 c v.
Definition fsb_int_delivery (c : Z) : Z := bf_get 15 1 c.
Definition int_route_cap (c : Z) : Z := bf_get 32 32 c.

(** ** The HPET as a whole *)
Definition Hpet_new w (base minimum_tick : Z) (int_routing_mode : InterruptRoutingMode) : res Hpet :=
  let area := MmioArea_new base in
  let capabilities := MmioArea_read w area GENERAL_CAPABILITIES in
  _ ← assert_ (negb (rev_id capabilities =? 0));
  _ ← assert_ (counter_clock_period capabilities <? 0x05F5E100);
  let size_64_bits := count_size_cap capabilities =? 1 in
  let main_clock_period := counter_clock_period capabilities in
  let max_timer_index := num_tim_cap capabilities in
  _ ← assert_ (max_timer_index <? MAX_TIMER_AMOUNT);
  timer_ids ← IdTracker_new 0 max_timer_index;
  Done (mkHpet area main_clock_period minimum_tick timer_ids int_routing_mode size_64_bits).

Definition Hpet_set_disabled w h (state : bool) : res W :=
  let config := MmioArea_read w (hpet_area h) GENERAL_CONFIGURATION in
  config ← set_enable config (Z.b2z (negb state));
  Done (MmioArea_write w (hpet_area h) GENERAL_CONFIGURATION config).

Definition set_interrupt_routing w h (mode : InterruptRoutingMode) : res W :=
  let capabilities := MmioArea_read w (hpet_area h) GENERAL_CAPABILITIES in
  _ ← assert_ (match mode with Legacy => leg_route_cap capabilities =? 1 | Normal => true end);
  let config := MmioArea_read w (hpet_area h) GENERAL_CONFIGURATION in
  config ← set_legacy_route config (RoutingMode_repr mode);
  Done (MmioArea_write w (hpet_area h) GENERAL_CONFIGURATION config).

Definition Hpet_init w (base minimum_tick : Z) (mode : InterruptRoutingMode) : res (Hpet * W) :=
  hpet ← Hpet_new w base minimum_tick mode;
  w ← Hpet_set_disabled w hpet true;
  w ← set_interrupt_routing w hpet mode;
  let w := MmioArea_write w (hpet_area hpet) MAIN_COUNTER_VALUE 0 in
  w ← Hpet_set_disabled w hpet false;
  Done (hpet, w).

(** ** One timer *)
Definition HpetTimer_new w h : res (result HpetTimer TimerError * Hpet) :=
  let base := MmioArea_base (hpet_area h) in
  '(r, ids) ← IdTracker_allocate (timer_ids h);
  let h := mkHpet (hpet_area h) (main_clock_period h) (minimum_tick h) ids (int_routing_mode h) (hpet_size_64_bits h) in
  match r with
  | Err _ => Done (Err NoTimerAvailable, h)
  | Ok id =>
      let ret := mkHpetTimer (MmioArea_new base) id false in
      let config := MmioArea_read w (timer_area ret) (config_reg_offset ret) in
      Done (Ok (mkHpetTimer (timer_area ret) id (size_capable config =? 1)), h)
  end.

Definition get_status w t : bool * W :=
  let read := Z.land (MmioArea_read w (timer_area t) GENERAL_INTERRUPT_STATUS) (Z.shiftl 1 (timer_id t)) in
  if negb (read =? 0) then (true, MmioArea_write w (timer_area t) GENERAL_INTERRUPT_STATUS read) else (false, w).

Definition read_main_counter w t : Z := MmioArea_read w (timer_area t) MAIN_COUNTER_VALUE.

Definition HpetTimer_set_disabled w t (state : bool) : res W :=
  let config := MmioArea_read w (timer_area t) (config_reg_offset t) in
  config ← set_int_enable config (Z.b2z (negb state));
  Done (MmioArea_write w (timer_area t) (config_reg_offset t) config).

(** [custom_unlock], which runs when the lock of a timer is released. *)
Definition HpetTimer_custom_unlock w h t : res (Hpet * W) :=
  w ← HpetTimer_set_disabled w t true;
  '(r, ids) ← IdTracker_free (timer_ids h) (timer_id t);
  _ ← unwrap_ok r;
  Done (mkHpet (hpet_area h) (main_clock_period h) (minimum_tick h) ids (int_routing_mode h) (hpet_size_64_bits h), w).
End hpet.

(** ** Configuring a timer *)
Record Timers (W : Type) := mkTimers { irqs : IoApics W; t_idt : list Z; t_hpet : Hpet }.
Arguments mkTimers {W}.
Arguments irqs {W}.
Arguments t_idt {W}.
Arguments t_hpet {W}.

Definition with_irqs {W} (s : Timers W) (io : IoApics W) : Timers W := mkTimers io (t_idt s) (t_hpet s).

Section configure.
Context {W : Type} `{Mmio32 W} `{Mmio64 W} `{Bitfields}.
Implicit Types (s : Timers W) (t : HpetTimer).

(** [(0_u32..32_u32).find(...)]: the first GSI that the timer can use and that
    the IRQ allocator gives, from [i] with [n] left. *)
Fixpoint find_gsi (io : IoApics W) (gsi_bitmap i : Z) (n : nat) : res (option Z * IoApics W) :=
  match n with
  | O => Done (None, io)
  | S n =>
      if negb (Z.land gsi_bitmap (Z.shiftl 1 i) =? 0) then
        '(r, io) ← allocate_irq_at io i;
        match r with Ok _ => Done (Some i, io) | Err _ => find_gsi io gsi_bitmap (i + 1) n end
      else find_gsi io gsi_bitmap (i + 1) n
  end.

(** [allocate_irq_at(irq).map_err(|_| TimerError::IrqError)?; irq] *)
Definition take_irq (io : IoApics W) (irq : Z) : res (result Z TimerError * IoApics W) :=
  '(r, io) ← allocate_irq_at io irq;
  Done (match r with Ok _ => Ok irq | Err _ => Err IrqError end, io).

(** The IRQ of a timer that interrupts. *)
Definition choose_irq s t (config : Z) : res (result Z TimerError * IoApics W) :=
  match int_routing_mode (t_hpet s) with
  | Legacy =>
      if timer_id t =? 0 then take_irq (irqs s) PIT_IRQ
      else if timer_id t =? 1 then take_irq (irqs s) RTC_IRQ
      else
        '(g, io) ← find_gsi (irqs s) (int_route_cap config) 0 32;
        Done (match g with Some gsi => Ok (gsi_to_irq (IRQ_OVERRIDES io) gsi) | None => Err IrqError end, io)
  | Normal =>
      '(g, io) ← find_gsi (irqs s) (int_route_cap config) 0 32;
      Done (match g with Some gsi => Ok (gsi_to_irq (IRQ_OVERRIDES io) gsi) | None => Err IrqError end, io)
  end.

Definition config_delivery_mode s (cs : Z) t (config : Z) (mode : HpetDelivery)
    : res (result Z TimerError * Timers W) :=
  match mode with
  | HpetFsb fsb_info =>
      if negb (fsb_int_delivery config =? 1) then Done (Err InvalidTimerFlags, s)
      else
        config ← set_fsb_int_enable config 1;
        config ← set_int_type config (TriggerMode_repr EdgeTriggered);
        let w := MmioArea_write (world (irqs s)) (timer_area t) (fsb_interrupt_route_reg_offset t) fsb_info in
        Done (Ok config, with_irqs s (with_world (irqs s) w))
  | HpetInterrupt isr_stub int_type =>
      '(r, io) ← choose_irq s t config;
      match r with
      | Err e => Done (Err e, with_irqs s io)
      | Ok irq =>
          '(io, idt) ← register_irq io (t_idt s) cs irq isr_stub;
          config ← set_fsb_int_enable config 0;
          config ← set_int_type config (TriggerMode_repr int_type);
          Done (Ok config, mkTimers io idt (t_hpet s))
      end
  end.

Definition u64_add (a b : Z) : res Z := usize_add a b.

Definition HpetTimer_configure s (cs : Z) t (time : Z) (timer_mode : TimerMode) (additional_config : AdditionalConfig)
    : res (result Z TimerError * Timers W) :=
  let config := MmioArea_read (world (irqs s)) (timer_area t) (config_reg_offset t) in
  if match timer_mode with Periodic => periodic_int_capable config =? 0 | OneShot => false end
  then Done (Err UnsupportedTimerMode, s)
  else
    cycles_delta ← time_to_cycles (t_hpet s) time;
    target_cycles ← u64_add (MmioArea_read (world (irqs s)) (hpet_area (t_hpet s)) MAIN_COUNTER_VALUE) cycles_delta;
    '(r, s) ← config_delivery_mode s cs t config (delivery_mode additional_config);
    match r with
    | Err e => Done (Err e, s)
    | Ok config =>
        config ← set_timer_32bit_mode config 0;
        config ← set_timer_type config (TimerMode_repr timer_mode);
        config ← set_int_enable config (Z.b2z (receive_interrupts additional_config));
        w ← match timer_mode with
            | Periodic =>
                config ← set_value_set config 1;
                let w := MmioArea_write (world (irqs s)) (timer_area t) (config_reg_offset t) config in
                let w := MmioArea_write w (timer_area t) (comparator_reg_offset t) target_cycles in
                Done (MmioArea_write w (timer_area t) (comparator_reg_offset t) cycles_delta)
            | OneShot =>
                let w := MmioArea_write (world (irqs s)) (timer_area t) (config_reg_offset t) config in
                Done (MmioArea_write w (timer_area t) (comparator_reg_offset t) target_cycles)
            end;
        Done (Ok cycles_delta, with_irqs s (with_world (irqs s) w))
    end.
End configure.
