(* ===== verification/HpetTheorems.v ===== *)
(** * The HPET driver: theorems *)

From S2P Require Import Prelude Ids Bitfield IoApic IoApicCorrect Idt IrqTheorems Hpet.

(** ** From time to cycles *)
Lemma ceil_div_bounds t p : 0 < p -> div_ceil t p * p - p < t <= div_ceil t p * p.
Proof.
  intros Hp. unfold div_ceil. pose proof (Z.div_mod (t + p - 1) p ltac:(lia)). pose proof (Z.mod_pos_bound (t + p - 1) p Hp). lia.
Qed.

Lemma round_up_div t p : 0 < p -> (if negb (t mod p =? 0) then t + (p - t mod p) else t) / p = div_ceil t p.
Proof.
  intros Hp. unfold div_ceil. pose proof (Z.div_mod t p ltac:(lia)) as E. pose proof (Z.mod_pos_bound t p Hp).
  destruct (Z.eqb_spec (t mod p) 0) as [E0 | E0]; cbn [negb].
  - apply Z.div_unique with (r := p - 1); [lia |]. rewrite E at 1. rewrite E0. rewrite Z.add_0_r. rewrite (Z.mul_comm p (t / p)) at 1. lia.
  - replace (t + (p - t mod p)) with ((t / p + 1) * p) by lia. rewrite Z.div_mul by lia.
    apply Z.div_unique with (r := t mod p - 1); lia.
Qed.

(** The nanoseconds of a [Duration] fit in 94 bits. *)
Lemma time_to_cycles_ok h time : 0 < main_clock_period h < 2 ^ 32 -> 0 <= time < 2 ^ 94 ->
  time_to_cycles h time = Done (div_ceil (time * 1000000) (main_clock_period h) mod 2 ^ 64).
Proof.
  intros Hp Ht. unfold time_to_cycles, u128_mul, NANO_TO_FEMTOSEC.
  assert (time * 1000000 < 2 ^ 94 * 2 ^ 20) by (change (2 ^ 20) with 1048576; lia).
  change (2 ^ 94 * 2 ^ 20) with (2 ^ 114) in *.
  rewrite (proj2 (Z.leb_le _ _)), bind_Done by (change (2 ^ 128) with (2 ^ 14 * 2 ^ 114); lia).
  rewrite (proj2 (Z.eqb_neq _ _)) by lia. set (p := main_clock_period h) in *. set (f := time * 1000000) in *.
  pose proof (round_up_div f p ltac:(lia)) as E. pose proof (Z.mod_pos_bound f p ltac:(lia)).
  destruct (f mod p =? 0); cbn [negb] in *.
  - by rewrite bind_Done, E.
  - unfold u128_add. rewrite (proj2 (Z.leb_le _ _)), bind_Done, E by (change (2 ^ 128) with (2 ^ 14 * 2 ^ 114); lia). done.
Qed.

(** [time_to_cycles] returns the least number of periods that last at least
    the time asked for, when it fits in 64 bits; a longer time is truncated, and
    a period of 0 (which [Hpet::new] accepts) stops the kernel. *)
Theorem time_to_cycles_bounds h time : 0 <= main_clock_period h < 2 ^ 32 -> 0 <= time < 2 ^ 94 ->
  (main_clock_period h = 0 -> time_to_cycles h time = Panic DivByZero) /\
  (0 < main_clock_period h -> exists n, time_to_cycles h time = Done (n mod 2 ^ 64) /\
     (n - 1) * main_clock_period h < time * 1000000 <= n * main_clock_period h /\
     (time * 1000000 <= (2 ^ 64 - 1) * main_clock_period h -> time_to_cycles h time = Done n)).
Proof.
  intros Hp Ht. split.
  - intros E. unfold time_to_cycles, u128_mul, NANO_TO_FEMTOSEC.
    rewrite (proj2 (Z.leb_le _ _)), bind_Done by (change (2 ^ 128) with (2 ^ 34 * 2 ^ 94); change (2 ^ 34) with 17179869184; lia).
    by rewrite E.
  - intros Hpos. exists (div_ceil (time * 1000000) (main_clock_period h)).
    pose proof (ceil_div_bounds (time * 1000000) (main_clock_period h) Hpos) as Hb.
    rewrite time_to_cycles_ok by lia. split; [done |]. split; [lia |]. intros Hfit. f_equal. apply Z.mod_small. nia.
Qed.

Lemma time_to_cycles_bounds_witness :
  time_to_cycles (mkHpet 0 69841279 0 IdTracker_uninit Normal true) 1000000000 = Done 14318180.
Proof.
  destruct (time_to_cycles_bounds (mkHpet 0 69841279 0 IdTracker_uninit Normal true) 1000000000) as [_ Hn]; [cbn; lia | lia |].
  destruct Hn as (n & _ & Hb & E); [cbn; lia |]. cbn [main_clock_period] in *. rewrite E by lia. f_equal. lia.
Defined.

(** ** The IRQ of a timer *)
Definition with_allocator {W} (io : IoApics W) (t : IdTracker) : IoApics W :=
  mkIoApics (world io) (IO_APICS io) (IRQ_OVERRIDES io) t.

(** [i] can be allocated. *)
Definition irq_free (t : IdTracker) (i : Z) : bool :=
  (pool_min (pool_of t) <=? i) && match pool_taken (pool_of t) !! Z.to_nat (i - pool_min (pool_of t)) with
                                   | Some b => negb b | None => false end.

Definition take_id (p : pool) (i : Z) : pool := mkPool (pool_min p) (<[Z.to_nat (i - pool_min p) := true]> (pool_taken p)).

Lemma allocate_irq_ok {W} (io : IoApics W) i : IdTracker_wf (IRQ_ALLOCATOR io) -> 0 <= i ->
  exists r t', allocate_irq_at io i = Done (r, with_allocator io t') /\ IdTracker_wf t' /\
    if irq_free (IRQ_ALLOCATOR io) i then r = Ok () /\ pool_of t' = take_id (pool_of (IRQ_ALLOCATOR io)) i
    else (exists e, r = Err e) /\ pool_of t' = pool_of (IRQ_ALLOCATOR io).
Proof.
  intros Hwf Hi. destruct (IdTracker_allocate_at_ok _ i Hwf Hi) as (r & t' & E & Hp & Hwf').
  exists r, t'. unfold allocate_irq_at. rewrite E, bind_Done. split; [done |]. split; [done |].
  unfold pool_switch in Hp. unfold irq_free. rewrite Z.leb_antisym. destruct (i <? _); cbn [negb andb] in *.
  - apply pair_equal_spec in Hp as [-> ->]. eauto.
  - destruct (pool_taken _ !! _) as [[] |]; cbn [negb Bool.eqb] in *; apply pair_equal_spec in Hp as [-> ->]; eauto.
Qed.

Section timer.
Context {W : Type} `{IoApicHw W} `{Mmio64 W} `{BitfieldLaws}.
Implicit Types (s : Timers W) (io : IoApics W).

(** [find_gsi] takes the first GSI of the bitmap that is free. *)
Lemma find_gsi_ok bitmap gsi n : forall io i, IdTracker_wf (IRQ_ALLOCATOR io) -> 0 <= i -> i <= gsi < i + Z.of_nat n ->
  Z.testbit bitmap gsi = true -> irq_free (IRQ_ALLOCATOR io) gsi = true ->
  (forall j, i <= j < gsi -> Z.testbit bitmap j && irq_free (IRQ_ALLOCATOR io) j = false) ->
  exists t', find_gsi io bitmap i n = Done (Some gsi, with_allocator io t') /\ IdTracker_wf t' /\
    pool_of t' = take_id (pool_of (IRQ_ALLOCATOR io)) gsi.
Proof.
  induction n as [| n IH]; intros io i Hwf Hi Hr Hb Hf Hfirst; [lia |]. cbn [find_gsi]. rewrite bit_test by done.
  destruct (allocate_irq_ok io i Hwf Hi) as (r & t' & E & Hwf' & Hr').
  destruct (Z.eq_dec i gsi) as [-> | Hne].
  - rewrite Hb, E, bind_Done. rewrite Hf in Hr'. destruct Hr' as [-> Hp]. eauto.
  - pose proof (Hfirst i ltac:(lia)) as Hno. destruct (Z.testbit bitmap i).
    + cbn [andb] in Hno. rewrite Hno in Hr'. destruct Hr' as [[e ->] Hp]. rewrite E, bind_Done.
      assert (forall j, irq_free t' j = irq_free (IRQ_ALLOCATOR io) j) as Hsame by (intros j; unfold irq_free; by rewrite Hp).
      destruct (IH (with_allocator io t') (i + 1)) as (t'' & E' & Hwf'' & Hp''); cbn [IRQ_ALLOCATOR with_allocator];
        [done | lia | lia | done | by rewrite Hsame | intros j Hj; rewrite Hsame; apply Hfirst; lia |].
      exists t''. rewrite E'. split_and!; [done | done |]. rewrite Hp''. cbn [IRQ_ALLOCATOR with_allocator]. by rewrite Hp.
    + destruct (IH io (i + 1)) as (t'' & E' & Hx); [done | lia | lia | done | done | intros j Hj; apply Hfirst; lia |]. eauto.
Qed.

(** Without one it takes none. *)
Lemma find_gsi_none bitmap n : forall io i, IdTracker_wf (IRQ_ALLOCATOR io) -> 0 <= i ->
  (forall j, i <= j < i + Z.of_nat n -> Z.testbit bitmap j && irq_free (IRQ_ALLOCATOR io) j = false) ->
  exists t', find_gsi io bitmap i n = Done (None, with_allocator io t') /\ pool_of t' = pool_of (IRQ_ALLOCATOR io).
Proof.
  induction n as [| n IH]; intros io i Hwf Hi Hno; [exists (IRQ_ALLOCATOR io); split; [by destruct io | done] |].
  cbn [find_gsi]. rewrite bit_test by done. pose proof (Hno i ltac:(lia)) as H0'. destruct (Z.testbit bitmap i).
  - destruct (allocate_irq_ok io i Hwf Hi) as (r & t' & -> & Hwf' & Hr'). cbn [andb] in H0'. rewrite H0' in Hr'.
    destruct Hr' as [[e ->] Hp]. rewrite bind_Done.
    assert (forall j, irq_free t' j = irq_free (IRQ_ALLOCATOR io) j) as Hsame by (intros j; unfold irq_free; by rewrite Hp).
    destruct (IH (with_allocator io t') (i + 1)) as (t'' & -> & Hp''); cbn [IRQ_ALLOCATOR with_allocator];
      [done | lia | intros j Hj; rewrite Hsame; apply Hno; lia |]. exists t''. split; [done |]. by rewrite Hp''.
  - apply IH; [done | lia | intros j Hj; apply Hno; lia].
Qed.

(** ** Configuring a timer *)
Definition is_level (m : TriggerMode) : bool := match m with LevelTriggered => true | EdgeTriggered => false end.
Definition is_periodic (m : TimerMode) : bool := match m with Periodic => true | OneShot => false end.

(** What [configure] changes in the configuration register of a timer. *)
Definition config_update (trigger : TriggerMode) (mode : TimerMode) (receive : bool) (n : Z) : option bool :=
  if n =? 1 then Some (is_level trigger)
  else if n =? 2 then Some receive
  else if n =? 3 then Some (is_periodic mode)
  else if n =? 6 then (if is_periodic mode then Some true else None)
  else if (n =? 8) || (n =? 14) then Some false else None.

(** The registers that it writes then. *)
Definition timer_writes (w : W) (t : HpetTimer) (mode : TimerMode) (config target delta : Z) : W :=
  let w := MmioArea_write w (timer_area t) (config_reg_offset t) config in
  let w := MmioArea_write w (timer_area t) (comparator_reg_offset t) target in
  match mode with Periodic => MmioArea_write w (timer_area t) (comparator_reg_offset t) delta | OneShot => w end.

(** The setters of [configure] on an interrupting timer. *)
Lemma config_fields_ok x trigger mode receive : 0 <= x ->
  exists e1 e2 e3 e4 e5 e,
    set_fsb_int_enable x 0 = Done e1 /\ set_int_type e1 (TriggerMode_repr trigger) = Done e2 /\ set_timer_32bit_mode e2 0 = Done e3 /\
    set_timer_type e3 (TimerMode_repr mode) = Done e4 /\ set_int_enable e4 (Z.b2z receive) = Done e5 /\
    match mode with Periodic => set_value_set e5 1 | OneShot => Done e5 end = Done e /\ 0 <= e /\
    forall n, 0 <= n -> Z.testbit e n = default (Z.testbit x n) (config_update trigger mode receive n).
Proof.
  intros Hx.
  replace (TriggerMode_repr trigger) with (Z.b2z (is_level trigger)) by (by destruct trigger).
  replace (TimerMode_repr mode) with (Z.b2z (is_periodic mode)) by (by destruct mode).
  destruct (bf_set_flag 14 x false ltac:(lia) Hx) as (e1 & E1 & H1' & B1).
  destruct (bf_set_flag 1 e1 (is_level trigger) ltac:(lia) H1') as (e2 & E2 & H2' & B2).
  destruct (bf_set_flag 8 e2 false ltac:(lia) H2') as (e3 & E3 & H3' & B3).
  destruct (bf_set_flag 3 e3 (is_periodic mode) ltac:(lia) H3') as (e4 & E4 & H4' & B4).
  destruct (bf_set_flag 2 e4 receive ltac:(lia) H4') as (e5 & E5 & H5' & B5).
  destruct (bf_set_flag 6 e5 true ltac:(lia) H5') as (e6 & E6 & H6' & B6).
  exists e1, e2, e3, e4, e5, (if is_periodic mode then e6 else e5).
  split_and!; try done; [by destruct mode | by destruct mode |].
  intros n Hn. unfold config_update.
  assert (Z.testbit e5 n = if n =? 2 then receive else if n =? 3 then is_periodic mode else if n =? 8 then false
    else if n =? 1 then is_level trigger else if n =? 14 then false else Z.testbit x n) as B by (by rewrite B5, B4, B3, B2, B1).
  specialize (B6 n Hn). revert B B6.
  destruct (Z.eqb_spec n 1), (Z.eqb_spec n 2), (Z.eqb_spec n 3), (Z.eqb_spec n 6), (Z.eqb_spec n 8), (Z.eqb_spec n 14);
    try lia; cbn [orb]; destruct (is_periodic mode); cbn [default from_option id]; intros; congruence.
Qed.

Definition timer_config s (t : HpetTimer) : Z := MmioArea_read (world (irqs s)) (timer_area t) (config_reg_offset t).
Definition main_counter s : Z := MmioArea_read (world (irqs s)) (hpet_area (t_hpet s)) MAIN_COUNTER_VALUE.
Definition cycles_of s (time : Z) : Z := div_ceil (time * 1000000) (main_clock_period (t_hpet s)).

(** With legacy routing the first two timers have the lines of the PIT and of
    the RTC; every other timer chooses among the lines it can use. *)
Definition legacy_line s (t : HpetTimer) : option Z :=
  match int_routing_mode (t_hpet s) with
  | Legacy => if timer_id t =? 0 then Some 0 else if timer_id t =? 1 then Some 8 else None
  | Normal => None
  end.

Definition usable s (t : HpetTimer) (line : Z) : bool :=
  Z.testbit (timer_config s t) (32 + line) && irq_free (IRQ_ALLOCATOR (irqs s)) line.

(** The line that a timer gets, and the IRQ it stands for. *)
Definition gets_line s (t : HpetTimer) (line irq : Z) : Prop :=
  match legacy_line s t with
  | Some l => line = l /\ irq = l /\ irq_free (IRQ_ALLOCATOR (irqs s)) l = true
  | None => 0 <= line < 32 /\ irq = gsi_to_irq (IRQ_OVERRIDES (irqs s)) line /\ usable s t line = true /\
      forall j, 0 <= j < line -> usable s t j = false
  end.

Definition gets_none s (t : HpetTimer) : Prop :=
  match legacy_line s t with
  | Some l => irq_free (IRQ_ALLOCATOR (irqs s)) l = false
  | None => forall j, 0 <= j < 32 -> usable s t j = false
  end.

(** The state of the interrupt controllers and of the HPET in which a timer is
    configured to fire after [time], which its counter can reach. *)
Record timers_ok s (t : HpetTimer) (time : Z) : Prop := {
  cf_ioapics : ioapics_ok (irqs s);
  cf_allocator : IdTracker_wf (IRQ_ALLOCATOR (irqs s));
  cf_idt : idt_ready (t_idt s);
  cf_vector : exists i, (i < IDT_ENTRIES_NUM)%nat /\ ~ present_at (t_idt s) i;
  cf_regs : 0 <= timer_config s t /\ 0 <= main_counter s;
  cf_period : 0 < main_clock_period (t_hpet s) < 2 ^ 32;
  cf_time : 0 <= time < 2 ^ 94 /\ main_counter s + cycles_of s time <= usize_MAX;
}.

Lemma with_allocator_ok io tr : ioapics_ok io -> ioapics_ok (with_allocator io tr).
Proof. by intros [? ? ?]. Qed.

Lemma bit_of_field x i : 0 <= x -> 0 <= i < 32 -> Z.testbit (int_route_cap x) i = Z.testbit x (32 + i).
Proof. intros Hx Hi. unfold int_route_cap. rewrite bf_get_law, bits_at_testbit by lia. by rewrite (proj2 (Z.ltb_lt _ _)) by lia. Qed.

Lemma gsi_usable s t j : 0 <= timer_config s t -> 0 <= j < 32 ->
  Z.testbit (int_route_cap (timer_config s t)) j && irq_free (IRQ_ALLOCATOR (irqs s)) j = usable s t j.
Proof. intros Hc Hj. by rewrite bit_of_field. Qed.

Lemma choose_irq_ok s t time line irq : timers_ok s t time -> gets_line s t line irq ->
  exists tr, choose_irq s t (timer_config s t) = Done (Ok irq, with_allocator (irqs s) tr) /\
    pool_of tr = take_id (pool_of (IRQ_ALLOCATOR (irqs s))) line.
Proof.
  intros [_ Hwf _ _ [Hc _] _ _] Hg. unfold gets_line, legacy_line in Hg. unfold choose_irq, take_irq, PIT_IRQ, RTC_IRQ.
  assert (forall l, 0 <= l -> irq_free (IRQ_ALLOCATOR (irqs s)) l = true -> exists tr,
    allocate_irq_at (irqs s) l = Done (Ok (), with_allocator (irqs s) tr) /\
    pool_of tr = take_id (pool_of (IRQ_ALLOCATOR (irqs s))) l) as Hat.
  { intros l Hl Hf. destruct (allocate_irq_ok (irqs s) l Hwf Hl) as (r & tr & E & _ & Hr). rewrite Hf in Hr.
    destruct Hr as [-> Hp]. by exists tr. }
  assert (0 <= line < 32 /\ irq = gsi_to_irq (IRQ_OVERRIDES (irqs s)) line /\ usable s t line = true /\
    (forall j, 0 <= j < line -> usable s t j = false) -> exists tr,
    find_gsi (irqs s) (int_route_cap (timer_config s t)) 0 32 = Done (Some line, with_allocator (irqs s) tr) /\
    pool_of tr = take_id (pool_of (IRQ_ALLOCATOR (irqs s))) line) as Hfind.
  { intros (Hl & _ & Hu & Hfirst). rewrite <- gsi_usable in Hu by done. apply andb_prop in Hu as [Hb Hf].
    destruct (find_gsi_ok (int_route_cap (timer_config s t)) line 32 (irqs s) 0 Hwf) as (tr & -> & _ & Hp);
      [lia | lia | done | done | intros j Hj; rewrite gsi_usable by lia; by apply Hfirst |]. by exists tr. }
  destruct (int_routing_mode (t_hpet s)); [| destruct (timer_id t =? 0); [| destruct (timer_id t =? 1)]].
  2, 3: destruct Hg as (-> & -> & Hf); apply Hat in Hf as (tr & -> & Hp); [rewrite bind_Done; by exists tr | lia].
  all: destruct (Hfind Hg) as (tr & -> & Hp); rewrite bind_Done; exists tr; by destruct Hg as (_ & -> & _).
Qed.

Lemma choose_irq_none s t time : timers_ok s t time -> gets_none s t ->
  exists tr, choose_irq s t (timer_config s t) = Done (Err IrqError, with_allocator (irqs s) tr) /\
    pool_of tr = pool_of (IRQ_ALLOCATOR (irqs s)).
Proof.
  intros [_ Hwf _ _ [Hc _] _ _] Hg. unfold gets_none, legacy_line in Hg. unfold choose_irq, take_irq, PIT_IRQ, RTC_IRQ.
  assert (forall l, 0 <= l -> irq_free (IRQ_ALLOCATOR (irqs s)) l = false -> exists e tr,
    allocate_irq_at (irqs s) l = Done (Err e, with_allocator (irqs s) tr) /\ pool_of tr = pool_of (IRQ_ALLOCATOR (irqs s))) as Hat.
  { intros l Hl Hf. destruct (allocate_irq_ok (irqs s) l Hwf Hl) as (r & tr & E & _ & Hr). rewrite Hf in Hr.
    destruct Hr as [[e ->] Hp]. by exists e, tr. }
  destruct (int_routing_mode (t_hpet s)); [| destruct (timer_id t =? 0); [| destruct (timer_id t =? 1)]].
  2, 3: apply Hat in Hg as (e & tr & -> & Hp); [rewrite bind_Done; by exists tr | lia].
  all: destruct (find_gsi_none (int_route_cap (timer_config s t)) 32 (irqs s) 0 Hwf) as (tr & -> & Hp);
    [lia | intros j Hj; rewrite gsi_usable by lia; apply Hg; lia |]; rewrite bind_Done; by exists tr.
Qed.

Lemma mode_refused s t mode : 0 <= timer_config s t ->
  match mode with Periodic => periodic_int_capable (timer_config s t) =? 0 | OneShot => false end =
  is_periodic mode && negb (Z.testbit (timer_config s t) 4).
Proof.
  intros Hc. destruct mode; [done |]. unfold periodic_int_capable. rewrite bf_get_law by lia. cbn [is_periodic andb].
  replace (Z.testbit (timer_config s t) 4) with (Z.testbit (bits_at 4 1 (timer_config s t)) 0)
    by (by rewrite bits_at_testbit by lia).
  pose proof (bits_at_bound 4 1 (timer_config s t) ltac:(lia)) as Hb.
  assert (bits_at 4 1 (timer_config s t) = 0 \/ bits_at 4 1 (timer_config s t) = 1) as [-> | ->] by lia; done.
Qed.

(** C27: a timer is configured to interrupt after [time], in both routing
    modes of the HPET.  With legacy routing, which the kernel selects, timer 0
    takes the line of the PIT and timer 1 that of the RTC; any other timer takes
    the first free line that it can use.  The handler is registered for the IRQ
    of the line; the comparator is set to the main counter plus the cycles of
    [time]; trigger mode, timer mode and interrupt enable are set and the other
    bits of the configuration stay.  Those include the route: the timer is not
    told which line was taken.  Without a free line the answer is [IrqError],
    a periodic request to a timer that is not capable is refused, and neither
    changes a register, the IDT or what is allocated. *)
Theorem hpet_configure_correct s cs t time mode receive stub trigger :
  timers_ok s t time -> 0 <= stub < 2 ^ 64 -> 0 <= cs < 2 ^ 16 -> cycles_of s time < 2 ^ 64 ->
  let io := irqs s in
  let result := HpetTimer_configure s cs t time mode (mkAdditionalConfig receive (HpetInterrupt stub trigger)) in
  if is_periodic mode && negb (Z.testbit (timer_config s t) 4) then result = Done (Err UnsupportedTimerMode, s) else
  (gets_none s t -> exists tr, result = Done (Err IrqError, with_irqs s (with_allocator io tr)) /\
     pool_of tr = pool_of (IRQ_ALLOCATOR io)) /\
  (forall line irq a, gets_line s t line irq -> a ∈ IO_APICS io -> owns a (irq_to_gsi (IRQ_OVERRIDES io) irq) = true ->
   exists config' tr v g' w',
    result = Done (Ok (cycles_of s time),
        mkTimers (mkIoApics (timer_writes w' t mode config' (main_counter s + cycles_of s time) (cycles_of s time))
          (IO_APICS io) (IRQ_OVERRIDES io) tr) (<[v := g']> (t_idt s)) (t_hpet s)) /\
    pool_of tr = take_id (pool_of (IRQ_ALLOCATOR io)) line /\
    ~ present_at (t_idt s) v /\ gate_is g' stub cs 0 Interrupt KernelDpl PresentGate /\
    entry_updated io (with_world io w') a (irq_to_gsi (IRQ_OVERRIDES io) irq - gsi_base a) (routed_update (Z.of_nat v)) /\
    (forall n, 0 <= n -> Z.testbit config' n = default (Z.testbit (timer_config s t) n) (config_update trigger mode receive n)) /\
    bits_at 9 5 config' = bits_at 9 5 (timer_config s t)).
Proof.
  intros Hcf Hs Hcs Hfit io result. pose proof Hcf as [Hok _ Hidt (i & Hi & Hni) [Hc Hm] Hper [Ht Hmax]].
  pose proof (ceil_div_bounds (time * 1000000) _ (proj1 Hper)) as Hcb. fold (cycles_of s time) in Hcb.
  assert (0 <= cycles_of s time) as Hc0 by nia.
  unfold result, HpetTimer_configure. fold (timer_config s t). rewrite mode_refused by done.
  destruct (is_periodic mode && _); [done |].
  rewrite time_to_cycles_ok, bind_Done by done. fold (cycles_of s time). rewrite Z.mod_small by lia.
  fold (main_counter s). unfold u64_add. rewrite usize_add_ok, bind_Done by done.
  unfold config_delivery_mode. cbn [delivery_mode receive_interrupts]. split.
  { intros Hg. destruct (choose_irq_none s t time Hcf Hg) as (tr & -> & Hp). exists tr. by rewrite bind_Done. }
  intros line irq a Hg Ha Ho. destruct (choose_irq_ok s t time line irq Hcf Hg) as (tr & -> & Hp).
  destruct (not_present_lookup _ i (ir_wf _ Hidt) Hi Hni) as (g & Eg & Eg0).
  destruct (register_irq_ok (with_allocator io tr) (t_idt s) a cs irq stub i g (with_allocator_ok _ _ Hok) Ha Ho
    (ir_wf _ Hidt) Eg Eg0 Hs Hcs) as (v & g' & w' & Er & _ & Hnv & _ & _ & Hgate & _ & U).
  destruct (config_fields_ok (timer_config s t) trigger mode receive Hc)
    as (e1 & e2 & e3 & e4 & e5 & e & E1 & E2 & E3 & E4 & E5 & E6 & _ & Hbits).
  exists e, tr, v, g', w'. split_and!; try done.
  - rewrite bind_Done. fold io. rewrite Er, bind_Done.
    rewrite E1, bind_Done, E2, !bind_Done, E3, bind_Done, E4, bind_Done, E5, bind_Done.
    destruct mode; [injection E6 as <- | rewrite E6, bind_Done]; done.
  - apply Z.bits_inj'. intros n Hn. rewrite !bits_at_testbit by lia. destruct (Z.ltb_spec n 5); [| done]. cbn [andb].
    rewrite Hbits by lia. unfold config_update. by rewrite !(proj2 (Z.eqb_neq _ _)) by lia.
Qed.
End timer.

(** ** An example: a timer that can use the lines 20 to 23 *)
#[local] Existing Instance plain_bitfields.
#[local] Existing Instance plain_bitfield_laws.

(** 64-bit accesses of the machine: the registers of the page by their offset. *)
#[local] Instance machine_mmio64 : Mmio64 Machine := {
  mmio_read64 w addr :=
    match w !! (addr - addr mod 4096) with Some (_, regs) => default 0 (regs !! (addr mod 4096)) | None => 0 end;
  mmio_write64 w addr v :=
    match w !! (addr - addr mod 4096) with
    | Some (i, regs) => <[addr - addr mod 4096 := (i, <[addr mod 4096 := v]> regs)]> w
    | None => w
    end;
}.

Definition ex_tracker : IdTracker := match IdTracker_new 0 23 with Done t => t | Panic _ => IdTracker_uninit end.
Definition ex_timers (m : InterruptRoutingMode) : Timers Machine :=
  mkTimers (mkIoApics ex_machine [ex_apic] [mkIrqOverride 0 2] ex_tracker) ex_idt
    (mkHpet 0x6000 69841279 0 IdTracker_uninit m true).
Definition ex_timer : HpetTimer := mkHpetTimer 0x6000 0 true.

Lemma ex_tracker_wf : IdTracker_wf ex_tracker.
Proof.
  destruct (IdTracker_new_ok 0 23) as (t & E & Hwf & _); [lia | unfold usize_MAX; lia |]. unfold ex_tracker. by rewrite E.
Qed.

Lemma ex_timers_ok m : timers_ok (ex_timers m) ex_timer 1000000.
Proof.
  split.
  - destruct ex_ioapics_ok as [Ha Hd Hj]. split; [exact Ha | exact Hd | exact Hj].
  - exact ex_tracker_wf.
  - exact (proj1 ex_idt_ready).
  - exact ex_idt_free.
  - by vm_compute.
  - cbn. lia.
  - split; [lia |]. by vm_compute.
Qed.

Lemma ex_gets_line : gets_line (ex_timers Normal) ex_timer 20 20.
Proof.
  split; [lia |]. split; [by vm_compute |]. split; [by vm_compute |].
  intros j Hj. replace j with (Z.of_nat (Z.to_nat j)) by lia. assert (Z.to_nat j < 20)%nat as Hn by lia.
  revert Hn. generalize (Z.to_nat j). intros n Hn. do 20 (destruct n as [| n]; [by vm_compute |]). lia.
Qed.

(** As the kernel has it, with legacy routing: timer 0 interrupts on IRQ 0,
    whose pin is 2; and in normal routing on the first line it can use. *)
Lemma hpet_configure_correct_witness :
  let conf m := HpetTimer_configure (ex_timers m) 8 ex_timer 1000000 OneShot
    (mkAdditionalConfig true (HpetInterrupt 0xffffffff80003000 EdgeTriggered)) in
  (exists s tr, conf Legacy = Done (Ok 14319, s) /\ IRQ_ALLOCATOR (irqs s) = tr /\ irq_free tr 0 = false /\ irq_free tr 20 = true) /\
  (exists s tr, conf Normal = Done (Ok 14319, s) /\ IRQ_ALLOCATOR (irqs s) = tr /\ irq_free tr 0 = true /\ irq_free tr 20 = false).
Proof.
  assert (forall m, 0 <= 0xffffffff80003000 < 2 ^ 64 /\ cycles_of (ex_timers m) 1000000 < 2 ^ 64) as Hb
    by (intros m; split; [lia | by vm_compute]).
  split.
  - destruct (proj2 (hpet_configure_correct (ex_timers Legacy) 8 ex_timer 1000000 OneShot true 0xffffffff80003000 EdgeTriggered
      (ex_timers_ok Legacy) (proj1 (Hb Legacy)) ltac:(lia) (proj2 (Hb Legacy))) 0 0 ex_apic ltac:(by vm_compute)
      ltac:(by apply list_elem_of_here) eq_refl) as (config' & tr & v & g' & w' & E & Hp & _).
    eexists _, tr. split; [exact E |]. split; [reflexivity |]. unfold irq_free. rewrite Hp. split; by vm_compute.
  - destruct (proj2 (hpet_configure_correct (ex_timers Normal) 8 ex_timer 1000000 OneShot true 0xffffffff80003000 EdgeTriggered
      (ex_timers_ok Normal) (proj1 (Hb Normal)) ltac:(lia) (proj2 (Hb Normal))) 20 20 ex_apic ex_gets_line
      ltac:(by apply list_elem_of_here) eq_refl) as (config' & tr & v & g' & w' & E & Hp & _).
    eexists _, tr. split; [exact E |]. split; [reflexivity |]. unfold irq_free. rewrite Hp. split; by vm_compute.
Defined.
