(* ===== verification/Lapic.v ===== *)
(** * The local APIC driver

    Models kernel/src/arch/x86_64/apic/lapic.rs, the enumerations of apic/mod.rs
    it uses, and the timer of drivers/src/timer/apic.rs (but for the
    measurement of its frequency, a busy loop against another timer).  The
    static [LOCAL_APICS] is a list that the operations take and return; CPUID
    and the [IA32_APIC_BASE] register are [ApicCpu]. *)

From S2P Require Import Prelude Pmm PageFlags PageTable Paging Bitfield IoApic Hpet.

(** ** Enumerations *)
Inductive PinPolarity := ActiveHigh | ActiveLow.
Definition PinPolarity_repr (p : PinPolarity) : Z := match p with ActiveHigh => 0 | ActiveLow => 1 end.

Definition TriggerMode_try_from (value : Z) : result TriggerMode unit :=
  if (value =? 1) || (value =? 0) then Ok EdgeTriggered
  else if value =? 3 then Ok LevelTriggered
  else Err ().

Definition PinPolarity_try_from (value : Z) : result PinPolarity unit :=
  if value =? 1 then Ok ActiveHigh
  else if (value =? 3) || (value =? 0) then Ok ActiveLow
  else Err ().

Inductive Level := Deassert | Assert.
Definition Level_repr (l : Level) : Z := match l with Deassert => 0 | Assert => 1 end.

Inductive Destination := Physical (dest : Z) | Logical (dest : Z).

Definition Destination_new (dest : Z) (is_logical : bool) : result Destination unit :=
  if is_logical then
    if negb (Z.land dest 0x0f =? 0) then Err () else Ok (Logical dest)
  else Ok (Physical dest).

Definition Destination_get (d : Destination) : Z * Z :=
  match d with Physical dest => (PHYSICAL_MODE, dest) | Logical dest => (LOGICAL_MODE, dest) end.

Inductive DestinationShorthand := NoShorthand | SelfDestination | AllIncludingSelf | AllExcludingSelf.
Definition Shorthand_repr (s : DestinationShorthand) : Z :=
  match s with NoShorthand => 0 | SelfDestination => 1 | AllIncludingSelf => 2 | AllExcludingSelf => 3 end.

(** The registers, by their offset. *)
Definition TaskPriority : Z := 0x80.
Definition EndOfInterrupt : Z := 0xb0.
Definition SpuriousInterruptVector : Z := 0xf0.
Definition ErrorStatus : Z := 0x280.
Definition InterruptCommand0 : Z := 0x300.
Definition InterruptCommand1 : Z := 0x310.
Definition LvtTimer : Z := 0x320.
Definition LvtLint0 : Z := 0x350.
Definition LvtLint1 : Z := 0x360.
Definition LvtError : Z := 0x370.
Definition TimerInitialCount : Z := 0x380.
Definition TimerCurrentCount : Z := 0x390.
Definition TimerDivideConfig : Z := 0x3e0.

Inductive TimerDivisor := Div2 | Div4 | Div8 | Div16 | Div32 | Div64 | Div128 | Div1.
Definition TimerDivisor_repr (d : TimerDivisor) : Z :=
  match d with Div2 => 0 | Div4 => 1 | Div8 => 2 | Div16 => 3 | Div32 => 4 | Div64 => 5 | Div128 => 6 | Div1 => 7 end.

(** [transmute] of a value below 8; any other value has no divisor. *)
Definition TimerDivisor_transmute (v : Z) : option TimerDivisor :=
  List.find (fun d => TimerDivisor_repr d =? v) [Div2; Div4; Div8; Div16; Div32; Div64; Div128; Div1].

Inductive LapicTimerMode := ApicOneShot | ApicPeriodic | ApicTsc | ApicReserved.
Definition LapicTimerMode_repr (m : LapicTimerMode) : Z :=
  match m with ApicOneShot => 0 | ApicPeriodic => 1 | ApicTsc => 2 | ApicReserved => 3 end.

Inductive DeliveryStatus := Idle | SendPending.

Record LocalApic := mkLocalApic { lapic_area : Z; acpi_processor_id : Z; lapic_id : Z }.

Record ApicCpu := mkApicCpu { apic_cpuid_edx : Z; ia32_apic_base : MsrData }.

(** ** Operations *)
Definition lapic_check_support (c : ApicCpu) : res unit :=
  assert_ (negb (Z.land (apic_cpuid_edx c) (Z.shiftl 1 9) =? 0)).

Definition hardware_enable (c : ApicCpu) : res ApicCpu :=
  _ ← lapic_check_support c;
  let value := ia32_apic_base c in
  Done (mkApicCpu (apic_cpuid_edx c) (mkMsrData (Z.lor (low value) (Z.shiftl 1 11)) (high value))).

Section lapic.
Context {W : Type} `{Mmio32 W} `{Bitfields}.
Implicit Types (w : W) (a : LocalApic).

Definition lapic_read w a (reg : Z) : Z := mmio_read w (lapic_area a + reg).
Definition lapic_write w a (reg value : Z) : W := mmio_write w (lapic_area a + reg) value.

Definition LocalApic_new w (c : ApicCpu) (base acpi_processor_id apic_id : Z) : res (LocalApic * W * ApicCpu) :=
  let apic := mkLocalApic base acpi_processor_id apic_id in
  c ← hardware_enable c;
  let w := lapic_write w apic SpuriousInterruptVector 0x1ff in
  let w := lapic_write w apic TaskPriority 0 in
  Done (apic, w, c).

(** The fields of an LVT register. *)
Definition lvt_set_delivery_mode (e v : Z) : res Z := bf_set 8 3 e v.
Definition lvt_set_pin_polarity (e v : Z) : res Z := bf_set 13 1 e v.
Definition lvt_set_trigger_mode (e v : Z) : res Z := bf_set 15 1 e v.
Definition lvt_set_mask (e v : Z) : res Z := bf_set 16 1 e v.
Definition lvt_set_reserved2 (e v : Z) : res Z := bf_set 17 15 e v.

Definition setup_lvts w a (nmi_lint : Z) (nmi_lint_pin_polarity : PinPolarity) (nmi_lint_trigger_mode : TriggerMode) : res W :=
  '(nmi_lint, ext_int_lint) ←
    (if nmi_lint =? 0 then Done (LvtLint0, LvtLint1)
     else if nmi_lint =? 1 then Done (LvtLint1, LvtLint0) else Panic Asserted);
  let nmi_lint_entry := lapic_read w a nmi_lint in
  let ext_int_lint_entry := lapic_read w a ext_int_lint in
  nmi_lint_entry ← lvt_set_delivery_mode nmi_lint_entry (DeliveryMode_repr Nmi);
  nmi_lint_entry ← lvt_set_trigger_mode nmi_lint_entry (TriggerMode_repr nmi_lint_trigger_mode);
  nmi_lint_entry ← lvt_set_pin_polarity nmi_lint_entry (PinPolarity_repr nmi_lint_pin_polarity);
  nmi_lint_entry ← lvt_set_mask nmi_lint_entry 0;
  ext_int_lint_entry ← lvt_set_delivery_mode ext_int_lint_entry (DeliveryMode_repr ExtInt);
  ext_int_lint_entry ← lvt_set_trigger_mode ext_int_lint_entry (TriggerMode_repr EdgeTriggered);
  ext_int_lint_entry ← lvt_set_mask ext_int_lint_entry 0;
  let error := lapic_read w a LvtError in
  error ← lvt_set_mask error 0;
  let w := lapic_write w a nmi_lint nmi_lint_entry in
  let w := lapic_write w a ext_int_lint ext_int_lint_entry in
  Done (lapic_write w a LvtError error).

Definition read_errors w a : Z * W :=
  let w := lapic_write w a ErrorStatus 0 in
  (lapic_read w a ErrorStatus, w).

Definition get_timer_divide_config w a : option TimerDivisor :=
  let ret := lapic_read w a TimerDivideConfig in
  let pow := Z.lor (Z.shiftr (Z.land ret 8) 1) (Z.land ret 3) in
  TimerDivisor_transmute pow.

Definition divider_value (divider : TimerDivisor) : Z :=
  Z.lor (Z.land (TimerDivisor_repr divider) 3) (Z.shiftl (TimerDivisor_repr divider) 1).

Definition set_timer_divider_config w a (divider : TimerDivisor) : W :=
  lapic_write w a TimerDivideConfig (divider_value divider).

Definition config_timer w a (cycle_count : Z) (timer_mode : LapicTimerMode) : res W :=
  let lvtt := lapic_read w a LvtTimer in
  lvtt ← lvt_set_reserved2 lvtt (LapicTimerMode_repr timer_mode);
  let w := lapic_write w a LvtTimer lvtt in
  Done (lapic_write w a TimerInitialCount cycle_count).

Definition set_timer_disabled w a (disable : bool) : res W :=
  let lvtt := lapic_read w a LvtTimer in
  lvtt ← lvt_set_mask lvtt (Z.b2z disable);
  Done (lapic_write w a LvtTimer lvtt).

Definition read_current_timer_count w a : Z := lapic_read w a TimerCurrentCount.
Definition read_initial_timer_count w a : Z := lapic_read w a TimerInitialCount.

(** The low word of the interrupt command register; shifts of a [u32]. *)
Definition ipi_command (vector : Z) (delivery_mode : DeliveryMode) (destination_mode : Z) (level : Level)
    (trigger_mode : TriggerMode) (shorthand : DestinationShorthand) : Z :=
  Z.lor (Z.lor (Z.lor (Z.lor (Z.lor vector (Z.shiftl (DeliveryMode_repr delivery_mode) 8))
    (Z.shiftl destination_mode 11)) (Z.shiftl (Level_repr level) 14))
    (Z.shiftl (TriggerMode_repr trigger_mode) 15)) (Z.shiftl (Shorthand_repr shorthand) 18).

Definition send_ipi w a (vector : Z) (delivery_mode : DeliveryMode) (destination : Destination) (level : Level)
    (trigger_mode : TriggerMode) (destination_shorthand : DestinationShorthand) : W :=
  let destination := Destination_get destination in
  let w := lapic_write w a InterruptCommand1 (Z.shiftl (snd destination) 24) in
  lapic_write w a InterruptCommand0
    (ipi_command vector delivery_mode (fst destination) level trigger_mode destination_shorthand).

Definition ipi_status w a : DeliveryStatus :=
  if Z.land (lapic_read w a InterruptCommand0) (Z.shiftl 1 12) =? 0 then Idle else SendPending.

Definition signal_eoi w a : W := lapic_write w a EndOfInterrupt 0.

Definition get_apic (lapics : list LocalApic) (apic_id : Z) : res LocalApic :=
  unwrap (List.find (fun a => lapic_id a =? apic_id) lapics).

(** [lapic::add]: a processor that is neither enabled nor online capable is
    left out. *)
Definition lapic_add {P} `{PmmAllocator P} (hhdm root : Z) (g : Paging P) w (c : ApicCpu) (lapics : list LocalApic)
    (base acpi_processor_id apic_id flags : Z) : res (Paging P * W * ApicCpu * list LocalApic) :=
  if negb (Z.land flags 1 =? 1) && negb (Z.land flags 2 =? 2) then Done (g, w, c, lapics)
  else
    '(r, g) ← PagingManager_map_pages hhdm root g base 1 (set_read_write Flags_new true) size_4kb;
    ptr ← unwrap_ok r;
    '(a, w, c) ← LocalApic_new w c ptr acpi_processor_id apic_id;
    Done (g, w, c, lapics ++ [a]).

(** The two loops of [config_lints], for the local APICs that [selected] accepts. *)
Fixpoint config_lints_from w (selected : LocalApic -> bool) (lapics : list LocalApic) (lint flags : Z) : res W :=
  match lapics with
  | [] => Done w
  | a :: lapics =>
      w ← (if selected a then
             polarity ← unwrap_ok (PinPolarity_try_from (Z.land flags 3));
             trigger ← unwrap_ok (TriggerMode_try_from (Z.land (Z.shiftr flags 2) 3));
             setup_lvts w a lint polarity trigger
           else Done w);
      config_lints_from w selected lapics lint flags
  end.

Definition ALL_PROCESSORS_ID : Z := 0xff.

Definition config_lints w (lapics : list LocalApic) (processor_id lint flags : Z) : res W :=
  if processor_id =? ALL_PROCESSORS_ID then config_lints_from w (fun _ => true) lapics lint flags
  else config_lints_from w (fun a => acpi_processor_id a =? processor_id) lapics lint flags.

Definition override_base (lapics : list LocalApic) (base : Z) : list LocalApic :=
  map (fun a => mkLocalApic base (acpi_processor_id a) (lapic_id a)) lapics.
End lapic.

(** ** The timer of a local APIC *)
Record ApicTimer := mkApicTimer { base_frequency : Z; tsc_deadline_supported : bool; at_apic_id : Z }.

(** [time] in microseconds; [time.as_micros() as u32] keeps the low 32 bits. *)
Definition time_to_ticks (t : ApicTimer) (micros : Z) : res Z :=
  f ← u32_mul (base_frequency t) 1000000;
  if micros mod 2 ^ 32 =? 0 then Panic DivByZero else Done (f / (micros mod 2 ^ 32)).

Section apic_timer.
Context {W : Type} `{Mmio32 W} `{Bitfields}.

Definition ApicTimer_configure (w : W) (lapics : list LocalApic) (t : ApicTimer) (micros : Z) (mode : LapicTimerMode)
    : res (result Z TimerError * W) :=
  if match mode with ApicReserved => true | ApicTsc => negb (tsc_deadline_supported t) | _ => false end
  then Done (Err UnsupportedTimerMode, w)
  else
    ticks ← time_to_ticks t micros;
    apic ← get_apic lapics (at_apic_id t);
    w ← config_timer w apic ticks mode;
    w ← set_timer_disabled w apic false;
    Done (Ok ticks, w).

Definition ApicTimer_set_disabled (w : W) (lapics : list LocalApic) (t : ApicTimer) (disable : bool) : res W :=
  apic ← get_apic lapics (at_apic_id t);
  set_timer_disabled w apic disable.
End apic_timer.
