(* ===== verification/Acpi.v ===== *)
(** * ACPI tables: checksums and the MADT

    Models the table header and checksums of boot/src/acpi/mod.rs and rsdp.rs,
    the parser of the MADT (boot/src/acpi/madt.rs), which drives the IO APIC and
    the local APIC drivers, and the setup of the HPET from its table
    (acpi/hpet.rs).  Tables are read from memory as the firmware left them:
    [mem] gives the byte at an address.  The walk over the XSDT is not modelled,
    since it also starts the PCIe driver. *)

From S2P Require Import Prelude Ids Pmm PageFlags PageTable Paging Bitfield IoApic Idt Hpet Lapic.

Definition bytes_mem : Type := Z -> Z.

(** A little-endian integer of [n] bytes at [a]. *)
Fixpoint read_le (mem : bytes_mem) (a : Z) (n : nat) : Z :=
  match n with O => 0 | S n => mem a + 256 * read_le mem (a + 1) n end.

Definition read_u8 (mem : bytes_mem) (a : Z) : Z := read_le mem a 1.
Definition read_u16 (mem : bytes_mem) (a : Z) : Z := read_le mem a 2.
Definition read_u32 (mem : bytes_mem) (a : Z) : Z := read_le mem a 4.
Definition read_u64 (mem : bytes_mem) (a : Z) : Z := read_le mem a 8.

Inductive AcpiError := InvalidChecksum.

(** ** The header of a table *)
Definition size_of_SdtHeader : Z := 36.
Definition SdtHeader_length (mem : bytes_mem) (self : Z) : Z := read_u32 mem (self + 4).

(** [acc + x as usize] over the [n] bytes from [a] on. *)
Fixpoint sum_bytes (mem : bytes_mem) (a : Z) (n : nat) (acc : Z) : res Z :=
  match n with
  | O => Done acc
  | S n => acc ← usize_add acc (mem a); sum_bytes mem (a + 1) n acc
  end.

Definition entry_count (mem : bytes_mem) (self size_of_T : Z) : res Z :=
  bytes_count ← usize_sub (SdtHeader_length mem self) size_of_SdtHeader;
  r ← usize_rem bytes_count size_of_T;
  _ ← assert_ (r =? 0);
  Done (bytes_count / size_of_T).

Definition validate_checksum (mem : bytes_mem) (self : Z) : res (result unit AcpiError) :=
  sum ← sum_bytes mem self (Z.to_nat (SdtHeader_length mem self)) 0;
  Done (if negb (sum mod 0x100 =? 0) then Err InvalidChecksum else Ok ()).

(** ** The RSDP: 20 bytes, and 16 more since revision 2 *)
Definition size_of_Rsdp : nat := 20.
Definition size_of_Rsdp2 : nat := 36.

Definition Rsdp2_validate_checksum (mem : bytes_mem) (self : Z) : res (result unit AcpiError) :=
  sum ← sum_bytes mem self size_of_Rsdp 0;
  if negb (Z.land sum 0xff =? 0) then Done (Err InvalidChecksum)
  else
    sum ← sum_bytes mem (self + Z.of_nat size_of_Rsdp) (size_of_Rsdp2 - size_of_Rsdp) 0;
    Done (if negb (Z.land sum 0xff =? 0) then Err InvalidChecksum else Ok ()).

(** ** The MADT *)
Definition OFFSET_TO_ENTRIES : Z := 0x2c.
Definition LOCAL_APIC : Z := 0.
Definition IO_APIC : Z := 1.
Definition IO_APIC_ISO : Z := 2.
Definition IO_APIC_NMI_ISO : Z := 3.
Definition LOCAL_APIC_NMI : Z := 4.
Definition LOCAL_APIC_ADDR_OVERRIDE : Z := 5.
Definition PROCESSOR_LOCAL_X2APIC : Z := 9.

Record MadtIter := mkMadtIter { mi_ptr : Z; mi_len : Z }.

Definition Madt_iter (mem : bytes_mem) (self : Z) : res MadtIter :=
  len ← usize_sub (SdtHeader_length mem self) OFFSET_TO_ENTRIES;
  Done (mkMadtIter (self + OFFSET_TO_ENTRIES) len).

Definition MadtIter_next (mem : bytes_mem) (it : MadtIter) : res (option Z * MadtIter) :=
  if mi_len it =? 0 then Done (None, it)
  else
    let ptr := mi_ptr it in
    let len := read_u8 mem (ptr + 1) in
    rest ← usize_sub (mi_len it) len;
    Done (Some ptr, mkMadtIter (ptr + len) rest).

Class PortIo (W : Type) := { outb_8 : W -> Z -> Z -> W }.

Definition mask_off_pic `{PortIo W} (w : W) : W := outb_8 (outb_8 w 0x21 0xff) 0xa1 0xff.

(** What parsing the MADT sets up. *)
Record Apics (W P : Type) := mkApics {
  ap_io : IoApics W;
  ap_lapics : list LocalApic;
  ap_cpu : ApicCpu;
  ap_paging : Paging P;
}.
Arguments mkApics {W P}.
Arguments ap_io {W P}.
Arguments ap_lapics {W P}.
Arguments ap_cpu {W P}.
Arguments ap_paging {W P}.

Section madt.
Context {W P : Type} `{Mmio32 W} `{PortIo W} `{Bitfields} `{PmmAllocator P}.
Variables (hhdm root : Z).
Implicit Types (st : Apics W P) (mem : bytes_mem).

Definition add_lapic st (base acpi_id apic_id flags : Z) : res (Apics W P) :=
  '(g, w, c, l) ← lapic_add hhdm root (ap_paging st) (world (ap_io st)) (ap_cpu st) (ap_lapics st) base acpi_id apic_id flags;
  Done (mkApics (with_world (ap_io st) w) l c g).

Definition add_ioapic st (phys gsi_base id : Z) : res (Apics W P) :=
  '(g, io) ← ioapic_add hhdm root (ap_paging st) (ap_io st) phys gsi_base id;
  Done (mkApics io (ap_lapics st) (ap_cpu st) g).

Definition add_override st (irq gsi flags : Z) (m : option DeliveryMode) : res (Apics W P) :=
  io ← override_irq (ap_io st) irq gsi flags m;
  Done (mkApics io (ap_lapics st) (ap_cpu st) (ap_paging st)).

Definition set_lints st (acpi_id lint flags : Z) : res (Apics W P) :=
  w ← config_lints (world (ap_io st)) (ap_lapics st) acpi_id lint flags;
  Done (mkApics (with_world (ap_io st) w) (ap_lapics st) (ap_cpu st) (ap_paging st)).

Definition move_lapics st (phys : Z) : res (Apics W P) :=
  '(r, g) ← PagingManager_map_pages hhdm root (ap_paging st) phys 1 (set_read_write Flags_new true) size_4kb;
  ptr ← unwrap_ok r;
  Done (mkApics (ap_io st) (override_base (ap_lapics st) ptr) (ap_cpu st) g).

(** The [match] of [parse] on the entry at [entry]. *)
Definition parse_entry mem (self : Z) st (entry : Z) : res (Apics W P) :=
  let entry_type := read_u8 mem entry in
  let local_apic_addr := read_u32 mem (self + 36) in
  if entry_type =? LOCAL_APIC then
    add_lapic st local_apic_addr (read_u8 mem (entry + 2)) (read_u8 mem (entry + 3)) (read_u32 mem (entry + 4))
  else if entry_type =? IO_APIC then
    add_ioapic st (read_u32 mem (entry + 4)) (read_u32 mem (entry + 8)) (read_u8 mem (entry + 2))
  else if entry_type =? IO_APIC_ISO then
    add_override st (read_u8 mem (entry + 3)) (read_u32 mem (entry + 4)) (read_u16 mem (entry + 8)) None
  else if entry_type =? IO_APIC_NMI_ISO then
    add_override st (read_u8 mem (entry + 2)) (read_u32 mem (entry + 6)) (read_u16 mem (entry + 4)) (Some Nmi)
  else if entry_type =? LOCAL_APIC_NMI then
    set_lints st (read_u8 mem (entry + 2)) (read_u8 mem (entry + 5)) (read_u16 mem (entry + 3))
  else if entry_type =? LOCAL_APIC_ADDR_OVERRIDE then
    move_lapics st (read_u64 mem (entry + 4))
  else if entry_type =? PROCESSOR_LOCAL_X2APIC then
    add_lapic st local_apic_addr (read_u32 mem (entry + 12)) (read_u32 mem (entry + 4)) (read_u32 mem (entry + 8))
  else Done st.

(** [for entry in self.iter()], at most [n] steps of it; [None] if the loop has
    not ended by then. *)
Fixpoint parse_entries (n : nat) mem (self : Z) st (it : MadtIter) : option (res (Apics W P)) :=
  match n with
  | O => None
  | S n =>
      match MadtIter_next mem it with
      | Panic p => Some (Panic p)
      | Done (None, _) => Some (Done st)
      | Done (Some entry, it) =>
          match parse_entry mem self st entry with
          | Panic p => Some (Panic p)
          | Done st => parse_entries n mem self st it
          end
      end
  end.

Definition Madt_parse (n : nat) mem (self : Z) st : option (res (result unit AcpiError * Apics W P)) :=
  match validate_checksum mem self with
  | Panic p => Some (Panic p)
  | Done (Err e) => Some (Done (Err e, st))
  | Done (Ok _) =>
      let st := mkApics (with_world (ap_io st) (mask_off_pic (world (ap_io st)))) (ap_lapics st) (ap_cpu st) (ap_paging st) in
      match Madt_iter mem self with
      | Panic p => Some (Panic p)
      | Done it =>
          r ← parse_entries n mem self st it;
          Some (st ← r;
                io ← init_irq_allocator (ap_io st);
                Done (Ok (), mkApics io (ap_lapics st) (ap_cpu st) (ap_paging st)))
      end
  end.
End madt.

(** ** The HPET table *)
Section hpet_table.
Context {W P : Type} `{Mmio64 W} `{Bitfields} `{PmmAllocator P}.

Definition setup_hpet (hhdm root : Z) (mem : bytes_mem) (self : Z) (w : W) (g : Paging P)
    : res (result Hpet AcpiError * W * Paging P) :=
  r ← validate_checksum mem self;
  match r with
  | Err e => Done (Err e, w, g)
  | Ok _ =>
      let phys_addr := read_u64 mem (self + 44) in
      '(r, g) ← PagingManager_map_pages hhdm root g phys_addr 1 (set_read_write Flags_new true) size_4kb;
      ptr ← unwrap_ok r;
      '(h, w) ← Hpet_init w ptr (read_u16 mem (self + 52)) Legacy;
      Done (Ok h, w, g)
  end.
End hpet_table.
