(* ===== verification/AcpiTheorems.v ===== *)
(** * ACPI tables: theorems

    The parser of the MADT against the list of entries that the table encodes:
    parsing the bytes does what the handlers do for the entries, in order.  And
    what the checksum accepts. *)

From S2P Require Import Prelude Ids Pmm PageTable Paging BootTheorems Bitfield IoApic IoApicCorrect Idt IrqTheorems Hpet Lapic Acpi.

(** ** Bytes in memory *)
Definition is_byte (b : Z) : Prop := 0 <= b < 256.

(** The bytes [bs] are at [a]. *)
Definition holds (mem : bytes_mem) (a : Z) (bs : list Z) : Prop :=
  forall i b, bs !! i = Some b -> mem (a + Z.of_nat i) = b.

Lemma holds_app mem a bs bs' : holds mem a (bs ++ bs') -> holds mem a bs /\ holds mem (a + Z.of_nat (length bs)) bs'.
Proof.
  intros Hh. split.
  - intros i b E. apply Hh. by apply lookup_app_l_Some.
  - intros i b E. rewrite <- Z.add_assoc, <- Nat2Z.inj_add. apply Hh. by rewrite lookup_app_r, Nat.add_comm, Nat.add_sub by lia.
Qed.

Lemma holds_cons mem a b bs : holds mem a (b :: bs) -> mem a = b /\ holds mem (a + 1) bs.
Proof.
  intros Hh. destruct (holds_app mem a [b] bs Hh) as [H1 H2]. split; [| done].
  rewrite <- (Z.add_0_r a). by apply (H1 0%nat).
Qed.

(** [n] bytes of [v], the lowest first. *)
Fixpoint le (n : nat) (v : Z) : list Z :=
  match n with O => [] | S n => v mod 256 :: le n (v / 256) end.

Lemma le_length n v : length (le n v) = n.
Proof. revert v. induction n as [| n IH]; intros v; cbn; [done |]. by rewrite IH. Qed.

Lemma read_le_ok mem n : forall a v, 0 <= v < 256 ^ Z.of_nat n -> holds mem a (le n v) -> read_le mem a n = v.
Proof.
  induction n as [| n IH]; intros a v Hv Hh; cbn [read_le le] in *; [change (256 ^ Z.of_nat 0) with 1 in Hv; lia |].
  apply holds_cons in Hh as [-> Hh]. rewrite (IH _ (v / 256)); [pose proof (Z.div_mod v 256 ltac:(lia)); lia | | done].
  rewrite Nat2Z.inj_succ, Z.pow_succ_r in Hv by lia. split; [apply Z.div_pos; lia | apply Z.div_lt_upper_bound; lia].
Qed.

(** A byte and an integer at an offset into bytes in memory. *)
Lemma byte_at mem a bs i b off : holds mem a bs -> bs !! i = Some b -> off = Z.of_nat i -> read_u8 mem (a + off) = b.
Proof. intros Hh E ->. unfold read_u8. cbn [read_le]. rewrite (Hh i b E). lia. Qed.

Lemma field_at mem a bs pre n v post off : holds mem a bs -> bs = pre ++ le n v ++ post ->
  off = Z.of_nat (length pre) -> 0 <= v < 256 ^ Z.of_nat n -> read_le mem (a + off) n = v.
Proof.
  intros Hh -> -> Hv. apply holds_app in Hh as [_ Hh]. apply holds_app in Hh as [Hh _]. by apply read_le_ok.
Qed.

(** ** Checksums *)
Definition byte_sum (bs : list Z) : Z := foldr Z.add 0 bs.

Lemma byte_sum_bound bs : Forall is_byte bs -> 0 <= byte_sum bs <= 255 * Z.of_nat (length bs).
Proof.
  induction 1 as [| b bs Hb _ IH]; [cbn; lia |]. cbn [length byte_sum foldr]. fold (byte_sum bs). unfold is_byte in Hb. lia.
Qed.

Lemma sum_bytes_ok mem bs : Forall is_byte bs -> forall a acc, 0 <= acc -> acc + byte_sum bs <= usize_MAX -> holds mem a bs ->
  sum_bytes mem a (length bs) acc = Done (acc + byte_sum bs).
Proof.
  induction 1 as [| b bs Hb Hbs IH]; intros a acc Hacc Hmax Hh; cbn [sum_bytes length byte_sum foldr] in *; [by rewrite Z.add_0_r |].
  apply holds_cons in Hh as [-> Hh]. fold (byte_sum bs) in *. pose proof (byte_sum_bound bs Hbs). unfold is_byte in Hb.
  rewrite usize_add_ok, bind_Done, IH by (done || lia). f_equal. lia.
Qed.

(** A table in memory: its length field is the number of its bytes. *)
Record table_at (mem : bytes_mem) (self : Z) (bs : list Z) : Prop := {
  tb_holds : holds mem self bs;
  tb_bytes : Forall is_byte bs;
  tb_length : SdtHeader_length mem self = Z.of_nat (length bs);
  tb_size : Z.of_nat (length bs) < 2 ^ 32;
}.

Lemma validate_checksum_ok mem self bs : table_at mem self bs ->
  validate_checksum mem self = Done (if byte_sum bs mod 256 =? 0 then Ok () else Err InvalidChecksum).
Proof.
  intros [Hh Hb Hl Hs]. unfold validate_checksum. rewrite Hl, Nat2Z.id. pose proof (byte_sum_bound bs Hb).
  rewrite sum_bytes_ok, bind_Done by (done || (unfold usize_MAX; lia)). rewrite Z.add_0_l.
  change 0x100 with 256. by destruct (byte_sum bs mod 256 =? 0).
Qed.

(** ** The entries of a MADT *)
Inductive MadtEntry :=
  | ELocalApic (acpi_id apic_id flags : Z)
  | EIoApic (id addr gsi_base : Z)
  | EIso (bus irq gsi flags : Z)
  | ENmiIso (source flags gsi : Z)
  | ELocalNmi (acpi_id flags lint : Z)
  | EAddrOverride (addr : Z)
  | EX2Apic (x2apic_id flags acpi_id : Z)
  | EUnknown (ty : Z) (payload : list Z).

Definition u16v (v : Z) : Prop := 0 <= v < 256 ^ 2.
Definition u32v (v : Z) : Prop := 0 <= v < 256 ^ 4.
Definition u64v (v : Z) : Prop := 0 <= v < 256 ^ 8.

Definition entry_ok (e : MadtEntry) : Prop :=
  match e with
  | ELocalApic acpi_id apic_id flags => is_byte acpi_id /\ is_byte apic_id /\ u32v flags
  | EIoApic id addr gsi_base => is_byte id /\ u32v addr /\ u32v gsi_base
  | EIso bus irq gsi flags => is_byte bus /\ is_byte irq /\ u32v gsi /\ u16v flags
  | ENmiIso source flags gsi => is_byte source /\ u16v flags /\ u32v gsi
  | ELocalNmi acpi_id flags lint => is_byte acpi_id /\ u16v flags /\ is_byte lint
  | EAddrOverride addr => u64v addr
  | EX2Apic x2apic_id flags acpi_id => u32v x2apic_id /\ u32v flags /\ u32v acpi_id
  | EUnknown ty payload =>
      is_byte ty /\ (ty ∉ [0; 1; 2; 3; 4; 5; 9]) /\ Forall is_byte payload /\ (length payload < 254)%nat
  end.

Definition encode (e : MadtEntry) : list Z :=
  match e with
  | ELocalApic acpi_id apic_id flags => [0; 8; acpi_id; apic_id] ++ le 4 flags
  | EIoApic id addr gsi_base => [1; 12; id; 0] ++ le 4 addr ++ le 4 gsi_base
  | EIso bus irq gsi flags => [2; 10; bus; irq] ++ le 4 gsi ++ le 2 flags
  | ENmiIso source flags gsi => [3; 10; source; 0] ++ le 2 flags ++ le 4 gsi
  | ELocalNmi acpi_id flags lint => [4; 6; acpi_id] ++ le 2 flags ++ [lint]
  | EAddrOverride addr => [5; 12; 0; 0] ++ le 8 addr
  | EX2Apic x2apic_id flags acpi_id => [9; 16; 0; 0] ++ le 4 x2apic_id ++ le 4 flags ++ le 4 acpi_id
  | EUnknown ty payload => ty :: Z.of_nat (2 + length payload) :: payload
  end.

Section parse.
Context {W P : Type} `{Mmio32 W} `{PortIo W} `{Bitfields} `{PmmAllocator P}.
Variables (hhdm root : Z).
Implicit Types (st : Apics W P) (mem : bytes_mem).

(** What an entry asks for, in a table with the address [lapic_addr]. *)
Definition apply_entry (lapic_addr : Z) st (e : MadtEntry) : res (Apics W P) :=
  match e with
  | ELocalApic acpi_id apic_id flags => add_lapic hhdm root st lapic_addr acpi_id apic_id flags
  | EIoApic id addr gsi_base => add_ioapic hhdm root st addr gsi_base id
  | EIso _ irq gsi flags => add_override st irq gsi flags None
  | ENmiIso source flags gsi => add_override st source gsi flags (Some Nmi)
  | ELocalNmi acpi_id flags lint => set_lints st acpi_id lint flags
  | EAddrOverride addr => move_lapics hhdm root st addr
  | EX2Apic x2apic_id flags acpi_id => add_lapic hhdm root st lapic_addr acpi_id x2apic_id flags
  | EUnknown _ _ => Done st
  end.

Fixpoint apply_entries (lapic_addr : Z) st (es : list MadtEntry) : res (Apics W P) :=
  match es with
  | [] => Done st
  | e :: es => st ← apply_entry lapic_addr st e; apply_entries lapic_addr st es
  end.

Lemma encode_head mem p e : entry_ok e -> holds mem p (encode e) ->
  read_u8 mem (p + 1) = Z.of_nat (length (encode e)) /\ (2 <= length (encode e) < 256)%nat.
Proof.
  intros Hok Hh. split.
  - apply (byte_at mem p (encode e) 1 _ 1 Hh); [| lia]. destruct e; cbn [encode app]; try done.
  - destruct e; cbn in *; lia.
Qed.

(** The test of the entry type, decided for a known type. *)
Ltac entry_type :=
  unfold LOCAL_APIC, IO_APIC, IO_APIC_ISO, IO_APIC_NMI_ISO, LOCAL_APIC_NMI, LOCAL_APIC_ADDR_OVERRIDE, PROCESSOR_LOCAL_X2APIC;
  cbn [Z.eqb Pos.eqb apply_entry].

(** The entry that starts at [p] is handled as what it encodes. *)
Lemma parse_entry_ok mem self st p e : entry_ok e -> holds mem p (encode e) ->
  parse_entry hhdm root mem self st p = apply_entry (read_u32 mem (self + 36)) st e.
Proof.
  intros Hok Hh.
  assert (forall b, encode e !! 0%nat = Some b -> read_u8 mem p = b) as Hty.
  { intros b E. rewrite <- (Z.add_0_r p). by apply (byte_at mem p (encode e) 0 b 0 Hh). }
  unfold parse_entry. generalize (read_u32 mem (self + 36)). intros lapic_addr. unfold read_u16, read_u32, read_u64.
  destruct e; cbn [encode entry_ok] in *; rewrite (Hty _ eq_refl).
  - entry_type. destruct Hok as (? & ? & ?).
    rewrite (byte_at _ _ _ 2 acpi_id 2 Hh), (byte_at _ _ _ 3 apic_id 3 Hh) by done.
    by rewrite (field_at _ _ _ [0; 8; acpi_id; apic_id] 4 flags [] 4 Hh) by done.
  - entry_type. destruct Hok as (? & ? & ?).
    rewrite (byte_at _ _ _ 2 id 2 Hh) by done.
    rewrite (field_at _ _ _ [1; 12; id; 0] 4 addr (le 4 gsi_base) 4 Hh) by done.
    by rewrite (field_at _ _ _ ([1; 12; id; 0] ++ le 4 addr) 4 gsi_base [] 8 Hh) by done.
  - entry_type. destruct Hok as (? & ? & ? & ?). rewrite (byte_at _ _ _ 3 irq 3 Hh) by done.
    rewrite (field_at _ _ _ [2; 10; bus; irq] 4 gsi (le 2 flags) 4 Hh) by done.
    by rewrite (field_at _ _ _ ([2; 10; bus; irq] ++ le 4 gsi) 2 flags [] 8 Hh) by done.
  - entry_type. destruct Hok as (? & ? & ?).
    rewrite (byte_at _ _ _ 2 source 2 Hh) by done.
    rewrite (field_at _ _ _ [3; 10; source; 0] 2 flags (le 4 gsi) 4 Hh) by done.
    by rewrite (field_at _ _ _ ([3; 10; source; 0] ++ le 2 flags) 4 gsi [] 6 Hh) by done.
  - entry_type. destruct Hok as (? & ? & ?).
    rewrite (byte_at _ _ _ 2 acpi_id 2 Hh), (byte_at _ _ _ 5 lint 5 Hh) by done.
    by rewrite (field_at _ _ _ [4; 6; acpi_id] 2 flags [lint] 3 Hh) by done.
  - entry_type.
    by rewrite (field_at _ _ _ [5; 12; 0; 0] 8 addr [] 4 Hh) by done.
  - entry_type. destruct Hok as (? & ? & ?).
    rewrite (field_at _ _ _ [9; 16; 0; 0] 4 x2apic_id (le 4 flags ++ le 4 acpi_id) 4 Hh) by done.
    rewrite (field_at _ _ _ ([9; 16; 0; 0] ++ le 4 x2apic_id) 4 flags (le 4 acpi_id) 8 Hh) by done.
    by rewrite (field_at _ _ _ ([9; 16; 0; 0] ++ le 4 x2apic_id ++ le 4 flags) 4 acpi_id [] 12 Hh) by done.
  - destruct Hok as (_ & Hn & _). rewrite !not_elem_of_cons in Hn. destruct Hn as (? & ? & ? & ? & ? & ? & ? & _).
    entry_type. by rewrite !(proj2 (Z.eqb_neq _ _)) by done.
Qed.

(** The loop over the bytes of the entries [es]. *)
Lemma parse_entries_ok mem self es : Forall entry_ok es -> forall st p n,
  holds mem p (concat (map encode es)) -> (length es < n)%nat ->
  parse_entries hhdm root n mem self st (mkMadtIter p (Z.of_nat (length (concat (map encode es))))) =
    Some (apply_entries (read_u32 mem (self + 36)) st es).
Proof.
  induction 1 as [| e es He _ IH]; intros st p n Hh Hn; (destruct n as [| n]; [cbn in Hn; lia |]); [done |].
  cbn [map concat] in *. pose proof Hh as [Hhe Hhs]%holds_app. destruct (encode_head mem p e He Hhe) as [El Hl].
  cbn [parse_entries apply_entries]. unfold MadtIter_next. cbn [mi_len mi_ptr]. rewrite length_app.
  rewrite (proj2 (Z.eqb_neq _ _)), El by lia. rewrite usize_sub_ok, bind_Done by lia.
  replace (Z.of_nat (length (encode e) + length (concat (map encode es))) - Z.of_nat (length (encode e)))
    with (Z.of_nat (length (concat (map encode es)))) by lia.
  rewrite (parse_entry_ok mem self st p e He Hhe).
  destruct (apply_entry (read_u32 mem (self + 36)) st e) as [st' | pc]; [| done].
  rewrite bind_Done. cbn [length] in Hn. apply IH; [done | lia].
Qed.

(** A MADT in memory: header and fixed fields, then the entries. *)
Record madt_at mem (self : Z) (header : list Z) (es : list MadtEntry) : Prop := {
  ma_table : table_at mem self (header ++ concat (map encode es));
  ma_header : length header = 44%nat;
  ma_entries : Forall entry_ok es;
}.

Definition pic_masked st : Apics W P :=
  mkApics (with_world (ap_io st) (mask_off_pic (world (ap_io st)))) (ap_lapics st) (ap_cpu st) (ap_paging st).

(** The parse of a table in memory, its entries as the list they encode. *)
Lemma Madt_parse_ok mem self header es st n : madt_at mem self header es -> (length es < n)%nat ->
  Madt_parse hhdm root n mem self st = Some (
    if byte_sum (header ++ concat (map encode es)) mod 256 =? 0 then
      st' ← apply_entries (read_u32 mem (self + 36)) (pic_masked st) es;
      io ← init_irq_allocator (ap_io st');
      Done (Ok (), mkApics io (ap_lapics st') (ap_cpu st') (ap_paging st'))
    else Done (Err InvalidChecksum, st)).
Proof.
  intros [Ht Hh He] Hn. pose proof Ht as [Hhold _ Hlen _]. unfold Madt_parse. rewrite (validate_checksum_ok mem self _ Ht).
  destruct (_ =? 0); [| done]. unfold Madt_iter, OFFSET_TO_ENTRIES. rewrite Hlen, length_app, Hh.
  rewrite usize_sub_ok, bind_Done by lia.
  replace (Z.of_nat (44 + length (concat (map encode es))) - 0x2c) with (Z.of_nat (length (concat (map encode es)))) by lia.
  apply holds_app in Hhold as [_ Hes]. rewrite Hh in Hes. fold (pic_masked st).
  by rewrite (parse_entries_ok mem self es He _ (self + 0x2c) n Hes Hn).
Qed.

(** C23: parsing a MADT ends, and does what its entries ask for, one after the
    other from the state with the old interrupt controllers masked, and then
    sets up the allocator of IRQs; a table with a wrong checksum is refused
    before anything is done. *)
Theorem madt_parse_refines mem self header es st n : madt_at mem self header es -> (length es < n)%nat ->
  (byte_sum (header ++ concat (map encode es)) mod 256 = 0 ->
     Madt_parse hhdm root n mem self st = Some (
       st' ← apply_entries (read_u32 mem (self + 36)) (pic_masked st) es;
       io ← init_irq_allocator (ap_io st');
       Done (Ok (), mkApics io (ap_lapics st') (ap_cpu st') (ap_paging st')))) /\
  (byte_sum (header ++ concat (map encode es)) mod 256 <> 0 ->
     Madt_parse hhdm root n mem self st = Some (Done (Err InvalidChecksum, st))).
Proof.
  intros Hm Hn. rewrite (Madt_parse_ok mem self header es st n Hm Hn). split; intros E.
  - by rewrite E.
  - by rewrite (proj2 (Z.eqb_neq _ _) E).
Qed.

(** An entry of length zero is never passed: the loop of [parse] does not end
    when its type is not known. *)
Theorem madt_zero_length_loops mem self st p len : 0 < len -> mem p = 200 -> mem (p + 1) = 0 ->
  forall n, parse_entries hhdm root n mem self st (mkMadtIter p len) = None.
Proof.
  intros Hl Ht H0' n. assert (forall a, read_u8 mem a = mem a) as Hr by (intros a; unfold read_u8; cbn [read_le]; lia).
  induction n as [| n IH]; [done |]. cbn [parse_entries]. unfold MadtIter_next. cbn [mi_len mi_ptr].
  rewrite (proj2 (Z.eqb_neq _ _)), Hr, H0' by lia. rewrite (usize_sub_ok len 0), bind_Done, Z.sub_0_r, Z.add_0_r by lia.
  replace (parse_entry hhdm root mem self st p) with (Done st); [done |].
  unfold parse_entry. by rewrite Hr, Ht.
Qed.
End parse.

(** ** An example: an override and an entry of a type that is not known *)
#[local] Instance machine_ports : PortIo Machine := {| outb_8 w _ _ := w |}.
#[local] Existing Instance plain_bitfields.

Definition ex_entries : list MadtEntry := [EIso 0 9 9 13; EUnknown 200 [1; 2]].
Definition ex_header : list Z := [65; 80; 73; 67] ++ le 4 58 ++ [5; 170] ++ replicate 34 0.
Definition ex_table : list Z := ex_header ++ concat (map encode ex_entries).
Definition ex_mem : bytes_mem := fun a => nth (Z.to_nat (a - 0x1000)) ex_table 0.

Lemma ex_madt : madt_at ex_mem 0x1000 ex_header ex_entries.
Proof.
  split; [split | done |].
  - intros i b E. unfold ex_mem. replace (Z.to_nat (0x1000 + Z.of_nat i - 0x1000)) with i by lia. by apply nth_lookup_Some.
  - apply (bool_decide_unpack (Forall (fun b => 0 <= b < 256) ex_table)). by vm_compute.
  - by vm_compute.
  - by vm_compute.
  - repeat constructor; try (by vm_compute). by apply (bool_decide_unpack _).
Qed.

Definition ex_apics : Apics Machine (list PhysAddr) :=
  mkApics ex_ioapics [] (mkApicCpu 0 (mkMsrData 0 0)) (mkPaging (mkPtState ∅ []) VirtualAddressAllocator_uninit).

(** The override is recorded, and the allocator has one IRQ per pin. *)
Lemma madt_parse_refines_witness : exists w t,
  Madt_parse 0 0 3 ex_mem 0x1000 ex_apics = Some (Done (Ok (),
    mkApics (mkIoApics w [ex_apic] [mkIrqOverride 0 2; mkIrqOverride 9 9] t) [] (ap_cpu ex_apics) (ap_paging ex_apics))) /\
  pool_of t = mkPool 0 (replicate 24 false).
Proof.
  destruct (madt_parse_refines 0 0 ex_mem 0x1000 ex_header ex_entries ex_apics 3 ex_madt ltac:(cbn; lia)) as [E _].
  rewrite E by (by vm_compute). do 2 eexists. split; [vm_compute; reflexivity | by vm_compute].
Defined.
