(* ===== verification/LapicTheorems.v ===== *)
(** * The local APIC driver: theorems *)

From S2P Require Import Prelude Bitfield IoApic IoApicCorrect Idt IrqTheorems Hpet Lapic.

Section lvt.
Context {W : Type} `{Mmio32 W} `{BitfieldLaws}.
Implicit Types (w : W) (a : LocalApic).

(** The LINT register that takes the NMI, and the other one. *)
Definition lint_regs (lint : Z) : Z * Z := if lint =? 0 then (LvtLint0, LvtLint1) else (LvtLint1, LvtLint0).

Definition is_low (p : PinPolarity) : bool := match p with ActiveLow => true | ActiveHigh => false end.
Definition is_level_triggered (m : TriggerMode) : bool := match m with LevelTriggered => true | EdgeTriggered => false end.

(** What the setup changes of the NMI LINT, of the other LINT and of the error
    register. *)
Definition nmi_update (p : PinPolarity) (m : TriggerMode) (n : Z) : option bool :=
  if in_field 8 3 n then Some (Z.testbit (DeliveryMode_repr Nmi) (n - 8))
  else if n =? 13 then Some (is_low p)
  else if n =? 15 then Some (is_level_triggered m)
  else if n =? 16 then Some false else None.
Definition ext_int_update (n : Z) : option bool :=
  if in_field 8 3 n then Some (Z.testbit (DeliveryMode_repr ExtInt) (n - 8))
  else if (n =? 15) || (n =? 16) then Some false else None.
Definition unmask_update (n : Z) : option bool := if n =? 16 then Some false else None.

Definition updated (x y : Z) (new : Z -> option bool) : Prop :=
  forall n, 0 <= n -> Z.testbit y n = default (Z.testbit x n) (new n).

Lemma nmi_fields_ok x p m : 0 <= x -> exists e1 e2 e3 e4,
  lvt_set_delivery_mode x (DeliveryMode_repr Nmi) = Done e1 /\ lvt_set_trigger_mode e1 (TriggerMode_repr m) = Done e2 /\
 lvt_set_pin_polarity e2 (PinPolarity_repr p) = Done e3 /\ lvt_set_mask e3 0 = Done e4 /\ updated x e4 (nmi_update p m).
Proof.
  intros Hx. replace (TriggerMode_repr m) with (Z.b2z (is_level_triggered m)) by (by destruct m).
  replace (PinPolarity_repr p) with (Z.b2z (is_low p)) by (by destruct p).
  destruct (bf_set_law 8 3 x (DeliveryMode_repr Nmi) ltac:(lia) ltac:(lia) Hx (DeliveryMode_bound Nmi)) as (e1 & E1 & H1' & B1).
  destruct (bf_set_flag 15 e1 (is_level_triggered m) ltac:(lia) H1') as (e2 & E2 & H2' & B2).
  destruct (bf_set_flag 13 e2 (is_low p) ltac:(lia) H2') as (e3 & E3 & H3' & B3).
  destruct (bf_set_flag 16 e3 false ltac:(lia) H3') as (e4 & E4 & _ & B4).
  exists e1, e2, e3, e4. split_and!; try done. intros n Hn. rewrite B4, B3, B2, B1 by done. unfold nmi_update, in_field.
  destruct (Z.eqb_spec n 16), (Z.eqb_spec n 13), (Z.eqb_spec n 15); subst; try done; try lia. by destruct ((8 <=? n) && (n <? 8 + 3)).
Qed.

Lemma ext_int_fields_ok x : 0 <= x -> exists e1 e2 e3,
  lvt_set_delivery_mode x (DeliveryMode_repr ExtInt) = Done e1 /\ lvt_set_trigger_mode e1 (TriggerMode_repr EdgeTriggered) = Done e2 /\
 lvt_set_mask e2 0 = Done e3 /\ updated x e3 ext_int_update.
Proof.
  intros Hx.
  destruct (bf_set_law 8 3 x (DeliveryMode_repr ExtInt) ltac:(lia) ltac:(lia) Hx (DeliveryMode_bound ExtInt)) as (e1 & E1 & H1' & B1).
  destruct (bf_set_flag 15 e1 false ltac:(lia) H1') as (e2 & E2 & H2' & B2).
  destruct (bf_set_flag 16 e2 false ltac:(lia) H2') as (e3 & E3 & _ & B3).
  exists e1, e2, e3. split_and!; try done. intros n Hn. rewrite B3, B2, B1 by done. unfold ext_int_update, in_field.
  destruct (Z.eqb_spec n 16), (Z.eqb_spec n 15); subst; try done; try lia. cbn [orb]. by destruct ((8 <=? n) && (n <? 8 + 3)).
Qed.

(** [setup_lvts] makes the chosen LINT an NMI with the polarity and trigger
    mode asked for, the other one external interrupts on an edge, and unmasks
    both and the error interrupt; every other bit of the three registers is
    written back as it was, and no other register is written.  A LINT that does
    not exist stops the kernel. *)
Theorem lvts_configured w a lint p m : (forall reg, 0 <= lapic_read w a reg) ->
  (lint = 0 \/ lint = 1 -> let '(nmi, ext) := lint_regs lint in
     exists e_nmi e_ext e_err, setup_lvts w a lint p m =
       Done (lapic_write (lapic_write (lapic_write w a nmi e_nmi) a ext e_ext) a LvtError e_err) /\
     updated (lapic_read w a nmi) e_nmi (nmi_update p m) /\ updated (lapic_read w a ext) e_ext ext_int_update /\
     updated (lapic_read w a LvtError) e_err unmask_update) /\
  (1 < lint -> setup_lvts w a lint p m = Panic Asserted).
Proof.
  intros Hr. split.
  - intros Hl. unfold setup_lvts. replace (if lint =? 0 then Done (LvtLint0, LvtLint1) else if lint =? 1 then Done (LvtLint1, LvtLint0) else Panic Asserted)
      with (Done (lint_regs lint)) by (by destruct Hl as [-> | ->]).
    rewrite bind_Done. destruct (lint_regs lint) as [nmi ext].
    destruct (nmi_fields_ok (lapic_read w a nmi) p m (Hr _)) as (n1 & n2 & n3 & n4 & -> & E2 & E3 & E4 & Un).
    destruct (ext_int_fields_ok (lapic_read w a ext) (Hr _)) as (x1 & x2 & x3 & X1 & X2 & X3 & Ux).
    destruct (bf_set_flag 16 (lapic_read w a LvtError) false ltac:(lia) (Hr _)) as (e & Ee & _ & Be). change (lvt_set_mask (lapic_read w a LvtError) 0 = Done e) in Ee.
    rewrite bind_Done, E2, bind_Done, E3, bind_Done, E4, bind_Done, X1, bind_Done, X2, bind_Done, X3, bind_Done, Ee, bind_Done.
    exists n4, x3, e. split_and!; try done. intros n Hn. rewrite Be by done. unfold unmask_update. by destruct (n =? 16).
  - intros Hl. unfold setup_lvts. by rewrite !(proj2 (Z.eqb_neq _ _)) by lia.
Qed.
End lvt.

(** ** Inter-processor interrupts *)
Lemma shifted_testbit x k n : 0 <= n -> 0 <= k -> Z.testbit (Z.shiftl x k) n = if n <? k then false else Z.testbit x (n - k).
Proof.
  intros Hn Hk. rewrite Z.shiftl_spec by done. destruct (Z.ltb_spec n k); [by rewrite Z.testbit_neg_r by lia | done].
Qed.

(** The command word carries each argument in its own field, and nothing else. *)
Theorem ipi_command_fields vector m dm l t s : 0 <= vector < 256 -> 0 <= dm < 2 ->
  let c := ipi_command vector m dm l t s in
  bits_at 0 8 c = vector /\ bits_at 8 3 c = DeliveryMode_repr m /\ bits_at 11 1 c = dm /\ bits_at 12 2 c = 0 /\
  bits_at 14 1 c = Level_repr l /\ bits_at 15 1 c = TriggerMode_repr t /\ bits_at 18 2 c = Shorthand_repr s.
Proof.
  intros Hv Hd c. pose proof (DeliveryMode_bound m) as Hm.
  assert (0 <= Level_repr l < 2 ^ 1) as Hl by (destruct l; cbn; lia).
  assert (0 <= TriggerMode_repr t < 2 ^ 1) as Ht by (destruct t; cbn; lia).
  assert (0 <= Shorthand_repr s < 2 ^ 2) as Hs by (destruct s; cbn; lia).
  assert (forall i, 0 <= i -> Z.testbit c i =
    Z.testbit vector i || (if i <? 8 then false else Z.testbit (DeliveryMode_repr m) (i - 8)) ||
    (if i <? 11 then false else Z.testbit dm (i - 11)) || (if i <? 14 then false else Z.testbit (Level_repr l) (i - 14)) ||
    (if i <? 15 then false else Z.testbit (TriggerMode_repr t) (i - 15)) ||
    (if i <? 18 then false else Z.testbit (Shorthand_repr s) (i - 18))) as Hc.
  { intros i Hi. unfold c, ipi_command. by rewrite !Z.lor_spec, !shifted_testbit by lia. }
  assert (forall x w k i, 0 <= x < 2 ^ w -> w <= i - k -> Z.testbit x (i - k) = false) as Hhi by (intros x w k i Hx Hw; by apply (testbit_small x w)).
  split_and!; apply bits_at_eq; try lia; intros i Hi; rewrite Hc by lia;
    repeat match goal with |- context [?a <? ?b] => destruct (Z.ltb_spec a b); try lia end;
    rewrite ?(testbit_small vector 8), ?(Hhi (DeliveryMode_repr m) 3 8), ?(Hhi dm 1 11), ?(Hhi (Level_repr l) 1 14),
      ?(Hhi (TriggerMode_repr t) 1 15), ?(Hhi (Shorthand_repr s) 2 18) by (done || lia); rewrite ?orb_false_r, ?orb_false_l;
    rewrite ?Z.testbit_0_l; try done; f_equal; lia.
Qed.

(** ** The timer *)

(** Reading back the divider that was written: the two bits of the number are
    not taken apart when it is written, so [Div4] is read back (and takes
    effect) as [Div16] and [Div64] as [Div1]. *)
Theorem timer_divider_readback d :
  TimerDivisor_transmute (Z.lor (Z.shiftr (Z.land (divider_value d) 8) 1) (Z.land (divider_value d) 3)) =
  Some (match d with Div4 => Div16 | Div64 => Div1 | d => d end).
Proof. by destruct d. Qed.

(** A longer time gives fewer ticks: one second of a timer at [f] MHz gives
    [f] ticks, and half a second twice as many. *)
Example ticks_of_a_second : time_to_ticks (mkApicTimer 1000 false 0) 1000000 = Done 1000 /\
  time_to_ticks (mkApicTimer 1000 false 0) 500000 = Done 2000.
Proof. done. Qed.

(** ** An example: both LINTs masked, the second made an NMI *)
#[local] Instance flat_mmio : Mmio32 (gmap Z Z) := {|
  mmio_read w addr := default 0 (w !! addr);
  mmio_write w addr v := <[addr := v]> w;
|}.
#[local] Existing Instance plain_bitfields.
#[local] Existing Instance plain_bitfield_laws.

Definition ex_lapic : LocalApic := mkLocalApic 0x1000 0 0.
Definition ex_lapic_regs : gmap Z Z := {[ 0x1350 := 0x10000; 0x1360 := 0x10000; 0x1370 := 0x100fe ]}.

Lemma ex_lapic_nonneg reg : 0 <= lapic_read ex_lapic_regs ex_lapic reg.
Proof.
  unfold lapic_read. cbn [mmio_read flat_mmio]. destruct (ex_lapic_regs !! _) as [v |] eqn:E; cbn; [| lia].
  unfold ex_lapic_regs in E. repeat (apply lookup_insert_Some in E as [[_ <-] | [_ E]]; [lia |]).
  apply lookup_singleton_Some in E as [_ <-]. lia.
Qed.

Lemma lvts_configured_witness : exists e_nmi e_ext e_err,
  setup_lvts ex_lapic_regs ex_lapic 1 ActiveHigh EdgeTriggered =
    Done (<[0x1370 := e_err]> (<[0x1350 := e_ext]> (<[0x1360 := e_nmi]> ex_lapic_regs))) /\
  updated 0x10000 e_nmi (nmi_update ActiveHigh EdgeTriggered) /\ updated 0x100fe e_err unmask_update.
Proof.
  destruct (lvts_configured ex_lapic_regs ex_lapic 1 ActiveHigh EdgeTriggered ex_lapic_nonneg) as [Hl _].
  destruct (Hl ltac:(by right)) as (e1 & e2 & e3 & E & U1 & _ & U3). exists e1, e2, e3. exact (conj E (conj U1 U3)).
Defined.

Example ex_lvts : match setup_lvts ex_lapic_regs ex_lapic 1 ActiveHigh EdgeTriggered with
  | Done w => (w !! 0x1350, w !! 0x1360, w !! 0x1370)
  | Panic _ => (None, None, None)
  end = (Some 0x700, Some 0x400, Some 0xfe).
Proof. by vm_compute. Qed.
