(* ===== verification/Layouts.v ===== *)
(** * Structures as the bits of one number

    A [#[bitfield]] structure and a [#[repr(C, packed)]] structure are both a
    sequence of fields without gaps: a list of names with their widths in
    bits.  A value of such a structure is the number its bytes spell in little
    endian, and a field is a range of its bits.  [load] and [store] are the
    plain field accesses of a packed structure; the accessors of a bit field
    are those of [Bitfield], and [bf_set_store] says that their laws leave
    them no choice but [store]. *)

From stdpp Require Export strings.
From S2P Require Import Prelude Bitfield.

#[global] Open Scope string_scope.
#[global] Open Scope Z_scope.

(** Names with widths in bits, in the order of the declaration. *)
Abbreviation Fields := (list (string * Z)) (only parsing).

(** A range of bits: where it starts and how wide it is. *)
Abbreviation place := (Z * Z)%type (only parsing).

Definition u8 : Z := 8.
Definition u16 : Z := 16.
Definition u32 : Z := 32.
Definition u64 : Z := 64.
Definition bytes (n : Z) : Z := 8 * n.

Fixpoint width (L : Fields) : Z :=
  match L with [] => 0 | (_, w) :: L => w + width L end.

Definition size_of (L : Fields) : Z := width L / 8.

Fixpoint field (L : Fields) (name : string) : option place :=
  match L with
  | [] => None
  | (n, w) :: L =>
      if decide (n = name) then Some (0, w)
      else (fun p : place => (w + p.1, p.2)) <$> field L name
  end.

(** [offset_of!], in bytes. *)
Definition offset_of (L : Fields) (name : string) : option Z := (fun p : place => p.1 / 8) <$> field L name.

(** The place of a field that is known to be one. *)
Definition at_ (L : Fields) (name : string) : place := default (0, 0) (field L name).

(** The place [q] of a structure that lies at [p]. *)
Definition inside (p q : place) : place := (p.1 + q.1, q.2).

Definition load (p : place) (x : Z) : Z := bits_at p.1 p.2 x.
Definition store (p : place) (v x : Z) : Z :=
  Z.lor (Z.ldiff x (Z.shiftl (Z.ones p.2) p.1)) (Z.shiftl v p.1).

Definition place_ok (p : place) : Prop := 0 <= p.1 /\ 0 < p.2.
Definition fits (p : place) (v : Z) : Prop := 0 <= v < 2 ^ p.2.
Definition disjoint_ (p q : place) : Prop := p.1 + p.2 <= q.1 \/ q.1 + q.2 <= p.1.

#[export] Instance place_ok_dec p : Decision (place_ok p).
Proof. unfold place_ok. apply _. Defined.
#[export] Instance disjoint_dec p q : Decision (disjoint_ p q).
Proof. unfold disjoint_. apply _. Defined.

(** A declaration whose names differ and whose fields are not empty. *)
Definition fields_ok (L : Fields) : Prop := NoDup L.*1 /\ Forall (fun f : string * Z => 0 < f.2) L.

#[export] Instance fields_ok_dec L : Decision (fields_ok L).
Proof. unfold fields_ok. apply _. Defined.

(** ** Where fields lie *)
Section fields.
Implicit Types (L : Fields).

Lemma at_field L n p : field L n = Some p -> at_ L n = p.
Proof. intros E. unfold at_. by rewrite E. Qed.

Lemma width_nonneg L : Forall (fun f : string * Z => 0 < f.2) L -> 0 <= width L.
Proof. induction 1 as [| [n w] L Hw _ IH]; cbn [width]; cbn in *; lia. Qed.

Lemma field_bound L n p : Forall (fun f : string * Z => 0 < f.2) L -> field L n = Some p ->
  place_ok p /\ p.1 + p.2 <= width L.
Proof.
  intros HL. revert p. induction HL as [| [m w] L Hw HL IH]; intros p; cbn [field width]; [done |].
  pose proof (width_nonneg L HL). cbn in Hw. destruct (decide (m = n)) as [-> | Hne].
  - intros [= <-]. unfold place_ok. cbn. lia.
  - intros ((o, w') & E & ->)%fmap_Some. destruct (IH _ E) as [[? ?] ?]. unfold place_ok in *. cbn in *. lia.
Qed.

(** Different names are different ranges of bits. *)
Lemma field_disjoint L n m p q : Forall (fun f : string * Z => 0 < f.2) L -> n <> m ->
  field L n = Some p -> field L m = Some q -> disjoint_ p q.
Proof.
  intros HL Hne. revert p q. induction HL as [| [k w] L Hw HL IH]; intros p q; cbn [field]; [done |].
  cbn in Hw. destruct (decide (k = n)) as [-> | H1], (decide (n = m)) as [-> | _]; try done.
  - intros [= <-]. destruct (decide (n = m)); [done |].
    intros ((o, w') & E & ->)%fmap_Some. destruct (field_bound _ _ _ HL E) as [[? ?] _]. left. cbn in *. lia.
  - intros ((o, w') & E & ->)%fmap_Some. destruct (field_bound _ _ _ HL E) as [[? ?] _].
    destruct (decide (k = m)); [intros [= <-]; right; cbn in *; lia |].
    intros ((o2, w2) & E2 & ->)%fmap_Some. destruct (IH _ _ E E2); [left | right]; cbn in *; lia.
Qed.
End fields.

(** ** Loads and stores *)
Section access.
Implicit Types (p q : place).

Lemma store_bits p v x i : place_ok p -> fits p v -> 0 <= i ->
  Z.testbit (store p v x) i = if in_field p.1 p.2 i then Z.testbit v (i - p.1) else Z.testbit x i.
Proof.
  intros [Ho Hw] Hv Hi. unfold store, in_field. rewrite Z.lor_spec, Z.ldiff_spec, !Z.shiftl_spec by lia.
  destruct (Z.leb_spec p.1 i); cbn [andb].
  - destruct (Z.ltb_spec i (p.1 + p.2)).
    + rewrite Z.ones_spec_low by lia. cbn [negb]. by rewrite andb_false_r.
    + rewrite Z.ones_spec_high, (testbit_small v p.2) by (unfold fits in Hv; lia). cbn [negb]. by rewrite andb_true_r, orb_false_r.
  - rewrite !(Z.testbit_neg_r _ (i - p.1)) by lia. cbn [negb]. by rewrite andb_true_r, orb_false_r.
Qed.

Lemma store_nonneg p v x : 0 <= v -> 0 <= x -> 0 <= store p v x.
Proof.
  intros Hv Hx. apply Z.lor_nonneg. split; [apply Z.ldiff_nonneg; by left | by apply Z.shiftl_nonneg].
Qed.

Lemma load_fits p x : place_ok p -> fits p (load p x).
Proof. intros [Ho Hw]. apply bits_at_bound. lia. Qed.

Lemma load_store p v x : place_ok p -> fits p v -> load p (store p v x) = v.
Proof.
  intros Hp Hv. destruct (Hp) as [Ho Hw]. apply bits_at_eq; [lia | lia | done |]. intros i Hi.
  rewrite store_bits by (done || lia). unfold in_field.
  rewrite (proj2 (Z.leb_le _ _)), (proj2 (Z.ltb_lt _ _)) by lia. cbn [andb]. f_equal. lia.
Qed.

Lemma load_store_ne p q v x : place_ok p -> place_ok q -> fits p v -> disjoint_ p q ->
  load q (store p v x) = load q x.
Proof.
  intros Hp Hq Hv Hd. destruct (Hp) as [Hpo Hpw], (Hq) as [Hqo Hqw]. apply Z.bits_inj'. intros i Hi.
  unfold load. rewrite !bits_at_testbit by lia. destruct (Z.ltb_spec i q.2); [| done]. cbn [andb].
  rewrite store_bits by (done || lia). unfold in_field. destruct Hd.
  - rewrite (proj2 (Z.ltb_ge _ (p.1 + p.2))) by lia. by rewrite andb_false_r.
  - rewrite (proj2 (Z.leb_gt p.1 _)) by lia. done.
Qed.

Lemma load_zero p : place_ok p -> load p 0 = 0.
Proof. intros [Ho Hw]. unfold load, bits_at. rewrite Z.shiftr_0_l. apply Z.mod_0_l, Z.pow_nonzero; lia. Qed.

(** A field of a structure inside another one. *)
Lemma load_inside p q x : place_ok p -> place_ok q -> q.1 + q.2 <= p.2 -> load q (load p x) = load (inside p q) x.
Proof.
  intros Hp Hq Hin. destruct (Hp) as [Hpo Hpw], (Hq) as [Hqo Hqw]. apply Z.bits_inj'. intros i Hi.
  unfold load, inside. cbn [fst snd]. rewrite !bits_at_testbit by lia. destruct (Z.ltb_spec i q.2); [| done].
  rewrite (proj2 (Z.ltb_lt (q.1 + i) p.2)) by lia. cbn [andb]. f_equal. lia.
Qed.

Lemma store_inside p q v x : place_ok p -> place_ok q -> q.1 + q.2 <= p.2 -> fits q v -> 0 <= x ->
  store p (store q v (load p x)) x = store (inside p q) v x.
Proof.
  intros Hp Hq Hin Hv Hx. destruct (Hp) as [Hpo Hpw], (Hq) as [Hqo Hqw].
  pose proof (load_fits p x Hp) as [Hl _]. destruct (Hv) as [Hv0 _].
  pose proof (store_nonneg q v (load p x) Hv0 Hl) as Hs.
  assert (place_ok (inside p q)) as Hpq by (unfold place_ok, inside; cbn; lia).
  assert (fits (inside p q) v) as Hvi by done.
  assert (fits p (store q v (load p x))) as Hf.
  { split; [done |]. apply testbit_bound; [done | lia |]. intros i Hi. rewrite store_bits by (done || lia).
    unfold in_field. rewrite (proj2 (Z.ltb_ge i (q.1 + q.2))) by lia. rewrite andb_false_r. unfold load.
    rewrite bits_at_testbit by lia. by rewrite (proj2 (Z.ltb_ge _ _)) by lia. }
  apply Z.bits_inj'. intros i Hi. rewrite (store_bits p), (store_bits (inside p q)) by done.
  unfold in_field, inside. cbn [fst snd].
  destruct (Z.leb_spec p.1 i) as [H1 | H1]; cbn [andb].
  2: { rewrite (proj2 (Z.leb_gt (p.1 + q.1) i)) by lia. done. }
  destruct (Z.ltb_spec i (p.1 + p.2)) as [H2 | H2].
  2: { rewrite (proj2 (Z.ltb_ge i (p.1 + q.1 + q.2))) by lia. by rewrite andb_false_r. }
  rewrite store_bits by (done || lia). unfold in_field, load. rewrite bits_at_testbit by lia.
  rewrite (proj2 (Z.ltb_lt (i - p.1) p.2)) by lia. cbn [andb].
  replace (p.1 + (i - p.1)) with i by lia. replace (i - (p.1 + q.1)) with (i - p.1 - q.1) by lia.
  replace (p.1 + q.1 <=? i) with (q.1 <=? i - p.1) by lia.
  by replace (i <? p.1 + q.1 + q.2) with (i - p.1 <? q.1 + q.2) by lia.
Qed.

(** ** Several stores *)
Fixpoint stores (l : list (place * Z)) (x : Z) : Z :=
  match l with [] => x | f :: l => stores l (store f.1 f.2 x) end.

Definition covered (l : list (place * Z)) (i : Z) : bool := existsb (fun f : place * Z => in_field f.1.1 f.1.2 i) l.

(** Well formed stores to ranges of bits that do not overlap. *)
Fixpoint stores_ok (l : list (place * Z)) : Prop :=
  match l with
  | [] => True
  | f :: l => place_ok f.1 /\ fits f.1 f.2 /\ Forall (fun g : place * Z => disjoint_ f.1 g.1) l /\ stores_ok l
  end.

(** The same of the places alone, which closed declarations decide. *)
Fixpoint places_ok (l : list place) : Prop :=
  match l with [] => True | p :: l => place_ok p /\ Forall (fun q => disjoint_ p q) l /\ places_ok l end.

#[export] Instance places_ok_dec l : Decision (places_ok l).
Proof. induction l; cbn [places_ok]; apply _. Defined.

Lemma stores_ok_places l : places_ok l.*1 -> Forall (fun f : place * Z => fits f.1 f.2) l -> stores_ok l.
Proof.
  induction l as [| f l IH]; [done |]. rewrite fmap_cons. cbn [places_ok stores_ok].
  intros (Hp & Hd & Hl) [Hf Hfs]%Forall_cons. split_and!; [done | done | exact (proj1 (Forall_fmap _ _ _) Hd) | by apply IH].
Qed.

Lemma fits_width p w v : p.2 = w -> 0 <= v < 2 ^ w -> fits p v.
Proof. by intros <-. Qed.

Lemma stores_app l1 l2 x : stores (l1 ++ l2) x = stores l2 (stores l1 x).
Proof. revert x. induction l1 as [| f l1 IH]; intros x; [done | apply IH]. Qed.

Lemma stores_cons f l x : stores (f :: l) x = stores l (store f.1 f.2 x).
Proof. reflexivity. Qed.

Lemma stores_nil x : stores [] x = x.
Proof. reflexivity. Qed.

Lemma stores_ok_take n l : stores_ok l -> stores_ok (take n l).
Proof.
  revert n. induction l as [| f l IH]; intros [| n]; cbn; try done. intros (Hp & Hf & Hd & Hl).
  split_and!; [done | done | by apply Forall_take | by apply IH].
Qed.

Lemma stores_nonneg l x : stores_ok l -> 0 <= x -> 0 <= stores l x.
Proof.
  revert x. induction l as [| [p v] l IH]; cbn; [done |]. intros x (_ & [Hv _] & _ & Hl) Hx.
  by apply IH, store_nonneg.
Qed.

Lemma load_stores_ne l x q : stores_ok l -> place_ok q -> Forall (fun g : place * Z => disjoint_ q g.1) l ->
  load q (stores l x) = load q x.
Proof.
  revert x. induction l as [| [p v] l IH]; cbn; [done |]. intros x (Hp & Hv & _ & Hl) Hq [Hd Hds]%Forall_cons.
  cbn in *. rewrite IH by done. apply load_store_ne; [done | done | done |]. unfold disjoint_ in *. cbn in *. lia.
Qed.

(** Every field stored reads back as its value. *)
Lemma load_stores l x p v : stores_ok l -> (p, v) ∈ l -> load p (stores l x) = v.
Proof.
  revert x. induction l as [| [q u] l IH]; cbn; intros x Hok Hin; [by apply not_elem_of_nil in Hin |].
  destruct Hok as (Hq & Hu & Hd & Hl). apply elem_of_cons in Hin as [[= -> ->] | Hin]; [| by apply IH].
  rewrite load_stores_ne by done. by apply load_store.
Qed.

(** All other bits are as they were. *)
Lemma stores_frame l x i : stores_ok l -> 0 <= i -> covered l i = false ->
  Z.testbit (stores l x) i = Z.testbit x i.
Proof.
  revert x. induction l as [| [q u] l IH]; cbn; [done |]. intros x (Hq & Hu & _ & Hl) Hi [Hc1 Hc]%orb_false_iff.
  rewrite IH by done. cbn in Hc1. rewrite store_bits by done. by rewrite Hc1.
Qed.
End access.

Lemma lor_parts a b n : 0 <= n -> 0 <= b < 2 ^ n -> 0 <= a -> Z.lor (Z.shiftl a n) b = b + 2 ^ n * a.
Proof.
  intros Hn Hb Ha. rewrite <- Z.add_nocarry_lor; [rewrite Z.shiftl_mul_pow2 by done; lia |].
  apply Z.bits_inj'. intros i Hi. rewrite Z.land_spec, Z.bits_0, Z.shiftl_spec by done.
  destruct (Z_lt_le_dec i n); [by rewrite Z.testbit_neg_r by lia | by rewrite (testbit_small b n), andb_false_r].
Qed.

(** ** The accessors of bit fields *)
Section bitfields.
Context `{BitfieldLaws}.

Definition get (L : Fields) (name : string) (x : Z) : Z := bf_get (at_ L name).1 (at_ L name).2 x.
Definition set_ (L : Fields) (name : string) (v x : Z) : res Z := bf_set (at_ L name).1 (at_ L name).2 x v.

Lemma bf_get_load L n x : place_ok (at_ L n) -> 0 <= x -> get L n x = load (at_ L n) x.
Proof. intros [Ho Hw] Hx. by apply bf_get_law. Qed.

Lemma bf_set_store L n v x : place_ok (at_ L n) -> 0 <= x -> fits (at_ L n) v ->
  set_ L n v x = Done (store (at_ L n) v x).
Proof.
  intros Hp Hx Hv. destruct (Hp) as [Ho Hw]. destruct (bf_set_law (at_ L n).1 (at_ L n).2 x v Ho Hw Hx Hv) as (y & E & Hy & Hb).
  unfold set_. rewrite E. f_equal. apply Z.bits_inj'. intros i Hi. by rewrite Hb, store_bits.
Qed.
End bitfields.

(** [place_ok] and the like of closed places, by evaluation. *)
Ltac place_solve := solve [apply (bool_decide_unpack _); by vm_compute].
