(* ===== verification/Registers.v ===== *)
(** * Processor registers, model specific registers and segments

    Models kernel/src/arch/x86_64/cpu/mod.rs, cpu/msr.rs and gdt.rs: the
    layouts of RFLAGS, of the control and debug registers and of the segment
    structures; the [Register] trait with its implementations; the model
    specific registers; and the lookup of a segment selector in the GDT.

    The processor's registers are [Processor]: the instructions that the
    [read] and [write] of a register wrap move a value out of it or into it.
    An instruction that faults ends in the exception handlers of event.rs,
    which panic. *)

From stdpp Require Import functions.
From S2P Require Import Prelude Bitfield Layouts Paging.

(** ** The layouts of cpu/mod.rs *)
Definition Rflags : Fields := [
  ("cf", 1); ("reserved_mbo", 1); ("pf", 1); ("reserved_mbz_0", 1); ("af", 1); ("reserved_mbz_1", 1); ("zf", 1);
  ("sf", 1); ("tf", 1); ("if_enable", 1); ("df", 1); ("of", 1); ("iopl", 2); ("nt", 1); ("reserved_mbz_2", 1);
  ("rf", 1); ("vm", 1); ("ac", 1); ("vif", 1); ("vip", 1); ("id", 1); ("reserved_mbz_3", 42)].

Definition Cr0 : Fields := [
  ("pe", 1); ("mp", 1); ("em", 1); ("ts", 1); ("et", 1); ("ne", 1); ("reserved_mbz_0", 10); ("wp", 1);
  ("reserved_mbz_1", 1); ("am", 1); ("reserved_mbz_2", 10); ("nw", 1); ("cd", 1); ("pg", 1); ("reserved_mbz_3", 32)].

Definition Cr3 : Fields := [("reserved_mbz_0", 3); ("pwt", 1); ("pcd", 1); ("reserved_mbz_1", 7); ("top_pml", 52)].

Definition Cr4 : Fields := [
  ("vme", 1); ("pvi", 1); ("tsd", 1); ("de", 1); ("pse", 1); ("pae", 1); ("mce", 1); ("pge", 1); ("pce", 1);
  ("osfxsr", 1); ("osxmmexcpt", 1); ("umip", 1); ("la57", 1); ("vmxe", 1); ("smxe", 1); ("reserved_mbz_0", 1);
  ("fsgsbase", 1); ("pcide", 1); ("osxsave", 1); ("reserved_mbz_1", 1); ("smep", 1); ("smap", 1); ("pke", 1);
  ("cet", 1); ("pks", 1); ("reserved_mbz_2", 39)].

Definition AmdDr6 : Fields := [
  ("bd0", 1); ("bd1", 1); ("bd2", 1); ("bd3", 1); ("reserved_mbo_0", 7); ("bld", 1); ("reserved_mbz_0", 1);
  ("bd", 1); ("bs", 1); ("bt", 1); ("reserved_mbo_1", 16); ("reserved_mbz_1", 32)].

Definition AmdDr7 : Fields := [
  ("l0", 1); ("g0", 1); ("l1", 1); ("g1", 1); ("l2", 1); ("g2", 1); ("l3", 1); ("g3", 1); ("le", 1); ("ge", 1);
  ("reserved_mbo", 1); ("reserved_mbz_0", 2); ("gd", 1); ("reserved_mbz_1", 2); ("ttt_0", 2); ("lb_0", 2);
  ("ttt_1", 2); ("lb_1", 2); ("ttt_2", 2); ("lb_2", 2); ("ttt_3", 2); ("lb_3", 2); ("reserved_mbz_2", 32)].

(** ** The layouts of gdt.rs *)
Definition SegmentSelector : Fields := [("rpl", 2); ("gdt", 1); ("index", 13)].

Definition SegmentDescriptor : Fields := [
  ("limit_0", 16); ("base_0", 24); ("access", 8); ("limit_1", 4); ("flags", 4); ("base_1", 8)].

Definition FullSegmentSelector : Fields := [
  ("selector", width SegmentSelector); ("attributes", u16); ("limit", u32); ("base", u64)].

(** A pointer to a descriptor table, as [sgdt] and [sidt] store it. *)
Record DescriptorTablePtr := mkTablePtr { table_limit : Z; table_base : Z }.

(** ** The registers *)
Inductive reg :=
  | CS | DS | SS | ES | FS | GS
  | DR0 | DR1 | DR2 | DR3 | DR6 | DR7 | RFLAGS | CR0 | CR2 | CR3 | CR4 | RSP.

#[export] Instance reg_eq_dec : EqDecision reg.
Proof. solve_decision. Defined.

Record Processor := mkProcessor {
  regs : reg -> Z;
  gdtr : DescriptorTablePtr;
  idtr : DescriptorTablePtr;
}.

Definition set_reg (r : reg) (v : Z) (c : Processor) : Processor := mkProcessor (<[r := v]> (regs c)) (gdtr c) (idtr c).

(** The [Register] trait: one type per register, a wrapper of its bits. *)
Class Register (R : Type) := {
  read : Processor -> R;
  write : R -> Processor -> res Processor;
}.

Record Cs := mkCs { cs_sel : Z }.
Record Ds := mkDs { ds_sel : Z }.
Record Ss := mkSs { ss_sel : Z }.
Record Es := mkEs { es_sel : Z }.
Record Fs := mkFs { fs_sel : Z }.
Record Gs := mkGs { gs_sel : Z }.
Record Dr0 := mkDr0 { dr0_addr : Z }.
Record Dr1 := mkDr1 { dr1_addr : Z }.
Record Dr2 := mkDr2 { dr2_addr : Z }.
Record Dr3 := mkDr3 { dr3_addr : Z }.
Record Dr6Reg := mkDr6 { dr6_bits : Z }.
Record Dr7Reg := mkDr7 { dr7_bits : Z }.
Record RflagsReg := mkRflags { rflags_bits : Z }.
Record Cr0Reg := mkCr0 { cr0_bits : Z }.
Record Cr2 := mkCr2 { cr2_addr : Z }.
Record Cr3Reg := mkCr3 { cr3_bits : Z }.
Record Cr4Reg := mkCr4 { cr4_bits : Z }.

(** [mov cs, r16] is no instruction: it raises the invalid opcode exception. *)
#[export] Instance Cs_Register : Register Cs := {|
  read c := mkCs (regs c CS); write _ _ := Panic Asserted |}.
#[export] Instance Ds_Register : Register Ds := {|
  read c := mkDs (regs c DS); write v c := Done (set_reg DS (ds_sel v) c) |}.
#[export] Instance Gs_Register : Register Gs := {|
  read c := mkGs (regs c GS); write v c := Done (set_reg GS (gs_sel v) c) |}.
#[export] Instance Fs_Register : Register Fs := {|
  read c := mkFs (regs c FS); write v c := Done (set_reg FS (fs_sel v) c) |}.
#[export] Instance Es_Register : Register Es := {|
  read c := mkEs (regs c ES); write v c := Done (set_reg ES (es_sel v) c) |}.
#[export] Instance Ss_Register : Register Ss := {|
  read c := mkSs (regs c SS); write v c := Done (set_reg SS (ss_sel v) c) |}.
#[export] Instance Dr0_Register : Register Dr0 := {|
  read c := mkDr0 (regs c DR0); write v c := Done (set_reg DR0 (dr0_addr v) c) |}.
#[export] Instance Dr1_Register : Register Dr1 := {|
  read c := mkDr1 (regs c DR1); write v c := Done (set_reg DR1 (dr1_addr v) c) |}.
#[export] Instance Dr2_Register : Register Dr2 := {|
  read c := mkDr2 (regs c DR2); write v c := Done (set_reg DR2 (dr2_addr v) c) |}.
#[export] Instance Dr3_Register : Register Dr3 := {|
  read c := mkDr3 (regs c DR3); write v c := Done (set_reg DR3 (dr3_addr v) c) |}.
(** "AMD DR6 is read-only", "CR2 is read-only": their [write] panics. *)
#[export] Instance Dr6_Register : Register Dr6Reg := {|
  read c := mkDr6 (regs c DR6); write _ _ := Panic Asserted |}.
#[export] Instance Dr7_Register : Register Dr7Reg := {|
  read c := mkDr7 (regs c DR7); write v c := Done (set_reg DR7 (dr7_bits v) c) |}.
#[export] Instance Rflags_Register : Register RflagsReg := {|
  read c := mkRflags (regs c RFLAGS); write v c := Done (set_reg RFLAGS (rflags_bits v) c) |}.
#[export] Instance Cr0_Register : Register Cr0Reg := {|
  read c := mkCr0 (regs c CR0); write v c := Done (set_reg CR0 (cr0_bits v) c) |}.
#[export] Instance Cr2_Register : Register Cr2 := {|
  read c := mkCr2 (regs c CR2); write _ _ := Panic Asserted |}.
#[export] Instance Cr3_Register : Register Cr3Reg := {|
  read c := mkCr3 (regs c CR3); write v c := Done (set_reg CR3 (cr3_bits v) c) |}.
#[export] Instance Cr4_Register : Register Cr4Reg := {|
  read c := mkCr4 (regs c CR4); write v c := Done (set_reg CR4 (cr4_bits v) c) |}.

Definition read_rsp (c : Processor) : Z := regs c RSP.
Definition write_rsp (addr : Z) (c : Processor) : Processor := set_reg RSP addr c.

(** [cli] and [sti] clear and set the interrupt flag. *)
Definition cli (c : Processor) : Processor := set_reg RFLAGS (store (at_ Rflags "if_enable") 0 (regs c RFLAGS)) c.
Definition sti (c : Processor) : Processor := set_reg RFLAGS (store (at_ Rflags "if_enable") 1 (regs c RFLAGS)) c.

(** The registers that CPUID answers in. *)
Record CpuidResult := mkCpuid { cpuid_eax : Z; cpuid_ebx : Z; cpuid_ecx : Z; cpuid_edx : Z }.

(** ** Model specific registers *)
Inductive IntelMsr := Ia32ApicBase | Ia32FeatureControl | Ia32VmxBasic | Ia32Pat.
Definition IntelMsr_address (m : IntelMsr) : Z :=
  match m with Ia32ApicBase => 0x1B | Ia32FeatureControl => 0x3A | Ia32VmxBasic => 0x480 | Ia32Pat => 0x277 end.

Inductive AmdMsr := Efer | VmCr | VmHsavePa.
Definition AmdMsr_address (m : AmdMsr) : Z :=
  match m with Efer => 0xC0000080 | VmCr => 0xC0010114 | VmHsavePa => 0xC0010117 end.

(** The [Msr] trait. *)
Class Msr (M : Type) := { address : M -> Z }.
#[export] Instance IntelMsr_Msr : Msr IntelMsr := {| address := IntelMsr_address |}.
#[export] Instance AmdMsr_Msr : Msr AmdMsr := {| address := AmdMsr_address |}.

(** The registers by their address. *)
Abbreviation Msrs := (Z -> MsrData) (only parsing).

Definition rdmsr `{Msr M} (msr : M) (m : Msrs) : MsrData := m (address msr).
Definition wrmsr `{Msr M} (msr : M) (data : MsrData) (m : Msrs) : Msrs := <[address msr := data]> m.

Definition Efer_SCE : Z := Z.shiftl 1 0.
Definition Efer_LME : Z := Z.shiftl 1 8.
Definition Efer_LMA : Z := Z.shiftl 1 10.
Definition Efer_SVM : Z := Z.shiftl 1 12.
Definition Efer_LMSLE : Z := Z.shiftl 1 13.
Definition Efer_FFXSR : Z := Z.shiftl 1 14.
Definition Efer_TCE : Z := Z.shiftl 1 15.
Definition Efer_MCOMMIT : Z := Z.shiftl 1 16.
Definition Efer_INTWB : Z := Z.shiftl 1 17.
Definition Efer_UAIE : Z := Z.shiftl 1 18.
Definition Efer_AIBRSE : Z := Z.shiftl 1 19.
Definition Efer_ALL : Z :=
  foldr Z.lor 0 [Efer_SCE; Efer_LME; Efer_LMA; Efer_NX; Efer_SVM; Efer_LMSLE; Efer_FFXSR; Efer_TCE; Efer_MCOMMIT;
    Efer_INTWB; Efer_UAIE; Efer_AIBRSE].

(** ** The GDT *)
Abbreviation Gdt := (list Z) (only parsing).
Definition GDT_SEGMENTS : nat := 6.

Definition read_gdtr (c : Processor) : DescriptorTablePtr := gdtr c.

Section segments.
Context `{Bitfields}.

Definition get_base (d : Z) : Z := Z.lor (Z.shiftl (get SegmentDescriptor "base_1" d) 24) (get SegmentDescriptor "base_0" d).
Definition get_limit (d : Z) : Z := Z.lor (Z.shiftl (get SegmentDescriptor "limit_1" d) 16) (get SegmentDescriptor "limit_0" d).

(** [Index<SegmentSelector> for Gdt] *)
Definition Gdt_index (gdt : Gdt) (selector : Z) : res Z :=
  let i := Z.shiftr (get SegmentSelector "index" selector) 3 in
  _ ← assert_ (i <=? 5);
  index gdt (Z.to_nat i).

Definition mkFullSelector (selector attributes limit base : Z) : Z :=
  stores [(at_ FullSegmentSelector "selector", selector); (at_ FullSegmentSelector "attributes", attributes);
    (at_ FullSegmentSelector "limit", limit); (at_ FullSegmentSelector "base", base)] 0.

Definition read_full_selector (gdt : Gdt) (selector : Z) : res Z :=
  descriptor ← Gdt_index gdt selector;
  Done (mkFullSelector selector (get SegmentDescriptor "access" descriptor) (get_limit descriptor) (get_base descriptor)).
End segments.

Definition FullSegmentSelector_from (value : DescriptorTablePtr) : Z :=
  mkFullSelector 0 0 (table_limit value) (table_base value).

(** ** The declarations

    Every bit field declaration fills the word it is declared for, as the
    attribute [bits = n] demands, with fields of different names. *)
Lemma register_layouts_ok : Forall (fun L => fields_ok L /\ width L = 64) [Rflags; Cr0; Cr3; Cr4; AmdDr6; AmdDr7; SegmentDescriptor].
Proof. apply (bool_decide_unpack _); by vm_compute. Qed.

Lemma selector_layouts_ok : fields_ok SegmentSelector /\ width SegmentSelector = 16 /\
  fields_ok FullSegmentSelector /\ size_of FullSegmentSelector = 16 /\
  map (offset_of FullSegmentSelector) ["selector"; "attributes"; "limit"; "base"] = [Some 0; Some 2; Some 4; Some 8].
Proof. apply (bool_decide_unpack _); by vm_compute. Qed.

(** ** Registers keep what is written *)

(** [R] is the register [r]: a write that returns is what the next read
    returns, and no other register changes. *)
Class RegisterLaws (R : Type) `{Register R} (r : reg) : Prop := {
  read_write v c c' : write v c = Done c' -> read c' = v;
  write_frame v c c' : write v c = Done c' ->
    (forall r', r' <> r -> regs c' r' = regs c r') /\ gdtr c' = gdtr c /\ idtr c' = idtr c;
  read_only c c' : regs c r = regs c' r -> read c = read c';
}.

Ltac solve_register_laws :=
  split; [intros [v] c c' [= <-]; cbn; by rewrite fn_lookup_insert
         | intros [v] c c' [= <-]; cbn; (split_and!; [intros r' Hr; by rewrite fn_lookup_insert_ne | done | done])
         | intros c c' E; cbn; by rewrite E].

#[export] Instance Cs_laws : RegisterLaws Cs CS. Proof. solve_register_laws. Qed.
#[export] Instance Ds_laws : RegisterLaws Ds DS. Proof. solve_register_laws. Qed.
#[export] Instance Ss_laws : RegisterLaws Ss SS. Proof. solve_register_laws. Qed.
#[export] Instance Es_laws : RegisterLaws Es ES. Proof. solve_register_laws. Qed.
#[export] Instance Fs_laws : RegisterLaws Fs FS. Proof. solve_register_laws. Qed.
#[export] Instance Gs_laws : RegisterLaws Gs GS. Proof. solve_register_laws. Qed.
#[export] Instance Dr0_laws : RegisterLaws Dr0 DR0. Proof. solve_register_laws. Qed.
#[export] Instance Dr1_laws : RegisterLaws Dr1 DR1. Proof. solve_register_laws. Qed.
#[export] Instance Dr2_laws : RegisterLaws Dr2 DR2. Proof. solve_register_laws. Qed.
#[export] Instance Dr3_laws : RegisterLaws Dr3 DR3. Proof. solve_register_laws. Qed.
#[export] Instance Dr6_laws : RegisterLaws Dr6Reg DR6. Proof. solve_register_laws. Qed.
#[export] Instance Dr7_laws : RegisterLaws Dr7Reg DR7. Proof. solve_register_laws. Qed.
#[export] Instance Rflags_laws : RegisterLaws RflagsReg RFLAGS. Proof. solve_register_laws. Qed.
#[export] Instance Cr0_laws : RegisterLaws Cr0Reg CR0. Proof. solve_register_laws. Qed.
#[export] Instance Cr2_laws : RegisterLaws Cr2 CR2. Proof. solve_register_laws. Qed.
#[export] Instance Cr3_laws : RegisterLaws Cr3Reg CR3. Proof. solve_register_laws. Qed.
#[export] Instance Cr4_laws : RegisterLaws Cr4Reg CR4. Proof. solve_register_laws. Qed.

(** ** Segment lookups *)
Section lookup.
Context `{BitfieldLaws}.

(** The fields of a descriptor as the processor reads them: the limit in two
    parts, the base in two parts. *)
Definition descriptor_limit (d : Z) : Z := bits_at 0 16 d + 2 ^ 16 * bits_at 48 4 d.
Definition descriptor_base (d : Z) : Z := bits_at 16 24 d + 2 ^ 24 * bits_at 56 8 d.
Definition descriptor_access (d : Z) : Z := bits_at 40 8 d.

Lemma get_limit_spec d : 0 <= d -> get_limit d = descriptor_limit d.
Proof.
  intros Hd. unfold get_limit. rewrite !bf_get_load by (place_solve || done). unfold load.
  apply lor_parts; [lia | apply bits_at_bound | apply bits_at_bound]; by vm_compute.
Qed.

Lemma get_base_spec d : 0 <= d -> get_base d = descriptor_base d.
Proof.
  intros Hd. unfold get_base. rewrite !bf_get_load by (place_solve || done). unfold load.
  apply lor_parts; [lia | apply bits_at_bound | apply bits_at_bound]; by vm_compute.
Qed.

Lemma full_selector_fields selector attributes limit base :
  0 <= selector < 2 ^ 16 -> 0 <= attributes < 2 ^ 16 -> 0 <= limit < 2 ^ 32 -> 0 <= base < 2 ^ 64 ->
  let f := mkFullSelector selector attributes limit base in
  0 <= f < 2 ^ 128 /\ bits_at 0 16 f = selector /\ bits_at 16 16 f = attributes /\ bits_at 32 32 f = limit /\ bits_at 64 64 f = base.
Proof.
  intros H1 H2 H3 H4. unfold mkFullSelector. set (l := [_; _; _; _]).
  assert (stores_ok l) as Hok.
  { cbn [stores_ok l]. split_and!; try done; (place_solve || (repeat constructor; place_solve)). }
  pose proof (load_stores l 0) as Hl. cbn zeta. split; [split |].
  - by apply stores_nonneg.
  - apply testbit_bound; [by apply stores_nonneg | lia |]. intros i Hi. rewrite stores_frame; [by rewrite Z.bits_0 | done | lia |].
    unfold covered, in_field. cbn [existsb l]. vm_compute (at_ _ _). cbn [fst snd].
    rewrite !(proj2 (Z.ltb_ge i _)) by lia. by rewrite !andb_false_r.
  - assert (forall i f, l !! i = Some f -> load f.1 (stores l 0) = f.2) as Hf.
    { intros i [p v] E. apply load_stores; [done | by eapply list_elem_of_lookup_2]. }
    exact (conj (Hf 0%nat _ eq_refl) (conj (Hf 1%nat _ eq_refl) (conj (Hf 2%nat _ eq_refl) (Hf 3%nat _ eq_refl)))).
Qed.

(** The lookup takes the descriptor numbered by the selector divided by 64
    and spreads its access byte, limit and base into the full selector;
    selectors from 384 on are refused. *)
Lemma read_full_selector_ok gdt selector : length gdt = GDT_SEGMENTS -> Forall (fun d => 0 <= d) gdt ->
  0 <= selector < 2 ^ 16 ->
  (selector < 384 -> exists d, gdt !! Z.to_nat (selector / 64) = Some d /\
     read_full_selector gdt selector =
       Done (mkFullSelector selector (descriptor_access d) (descriptor_limit d) (descriptor_base d))) /\
  (384 <= selector -> read_full_selector gdt selector = Panic Asserted).
Proof.
  intros Hlen Hd Hs. unfold read_full_selector, Gdt_index. rewrite bf_get_load by (place_solve || lia).
  assert (Z.shiftr (load (at_ SegmentSelector "index") selector) 3 = selector / 64) as ->.
  { unfold load. vm_compute (at_ _ _). unfold bits_at. cbn [fst snd]. rewrite !Z.shiftr_div_pow2 by lia.
    rewrite Z.mod_small by (change (2 ^ 3) with 8; change (2 ^ 13) with 8192; change (2 ^ 16) with 65536 in Hs; split; [apply Z.div_pos; lia | apply Z.div_lt_upper_bound; lia]).
    rewrite Z.div_div by lia. done. }
  change (2 ^ 16) with 65536 in Hs. split.
  - intros Hlt. assert (0 <= selector / 64 <= 5) as Hi. { split; [apply Z.div_pos; lia | apply Z.lt_succ_r, Z.div_lt_upper_bound; lia]. }
    rewrite (proj2 (Z.leb_le _ _)) by lia. cbn [assert_]. rewrite bind_Done. unfold index.
    destruct (lookup_lt_is_Some_2 gdt (Z.to_nat (selector / 64))) as [d E]; [rewrite Hlen; unfold GDT_SEGMENTS; lia |].
    exists d. split; [done |]. rewrite E, bind_Done. pose proof (Forall_lookup_1 _ _ _ _ Hd E) as H0'. cbn in H0'.
    rewrite get_limit_spec, get_base_spec, bf_get_load by (place_solve || done). done.
  - intros Hge. rewrite (proj2 (Z.leb_gt _ _)); [done |]. apply Z.lt_le_trans with 6; [lia | apply Z.div_le_lower_bound; lia].
Qed.
End lookup.
