(* ===== verification/Vmcb.v ===== *)
(** * The virtual machine control block

    Models the structures of hypervisor/src/svm/mod.rs: the intercepts, the
    control and the state save area of a VMCB, and the exit codes.  A VMCB is
    the number its bytes spell ([Layouts]); the processor reads and writes it
    at the offsets of the architecture, so what is proved of a field is proved
    of the bits at its offset. *)

From S2P Require Import Prelude Bitfield Layouts Registers.

Definition Intercepts : Fields := [
  ("cr_reads", 16); ("cr_writes", 16); ("dr_reads", 16); ("dr_writes", 16); ("exceptions", 32); ("intr", 1);
  ("nmi", 1); ("smi", 1); ("init", 1); ("virtual_intr", 1); ("cr0_sel_write", 1); ("idtr_read", 1);
  ("gdtr_read", 1); ("ldtr_read", 1); ("tr_read", 1); ("idtr_write", 1); ("gdtr_write", 1); ("ldtr_write", 1);
  ("tr_write", 1); ("rdtsc", 1); ("rdpmc", 1); ("pushf", 1); ("popf", 1); ("cpuid", 1); ("rsm", 1); ("iret", 1);
  ("intn", 1); ("invd", 1); ("pause", 1); ("hlt", 1); ("invlpg", 1); ("invlpga", 1); ("ioio_prot", 1);
  ("msr_prot", 1); ("task_switch", 1); ("f_err_freeze", 1); ("shutdown", 1); ("vmrun", 1); ("vmmcall", 1);
  ("vmload", 1); ("vmsave", 1); ("stgi", 1); ("clgi", 1); ("skinit", 1); ("rdtscp", 1); ("icebp", 1);
  ("wbinvd", 1); ("monitor", 1); ("mwait", 1); ("mwait_conditional", 1); ("xsetbv", 1); ("rdpru", 1);
  ("efer_write", 1); ("cr_writes_foo", 16); ("invlpgb_all", 1); ("invlpgb_illegal", 1); ("invpcid", 1);
  ("mcommit", 1); ("tlbsync", 1); ("bus_lock", 1); ("idle_hlt", 1); ("reserved", 25)].

Definition ExitIntInfo : Fields := [
  ("vector", 8); ("typ", 3); ("error_code_valid", 1); ("reserved", 19); ("valid", 1); ("error_code", 32)].

Definition SvmFlags : Fields := [
  ("np_enable", 1); ("sev_enable", 1); ("essev_enable", 1); ("guest_mode_execute_trap", 1); ("sss_check_fn", 1);
  ("vte_enable", 1); ("ro_guest_page_tables_enable", 1); ("invlpgb_tlbsync_enable", 1); ("reserved_mbz_0", 56)].

(** The exit code is an [i64]. *)
Definition ControlArea : Fields := [
  ("intercepts", width Intercepts); ("reserved_1", bytes (0x3c - 0x18)); ("pause_filter_thershold", u16);
  ("pause_filter_count", u16); ("iopm_base_pa", u64); ("msrpm_base_pa", u64); ("tsc_offset", u64);
  ("guest_asid", u32); ("tlb_control", u32); ("vintr", u64); ("partially_reserved_7", u64); ("exitcode", u64);
  ("exitinfo1", u64); ("exitinfo2", u64); ("exitintinfo", width ExitIntInfo); ("flags", width SvmFlags);
  ("avic_apic_bar_reserved", u64); ("guest_phys_addr_ghcb", u64); ("event_injection", u64); ("n_cr3", u64);
  ("lbr_virtualization_enable", u64); ("vmcb_clean_bits", u32); ("reserved_11", u32); ("nrip", u64);
  ("number_of_bytes_fetched", u8); ("guest_instruction_bytes", bytes 15); ("avic_apic_backing_page_ptr", u64);
  ("reserved_13", u64); ("avic_logical_table_ptr", u64); ("avic_physical_table_ptr", u64); ("reserved_14", u64);
  ("vmcb_state_save_ptr", u64); ("reserved_26", bytes 752)].

Definition StateSaveArea : Fields := [
  ("es", width FullSegmentSelector); ("cs", width FullSegmentSelector); ("ss", width FullSegmentSelector);
  ("ds", width FullSegmentSelector); ("fs", width FullSegmentSelector); ("gs", width FullSegmentSelector);
  ("gdtr", width FullSegmentSelector); ("ldtr", width FullSegmentSelector); ("idtr", width FullSegmentSelector);
  ("tr", width FullSegmentSelector); ("reserved_1", bytes (0xcb - 0xa0)); ("cpl", u8); ("reserved_2", u32);
  ("efer", u64); ("reserved_3", bytes (0xe0 - 0xd8)); ("perf_ctl0", u64); ("perf_ctr0", u64);
  ("perf_ctl1", u64); ("perf_ctr1", u64); ("perf_ctl2", u64); ("perf_ctr2", u64); ("perf_ctl3", u64);
  ("perf_ctr3", u64); ("perf_ctl4", u64); ("perf_ctr4", u64); ("perf_ctl5", u64); ("perf_ctr5", u64);
  ("forgot_reserved", u64); ("cr4", width Cr4); ("cr3", width Cr3); ("cr0", width Cr0); ("dr7", width AmdDr7);
  ("dr6", width AmdDr6); ("rflags", width Rflags); ("rip", u64); ("reserved_4", bytes (0x1c0 - 0x180));
  ("instr_retired_ctr", u64); ("perf_ctr_global_sts", u64); ("perf_ctr_global_ctl", u64); ("rsp", u64);
  ("s_cet", u64); ("ssp", u64); ("isst_addr", u64); ("rax", u64); ("start", u64); ("lstart", u64);
  ("cstar", u64); ("sf_mask", u64); ("kernel_gs_base", u64); ("sysenter_cs", u64); ("sysenter_esp", u64);
  ("sysenter_eip", u64); ("cr2", u64); ("reserved_6", bytes (0x268 - 0x248)); ("g_pat", u64); ("dbg_ctl", u64);
  ("br_from", u64); ("br_to", u64); ("last_exception_from", u64); ("last_exception_to", u64);
  ("dbg_extn_ctl", u64); ("reserved_7", bytes 64); ("spec_ctrl", u64); ("reserved_8", bytes 904);
  ("lbr_stack", bytes 256); ("lbr_select", u64); ("ibs_fetch_ctl", u64); ("ibs_fetch_linaddr", u64);
  ("ibs_op_ctl", u64); ("ibs_op_rip", u64); ("ibs_op_data", u64); ("ibs_op_data2", u64); ("ibs_op_data3", u64);
  ("ibs_dc_linaddr", u64); ("bp_ibstgt_rip", u64); ("ic_ibs_extd_ctl", u64)].

Definition VmcbInner : Fields := [("control", width ControlArea); ("state_save", width StateSaveArea)].

(** [Vmcb] is a [VmcbInner] aligned to [0x1000], padded to a multiple of it. *)
Definition align_of_Vmcb : Z := 0x1000.
Definition size_of_Vmcb : Z := (size_of VmcbInner + align_of_Vmcb - 1) / align_of_Vmcb * align_of_Vmcb.

(** The places [self.control.f] and [self.state_save.f]. *)
Definition control (f : string) : place := inside (at_ VmcbInner "control") (at_ ControlArea f).
Definition state_save (f : string) : place := inside (at_ VmcbInner "state_save") (at_ StateSaveArea f).

(** ** Exit codes *)
Module Code.
Inductive InterceptCode :=
  | Cr0Read | Cr1Read | Cr2Read | Cr3Read | Cr4Read | Cr5Read | Cr6Read | Cr7Read | Cr8Read
  | Cr9Read | Cr10Read | Cr11Read | Cr12Read | Cr13Read | Cr14Read | Cr15Read | Cr0Write
  | Cr1Write | Cr2Write | Cr3Write | Cr4Write | Cr5Write | Cr6Write | Cr7Write | Cr8Write
  | Cr9Write | Cr10Write | Cr11Write | Cr12Write | Cr13Write | Cr14Write | Cr15Write | Dr0Read
  | Dr1Read | Dr2Read | Dr3Read | Dr4Read | Dr5Read | Dr6Read | Dr7Read | Dr8Read | Dr9Read
  | Dr10Read | Dr11Read | Dr12Read | Dr13Read | Dr14Read | Dr15Read | Dr0Write | Dr1Write
  | Dr2Write | Dr3Write | Dr4Write | Dr5Write | Dr6Write | Dr7Write | Dr8Write | Dr9Write
  | Dr10Write | Dr11Write | Dr12Write | Dr13Write | Dr14Write | Dr15Write | Exception0
  | Exception1 | Exception2 | Exception3 | Exception4 | Exception5 | Exception6 | Exception7
  | Exception8 | Exception9 | Exception10 | Exception11 | Exception12 | Exception13 | Exception14
  | Exception15 | Exception16 | Exception17 | Exception18 | Exception19 | Exception20
  | Exception21 | Exception22 | Exception23 | Exception24 | Exception25 | Exception26
  | Exception27 | Exception28 | Exception29 | Exception30 | Exception31 | Intr | Nmi | Smi
  | Init | VirtualIntr | Cr0SelWrite | IdtrRead | GdtrRead | LdtrRead | TrRead | IdtrWrite
  | GdtrWrite | LdtrWrite | TrWrite | Rdtsc | Rdpmc | Pushf | Popf | Cpuid | Rsm | Iret
  | Swint | Invd | Pause | Hlt | Invlpg | Invlpga | ExitIoio | Msr | TaskSwitch | FErrFreeze
  | Shutdown | Vmrun | Vmmcall | Vmload | Vmsave | Stgi | Clgi | Skinit | Rdtscp | Icebp
  | Wbinvd | Monitor | Mwait | MwaitConditional | Rdpru | Xsetbv | EferWriteTrap | Cr0WriteTrap
  | Cr1WriteTrap | Cr2WriteTrap | Cr3WriteTrap | Cr4WriteTrap | Cr5WriteTrap | Cr6WriteTrap
  | Cr7WriteTrap | Cr8WriteTrap | Cr9WriteTrap | Cr10WriteTrap | Cr11WriteTrap | Cr12WriteTrap
  | Cr13WriteTrap | Cr14WriteTrap | Cr15WriteTrap | Invlpgb | InvlpgbIllegal | Invpcid | Mcommit
  | Tlbsync | BusLock | IdleHlt | Npf | AvicIncompleteIpi | AvicNoAccel | Vmgexit | Unused
  | Invalid | Busy | IdleRequired | InvalidPmc | QemuInvalid.

Definition InterceptCode_repr (c : InterceptCode) : Z :=
  match c with
  | Cr0Read => 0x0 | Cr1Read => 0x1 | Cr2Read => 0x2 | Cr3Read => 0x3 | Cr4Read => 0x4
  | Cr5Read => 0x5 | Cr6Read => 0x6 | Cr7Read => 0x7 | Cr8Read => 0x8 | Cr9Read => 0x9
  | Cr10Read => 0xa | Cr11Read => 0xb | Cr12Read => 0xc | Cr13Read => 0xd | Cr14Read => 0xe
  | Cr15Read => 0xf | Cr0Write => 0x10 | Cr1Write => 0x1 + 0x10 | Cr2Write => 0x2 + 0x10
  | Cr3Write => 0x3 + 0x10 | Cr4Write => 0x4 + 0x10 | Cr5Write => 0x5 + 0x10 | Cr6Write => 0x6 + 0x10
  | Cr7Write => 0x7 + 0x10 | Cr8Write => 0x8 + 0x10 | Cr9Write => 0x9 + 0x10 | Cr10Write => 0xa + 0x10
  | Cr11Write => 0xb + 0x10 | Cr12Write => 0xc + 0x10 | Cr13Write => 0xd + 0x10
  | Cr14Write => 0xe + 0x10 | Cr15Write => 0xf + 0x10 | Dr0Read => 0x20 | Dr1Read => 0x1 + 0x20
  | Dr2Read => 0x2 + 0x20 | Dr3Read => 0x3 + 0x20 | Dr4Read => 0x4 + 0x20 | Dr5Read => 0x5 + 0x20
  | Dr6Read => 0x6 + 0x20 | Dr7Read => 0x7 + 0x20 | Dr8Read => 0x8 + 0x20 | Dr9Read => 0x9 + 0x20
  | Dr10Read => 0xa + 0x20 | Dr11Read => 0xb + 0x20 | Dr12Read => 0xc + 0x20 | Dr13Read => 0xd + 0x20
  | Dr14Read => 0xe + 0x20 | Dr15Read => 0xf + 0x20 | Dr0Write => 0x30 | Dr1Write => 0x1 + 0x30
  | Dr2Write => 0x2 + 0x30 | Dr3Write => 0x3 + 0x30 | Dr4Write => 0x4 + 0x30 | Dr5Write => 0x5 + 0x30
  | Dr6Write => 0x6 + 0x30 | Dr7Write => 0x7 + 0x30 | Dr8Write => 0x8 + 0x30 | Dr9Write => 0x9 + 0x30
  | Dr10Write => 0xa + 0x30 | Dr11Write => 0xb + 0x30 | Dr12Write => 0xc + 0x30
  | Dr13Write => 0xd + 0x30 | Dr14Write => 0xe + 0x30 | Dr15Write => 0xf + 0x30 | Exception0 => 0x40
  | Exception1 => 0x1 + 0x40 | Exception2 => 0x2 + 0x40 | Exception3 => 0x3 + 0x40
  | Exception4 => 0x4 + 0x40 | Exception5 => 0x5 + 0x40 | Exception6 => 0x6 + 0x40
  | Exception7 => 0x7 + 0x40 | Exception8 => 0x8 + 0x40 | Exception9 => 0x9 + 0x40
  | Exception10 => 0xa + 0x40 | Exception11 => 0xb + 0x40 | Exception12 => 0xc + 0x40
  | Exception13 => 0xd + 0x40 | Exception14 => 0xe + 0x40 | Exception15 => 0xf + 0x40
  | Exception16 => 0x10 + 0x40 | Exception17 => 0x11 + 0x40 | Exception18 => 0x12 + 0x40
  | Exception19 => 0x13 + 0x40 | Exception20 => 0x14 + 0x40 | Exception21 => 0x15 + 0x40
  | Exception22 => 0x16 + 0x40 | Exception23 => 0x17 + 0x40 | Exception24 => 0x18 + 0x40
  | Exception25 => 0x19 + 0x40 | Exception26 => 0x1a + 0x40 | Exception27 => 0x1b + 0x40
  | Exception28 => 0x1c + 0x40 | Exception29 => 0x1d + 0x40 | Exception30 => 0x1e + 0x40
  | Exception31 => 0x1f + 0x40 | Intr => 0x60 | Nmi => 0x61 | Smi => 0x62 | Init => 0x63
  | VirtualIntr => 0x64 | Cr0SelWrite => 0x65 | IdtrRead => 0x66 | GdtrRead => 0x67 | LdtrRead => 0x68
  | TrRead => 0x69 | IdtrWrite => 0x6a | GdtrWrite => 0x6b | LdtrWrite => 0x6c | TrWrite => 0x6d
  | Rdtsc => 0x6e | Rdpmc => 0x6f | Pushf => 0x70 | Popf => 0x71 | Cpuid => 0x72 | Rsm => 0x73
  | Iret => 0x74 | Swint => 0x75 | Invd => 0x76 | Pause => 0x77 | Hlt => 0x78 | Invlpg => 0x79
  | Invlpga => 0x7a | ExitIoio => 0x7b | Msr => 0x7c | TaskSwitch => 0x7d | FErrFreeze => 0x7e
  | Shutdown => 0x7f | Vmrun => 0x80 | Vmmcall => 0x81 | Vmload => 0x82 | Vmsave => 0x83
  | Stgi => 0x84 | Clgi => 0x85 | Skinit => 0x86 | Rdtscp => 0x87 | Icebp => 0x88 | Wbinvd => 0x89
  | Monitor => 0x8a | Mwait => 0x8b | MwaitConditional => 0x8c | Rdpru => 0x8e | Xsetbv => 0x8d
  | EferWriteTrap => 0x8f | Cr0WriteTrap => 0x90 | Cr1WriteTrap => 0x1 + 0x90
  | Cr2WriteTrap => 0x2 + 0x90 | Cr3WriteTrap => 0x3 + 0x90 | Cr4WriteTrap => 0x4 + 0x90
  | Cr5WriteTrap => 0x5 + 0x90 | Cr6WriteTrap => 0x6 + 0x90 | Cr7WriteTrap => 0x7 + 0x90
  | Cr8WriteTrap => 0x8 + 0x90 | Cr9WriteTrap => 0x9 + 0x90 | Cr10WriteTrap => 0xa + 0x90
  | Cr11WriteTrap => 0xb + 0x90 | Cr12WriteTrap => 0xc + 0x90 | Cr13WriteTrap => 0xd + 0x90
  | Cr14WriteTrap => 0xe + 0x90 | Cr15WriteTrap => 0xf + 0x90 | Invlpgb => 0xa0 | InvlpgbIllegal => 0xa1
  | Invpcid => 0xa2 | Mcommit => 0xa3 | Tlbsync => 0xa4 | BusLock => 0xa5 | IdleHlt => 0xa6
  | Npf => 0x400 | AvicIncompleteIpi => 0x401 | AvicNoAccel => 0x402 | Vmgexit => 0x403
  | Unused => 0xf000000 | Invalid => -1 | Busy => -2 | IdleRequired => -3 | InvalidPmc => -4
  | QemuInvalid => 0xffffffff
  end.

Definition all_codes : list InterceptCode := [
  Cr0Read; Cr1Read; Cr2Read; Cr3Read; Cr4Read; Cr5Read; Cr6Read; Cr7Read; Cr8Read; Cr9Read;
  Cr10Read; Cr11Read; Cr12Read; Cr13Read; Cr14Read; Cr15Read; Cr0Write; Cr1Write; Cr2Write;
  Cr3Write; Cr4Write; Cr5Write; Cr6Write; Cr7Write; Cr8Write; Cr9Write; Cr10Write; Cr11Write;
  Cr12Write; Cr13Write; Cr14Write; Cr15Write; Dr0Read; Dr1Read; Dr2Read; Dr3Read; Dr4Read;
  Dr5Read; Dr6Read; Dr7Read; Dr8Read; Dr9Read; Dr10Read; Dr11Read; Dr12Read; Dr13Read;
  Dr14Read; Dr15Read; Dr0Write; Dr1Write; Dr2Write; Dr3Write; Dr4Write; Dr5Write; Dr6Write;
  Dr7Write; Dr8Write; Dr9Write; Dr10Write; Dr11Write; Dr12Write; Dr13Write; Dr14Write;
  Dr15Write; Exception0; Exception1; Exception2; Exception3; Exception4; Exception5; Exception6;
  Exception7; Exception8; Exception9; Exception10; Exception11; Exception12; Exception13;
  Exception14; Exception15; Exception16; Exception17; Exception18; Exception19; Exception20;
  Exception21; Exception22; Exception23; Exception24; Exception25; Exception26; Exception27;
  Exception28; Exception29; Exception30; Exception31; Intr; Nmi; Smi; Init; VirtualIntr;
  Cr0SelWrite; IdtrRead; GdtrRead; LdtrRead; TrRead; IdtrWrite; GdtrWrite; LdtrWrite; TrWrite;
  Rdtsc; Rdpmc; Pushf; Popf; Cpuid; Rsm; Iret; Swint; Invd; Pause; Hlt; Invlpg;
  Invlpga; ExitIoio; Msr; TaskSwitch; FErrFreeze; Shutdown; Vmrun; Vmmcall; Vmload; Vmsave;
  Stgi; Clgi; Skinit; Rdtscp; Icebp; Wbinvd; Monitor; Mwait; MwaitConditional; Rdpru;
  Xsetbv; EferWriteTrap; Cr0WriteTrap; Cr1WriteTrap; Cr2WriteTrap; Cr3WriteTrap; Cr4WriteTrap;
  Cr5WriteTrap; Cr6WriteTrap; Cr7WriteTrap; Cr8WriteTrap; Cr9WriteTrap; Cr10WriteTrap;
  Cr11WriteTrap; Cr12WriteTrap; Cr13WriteTrap; Cr14WriteTrap; Cr15WriteTrap; Invlpgb;
  InvlpgbIllegal; Invpcid; Mcommit; Tlbsync; BusLock; IdleHlt; Npf; AvicIncompleteIpi;
  AvicNoAccel; Vmgexit; Unused; Invalid; Busy; IdleRequired; InvalidPmc; QemuInvalid].
End Code.

Abbreviation InterceptCode := Code.InterceptCode (only parsing).

(** An [i64] in memory, and the code it is the discriminant of.  A value that
    is no code would not be an [InterceptCode] at all. *)
Definition i64_bits (v : Z) : Z := v mod 2 ^ 64.

Definition InterceptCode_from_bits (bits : Z) : option InterceptCode :=
  List.find (fun c => i64_bits (Code.InterceptCode_repr c) =? bits) Code.all_codes.

Definition ALL_EXCEPTIONS : Z := 0xffffffff.

Lemma from_bits_repr c : InterceptCode_from_bits (i64_bits (Code.InterceptCode_repr c)) = Some c.
Proof. destruct c; vm_compute; reflexivity. Qed.

#[export] Instance InterceptCode_repr_inj : Inj (=) (=) Code.InterceptCode_repr.
Proof. intros c c' E. apply (inj Some). by rewrite <- !from_bits_repr, E. Qed.

#[export] Instance InterceptCode_eq_dec : EqDecision Code.InterceptCode.
Proof.
  intros c c'. destruct (decide (Code.InterceptCode_repr c = Code.InterceptCode_repr c')) as [E | Hne].
  - left. exact (inj Code.InterceptCode_repr c c' E).
  - right. exact (fun E => Hne (f_equal Code.InterceptCode_repr E)).
Defined.

Lemma from_bits_inv bits c : InterceptCode_from_bits bits = Some c -> bits = i64_bits (Code.InterceptCode_repr c).
Proof. intros [_ E]%List.find_some. by apply Z.eqb_eq in E. Qed.

(** ** The declarations *)
Lemma vmcb_layouts_ok : Forall (fun L => fields_ok L) [Intercepts; ExitIntInfo; SvmFlags; ControlArea; StateSaveArea; VmcbInner] /\
  map width [Intercepts; ExitIntInfo; SvmFlags] = [192; 64; 64].
Proof. apply (bool_decide_unpack _). by vm_compute. Qed.
