(* ===== verification/Svm.v ===== *)
(** * The SVM hypervisor

    Models hypervisor/src/svm/mod.rs, svm/cpu.rs and hypervisor/src/lib.rs:
    the start of SVM operation on a processor, the initialisation of a guest
    and its sanity checks, and the handling of a VMEXIT.

    [cpuid] is the processor's CPUID instruction and [vmrun_] what VMRUN
    leaves in the VMCB at a physical address when it returns: both are the
    hardware, an argument of what uses them.  The locks of the static
    allocators are free when they are taken here: each is taken for one
    expression. *)

From stdpp Require Import functions.
From S2P Require Import Prelude Ids Pmm PageFlags Pages Slab Heap PageTable Paging Bitfield Layouts Registers Vmcb.

(** [utils::mem::memset] on the bytes of virtual memory. *)
Fixpoint memset_from (mem : Z -> Z) (ptr value : Z) (i : Z) (n : nat) : Z -> Z :=
  match n with
  | O => mem
  | S n => memset_from (<[ptr + i := value]> mem) ptr value (i + 1) n
  end.

Definition memset (mem : Z -> Z) (ptr value len : Z) : Z -> Z := memset_from mem ptr value 0 (Z.to_nat len).

(** What starting SVM changes: the model specific registers, the static
    [ASID_ALLOCATOR], the kernel's paging and the memory it maps. *)
Record SvmState (P : Type) := mkSvmState {
  svm_msrs : Z -> MsrData;
  ASID_ALLOCATOR : IdTracker;
  svm_paging : Paging P;
  svm_mem : Z -> Z;
}.
Arguments mkSvmState {P}.
Arguments svm_msrs {P}.
Arguments ASID_ALLOCATOR {P}.
Arguments svm_paging {P}.
Arguments svm_mem {P}.

Section start.
Context {P : Type} `{PmmAllocator P} (hhdm cr3_top_pml : Z) (cpuid : Z -> CpuidResult).
Implicit Types (s : SvmState P).

Definition check_support : res unit :=
  let SVM_SUPPORT_ECX_BIT := Z.shiftl 1 2 in
  assert_ (negb (Z.land (cpuid_ecx (cpuid 0x80000001)) SVM_SUPPORT_ECX_BIT =? 0)).

(** Either way out of the [if] is a panic. *)
Definition check_firmware_disabled (m : Z -> MsrData) : res unit :=
  let SVM_DISABLE := Z.shiftl 1 4 in
  let CPUID_SVM_BRANCH := 0x8000000a in
  let SVML := Z.shiftl 1 2 in
  let vmcr := rdmsr VmCr m in
  if negb (Z.land (low vmcr) SVM_DISABLE =? 0) then
    _ ← assert_ (negb (Z.land (cpuid_edx (cpuid CPUID_SVM_BRANCH)) SVML =? 0));
    Panic Asserted
  else Done ().

Definition Svm_enable (m : Z -> MsrData) : res (Z -> MsrData) :=
  _ ← check_support;
  _ ← check_firmware_disabled m;
  let data := Z.lor (MsrData_into_u64 (rdmsr Efer m)) Efer_SVM in
  Done (wrmsr Efer (MsrData_from_u64 data) m).

Definition init_asid_allocator : res IdTracker :=
  let start_id := 1 in
  let end_id := cpuid_ebx (cpuid 0x8000000a) in
  IdTracker_new start_id end_id.

Definition init_host_state s : res (SvmState P) :=
  '(r, g) ← PagingManager_allocate_pages hhdm cr3_top_pml (svm_paging s) 1 (set_read_write Flags_new true) size_4kb;
  host_state_page ← unwrap_ok r;
  let mem := memset (svm_mem s) host_state_page 0 BASIC_PAGE_SIZE in
  o ← translate hhdm cr3_top_pml (tables g) host_state_page;
  phys_addr ← unwrap o;
  let low := Z.land phys_addr 0xffffffff in
  let high := Z.land (Z.shiftr phys_addr 32) 0xffffffff in
  Done (mkSvmState (wrmsr VmHsavePa (mkMsrData low high) (svm_msrs s)) (ASID_ALLOCATOR s) g mem).

Definition Svm_start s : res (SvmState P) :=
  m ← Svm_enable (svm_msrs s);
  t ← init_asid_allocator;
  init_host_state (mkSvmState m t (svm_paging s) (svm_mem s)).
End start.

(** ** Guests *)
Section guest.
Context `{Bitfields}.

Definition Vmcb_uninit : Z := 0.

(** [self.control.intercepts.set_name(v)] *)
Definition set_intercept (name : string) (v : Z) (vmcb : Z) : res Z :=
  i ← set_ Intercepts name v (load (control "intercepts") vmcb);
  Done (store (control "intercepts") i vmcb).

(** The bit field [name] of the register saved in [f]. *)
Definition saved (L : Fields) (f name : string) (vmcb : Z) : Z := get L name (load (state_save f) vmcb).

Definition sanity_check_guest_state (vmcb : Z) : res unit :=
  let efer := load (state_save "efer") vmcb in
  let cr0 name := saved Cr0 "cr0" name vmcb in
  let cr3 name := saved Cr3 "cr3" name vmcb in
  let cr4 name := saved Cr4 "cr4" name vmcb in
  let set x := negb (x =? 0) in
  _ ← assert_ (negb (Z.land efer Efer_SVM =? 0));
  _ ← assert_ (negb ((cr0 "cd" =? 0) && set (cr0 "nw")));
  _ ← assert_ (negb (set (cr0 "reserved_mbz_3")));
  _ ← assert_ (negb (set (cr3 "reserved_mbz_0") || set (cr3 "reserved_mbz_1")));
  _ ← assert_ (negb (set (cr4 "reserved_mbz_0") || set (cr4 "reserved_mbz_1") || set (cr4 "reserved_mbz_2")));
  _ ← assert_ (negb (set (saved AmdDr6 "dr6" "reserved_mbz_1" vmcb)));
  _ ← assert_ (negb (set (saved AmdDr7 "dr7" "reserved_mbz_1" vmcb)));
  _ ← assert_ (negb (set (Z.land efer (usize_not Efer_ALL))));
  _ ← assert_ (negb (set (Z.land efer Efer_LMA) && set (cr0 "pg") && (cr4 "pae" =? 0)));
  _ ← assert_ (negb (set (Z.land efer Efer_LMA) && set (cr0 "pg") && (cr0 "pe" =? 0)));
  _ ← assert_ (negb (get Intercepts "vmrun" (load (control "intercepts") vmcb) =? 0));
  _ ← assert_ (negb (load (control "guest_asid") vmcb =? 0));
  assert_ (negb (set (cr4 "cet") && (cr0 "wp" =? 0))).

Definition check_nested_paging_support (cpuid : Z -> CpuidResult) : res unit :=
  let NESTED_PAGING_BIT := Z.shiftl 1 0 in
  assert_ (negb (Z.land (cpuid_edx (cpuid 0x8000000a)) NESTED_PAGING_BIT =? 0)).

Definition setup_nested_paging (cpuid : Z -> CpuidResult) (vmcb : Z) : res Z :=
  _ ← check_nested_paging_support cpuid;
  f ← set_ SvmFlags "np_enable" 1 (load (control "flags") vmcb);
  Done (store (control "flags") f vmcb).

(** [gdt] are the descriptors GDTR points at. *)
Definition init_guest_state (c : Processor) (gdt : Gdt) (m : Z -> MsrData) (asids : IdTracker) (vmcb rip : Z)
    : res (Z * IdTracker) :=
  _ ← (if table_base (read_gdtr c) =? 0 then Panic Unwrapped else Done ());
  cs ← read_full_selector gdt (cs_sel (read c));
  let vmcb := store (state_save "cs") cs vmcb in
  let vmcb := store (state_save "rip") rip vmcb in
  rflags ← set_ Rflags "rf" 1 0;
  let vmcb := store (state_save "rflags") rflags vmcb in
  let vmcb := store (state_save "rax") 0 vmcb in
  ss ← read_full_selector gdt (ss_sel (read c));
  let vmcb := store (state_save "ss") ss vmcb in
  let vmcb := store (state_save "rsp") (read_rsp c) vmcb in
  cr0 ← set_ Cr0 "cd" 1 0;
  cr0 ← set_ Cr0 "nw" 1 cr0;
  let vmcb := store (state_save "cr0") cr0 vmcb in
  let vmcb := store (state_save "cr3") (cr3_bits (read c)) vmcb in
  let vmcb := store (state_save "cr4") (cr4_bits (read c)) vmcb in
  let vmcb := store (state_save "efer") (MsrData_into_u64 (rdmsr Efer m)) vmcb in
  let vmcb := store (state_save "idtr") (FullSegmentSelector_from (idtr c)) vmcb in
  let vmcb := store (state_save "gdtr") (FullSegmentSelector_from (read_gdtr c)) vmcb in
  es ← read_full_selector gdt (es_sel (read c));
  let vmcb := store (state_save "es") es vmcb in
  ds ← read_full_selector gdt (ds_sel (read c));
  let vmcb := store (state_save "ds") ds vmcb in
  let vmcb := store (state_save "dr6") (dr6_bits (read c)) vmcb in
  let vmcb := store (state_save "dr7") (dr7_bits (read c)) vmcb in
  let vmcb := store (state_save "cpl") 0 vmcb in
  vmcb ← set_intercept "vmrun" 1 vmcb;
  vmcb ← set_intercept "cpuid" 1 vmcb;
  vmcb ← set_intercept "hlt" 1 vmcb;
  vmcb ← set_intercept "exceptions" ALL_EXCEPTIONS vmcb;
  '(r, asids) ← IdTracker_allocate asids;
  asid ← unwrap_ok r;
  let vmcb := store (control "guest_asid") (asid mod 2 ^ 32) vmcb in
  _ ← sanity_check_guest_state vmcb;
  Done (vmcb, asids).

(** ** VMEXIT *)
Definition handle_intercept_during_int (vmcb : Z) : res unit :=
  if get ExitIntInfo "valid" (load (control "exitintinfo") vmcb) =? 0 then Done ()
  else Panic Asserted.

(** What is written to the log. *)
Inductive log_line := VmexitWith (c : InterceptCode) | CpuidIntercept | HltIntercept | NestedNotSupported.

Definition handle_vmexit (vmcb : Z) : res (list log_line) :=
  exit_code ← unwrap (InterceptCode_from_bits (load (control "exitcode") vmcb));
  _ ← handle_intercept_during_int vmcb;
  line ← match exit_code with
         | Code.Cpuid => Done CpuidIntercept
         | Code.Hlt => Done HltIntercept
         | Code.Vmrun | Code.Vmload | Code.Vmsave => Done NestedNotSupported
         | Code.Invalid | Code.QemuInvalid => Panic Asserted
         | _ => Panic Asserted
         end;
  Done [VmexitWith exit_code; line].
End guest.

(** ** Vessels *)
Definition layout_Vmcb : Layout := mkLayout size_of_Vmcb align_of_Vmcb.

Section vessel.
Context {P : Type} `{PmmAllocator P} `{Bitfields} (hhdm cr3_top_pml : Z).

Definition vmrun (vmrun_ : Z -> Z -> Z) (vmcb_addr vmcb : Z) : res Z :=
  _ ← assert_ (vmcb_addr mod BASIC_PAGE_SIZE =? 0);
  Done (vmrun_ vmcb_addr vmcb).

(** [Vmcb::run] of the VMCB at the address [ptr]. *)
Definition Vmcb_run (vmrun_ : Z -> Z -> Z) (s : PtState P) (ptr vmcb : Z) : res (Z * list log_line) :=
  o ← translate hhdm cr3_top_pml s ptr;
  phys_addr ← unwrap o;
  vmcb ← vmrun vmrun_ phys_addr vmcb;
  lines ← handle_vmexit vmcb;
  Done (vmcb, lines).

Context {G : Type} `{PageProvider G}.

(** [VMCB_ALLOCATOR] *)
Definition VMCB_ALLOCATOR : res InternalSlabAllocator := SlabAllocator_new layout_Vmcb.

(** [Box::new_in(Self::uninit(), &VMCB_ALLOCATOR)], then the guest state. *)
Definition Vmcb_new (c : Processor) (gdt : Gdt) (m : Z -> MsrData) (asids : IdTracker) (mem : SlabMem G)
    (a : InternalSlabAllocator) (rip : Z) : res (Z * Z * IdTracker * SlabMem G * InternalSlabAllocator) :=
  '(ptr, _, mem, a) ← SlabAllocator_allocate layout_Vmcb mem a layout_Vmcb;
  '(vmcb, asids) ← init_guest_state c gdt m asids Vmcb_uninit rip;
  Done (ptr, vmcb, asids, mem, a).

Record Vessel := mkVessel { vessel_id : Id; vessel_control : Z }.

Definition VID_ALLOCATOR : IdHander := IdHander_new 0xffffffff.

Definition Vessel_new (vids : IdHander) (c : Processor) (gdt : Gdt) (m : Z -> MsrData) (asids : IdTracker)
    (mem : SlabMem G) (a : InternalSlabAllocator) (rip : Z)
    : res (Vessel * IdHander * Z * IdTracker * SlabMem G * InternalSlabAllocator) :=
  '(o, vids) ← IdHander_handout vids;
  id ← unwrap o;
  '(ptr, vmcb, asids, mem, a) ← Vmcb_new c gdt m asids mem a rip;
  Done (mkVessel id ptr, vids, vmcb, asids, mem, a).
End vessel.
