(* ===== verification/SvmTheorems.v ===== *)
(** * Theorems on the hypervisor

    The layout of the VMCB, the start of SVM operation on top of the kernel's
    page service, the state a guest is given and its sanity checks, the exit
    codes and the handling of a VMEXIT, and the allocation of VMCBs. *)

From stdpp Require Import functions.
From S2P Require Import Prelude Bitmap Ids Pmm PageFlags Pages Slab SlabCorrect SlabRepr SlabTheorems Heap PageTable PageTableCorrect PageTableTheorems Paging BootMap BootTheorems KernelPages KernelPagesTheorems Bitfield Layouts Registers Vmcb Svm.

(** ** Model specific registers *)
Lemma msr_parts v : 0 <= v < 2 ^ 64 ->
  MsrData_into_u64 (mkMsrData (Z.land v 0xffffffff) (Z.land (Z.shiftr v 32) 0xffffffff)) = v.
Proof.
  intros Hv. unfold MsrData_into_u64. cbn [low high]. change 0xffffffff with (Z.ones 32).
  apply Z.bits_inj'. intros i Hi. rewrite Z.lor_spec, Z.shiftl_spec, !Z.land_spec by done.
  destruct (Z_lt_le_dec i 32).
  - rewrite !(Z.testbit_neg_r _ (i - 32)), (Z.ones_spec_low 32 i) by lia. by rewrite andb_true_r.
  - rewrite Z.shiftr_spec by lia. replace (i - 32 + 32) with i by lia. rewrite (Z.ones_spec_high 32 i) by lia.
    rewrite andb_false_r, orb_false_r. destruct (Z_lt_le_dec i 64); [by rewrite (Z.ones_spec_low 32 (i - 32)), andb_true_r by lia |].
    by rewrite (testbit_small v 64).
Qed.

Lemma msr_u64_bound d : 0 <= low d < 2 ^ 32 -> 0 <= high d < 2 ^ 32 -> 0 <= MsrData_into_u64 d < 2 ^ 64.
Proof. intros Hl Hh. unfold MsrData_into_u64. rewrite lor_parts by lia. change (2 ^ 64) with (2 ^ 32 * 2 ^ 32). nia. Qed.

Lemma lor_bound a b n : 0 <= n -> 0 <= a < 2 ^ n -> 0 <= b < 2 ^ n -> 0 <= Z.lor a b < 2 ^ n.
Proof.
  intros Hn Ha Hb. split; [apply Z.lor_nonneg; lia |]. apply testbit_bound; [apply Z.lor_nonneg; lia | done |].
  intros i Hi. by rewrite Z.lor_spec, (testbit_small a n), (testbit_small b n).
Qed.

(** ** Memory *)
Lemma memset_from_spec mem ptr value i n a :
  memset_from mem ptr value i n a = if (ptr + i <=? a) && (a <? ptr + i + Z.of_nat n) then value else mem a.
Proof.
  revert mem i. induction n as [| n IH]; intros mem i; cbn [memset_from].
  - rewrite Z.add_0_r. by replace ((ptr + i <=? a) && (a <? ptr + i)) with false by lia.
  - rewrite IH. destruct (Z.eq_dec a (ptr + i)) as [-> | Hne].
    + rewrite fn_lookup_insert.
      rewrite (proj2 (Z.leb_le (ptr + i) (ptr + i))), (proj2 (Z.ltb_lt (ptr + i) (ptr + i + Z.of_nat (S n)))) by lia.
      by destruct (_ && _).
    + rewrite fn_lookup_insert_ne by done.
      match goal with |- (if ?b1 then _ else _) = (if ?b2 then _ else _) => replace b1 with b2; [done |] end.
      apply eq_true_iff_eq. rewrite !andb_true_iff, !Z.leb_le, !Z.ltb_lt. lia.
Qed.

(** ** Starting SVM *)
Section start.
Context {P : Type} `{PmmLaws P} (hhdm cr3_top_pml : Z) (cpuid : Z -> CpuidResult).
Implicit Types (s : SvmState P).

Definition svm_supported : bool := Z.testbit (cpuid_ecx (cpuid 0x80000001)) 2.
Definition svm_locked (m : Z -> MsrData) : bool := Z.testbit (low (rdmsr VmCr m)) 4.

(** [enable] on every processor: it sets SVM in EFER exactly when SVM is there
    and the firmware has not disabled it, and panics otherwise. *)
Lemma svm_enable_ok (m : Z -> MsrData) : 0 <= low (rdmsr Efer m) < 2 ^ 32 -> 0 <= high (rdmsr Efer m) < 2 ^ 32 ->
  if svm_supported && negb (svm_locked m) then
    exists m', Svm_enable cpuid m = Done m' /\
      MsrData_into_u64 (rdmsr Efer m') = Z.lor (MsrData_into_u64 (rdmsr Efer m)) Efer_SVM /\
      forall a, a <> AmdMsr_address Efer -> m' a = m a
  else Svm_enable cpuid m = Panic Asserted.
Proof.
  intros Hl Hh. unfold Svm_enable, check_support, check_firmware_disabled. rewrite !bit_test by lia.
  fold svm_supported (svm_locked m). destruct svm_supported; cbn [assert_ andb]; [| done]. rewrite bind_Done.
  destruct (svm_locked m); cbn [negb]; [by destruct (Z.testbit _ _) |]. rewrite bind_Done.
  eexists. split; [done |]. split.
  - unfold rdmsr at 1, wrmsr. rewrite fn_lookup_insert. apply msr_parts, lor_bound; [done | by apply msr_u64_bound | by vm_compute].
  - intros a Ha. unfold wrmsr. by rewrite fn_lookup_insert_ne.
Qed.

Lemma init_host_ok s held k : paging_inv hhdm cr3_top_pml (svm_paging s) held (S k) ->
  exists s' va phys, init_host_state hhdm cr3_top_pml s = Done s' /\
    paging_inv hhdm cr3_top_pml (svm_paging s') (va :: held) k /\ (va ∉ held) /\
    translate hhdm cr3_top_pml (tables (svm_paging s')) va = Done (Some phys) /\
    (BASIC_PAGE_SIZE | phys) /\ pmm_free_page (pmm (tables (svm_paging s))) phys /\
    pmm_taken (pmm (tables (svm_paging s'))) phys /\
    MsrData_into_u64 (rdmsr VmHsavePa (svm_msrs s')) = phys /\
    (forall a, a <> AmdMsr_address VmHsavePa -> svm_msrs s' a = svm_msrs s a) /\
    (forall a, svm_mem s' a = if (va <=? a) && (a <? va + BASIC_PAGE_SIZE) then 0 else svm_mem s a) /\
    ASID_ALLOCATOR s' = ASID_ALLOCATOR s.
Proof.
  intros Hinv. destruct (allocate_inv hhdm cr3_top_pml _ held k Hinv) as (phys & g' & E & Hinv' & Hni & Hs & Hr & _).
  pose proof (gi_pt _ _ _ _ _ Hinv) as Hi. pose proof (gi_pt _ _ _ _ _ Hinv') as Hi'.
  set (va := page_va (next_page (svm_paging s))) in *.
  assert (translate hhdm cr3_top_pml (tables g') va = Done (Some phys)) as Et.
  { rewrite translate_ok by done. by rewrite (slot_translate _ _ _ _ _ Hs). }
  destruct (pmm_page_bounds _ _ (pi_ready _ _ _ Hi) Hr) as [Hd Hb].
  unfold init_host_state. change (set_read_write Flags_new true) with rw. rewrite E, bind_Done. cbn [unwrap_ok].
  rewrite bind_Done, Et, bind_Done. cbn [unwrap]. rewrite bind_Done.
  eexists _, va, phys. split; [done |]. cbn [svm_paging svm_msrs svm_mem ASID_ALLOCATOR]. split_and!; try done.
  - apply Hs.
  - unfold rdmsr, wrmsr. rewrite fn_lookup_insert. apply msr_parts. lia.
  - intros a Ha. unfold wrmsr. by rewrite fn_lookup_insert_ne.
  - intros a. unfold memset. rewrite memset_from_spec. rewrite !Z.add_0_r. done.
Qed.

(** A page from the kernel's page service, with its frame. *)
Lemma kernel_allocate_page (g : Paging P) held k : paging_inv hhdm cr3_top_pml g held (S k) ->
  exists va phys g', PagingManager_allocate_pages hhdm cr3_top_pml g 1 rw size_4kb = Done (Ok va, g') /\
    translate hhdm cr3_top_pml (tables g') va = Done (Some phys) /\ (BASIC_PAGE_SIZE | phys).
Proof.
  intros Hinv. destruct (allocate_inv hhdm cr3_top_pml _ held k Hinv) as (phys & g' & E & Hinv' & _ & Hs & Hr & _).
  eexists _, phys, g'. split; [done |]. rewrite translate_ok by apply Hinv'. rewrite (slot_translate _ _ _ _ _ Hs).
  split; [done |]. by apply (pmm_page_bounds _ _ (pi_ready _ _ _ (gi_pt _ _ _ _ _ Hinv))).
Qed.

(** C17: [start], on every processor.  Where CPUID reports SVM (leaf
    0x80000001, ECX bit 2) and the firmware has not disabled it (VM_CR bit 4),
    and with a page to give and at least one ASID, it returns: EFER has SVM set
    and its other bits as they were, VM_HSAVE_PA holds the physical address of
    a page that was free and is now mapped, held and zeroed, no other model
    specific register and no other byte of memory changes, and the ASIDs are
    those from 1 to the number CPUID reports, all free.  Where SVM is missing or
    disabled it stops the kernel. *)
Theorem svm_start_correct s held k :
  0 <= low (rdmsr Efer (svm_msrs s)) < 2 ^ 32 -> 0 <= high (rdmsr Efer (svm_msrs s)) < 2 ^ 32 ->
  1 <= cpuid_ebx (cpuid 0x8000000a) < 2 ^ 32 ->
  paging_inv hhdm cr3_top_pml (svm_paging s) held (S k) ->
  if Z.testbit (cpuid_ecx (cpuid 0x80000001)) 2 && negb (Z.testbit (low (rdmsr VmCr (svm_msrs s))) 4) then
  exists s' va phys, Svm_start hhdm cr3_top_pml cpuid s = Done s' /\
    MsrData_into_u64 (rdmsr Efer (svm_msrs s')) = Z.lor (MsrData_into_u64 (rdmsr Efer (svm_msrs s))) Efer_SVM /\
    MsrData_into_u64 (rdmsr VmHsavePa (svm_msrs s')) = phys /\
    (forall a, a <> AmdMsr_address Efer -> a <> AmdMsr_address VmHsavePa -> svm_msrs s' a = svm_msrs s a) /\
    paging_inv hhdm cr3_top_pml (svm_paging s') (va :: held) k /\ (va ∉ held) /\
    translate hhdm cr3_top_pml (tables (svm_paging s')) va = Done (Some phys) /\
    (BASIC_PAGE_SIZE | phys) /\ pmm_free_page (pmm (tables (svm_paging s))) phys /\
    pmm_taken (pmm (tables (svm_paging s'))) phys /\
    (forall a, svm_mem s' a = if (va <=? a) && (a <? va + BASIC_PAGE_SIZE) then 0 else svm_mem s a) /\
    IdTracker_wf (ASID_ALLOCATOR s') /\
    pool_of (ASID_ALLOCATOR s') = mkPool 1 (replicate (Z.to_nat (cpuid_ebx (cpuid 0x8000000a))) false)
  else Svm_start hhdm cr3_top_pml cpuid s = Panic Asserted.
Proof.
  intros Hl Hh Hn Hinv. pose proof (svm_enable_ok (svm_msrs s) Hl Hh) as He. fold svm_supported (svm_locked (svm_msrs s)).
  unfold Svm_start. destruct (svm_supported && _); [| by rewrite He].
  destruct He as (m & Em & Hefer & Hm). rewrite Em, bind_Done.
  destruct (IdTracker_new_ok 1 (cpuid_ebx (cpuid 0x8000000a))) as (t & Et & Hwf & Hp); [lia | unfold usize_MAX; lia |].
  unfold init_asid_allocator. cbn zeta. rewrite Et, bind_Done.
  destruct (init_host_ok (mkSvmState m t (svm_paging s) (svm_mem s)) held k Hinv)
    as (s' & va & phys & E & Hi & Hni & Htr & Hd & Hf & Htk & Hv & Hm' & Hmem & Ha).
  cbn [svm_msrs svm_paging svm_mem ASID_ALLOCATOR] in *. exists s', va, phys. split_and!; try done.
  - unfold rdmsr in *. by rewrite Hm'.
  - intros a H1 H2. rewrite Hm' by done. by apply Hm.
  - by rewrite Ha.
  - rewrite Ha, Hp. f_equal. f_equal. lia.
Qed.
End start.

(** ** The state of a guest *)
#[local] Opaque at_ state_save control.

Section guest.
Context `{BitfieldLaws}.

(** The registers hold values of their width. *)
Record processor_ok (c : Processor) : Prop := {
  seg_width r : r ∈ [CS; SS; ES; DS] -> 0 <= regs c r < 2 ^ 16;
  reg_width r : 0 <= regs c r < 2 ^ 64;
  gdtr_width : 0 <= table_limit (gdtr c) < 2 ^ 16 /\ 0 <= table_base (gdtr c) < 2 ^ 64;
  idtr_width : 0 <= table_limit (idtr c) < 2 ^ 16 /\ 0 <= table_base (idtr c) < 2 ^ 64;
}.

(** What the code takes for the full form of a selector.  An x86 selector names
    the descriptor [selector / 8]; the code divides that number by 8 once more. *)
Definition full_selector (gdt : Gdt) (selector : Z) : Z :=
  let d := default 0 (gdt !! Z.to_nat (selector / 8 / 8)) in
  mkFullSelector selector (descriptor_access d) (descriptor_limit d) (descriptor_base d).

Definition intercept (name : string) : place := inside (control "intercepts") (at_ Intercepts name).

(** What a guest is given, field by field: its state, then its ASID. *)
Definition guest_state_fields (c : Processor) (gdt : Gdt) (efer rip : Z) : list (place * Z) := [
  (state_save "cs", full_selector gdt (regs c CS)); (state_save "rip", rip);
  (state_save "rflags", 2 ^ 16); (state_save "rax", 0);
  (state_save "ss", full_selector gdt (regs c SS)); (state_save "rsp", regs c RSP);
  (state_save "cr0", 2 ^ 30 + 2 ^ 29); (state_save "cr3", regs c CR3); (state_save "cr4", regs c CR4);
  (state_save "efer", efer);
  (state_save "idtr", mkFullSelector 0 0 (table_limit (idtr c)) (table_base (idtr c)));
  (state_save "gdtr", mkFullSelector 0 0 (table_limit (gdtr c)) (table_base (gdtr c)));
  (state_save "es", full_selector gdt (regs c ES)); (state_save "ds", full_selector gdt (regs c DS));
  (state_save "dr6", regs c DR6); (state_save "dr7", regs c DR7); (state_save "cpl", 0);
  (intercept "vmrun", 1); (intercept "cpuid", 1); (intercept "hlt", 1); (intercept "exceptions", 2 ^ 32 - 1)].

Definition guest_fields (c : Processor) (gdt : Gdt) (efer asid rip : Z) : list (place * Z) :=
  guest_state_fields c gdt efer rip ++ [(control "guest_asid", asid)].

(** The sanity checks in terms of the values checked. *)
Definition accepted (efer cr3 cr4 dr6 dr7 : Z) : bool :=
  Z.testbit efer 12 && (bits_at 0 3 cr3 =? 0) && (bits_at 5 7 cr3 =? 0) &&
  (bits_at 15 1 cr4 =? 0) && (bits_at 19 1 cr4 =? 0) && (bits_at 25 39 cr4 =? 0) &&
  (bits_at 32 32 dr6 =? 0) && (bits_at 14 2 dr7 =? 0) && (Z.land efer (usize_not Efer_ALL) =? 0) &&
  (bits_at 23 1 cr4 =? 0).

Lemma saved_ok L f name x v : place_ok (at_ L name) -> 0 <= v -> load (state_save f) x = v ->
  saved L f name x = load (at_ L name) v.
Proof. intros Hp Hv E. unfold saved. rewrite E. by apply bf_get_load. Qed.

Lemma sanity_ok x efer cr3 cr4 dr6 dr7 : 0 <= cr3 -> 0 <= cr4 -> 0 <= dr6 -> 0 <= dr7 ->
  load (state_save "efer") x = efer -> load (state_save "cr0") x = 2 ^ 30 + 2 ^ 29 ->
  load (state_save "cr3") x = cr3 -> load (state_save "cr4") x = cr4 -> load (state_save "dr6") x = dr6 ->
  load (state_save "dr7") x = dr7 -> load (intercept "vmrun") x = 1 -> load (control "guest_asid") x <> 0 ->
  sanity_check_guest_state x = if accepted efer cr3 cr4 dr6 dr7 then Done () else Panic Asserted.
Proof.
  intros H3 H4 H6 H7 Ee E0 E3 E4 E6 E7 Ev Ea. unfold sanity_check_guest_state, accepted.
  assert (get Intercepts "vmrun" (load (control "intercepts") x) = 1) as ->.
  { rewrite bf_get_load; [| place_solve | apply load_fits; place_solve].
    rewrite load_inside; [exact Ev | place_solve | place_solve | by vm_compute]. }
  assert (0 <= 2 ^ 30 + 2 ^ 29) as H0' by lia.
  rewrite !(fun name Hp => saved_ok Cr0 "cr0" name x _ Hp H0' E0) by place_solve.
  rewrite !(fun name Hp => saved_ok Cr3 "cr3" name x _ Hp H3 E3) by place_solve.
  rewrite !(fun name Hp => saved_ok Cr4 "cr4" name x _ Hp H4 E4) by place_solve.
  rewrite !(fun name Hp => saved_ok AmdDr6 "dr6" name x _ Hp H6 E6) by place_solve.
  rewrite !(fun name Hp => saved_ok AmdDr7 "dr7" name x _ Hp H7 E7) by place_solve.
  rewrite Ee, (proj2 (Z.eqb_neq _ _) Ea). unfold Efer_SVM. rewrite bit_test by lia.
  assert (forall name v, bool_decide (load (at_ Cr0 name) (2 ^ 30 + 2 ^ 29) = v) = true -> load (at_ Cr0 name) (2 ^ 30 + 2 ^ 29) = v)
    as C0 by (intros name v; apply bool_decide_eq_true_1).
  rewrite (C0 "cd" 1), (C0 "nw" 1), (C0 "reserved_mbz_3" 0), (C0 "pg" 0), (C0 "pe" 0), (C0 "wp" 0) by (by vm_compute).
  change (load (at_ Cr3 "reserved_mbz_0") cr3) with (bits_at 0 3 cr3).
  change (load (at_ Cr3 "reserved_mbz_1") cr3) with (bits_at 5 7 cr3).
  change (load (at_ Cr4 "reserved_mbz_0") cr4) with (bits_at 15 1 cr4).
  change (load (at_ Cr4 "reserved_mbz_1") cr4) with (bits_at 19 1 cr4).
  change (load (at_ Cr4 "reserved_mbz_2") cr4) with (bits_at 25 39 cr4).
  change (load (at_ Cr4 "cet") cr4) with (bits_at 23 1 cr4).
  change (load (at_ AmdDr6 "reserved_mbz_1") dr6) with (bits_at 32 32 dr6).
  change (load (at_ AmdDr7 "reserved_mbz_1") dr7) with (bits_at 14 2 dr7).
  rewrite !andb_false_r. cbn [Z.eqb negb andb assert_].
  assert (forall (b1 b2 b3 b4 b5 b6 b7 b8 b9 b10 : bool),
    (_ ← assert_ b1; _ ← assert_ (negb (negb b2 || negb b3)); _ ← assert_ (negb (negb b4 || negb b5 || negb b6));
     _ ← assert_ (negb (negb b7)); _ ← assert_ (negb (negb b8)); _ ← assert_ (negb (negb b9));
     assert_ (negb (negb b10 && true))) =
    if b1 && b2 && b3 && b4 && b5 && b6 && b7 && b8 && b9 && b10 then Done () else Panic Asserted) as Hb.
  { intros [] [] [] [] [] [] [] [] [] []; reflexivity. }
  rewrite <- Hb. done.
Qed.

Lemma set_intercept_ok name v x : place_ok (at_ Intercepts name) -> (at_ Intercepts name).1 + (at_ Intercepts name).2 <= 192 ->
  fits (at_ Intercepts name) v -> 0 <= x -> set_intercept name v x = Done (store (intercept name) v x).
Proof.
  intros Hp Hin Hv Hx. assert (place_ok (control "intercepts")) as Hc by place_solve.
  assert ((control "intercepts").2 = 192) as Hw by (by vm_compute).
  unfold set_intercept. rewrite bf_set_store, bind_Done by (done || apply load_fits, Hc).
  unfold intercept. by rewrite store_inside by (done || lia).
Qed.

Lemma full_selector_bound gdt sel : 0 <= sel < 2 ^ 16 -> 0 <= full_selector gdt sel < 2 ^ 128.
Proof.
  intros Hs. unfold full_selector. set (d := default _ _).
  pose proof (bits_at_bound 0 16 d). pose proof (bits_at_bound 48 4 d). pose proof (bits_at_bound 16 24 d).
  pose proof (bits_at_bound 56 8 d). pose proof (bits_at_bound 40 8 d).
  apply full_selector_fields; unfold descriptor_access, descriptor_limit, descriptor_base; lia.
Qed.

Lemma table_selector_bound t : 0 <= table_limit t < 2 ^ 16 -> 0 <= table_base t < 2 ^ 64 ->
  0 <= mkFullSelector 0 0 (table_limit t) (table_base t) < 2 ^ 128.
Proof. intros Hl Hb. apply full_selector_fields; lia. Qed.

Lemma guest_stores_ok c gdt efer asid rip : processor_ok c -> 0 <= efer < 2 ^ 64 -> 0 <= asid < 2 ^ 32 ->
  0 <= rip < 2 ^ 64 -> stores_ok (guest_fields c gdt efer asid rip).
Proof.
  intros [Hseg Hreg Hg Hi] He Ha Hr. apply stores_ok_places.
  { unfold guest_fields, guest_state_fields. cbn [app fmap list_fmap fst]. place_solve. }
  unfold guest_fields, guest_state_fields. cbn [app]. repeat (apply Forall_cons; split); [.. | by apply Forall_nil]; cbn [fst snd];
    (eapply fits_width; [by vm_compute |]);
    lazymatch goal with
    | |- 0 <= full_selector _ (regs _ ?r) < _ => apply full_selector_bound, Hseg; set_solver
    | |- 0 <= mkFullSelector 0 0 _ _ < _ => apply table_selector_bound; (apply Hi || apply Hg)
    | |- 0 <= regs _ _ < _ => apply Hreg
    | |- _ => lia
    end.
Qed.

Lemma read_full_selector_done gdt sel : length gdt = GDT_SEGMENTS -> Forall (fun d => 0 <= d) gdt -> 0 <= sel < 384 ->
  read_full_selector gdt sel = Done (full_selector gdt sel).
Proof.
  intros Hl Hd Hs. destruct (read_full_selector_ok gdt sel Hl Hd ltac:(lia)) as [Hok _].
  destruct (Hok ltac:(lia)) as (d & E & ->). unfold full_selector. rewrite Z.div_div by lia. change (8 * 8) with 64. by rewrite E.
Qed.

(** A processor in the state the kernel runs in, as far as a guest depends on it. *)
Record host_ok (c : Processor) (gdt : Gdt) (m : Z -> MsrData) : Prop := {
  host_regs : processor_ok c;
  host_gdtr : table_base (gdtr c) <> 0;
  host_gdt : length gdt = GDT_SEGMENTS /\ Forall (fun d => 0 <= d) gdt;
  host_selectors r : r ∈ [CS; SS; ES; DS] -> regs c r < 384;
  host_efer : 0 <= low (rdmsr Efer m) < 2 ^ 32 /\ 0 <= high (rdmsr Efer m) < 2 ^ 32;
}.

Definition guest_accepted (c : Processor) (m : Z -> MsrData) : bool :=
  accepted (MsrData_into_u64 (rdmsr Efer m)) (regs c CR3) (regs c CR4) (regs c DR6) (regs c DR7).

Definition guest_of (c : Processor) (gdt : Gdt) (m : Z -> MsrData) (asid rip : Z) : list (place * Z) :=
  guest_fields c gdt (MsrData_into_u64 (rdmsr Efer m)) asid rip.

Ltac unfold_stores l H :=
  match type of H with context [take ?k l] =>
    let t := eval cbv [take l guest_state_fields] in (take k l) in change (take k l) with t in H
  end; rewrite !stores_cons, stores_nil in H; cbn [fst snd] in H.

Lemma guest_registers : set_ Rflags "rf" 1 0 = Done (2 ^ 16) /\ set_ Cr0 "cd" 1 0 = Done (2 ^ 30) /\
  set_ Cr0 "nw" 1 (2 ^ 30) = Done (2 ^ 30 + 2 ^ 29).
Proof.
  split_and!; (rewrite bf_set_store; [apply (bool_decide_unpack _); by vm_compute | place_solve | by vm_compute | by vm_compute]).
Qed.

(** Up to the allocation of the ASID. *)
Lemma init_guest_prefix c gdt m asids rip : host_ok c gdt m -> 0 <= rip < 2 ^ 64 ->
  init_guest_state c gdt m asids Vmcb_uninit rip =
    ('(r, asids) ← IdTracker_allocate asids;
     asid ← unwrap_ok r;
     let vmcb := store (control "guest_asid") (asid mod 2 ^ 32)
       (stores (guest_state_fields c gdt (MsrData_into_u64 (rdmsr Efer m)) rip) 0) in
     _ ← sanity_check_guest_state vmcb;
     Done (vmcb, asids)).
Proof.
  intros [Hc Hb [Hgl Hgd] Hsel [Hel Heh]] Hr. pose proof (msr_u64_bound _ Hel Heh) as He.
  assert (forall i r, [CS; SS; ES; DS] !! i = Some r -> read_full_selector gdt (regs c r) = Done (full_selector gdt (regs c r))) as Hrs.
  { intros i r Hin%list_elem_of_lookup_2. apply read_full_selector_done; [done | done |].
    pose proof (seg_width _ Hc r Hin). pose proof (Hsel r Hin). lia. }
  set (l := guest_state_fields c gdt (MsrData_into_u64 (rdmsr Efer m)) rip).
  assert (forall k, (k <= 21)%nat -> 0 <= stores (take k l) 0) as Hpos.
  { intros k Hk. apply stores_nonneg; [| done]. pose proof (guest_stores_ok c gdt _ 0 rip Hc He ltac:(lia) Hr) as Hl.
    apply (stores_ok_take k) in Hl. unfold guest_fields in Hl. by rewrite take_app_le in Hl. }
  destruct guest_registers as (Erf & Ecd & Enw).
  unfold init_guest_state. cbn [read cs_sel ss_sel es_sel ds_sel cr3_bits cr4_bits dr6_bits dr7_bits
    Cs_Register Ss_Register Es_Register Ds_Register Cr3_Register Cr4_Register Dr6_Register Dr7_Register].
  unfold read_gdtr, read_rsp, FullSegmentSelector_from, Vmcb_uninit, ALL_EXCEPTIONS.
  rewrite (proj2 (Z.eqb_neq _ _) Hb), bind_Done.
  rewrite (Hrs 0%nat CS eq_refl), (Hrs 1%nat SS eq_refl), (Hrs 2%nat ES eq_refl), (Hrs 3%nat DS eq_refl), Erf, Ecd.
  cbn zeta. rewrite (bind_Done (full_selector _ _)). cbn beta. rewrite (bind_Done (2 ^ 16)). cbn beta.
  rewrite (bind_Done (full_selector _ _)). cbn beta. rewrite (bind_Done (2 ^ 30)). cbn beta. rewrite Enw.
  rewrite (bind_Done (2 ^ 30 + 2 ^ 29)). cbn beta. rewrite (bind_Done (full_selector _ _)). cbn beta.
  rewrite (bind_Done (full_selector _ _)). cbn beta.
  pose proof (Hpos 17%nat ltac:(lia)) as H17. pose proof (Hpos 18%nat ltac:(lia)) as H18.
  pose proof (Hpos 19%nat ltac:(lia)) as H19. pose proof (Hpos 20%nat ltac:(lia)) as H20.
  unfold_stores l H17. unfold_stores l H18. unfold_stores l H19. unfold_stores l H20.
  rewrite (set_intercept_ok "vmrun"), bind_Done; [| place_solve | by vm_compute | by vm_compute | exact H17].
  rewrite (set_intercept_ok "cpuid"), bind_Done; [| place_solve | by vm_compute | by vm_compute | exact H18].
  rewrite (set_intercept_ok "hlt"), bind_Done; [| place_solve | by vm_compute | by vm_compute | exact H19].
  rewrite (set_intercept_ok "exceptions"), bind_Done; [| place_solve | by vm_compute | by vm_compute | exact H20].
  let t := eval cbv [l guest_state_fields] in l in change l with t. rewrite !stores_cons, stores_nil. cbn [fst snd]. reflexivity.
Qed.

Lemma init_guest_fields c gdt m asids asids' asid rip : host_ok c gdt m -> 0 <= rip < 2 ^ 64 ->
  IdTracker_allocate asids = Done (Ok asid, asids') -> 0 < asid < 2 ^ 32 ->
  init_guest_state c gdt m asids Vmcb_uninit rip =
    if guest_accepted c m then Done (stores (guest_of c gdt m asid rip) 0, asids') else Panic Asserted.
Proof.
  intros Hh Hr Ea Ha. pose proof (msr_u64_bound _ (proj1 (host_efer _ _ _ Hh)) (proj2 (host_efer _ _ _ Hh))) as He.
  rewrite init_guest_prefix by done. rewrite Ea, bind_Done. cbn [unwrap_ok]. rewrite bind_Done, Z.mod_small by lia.
  set (l := guest_of c gdt m asid rip). assert (stores_ok l) as Hl by (apply guest_stores_ok; apply Hh || lia).
  assert (forall x, store (control "guest_asid") asid (stores (guest_state_fields c gdt (MsrData_into_u64 (rdmsr Efer m)) rip) x) =
    stores l x) as ->. { intros x. unfold l, guest_of, guest_fields. by rewrite stores_app, stores_cons, stores_nil. }
  assert (forall i f, l !! i = Some f -> load f.1 (stores l 0) = f.2) as Hf.
  { intros i [p v] E. apply load_stores; [done | by eapply list_elem_of_lookup_2]. }
  pose proof (reg_width _ (host_regs _ _ _ Hh)) as Hreg. cbn zeta.
  rewrite (sanity_ok (stores l 0) (MsrData_into_u64 (rdmsr Efer m)) (regs c CR3) (regs c CR4) (regs c DR6) (regs c DR7));
    [| apply Hreg | apply Hreg | apply Hreg | apply Hreg | exact (Hf 9%nat _ eq_refl) | exact (Hf 6%nat _ eq_refl)
     | exact (Hf 7%nat _ eq_refl) | exact (Hf 8%nat _ eq_refl) | exact (Hf 14%nat _ eq_refl) | exact (Hf 15%nat _ eq_refl)
     | exact (Hf 17%nat _ eq_refl) |].
  - by destruct (guest_accepted c m) eqn:Eg; unfold guest_accepted in Eg; rewrite Eg.
  - pose proof (Hf 21%nat _ eq_refl) as E. cbn [fst snd] in E. rewrite E. lia.
Qed.

(** ASIDs that fit in the field of the VMCB. *)
Definition asids_ok (t : IdTracker) : Prop :=
  IdTracker_wf t /\ 0 < pool_min (pool_of t) /\
  pool_min (pool_of t) + Z.of_nat (length (pool_taken (pool_of t))) <= 2 ^ 32.

Lemma asid_range t asid p : asids_ok t -> pool_allocate (pool_of t) = (Ok asid, p) -> 0 < asid < 2 ^ 32.
Proof.
  intros (_ & Hmin & Hmax) E. unfold pool_allocate in E. destruct (first_free _) as [i |] eqn:Ef; [| done].
  injection E as <- _. pose proof (first_free_lt _ _ Ef). cbn [pool_of pool_min pool_taken] in *. lia.
Qed.

Lemma guest_of_ok c gdt m asid rip : host_ok c gdt m -> 0 <= rip < 2 ^ 64 -> 0 < asid < 2 ^ 32 -> stores_ok (guest_of c gdt m asid rip).
Proof. intros Hh Hr Ha. apply guest_stores_ok; [apply Hh | apply msr_u64_bound; apply Hh | lia | done]. Qed.

Lemma init_guest_done c gdt m asids asids' vmcb rip : host_ok c gdt m -> 0 <= rip < 2 ^ 64 -> asids_ok asids ->
  init_guest_state c gdt m asids Vmcb_uninit rip = Done (vmcb, asids') ->
  exists asid, stores_ok (guest_of c gdt m asid rip) /\ vmcb = stores (guest_of c gdt m asid rip) 0.
Proof.
  intros Hh Hr Ha E. destruct (IdTracker_allocate_ok asids (proj1 Ha)) as (r & t & Et & Hp & _).
  destruct r as [asid | e]; [| by rewrite init_guest_prefix, Et in E by done].
  pose proof (asid_range _ _ _ Ha (eq_sym Hp)) as Hid. rewrite (init_guest_fields _ _ _ _ _ _ _ Hh Hr Et Hid) in E.
  destruct (guest_accepted c m); [| done]. exists asid. split; [by apply guest_of_ok |].
  generalize dependent (stores (guest_of c gdt m asid rip) 0). intros x [= <- _]. done.
Qed.

(** The segment registers that a guest is given, by their field. *)
Definition guest_segments : list (string * reg) := [("cs", CS); ("ss", SS); ("es", ES); ("ds", DS)].

Lemma null_full_selector gdt sel : 0 <= sel < 64 -> gdt !! 0%nat = Some 0 -> full_selector gdt sel = mkFullSelector sel 0 0 0.
Proof.
  intros Hs E. unfold full_selector. rewrite Z.div_div by lia. change (8 * 8) with 64. rewrite Z.div_small by lia.
  change (Z.to_nat 0) with 0%nat. rewrite E. cbn [default from_option id].
  assert (descriptor_access 0 = 0 /\ descriptor_limit 0 = 0 /\ descriptor_base 0 = 0) as (-> & -> & ->) by (by vm_compute). done.
Qed.

(** C18: a new guest, for any processor state with selectors below 384 (above,
    the lookup in the GDT fails).  If the sanity checks accept the registers
    ([guest_accepted]), every field the code sets reads as it was set, all
    other bits of the control block are zero and the ASID is taken from the
    pool; if they do not, or with no ASID left, the kernel stops.  A segment is
    set from the descriptor 8 times below the one that its selector names: for
    every selector of the GDT of the boot (below 64) that is the null
    descriptor, so the guest gets the selector with no attributes, limit 0 and
    base 0, whatever the segment it names. *)
Theorem init_guest_state_correct c gdt m asids rip : host_ok c gdt m -> 0 <= rip < 2 ^ 64 -> asids_ok asids ->
  match pool_allocate (pool_of asids) with
  | (Ok asid, p) =>
      if guest_accepted c m then
        exists vmcb asids', init_guest_state c gdt m asids Vmcb_uninit rip = Done (vmcb, asids') /\
          pool_of asids' = p /\ IdTracker_wf asids' /\
          (forall q v, (q, v) ∈ guest_of c gdt m asid rip -> load q vmcb = v) /\
          (forall i, 0 <= i -> covered (guest_of c gdt m asid rip) i = false -> Z.testbit vmcb i = false) /\
          (forall name r, (name, r) ∈ guest_segments -> regs c r < 64 -> gdt !! 0%nat = Some 0 ->
             load (state_save name) vmcb = mkFullSelector (regs c r) 0 0 0)
      else init_guest_state c gdt m asids Vmcb_uninit rip = Panic Asserted
  | (Err _, _) => init_guest_state c gdt m asids Vmcb_uninit rip = Panic Unwrapped
  end.
Proof.
  intros Hh Hr Ha. destruct (IdTracker_allocate_ok asids (proj1 Ha)) as (r & asids' & E & Hp & Hwf').
  destruct (pool_allocate (pool_of asids)) as [[asid | e] p] eqn:Ep; apply pair_equal_spec in Hp as [-> <-].
  - pose proof (asid_range _ _ _ Ha Ep) as Hid.
    rewrite (init_guest_fields _ _ _ _ _ _ _ Hh Hr E Hid). destruct (guest_accepted c m); [| done].
    pose proof (guest_of_ok c gdt m asid rip Hh Hr Hid) as Hl.
    assert (forall q v, (q, v) ∈ guest_of c gdt m asid rip -> load q (stores (guest_of c gdt m asid rip) 0) = v) as Hf
      by (intros q v; by apply load_stores).
    eexists _, _. split; [done |]. split_and!; [done | done | done | |].
    + intros i Hi Hc. by rewrite stores_frame, Z.bits_0.
    + intros name r Hin Hlt H0'. assert (r ∈ [CS; SS; ES; DS]) as Hrin.
      { apply (list_elem_of_fmap_2 snd) in Hin. exact Hin. }
      rewrite <- (null_full_selector gdt) by (done || pose proof (seg_width _ (host_regs _ _ _ Hh) r Hrin); lia).
      apply Hf. unfold guest_of, guest_fields. apply elem_of_app. left.
      apply list_elem_of_In in Hin. destruct Hin as [[= <- <-] | [[= <- <-] | [[= <- <-] | [[= <- <-] | []]]]];
        [apply (list_elem_of_lookup_2 _ 0) | apply (list_elem_of_lookup_2 _ 4) | apply (list_elem_of_lookup_2 _ 12)
         | apply (list_elem_of_lookup_2 _ 13)]; reflexivity.
  - by rewrite init_guest_prefix, E.
Qed.
End guest.

(** ** Intercepts and exit codes *)

(** The single-bit intercepts with the exit code each is reported with. *)
Definition named_intercepts : list (string * InterceptCode) := [
  ("intr", Code.Intr); ("nmi", Code.Nmi); ("smi", Code.Smi); ("init", Code.Init); ("virtual_intr", Code.VirtualIntr);
  ("cr0_sel_write", Code.Cr0SelWrite); ("idtr_read", Code.IdtrRead); ("gdtr_read", Code.GdtrRead);
  ("ldtr_read", Code.LdtrRead); ("tr_read", Code.TrRead); ("idtr_write", Code.IdtrWrite);
  ("gdtr_write", Code.GdtrWrite); ("ldtr_write", Code.LdtrWrite); ("tr_write", Code.TrWrite); ("rdtsc", Code.Rdtsc);
  ("rdpmc", Code.Rdpmc); ("pushf", Code.Pushf); ("popf", Code.Popf); ("cpuid", Code.Cpuid); ("rsm", Code.Rsm);
  ("iret", Code.Iret); ("intn", Code.Swint); ("invd", Code.Invd); ("pause", Code.Pause); ("hlt", Code.Hlt);
  ("invlpg", Code.Invlpg); ("invlpga", Code.Invlpga); ("ioio_prot", Code.ExitIoio); ("msr_prot", Code.Msr);
  ("task_switch", Code.TaskSwitch); ("f_err_freeze", Code.FErrFreeze); ("shutdown", Code.Shutdown);
  ("vmrun", Code.Vmrun); ("vmmcall", Code.Vmmcall); ("vmload", Code.Vmload); ("vmsave", Code.Vmsave);
  ("stgi", Code.Stgi); ("clgi", Code.Clgi); ("skinit", Code.Skinit); ("rdtscp", Code.Rdtscp); ("icebp", Code.Icebp);
  ("wbinvd", Code.Wbinvd); ("monitor", Code.Monitor); ("mwait", Code.Mwait);
  ("mwait_conditional", Code.MwaitConditional); ("xsetbv", Code.Xsetbv); ("rdpru", Code.Rdpru);
  ("efer_write", Code.EferWriteTrap); ("invlpgb_all", Code.Invlpgb); ("invlpgb_illegal", Code.InvlpgbIllegal);
  ("invpcid", Code.Invpcid); ("mcommit", Code.Mcommit); ("tlbsync", Code.Tlbsync); ("bus_lock", Code.BusLock);
  ("idle_hlt", Code.IdleHlt)].

(** The groups: the code of the first bit. *)
Definition intercept_groups : list (string * Z * InterceptCode) := [
  ("cr_reads", 16, Code.Cr0Read); ("cr_writes", 16, Code.Cr0Write); ("dr_reads", 16, Code.Dr0Read);
  ("dr_writes", 16, Code.Dr0Write); ("exceptions", 32, Code.Exception0); ("cr_writes_foo", 16, Code.Cr0WriteTrap)].

(** The places of all fields of a VMCB. *)
Definition vmcb_places : list place := (map control ControlArea.*1 ++ map state_save StateSaveArea.*1)%list.

(** The structures have the layout of the architecture: the control area
    is 0x400 bytes, a VMCB one page, the fields tested are at the offsets the
    tests name, no two fields of a VMCB share a bit or leave its page, and
    every intercept is the bit whose number is the exit code it causes. *)
Theorem vmcb_layout_correct :
  size_of ControlArea = 0x400 /\ size_of_Vmcb = 4096 /\
  (at_ VmcbInner "control").1 = 0 /\ offset_of VmcbInner "state_save" = Some 0x400 /\
  map (offset_of ControlArea) ["pause_filter_thershold"; "guest_asid"; "vintr"; "exitcode"; "exitintinfo"; "event_injection"; "n_cr3"]
    = map Some [0x3c; 0x58; 0x60; 0x70; 0x88; 0xa8; 0xb0] /\
  map (offset_of StateSaveArea) ["es"; "cs"; "gdtr"; "idtr"; "cpl"; "efer"; "cr4"; "cr3"; "cr0"; "dr7"; "dr6"; "rflags"; "rip"; "rsp";
      "rax"; "cr2"; "g_pat"; "dbg_extn_ctl"; "spec_ctrl"; "ic_ibs_extd_ctl"]
    = map Some [0x0; 0x10; 0x60; 0x80; 0xcb; 0xd0; 0x148; 0x150; 0x158; 0x160; 0x168; 0x170; 0x178; 0x1d8;
      0x1f8; 0x240; 0x268; 0x298; 0x2e0; 0x7c0] /\
  places_ok vmcb_places /\ Forall (fun p : place => p.1 + p.2 <= 8 * size_of_Vmcb) vmcb_places /\
  Forall (fun f : string * InterceptCode => field Intercepts f.1 = Some (Code.InterceptCode_repr f.2, 1)) named_intercepts /\
  Forall (fun f : string * Z * InterceptCode => field Intercepts f.1.1 = Some (Code.InterceptCode_repr f.2, f.1.2)) intercept_groups.
Proof. apply (bool_decide_unpack _). by vm_compute. Qed.

Section exits.
Context `{BitfieldLaws}.

(** Writing any of the intercepts changes exactly the bits of its field. *)
Lemma set_intercept_bits name o w v vmcb : field Intercepts name = Some (o, w) -> 0 <= o -> 0 < w -> o + w <= 192 ->
  0 <= v < 2 ^ w -> 0 <= vmcb ->
  exists y, set_intercept name v vmcb = Done y /\
    forall i, 0 <= i -> Z.testbit y i = if (o <=? i) && (i <? o + w) then Z.testbit v (i - o) else Z.testbit vmcb i.
Proof.
  intros Hf Ho Hw Hin Hv Hx. assert (at_ Intercepts name = (o, w)) as Ea by (by apply at_field).
  assert (control "intercepts" = (0, 192)) as Ec by (by vm_compute).
  exists (store (intercept name) v vmcb). split.
  - apply set_intercept_ok; rewrite ?Ea; done.
  - intros i Hi. assert (intercept name = (o, w)) as Ei by (unfold intercept, inside; by rewrite Ec, Ea).
    rewrite store_bits; rewrite ?Ei; done.
Qed.

(** C19: the intercepts of a control block and the exit codes are one
    numbering.  For each of the 55 single intercepts, setting it in any control
    block sets the bit whose number is the exit code that reports it, and no
    other bit of the block; for each group (the accesses to control and debug
    registers, the exceptions) the bits written are those numbered by its
    exit codes.  Exit codes are distinct as the 64 bits of the field, and each
    is read back from its bits. *)
Theorem set_intercept_correct vmcb : 0 <= vmcb ->
  (forall name code, (name, code) ∈ named_intercepts -> exists y, set_intercept name 1 vmcb = Done y /\
     forall i, 0 <= i -> Z.testbit y i = (i =? Code.InterceptCode_repr code) || Z.testbit vmcb i) /\
  (forall name w code v, (name, w, code) ∈ intercept_groups -> 0 <= v < 2 ^ w -> exists y, set_intercept name v vmcb = Done y /\
     forall i, 0 <= i -> Z.testbit y i =
       let k := i - Code.InterceptCode_repr code in if (0 <=? k) && (k <? w) then Z.testbit v k else Z.testbit vmcb i) /\
  (forall bits code, InterceptCode_from_bits bits = Some code <-> bits = i64_bits (Code.InterceptCode_repr code)).
Proof.
  intros Hx. split; [| split].
  - assert (Forall (fun f : string * InterceptCode => field Intercepts f.1 = Some (Code.InterceptCode_repr f.2, 1) /\
      0 <= Code.InterceptCode_repr f.2 < 192) named_intercepts) as Hall by (apply (bool_decide_unpack _); by vm_compute).
    rewrite Forall_forall in Hall. intros name code Hin. destruct (Hall _ Hin) as [Hf Hr]. cbn [fst snd] in *.
    destruct (set_intercept_bits name _ 1 1 vmcb Hf) as (y & E & Hb); [lia .. | done |].
    exists y. split; [done |]. intros i Hi. rewrite Hb by done. set (o := Code.InterceptCode_repr code) in *.
    destruct (Z.eqb_spec i o) as [-> | Hne].
    + by rewrite (proj2 (Z.leb_le _ _)), (proj2 (Z.ltb_lt _ _)), Z.sub_diag by lia.
    + by replace ((o <=? i) && (i <? o + 1)) with false by lia.
  - assert (Forall (fun f : string * Z * InterceptCode => field Intercepts f.1.1 = Some (Code.InterceptCode_repr f.2, f.1.2) /\
      0 <= Code.InterceptCode_repr f.2 /\ 0 < f.1.2 /\ Code.InterceptCode_repr f.2 + f.1.2 <= 192) intercept_groups) as Hall
      by (apply (bool_decide_unpack _); by vm_compute).
    rewrite Forall_forall in Hall. intros name w code v Hin Hv. destruct (Hall _ Hin) as (Hf & Ho & Hw & Hr). cbn [fst snd] in *.
    destruct (set_intercept_bits name _ w v vmcb Hf Ho Hw Hr Hv Hx) as (y & E & Hb).
    exists y. split; [done |]. intros i Hi. rewrite Hb by done. cbn zeta. set (o := Code.InterceptCode_repr code) in *.
    by replace ((0 <=? i - o) && (i - o <? w)) with ((o <=? i) && (i <? o + w)) by lia.
  - intros bits code. split; [apply from_bits_inv | intros ->; apply from_bits_repr].
Qed.

(** What a guest is stopped at: VMRUN, CPUID, HLT and every exception. *)
Definition intercepted (c : InterceptCode) : bool :=
  match c with
  | Code.Vmrun | Code.Cpuid | Code.Hlt => true
  | _ => (0x40 <=? Code.InterceptCode_repr c) && (Code.InterceptCode_repr c <? 0x60)
  end.

(** What [handle_vmexit] returns from. *)
Definition handled (c : InterceptCode) : option log_line :=
  match c with
  | Code.Cpuid => Some CpuidIntercept
  | Code.Hlt => Some HltIntercept
  | Code.Vmrun | Code.Vmload | Code.Vmsave => Some NestedNotSupported
  | _ => None
  end.

Lemma handle_vmexit_ok vmcb c : load (control "exitcode") vmcb = i64_bits (Code.InterceptCode_repr c) ->
  handle_vmexit vmcb =
    if load (inside (control "exitintinfo") (at_ ExitIntInfo "valid")) vmcb =? 0 then
      match handled c with Some line => Done [VmexitWith c; line] | None => Panic Asserted end
    else Panic Asserted.
Proof.
  intros E. unfold handle_vmexit, handle_intercept_during_int. rewrite E, from_bits_repr. cbn [unwrap]. rewrite bind_Done.
  rewrite bf_get_load; [| place_solve | apply load_fits; place_solve].
  rewrite load_inside; [| place_solve | place_solve | by vm_compute]. destruct (_ =? 0); [| done]. rewrite bind_Done. by destruct c.
Qed.

Lemma intercept_bit (l : list (place * Z)) x name v i : stores_ok l -> (intercept name, v) ∈ l ->
  (intercept name).1 <= i < (intercept name).1 + (intercept name).2 -> 0 <= (intercept name).1 ->
  Z.testbit (stores l x) i = Z.testbit v (i - (intercept name).1).
Proof.
  intros Hl Hin Hi H0'. rewrite <- (load_stores l x _ _ Hl Hin). unfold load. rewrite bits_at_testbit by lia.
  rewrite (proj2 (Z.ltb_lt _ _)) by lia. cbn [andb]. f_equal. lia.
Qed.

(** The places of [guest_of], whatever the values. *)
Definition guest_places : list place :=
  (guest_fields (mkProcessor (fun _ => 0) (mkTablePtr 0 0) (mkTablePtr 0 0)) [] 0 0 0).*1.

Lemma covered_places l i : covered l i = existsb (fun p : place => in_field p.1 p.2 i) l.*1.
Proof. induction l as [| f l IH]; [done |]. cbn. by rewrite <- IH. Qed.

Lemma intercepted_spec c : let i := Code.InterceptCode_repr c in
  intercepted c = ((i =? 0x80) || (i =? 0x72) || (i =? 0x78) || ((0x40 <=? i) && (i <? 0x60))).
Proof. by destruct c. Qed.

(** C20: of all exit codes an intercept bit stands for, a new guest exits for
    exactly VMRUN, CPUID, HLT and the 32 exceptions. *)
Theorem guest_intercepts_exactly c gdt m asids asids' vmcb rip code : host_ok c gdt m -> 0 <= rip < 2 ^ 64 ->
  asids_ok asids -> init_guest_state c gdt m asids Vmcb_uninit rip = Done (vmcb, asids') ->
  0 <= Code.InterceptCode_repr code < 192 ->
  Z.testbit (load (control "intercepts") vmcb) (Code.InterceptCode_repr code) = intercepted code.
Proof.
  intros Hh Hr Ha E Hc. destruct (init_guest_done _ _ _ _ _ _ _ Hh Hr Ha E) as (asid & Hl & ->).
  set (i := Code.InterceptCode_repr code) in *. assert (control "intercepts" = (0, 192)) as Ep by (by vm_compute).
  unfold load. rewrite Ep. cbn [fst snd]. rewrite bits_at_testbit, (proj2 (Z.ltb_lt _ _)), Z.add_0_l by lia. cbn [andb].
  assert (forall k name o w v, guest_of c gdt m asid rip !! k = Some (intercept name, v) -> intercept name = (o, w) ->
    0 <= o <= i -> i < o + w -> Z.testbit (stores (guest_of c gdt m asid rip) 0) i = Z.testbit v (i - o)) as Hb.
  { intros k name o w v Hk%list_elem_of_lookup_2 En Ho Hw. rewrite (intercept_bit _ 0 name v i Hl Hk), En; [done | rewrite En; cbn; lia ..]. }
  subst i. rewrite intercepted_spec. set (i := Code.InterceptCode_repr code) in *.
  destruct (Z.eqb_spec i 0x80) as [Ei | N1]; [by rewrite (Hb 17%nat "vmrun" 0x80 1 1), Ei by (done || lia) |].
  destruct (Z.eqb_spec i 0x72) as [Ei | N2]; [by rewrite (Hb 18%nat "cpuid" 0x72 1 1), Ei by (done || lia) |].
  destruct (Z.eqb_spec i 0x78) as [Ei | N3]; [by rewrite (Hb 19%nat "hlt" 0x78 1 1), Ei by (done || lia) |].
  cbn [orb]. destruct (Z.leb_spec 0x40 i) as [H1 | H1], (Z.ltb_spec i 0x60) as [H2 | H2]; cbn [andb].
  1: { rewrite (Hb 20%nat "exceptions" 0x40 32 (2 ^ 32 - 1)) by (done || lia). change (2 ^ 32 - 1) with (Z.ones 32). apply Z.ones_spec_low. lia. }
  all: rewrite stores_frame, Z.bits_0; [done | done | lia |].
  all: rewrite covered_places; change ((guest_of c gdt m asid rip).*1) with guest_places.
  all: apply not_true_is_false; intros (p & Hp & Hi)%existsb_exists; unfold in_field in Hi; apply andb_prop in Hi as [Hi1%Z.leb_le Hi2%Z.ltb_lt].
  all: assert (Forall (fun p : place => p = (0x80, 1) \/ p = (0x72, 1) \/ p = (0x78, 1) \/ p = (0x40, 32) \/ 192 <= p.1) guest_places) as Hall
    by (apply (bool_decide_unpack _); by vm_compute).
  all: rewrite Forall_forall in Hall; specialize (Hall p (proj2 (list_elem_of_In _ _) Hp)); destruct Hall as [-> | [-> | [-> | [-> | Hge]]]]; cbn [fst snd] in *; lia.
Qed.
End exits.

(** ** Running and creating vessels *)
Section vessels.
Context {P : Type} `{PmmAllocator P} `{BitfieldLaws} {G : Type} `{PageLaws G} (hhdm cr3_top_pml : Z).

(** The two outcomes of a run. *)
Lemma Vmcb_run_ok vmrun_ (s : PtState P) ptr vmcb o code : translate hhdm cr3_top_pml s ptr = Done o ->
  (forall phys, o = Some phys -> load (control "exitcode") (vmrun_ phys vmcb) = i64_bits (Code.InterceptCode_repr code)) ->
  Vmcb_run hhdm cr3_top_pml vmrun_ s ptr vmcb =
    match o with
    | None => Panic Unwrapped
    | Some phys =>
        if (phys mod BASIC_PAGE_SIZE =? 0) &&
           (load (inside (control "exitintinfo") (at_ ExitIntInfo "valid")) (vmrun_ phys vmcb) =? 0) then
          match handled code with
          | Some line => Done (vmrun_ phys vmcb, [VmexitWith code; line])
          | None => Panic Asserted
          end
        else Panic Asserted
    end.
Proof.
  intros Et Hc. unfold Vmcb_run, vmrun. rewrite Et, bind_Done. destruct o as [phys |]; [| done]. cbn [unwrap].
  rewrite bind_Done. destruct (phys mod BASIC_PAGE_SIZE =? 0); cbn [assert_ andb]; [| done]. rewrite bind_Done.
  rewrite bind_Done, (handle_vmexit_ok _ code) by (by apply Hc). destruct (_ =? 0); [| done].
  by destruct (handled code).
Qed.

(** C21: a run of a VMCB: when its memory is not mapped, or not at the start of
    a physical page, nothing is run; otherwise the processor runs the guest,
    and the exit is survived exactly when it is a CPUID, a HLT or a VMRUN,
    VMLOAD or VMSAVE outside the delivery of an interrupt: every other exit,
    those for the intercepted exceptions included, stops the hypervisor. *)
Theorem vmcb_run_correct vmrun_ (s : PtState P) ptr vmcb o code : translate hhdm cr3_top_pml s ptr = Done o ->
  (forall phys, o = Some phys -> load (control "exitcode") (vmrun_ phys vmcb) = i64_bits (Code.InterceptCode_repr code)) ->
  Vmcb_run hhdm cr3_top_pml vmrun_ s ptr vmcb =
    match o with
    | None => Panic Unwrapped
    | Some phys =>
        if (phys mod BASIC_PAGE_SIZE =? 0) &&
           (load (inside (control "exitintinfo") (at_ ExitIntInfo "valid")) (vmrun_ phys vmcb) =? 0) then
          match handled code with
          | Some line => Done (vmrun_ phys vmcb, [VmexitWith code; line])
          | None => Panic Asserted
          end
        else Panic Asserted
    end.
Proof. exact (Vmcb_run_ok vmrun_ s ptr vmcb o code). Qed.

Lemma layout_Vmcb_page : layout_Vmcb = mkLayout 4096 4096.
Proof. by vm_compute. Qed.

(** C37: a VMCB takes a whole page, which leaves no room for the node of its
    slab: no vessel can be created.  Whatever the memory, the processor, the
    ids and the page service, the first attempt stops the kernel.  With a page
    to give, the slab allocator takes one, keeps it, and has no object in it;
    without one it fails as the page service does; both errors are unwrapped. *)
Theorem vessel_new_fails vids c gdt m asids (mem : SlabMem G) a rip : VMCB_ALLOCATOR = Done a ->
  (exists p, Vessel_new vids c gdt m asids mem a rip = Panic p) /\
  (forall others k, pages_inv (paging mem) others (S k) ->
     exists m' a' b, InternalSlabAllocator_allocate mem a = Done (Err SlabFullInternalError, m', a') /\
       pages_inv (paging m') (b :: others) k) /\
  (forall e g, allocate_pages (paging mem) 1 = Done (Err e, g) ->
     InternalSlabAllocator_allocate mem a = Done (Err SlabPagingError, mkSlabMem (objs mem) (nodes mem) g, a)).
Proof.
  unfold VMCB_ALLOCATOR, SlabAllocator_new. rewrite layout_Vmcb_page. intros Ea.
  assert (adjusted_ok (mkLayout 4096 4096)) as Hl by (apply ex_adjusted; auto 20).
  assert (4040 < Slab.size (adjust_layout (mkLayout 4096 4096))) as Hs by (by vm_compute). split; [| split].
  - pose proof (page_sized_gives_none mem _ a Hs Ea) as Hn. unfold Vessel_new, Vmcb_new, SlabAllocator_allocate.
    destruct (IdHander_handout vids) as [[[id |] vids'] | ?]; [| by eexists ..]. rewrite bind_Done. cbn [unwrap]. rewrite bind_Done.
    change (layout_eqb layout_Vmcb layout_Vmcb) with true. cbn [assert_]. rewrite bind_Done.
    destruct (InternalSlabAllocator_allocate mem a) as [[[[ptr | e] m'] a'] | ?]; [done | by eexists ..].
  - intros others k Hinv. destruct (slab_page_sized_fails mem _ a others k Hl Hs Hinv Ea) as (m' & a' & b & E & Hp & _). eauto 6.
  - intros e g E. by eapply page_sized_refused.
Qed.
End vessels.

(** ** Witnesses: an AMD processor with eight ASIDs in long mode *)
#[local] Existing Instance plain_bitfields.
#[local] Existing Instance plain_bitfield_laws.

Definition ex_cpuid (leaf : Z) : CpuidResult := mkCpuid 0 8 4 0.
Definition ex_msrs (a : Z) : MsrData := if a =? 0xC0000080 then mkMsrData 0xd01 0 else mkMsrData 0 0.
Definition ex_svm_msrs (a : Z) : MsrData := if a =? 0xC0000080 then mkMsrData 0x1d01 0 else mkMsrData 0 0.
Definition ex_regs (r : reg) : Z :=
  match r with
  | CS => 0x28 | DS | SS | ES => 0x30
  | CR3 => 0x6000 | CR4 => 0x20 | RSP => 0xffff800000010000 | DR6 => 0xffff0ff0 | DR7 => 0x400
  | _ => 0
  end.
Definition ex_processor : Processor := mkProcessor ex_regs (mkTablePtr 55 0xffff800000001000) (mkTablePtr 4095 0xffff800000002000).
Definition ex_gdt : Gdt := [0; 0x00009a000000ffff; 0x000093000000ffff; 0x00cf9a000000ffff; 0x00cf93000000ffff; 0x00209a0000000000].
Definition ex_asids : IdTracker := match IdTracker_new 1 8 with Done t => t | Panic _ => IdTracker_uninit end.
Definition ex_svm : SvmState (list PhysAddr) := mkSvmState ex_msrs IdTracker_uninit ex_paging (fun _ => 0xff).

Lemma ex_asids_ok : asids_ok ex_asids.
Proof.
  destruct (IdTracker_new_ok 1 8 ltac:(lia) ltac:(unfold usize_MAX; lia)) as (t & E & Hwf & Hp).
  unfold ex_asids. rewrite E. split; [done |]. rewrite Hp. split; by vm_compute.
Qed.

Lemma ex_host_ok : host_ok ex_processor ex_gdt ex_svm_msrs.
Proof.
  split; [split | done | | |].
  - intros r Hr%list_elem_of_In. destruct Hr as [<- | [<- | [<- | [<- | []]]]]; by vm_compute.
  - intros r. by destruct r; vm_compute.
  - by vm_compute.
  - by vm_compute.
  - split; [done |]. repeat constructor; by vm_compute.
  - intros r Hr%list_elem_of_In. destruct Hr as [<- | [<- | [<- | [<- | []]]]]; by vm_compute.
  - by vm_compute.
Qed.

Lemma svm_start_correct_witness : (exists s', Svm_start ex_boot_hhdm 6 ex_cpuid ex_svm = Done s' /\
    MsrData_into_u64 (rdmsr Efer (svm_msrs s')) = 0x1d01 /\
    pool_of (ASID_ALLOCATOR s') = mkPool 1 (replicate 8 false)) /\
  Svm_start ex_boot_hhdm 6 (fun _ => mkCpuid 0 8 0 0) ex_svm = Panic Asserted.
Proof.
  split; [| apply (svm_start_correct ex_boot_hhdm 6 (fun _ => mkCpuid 0 8 0 0) ex_svm [] 3);
    [by vm_compute | by vm_compute | by vm_compute | apply ex_paging_inv; lia]].
  destruct (svm_start_correct ex_boot_hhdm 6 ex_cpuid ex_svm [] 3) as (s' & va & phys & E & He & _ & _ & _ & _ & _ & _ & _ & _ & _ & _ & Hp);
    [by vm_compute | by vm_compute | by vm_compute | apply ex_paging_inv; lia |].
  exists s'. split; [exact E |]. split; [exact He | exact Hp].
Defined.

Lemma init_guest_state_correct_witness : exists vmcb t,
  init_guest_state ex_processor ex_gdt ex_svm_msrs ex_asids Vmcb_uninit 0x40000 = Done (vmcb, t) /\
  load (state_save "rip") vmcb = 0x40000 /\ load (state_save "cr3") vmcb = 0x6000 /\ load (control "guest_asid") vmcb = 1 /\
  load (state_save "cs") vmcb = mkFullSelector 0x28 0 0 0 /\ Z.testbit vmcb 0 = false.
Proof.
  assert (pool_allocate (pool_of ex_asids) = (Ok 1, snd (pool_allocate (pool_of ex_asids)))) as Ep by (by vm_compute).
  pose proof (init_guest_state_correct ex_processor ex_gdt ex_svm_msrs ex_asids 0x40000 ex_host_ok ltac:(lia) ex_asids_ok) as Hc.
  rewrite Ep in Hc. assert (guest_accepted ex_processor ex_svm_msrs = true) as Eg by (by vm_compute). rewrite Eg in Hc.
  destruct Hc as (vmcb & t & E & _ & _ & Hf & H0 & Hnull). exists vmcb, t. split; [exact E |].
  assert (forall i q v, guest_of ex_processor ex_gdt ex_svm_msrs 1 0x40000 !! i = Some (q, v) -> load q vmcb = v) as Hi.
  { intros i q v Hl%list_elem_of_lookup_2. by apply Hf. }
  split; [exact (Hi 1%nat _ _ eq_refl) |]. split; [exact (Hi 7%nat _ _ eq_refl) |]. split; [exact (Hi 21%nat _ _ eq_refl) |].
  split; [exact (Hnull "cs" CS (list_elem_of_here _ _) eq_refl eq_refl) |].
  apply H0; [lia | by vm_compute].
Defined.

Lemma set_intercept_correct_witness :
  (exists y, set_intercept "shutdown" 1 0 = Done y /\ Z.testbit y 0x7f = true /\ Z.testbit y 0x80 = false) /\
  (exists y, set_intercept "cr_writes" 0x8001 0 = Done y /\ Z.testbit y 0x1f = true /\ Z.testbit y 0x1e = false).
Proof.
  destruct (set_intercept_correct 0 ltac:(lia)) as (H1 & H2 & _). split.
  - destruct (H1 "shutdown" Code.Shutdown) as (y & E & Hb); [by apply (list_elem_of_lookup_2 _ 31) |]. exists y. split; [exact E |].
    split; rewrite Hb by lia; by vm_compute.
  - destruct (H2 "cr_writes" 16 Code.Cr0Write 0x8001) as (y & E & Hb); [by apply (list_elem_of_lookup_2 _ 1) | lia |].
    exists y. split; [exact E |]. split; rewrite Hb by lia; by vm_compute.
Defined.

Lemma ex_guest : exists vmcb t, init_guest_state ex_processor ex_gdt ex_svm_msrs ex_asids Vmcb_uninit 0x40000 = Done (vmcb, t).
Proof.
  destruct (IdTracker_allocate_ok ex_asids (proj1 ex_asids_ok)) as (r & t & Ea & Hp & _).
  assert (fst (pool_allocate (pool_of ex_asids)) = Ok 1) as Ep by (by vm_compute). rewrite <- Hp in Ep. cbn [fst] in Ep. subst r.
  pose proof (init_guest_fields ex_processor ex_gdt ex_svm_msrs ex_asids t 1 0x40000 ex_host_ok ltac:(lia) Ea ltac:(lia)) as E.
  assert (guest_accepted ex_processor ex_svm_msrs = true) as Eg by (by vm_compute). rewrite Eg in E. eexists _, t. exact E.
Qed.

Lemma guest_intercepts_exactly_witness : exists vmcb t,
  init_guest_state ex_processor ex_gdt ex_svm_msrs ex_asids Vmcb_uninit 0x40000 = Done (vmcb, t) /\
  Z.testbit (load (control "intercepts") vmcb) 0x78 = true /\ Z.testbit (load (control "intercepts") vmcb) 0x7f = false.
Proof.
  assert (0 <= 0x40000 < 2 ^ 64) as Hr by lia.
  assert (forall c, c = Code.Hlt \/ c = Code.Shutdown -> 0 <= Code.InterceptCode_repr c < 192) as Hc by (by intros c [-> | ->]).
  destruct ex_guest as (vmcb & t & E). exists vmcb, t. split; [exact E |]. split.
  - pose proof (guest_intercepts_exactly ex_processor ex_gdt ex_svm_msrs ex_asids t vmcb 0x40000 Code.Hlt
      ex_host_ok Hr ex_asids_ok E (Hc Code.Hlt (or_introl eq_refl))) as Hb.
    change (Code.InterceptCode_repr Code.Hlt) with 0x78 in Hb. change (intercepted Code.Hlt) with true in Hb. exact Hb.
  - pose proof (guest_intercepts_exactly ex_processor ex_gdt ex_svm_msrs ex_asids t vmcb 0x40000 Code.Shutdown
      ex_host_ok Hr ex_asids_ok E (Hc Code.Shutdown (or_intror eq_refl))) as Hb.
    change (Code.InterceptCode_repr Code.Shutdown) with 0x7f in Hb. change (intercepted Code.Shutdown) with false in Hb. exact Hb.
Defined.

(** The tables of [ex_paging] map nothing; a frame mapped by hand. *)
Lemma vmcb_run_correct_witness : exists g va phys,
  PagingManager_allocate_pages ex_boot_hhdm 6 ex_paging 1 rw size_4kb = Done (Ok va, g) /\
  Vmcb_run ex_boot_hhdm 6 (fun _ vmcb => store (control "exitcode") 0x78 vmcb) (tables g) va 0 =
    Done (store (control "exitcode") 0x78 0, [VmexitWith Code.Hlt; HltIntercept]) /\
  Vmcb_run ex_boot_hhdm 6 (fun _ vmcb => store (control "exitcode") 0x4e vmcb) (tables g) va 0 = Panic Asserted /\
  translate ex_boot_hhdm 6 (tables g) va = Done (Some phys).
Proof.
  destruct (kernel_allocate_page ex_boot_hhdm 6 ex_paging [] 3 (ex_paging_inv 4 ltac:(lia))) as (va & phys & g & E & Et & Hd).
  exists g, va, phys. split; [exact E |].
  pose proof (vmcb_run_correct ex_boot_hhdm 6 (fun _ vmcb => store (control "exitcode") 0x78 vmcb) (tables g) va 0 _ Code.Hlt Et
    ltac:(by vm_compute)) as E1.
  pose proof (vmcb_run_correct ex_boot_hhdm 6 (fun _ vmcb => store (control "exitcode") 0x4e vmcb) (tables g) va 0 _ Code.Exception14 Et
    ltac:(by vm_compute)) as E2.
  cbn beta iota in E1, E2. rewrite (proj2 (Z.mod_divide phys BASIC_PAGE_SIZE ltac:(done)) Hd) in E1, E2.
  split; [exact E1 |]. split; [exact E2 | exact Et].
Defined.

Lemma vessel_new_fails_witness : exists a, VMCB_ALLOCATOR = Done a /\
  (exists p, Vessel_new VID_ALLOCATOR ex_processor ex_gdt ex_svm_msrs ex_asids ex_slab_mem a 0x40000 = Panic p) /\
  exists m' a' b, InternalSlabAllocator_allocate ex_slab_mem a = Done (Err SlabFullInternalError, m', a') /\
    pages_inv (paging m') [b] 5.
Proof.
  destruct VMCB_ALLOCATOR as [a | ?] eqn:Ea; [| by vm_compute in Ea]. exists a. split; [done |].
  destruct (vessel_new_fails VID_ALLOCATOR ex_processor ex_gdt ex_svm_msrs ex_asids ex_slab_mem a 0x40000 Ea) as (Hp & Ht & _).
  split; [exact Hp | exact (Ht [] 5%nat (ex_slab_pages 6 ltac:(lia)))].
Defined.
