(* ===== verification/DevicePages.v ===== *)
(** * Device memory under the kernel's page service

    [map_pages] and [unmap_pages] of [kernel/src/mem/paging.rs] on single
    pages of device memory, whose physical pages belong to no allocator: they
    keep the invariant of the page service and the pages its clients hold. *)

From S2P Require Import Prelude Ids Pmm PageFlags Pages PageTable PageTableCorrect PageTableTheorems Paging BootMap KernelPages.

Section devices.
Context {P : Type} `{PmmLaws P} (hhdm cr3_top_pml : Z).
Implicit Types (s : PtState P) (g : Paging P).

#[local] Notation root := (pml cr3_top_pml).
#[local] Notation inv := (paging_inv hhdm cr3_top_pml).

(** [va] is mapped to [phys]. *)
Definition device_slot s (va : VirtAddr) (phys : PhysAddr) : Prop :=
  exists e, leaf_at (frames s) root 0 (vpath va 0) (next_level_index va 0) e /\
    Z.testbit e 9 = false /\ addr_bits 0 e = phys.

Lemma device_slot_translate s va va' phys : device_slot s va phys -> same_slot 0 va' va ->
  pt_translate (frames s) root va' = Some phys.
Proof.
  intros (e & (a & Hr & He & Hp & Hl) & _ & <-) [Hv Hi]. apply (look_leaf root (frames s) 0 a); rewrite ?Hv, ?Hi; done.
Qed.

Lemma page_va_offset i r : 0 <= i < 2 ^ 36 -> 0 <= r < BASIC_PAGE_SIZE -> same_slot 0 (page_va i + r) (page_va i).
Proof.
  intros Hi Hr. apply same_page_vpath; [lia |]. apply same_page_range; [lia | by exists i |].
  unfold low48, page_va in *. change (level_size 0) with BASIC_PAGE_SIZE. unfold BASIC_PAGE_SIZE in *.
  rewrite !Z.mod_small by lia. lia.
Qed.

Lemma paging_inv_le g held k k' : (k' <= k)%nat -> inv g held k -> inv g held k'.
Proof.
  intros Hk [Hi [Hn0 Hn] Hm Hf Hv Hh]. split; try done; [lia |]. revert Hf. apply free_pages_le. lia.
Qed.

Lemma slot_at_other i j : 0 <= i < 2 ^ 36 -> 0 <= j < 2 ^ 36 -> i <> j -> forall m : nat,
  ~ (m = 0%nat /\ vpath (page_va j) m = vpath (page_va i) 0 /\ next_level_index (page_va j) m = next_level_index (page_va i) 0).
Proof. intros Hi Hj Hne m (-> & H1 & H2). by apply (not_same_slot j i Hj Hi ltac:(lia)). Qed.

(** Device flags: of a page entry, not those the page tables use themselves. *)
Definition device_flags (flags : Flags) : Prop := 0 <= flags < 4096 /\ Z.testbit flags 7 = false /\ Z.testbit flags 9 = false.

Lemma map_device_ok g held k phys flags : inv g held (S k) -> (BASIC_PAGE_SIZE | phys) -> 0 <= phys < 2 ^ 63 -> device_flags flags ->
  let i := next_page g in
  exists g', PagingManager_map_pages hhdm cr3_top_pml g phys 1 flags size_4kb = Done (Ok (page_va i), g') /\
    inv g' held k /\ next_page g' = i + 1 /\ device_slot (tables g') (page_va i) phys /\
    (forall m q j e, ~ (m = 0%nat /\ q = vpath (page_va i) 0 /\ j = next_level_index (page_va i) 0) ->
       leaf_at (frames (tables g')) root m q j e <-> leaf_at (frames (tables g)) root m q j e) /\
    (forall va, same_slot 0 va (page_va i) -> pt_translate (frames (tables g)) root va = None) /\
    (forall va, ~ same_slot 0 va (page_va i) -> pt_translate (frames (tables g')) root va = pt_translate (frames (tables g)) root va).
Proof.
  intros [Hi [Hn0 Hn] Hmax Hfp Hvac (hps & Hp1 & Hnd1 & Hnd2 & Hh)] Hd Hb (Hf & H7 & H9) i. fold i in Hn0, Hn, Hvac, Hh.
  unfold PagingManager_map_pages. change (page_alignment size_4kb) with 1.
  rewrite handout_ok, bind_Done; fold (next_page g); fold i; [| done | lia | lia | done].
  unfold map_pages_to. rewrite (pml_ok hhdm cr3_top_pml _ Hi), bind_Done. change size_4kb with (level_size 0).
  destruct (map_pages_core hhdm root (tables g) 0 (page_va i) phys 1 flags Hi) as (s' & -> & Hi' & Hin & Hout & Hm & Hk & Hre & _ & Htk & Hlv).
  { split; [lia | | | | | done].
    - split; [by exists i | unfold page_va, BASIC_PAGE_SIZE; lia].
    - split; [done | lia].
    - change (level_size 0) with 4096. unfold usize_MAX. lia.
    - pose proof (next_level_index_lt (page_va i) 0). lia. }
  { apply (vacant_unmapped hhdm); [apply Hi | apply Hvac; lia]. }
  { revert Hfp. apply free_pages_le. lia. }
  rewrite bind_Done. eexists. split; [done |]. unfold next_page. cbn [tables vaa hander hander_next].
  assert (forall m q j e, ~ (m = 0%nat /\ q = vpath (page_va i) 0 /\ j = next_level_index (page_va i) 0) ->
       leaf_at (frames s') root m q j e <-> leaf_at (frames (tables g)) root m q j e) as Hlv'.
  { intros m q j e Hne. apply Hlv. intros (-> & -> & ?). apply Hne. split_and!; done || lia. }
  split_and!; try done.
  - split; try done; unfold next_page; cbn [tables vaa hander hander_next hander_max].
    + lia.
    + apply Hk. revert Hfp. apply free_pages_le. lia.
    + intros j Hj l e Hlf. apply Hlv' in Hlf; [by apply (Hvac j ltac:(lia) l e) |]. apply slot_at_other; lia.
    + exists hps. split_and!; try done. intros va ph Hvp. destruct (Hh va ph Hvp) as [Hs (j & -> & Hj)].
      split; [| exists j; split; [done | lia]]. apply (slot_kept hhdm cr3_top_pml (tables g)); [| by apply Htk, Hs | | done].
      * intros e. apply Hlv'. apply slot_at_other; lia.
      * intros l p [Hr0 | [_ Hf']]%Hre; [by apply (sl_table _ _ _ _ _ Hs) in Hr0 |].
        by destruct (pmm_taken_used _ _ (pi_ready _ _ _ Hi) (sl_taken _ _ _ _ _ Hs)) as [? _].
  - destruct (Hm H9) as (a & Hra & Ha).
    destruct (entry_on_path _ _ _ _ _ _ (page_va i) (pi_tree _ _ _ Hi') Hra) as (e & He & _).
    destruct (Ha 0%nat e ltac:(lia)) as (Hpr & Hl & He9); [by rewrite Nat.add_0_r |].
    exists e. split; [by exists a | split; [done |]]. specialize (Hin 0%nat (page_va i) ltac:(lia)).
    rewrite (look_leaf root (frames s') 0 a) with (e := e), Z.mul_0_l, !Z.add_0_r in Hin by done.
    by injection (Hin (fun _ _ => eq_refl)).
  - intros va [Hv1 Hv2]. apply (unmapped_none hhdm root (tables g) 0 (page_va i) 1 0 va Hi); [lia | lia | | done | lia].
    apply (vacant_unmapped hhdm); [apply Hi | apply Hvac; lia].
  - intros va Hne. apply Hout. intros k' Hk' Hs. assert (k' = 0%nat) as -> by lia. rewrite Z.mul_0_l, Z.add_0_r in Hs.
    apply same_page_vpath in Hs; [done | lia].
Qed.

Lemma unmap_device_ok g held k i phys : inv g held k -> 0 < i < next_page g -> (page_va i ∉ held) ->
  device_slot (tables g) (page_va i) phys ->
  exists s', unmap_pages hhdm cr3_top_pml (tables g) (page_va i) 1 size_4kb = Done (Ok (), s') /\
    inv (mkPaging s' (vaa g)) held k /\
    (forall m q j e, leaf_at (frames s') root m q j e <-> leaf_at (frames (tables g)) root m q j e /\
       ~ (m = 0%nat /\ q = vpath (page_va i) 0 /\ j = next_level_index (page_va i) 0)) /\
    (forall va, same_slot 0 va (page_va i) -> pt_translate (frames s') root va = None) /\
    (forall va, ~ same_slot 0 va (page_va i) -> pt_translate (frames s') root va = pt_translate (frames (tables g)) root va).
Proof.
  intros [Hi [Hn0 Hn] Hmax Hfp Hvac (hps & Hp1 & Hnd1 & Hnd2 & Hh)] Hib Hni (e & (a & Hr & He & Hp & Hl) & H9 & <-).
  unfold unmap_pages. rewrite (pml_ok hhdm cr3_top_pml _ Hi), bind_Done. change size_4kb with (level_size 0).
  destruct (unmap_pages_core hhdm root (tables g) 0 (page_va i) 1 (pi_tree _ _ _ Hi) ltac:(lia))
    as (s' & -> & _ & Hiv & Hin & Hout & Epm & Hre & Hlv).
  { by exists i. } { unfold page_va, BASIC_PAGE_SIZE. lia. }
  { pose proof (next_level_index_lt (page_va i) 0). lia. }
  { exists a. split; [done |]. intros k' e' Hk' He'. assert (k' = 0%nat) as -> by lia.
    rewrite Nat.add_0_r, He in He'. by injection He' as <-. }
  assert (forall m q j e, leaf_at (frames s') root m q j e <-> leaf_at (frames (tables g)) root m q j e /\
    ~ (m = 0%nat /\ q = vpath (page_va i) 0 /\ j = next_level_index (page_va i) 0)) as Hlv'.
  { intros m q j e'. rewrite Hlv. split; intros [Hlf Hx]; (split; [done |]); intros (? & ? & ?); apply Hx; split_and!; done || lia. }
  exists s'. split_and!; [done | | done | |].
  2: { intros va Hs. apply (Hin 0%nat); [lia |]. rewrite Z.mul_0_l, Z.add_0_r. by apply same_page_vpath; [lia |]. }
  2: { intros va Hne. apply Hout. intros k' Hk' Hs. assert (k' = 0%nat) as -> by lia. rewrite Z.mul_0_l, Z.add_0_r in Hs.
    apply same_page_vpath in Hs; [done | lia]. }
  split; cbn [tables vaa]; try done; [by apply Hiv | by rewrite Epm | |].
  - intros j Hj l e' [Hlf _]%Hlv'. by apply (Hvac j Hj l e').
  - exists hps. split_and!; try done. intros va ph Hvp. destruct (Hh va ph Hvp) as [Hs (j & -> & Hj)].
    split; [| by exists j]. assert (j <> i) as Hji.
    { intros ->. apply Hni. rewrite <- Hp1. apply list_elem_of_fmap. by eexists (_, ph). }
    apply (slot_kept hhdm cr3_top_pml (tables g)); [| rewrite Epm; apply Hs | | done].
    + intros e' Hlf. apply Hlv'. split; [done |]. apply slot_at_other; unfold next_page in *; lia.
    + intros l p Hr0%Hre. by apply (sl_table _ _ _ _ _ Hs) in Hr0.
Qed.
End devices.
