(* ===== verification/Pcie.v ===== *)
(** * PCI Express discovery

    Models drivers/src/bus/pcie.rs and the MCFG table of boot/src/acpi/mcfg.rs:
    the enhanced configuration space of every bus, device and function is
    mapped and probed, and the functions that answer are kept.

    A register is read through the page tables: the physical address its
    virtual address translates to selects what the configuration space [cfg]
    of the devices holds there, and an address that does not translate is a
    page fault. *)

From S2P Require Import Prelude Ids Pmm PageFlags Pages PageTable Paging Bitfield Acpi.

Definition VENDOR_ID_INVALID : Z := 0xFFFF.

(** ** The registers of the three header types *)
Module StandardHeader.
Inductive StandardHeader :=
  | DeviceVendorId | StatusCommand | ClassRevision | BistHeaderLatencyCache
  | Bar0 | Bar1 | Bar2 | Bar3 | Bar4 | Bar5 | CardbusPointer | SubsystemId | ExpansionRomBase
  | CapabilitiesPointer | Reserved | InterruptInfo.

Definition offset (r : StandardHeader) : Z :=
  match r with
  | DeviceVendorId => 0x00 | StatusCommand => 0x04 | ClassRevision => 0x08 | BistHeaderLatencyCache => 0x0C
  | Bar0 => 0x10 | Bar1 => 0x14 | Bar2 => 0x18 | Bar3 => 0x1C | Bar4 => 0x20 | Bar5 => 0x24 | CardbusPointer => 0x28
  | SubsystemId => 0x2C | ExpansionRomBase => 0x30 | CapabilitiesPointer => 0x34 | Reserved => 0x38 | InterruptInfo => 0x3C
  end.
End StandardHeader.

Module PciToPciHeader.
Inductive PciToPciHeader :=
  | DeviceVendorId | StatusCommand | ClassRevision | BistHeaderLatencyCache | Bar0 | Bar1 | BusNumbers
  | SecondaryStatusIo | MemoryBase | PrefetchableMemoryBase | PrefetchableBaseUpper | PrefetchableLimitUpper
  | IoBaseUpper | CapabilitiesPointer | ExpansionRomBase | BridgeControlInterrupt.

Definition offset (r : PciToPciHeader) : Z :=
  match r with
  | DeviceVendorId => 0x00 | StatusCommand => 0x04 | ClassRevision => 0x08 | BistHeaderLatencyCache => 0x0C
  | Bar0 => 0x10 | Bar1 => 0x14 | BusNumbers => 0x18 | SecondaryStatusIo => 0x1C | MemoryBase => 0x20
  | PrefetchableMemoryBase => 0x24 | PrefetchableBaseUpper => 0x28 | PrefetchableLimitUpper => 0x2C
  | IoBaseUpper => 0x30 | CapabilitiesPointer => 0x34 | ExpansionRomBase => 0x38 | BridgeControlInterrupt => 0x3C
  end.
End PciToPciHeader.

Module PciToCardbusHeader.
Inductive PciToCardbusHeader :=
  | DeviceVendorId | StatusCommand | ClassRevision | BistHeaderLatencyCache | CardbusSocketBase
  | SecondaryStatusCapabilities | BusNumbers | MemoryBase0 | MemoryLimit0 | MemoryBase1 | MemoryLimit1 | IoBase0
  | IoLimit0 | IoBase1 | IoLimit1 | BridgeControlInterrupt | SubsystemId | PcCardLegacyBase.

Definition offset (r : PciToCardbusHeader) : Z :=
  match r with
  | DeviceVendorId => 0x00 | StatusCommand => 0x04 | ClassRevision => 0x08 | BistHeaderLatencyCache => 0x0C
  | CardbusSocketBase => 0x10 | SecondaryStatusCapabilities => 0x14 | BusNumbers => 0x18 | MemoryBase0 => 0x1C
  | MemoryLimit0 => 0x20 | MemoryBase1 => 0x24 | MemoryLimit1 => 0x28 | IoBase0 => 0x2C | IoLimit0 => 0x30
  | IoBase1 => 0x34 | IoLimit1 => 0x38 | BridgeControlInterrupt => 0x3C | SubsystemId => 0x40 | PcCardLegacyBase => 0x44
  end.
End PciToCardbusHeader.

(** ** The discovery *)
Record ConfigSpace := mkConfigSpace {
  base_address : Z;
  segment_group_number : Z;
  start_bus_number : Z;
  end_bus_number : Z;
}.

(** A device is the address its configuration space is mapped at. *)
Record PcieDevice := mkPcieDevice { config_space : VirtAddr }.

Definition get_base_address (bus device function segment_group_base : Z) : res PhysAddr :=
  usize_add segment_group_base
    (Z.lor (Z.lor (Z.shiftl bus 20) (Z.shiftl device 15)) (Z.shiftl function 12)).

Record PcieManager (P : Type) := mkPcieManager { devices : list PcieDevice; pcie_paging : Paging P }.
Arguments mkPcieManager {P}.
Arguments devices {P}.
Arguments pcie_paging {P}.

Definition pcie_flags : Flags := set_pat (set_read_write Flags_new true) WriteThrough size_4kb.

Section pcie.
Context {P : Type} `{PmmAllocator P} (hhdm cr3_top_pml : Z) (cfg : Z -> Z).
Implicit Types (g : Paging P) (m : PcieManager P).

(** [config_space.read(reg)] *)
Definition config_read (s : PtState P) (area : VirtAddr) (reg : Z) : res Z :=
  let a := area + reg in
  o ← translate hhdm cr3_top_pml s a;
  match o with
  | None => Panic BadPointer
  | Some phys => Done (cfg (phys + a mod BASIC_PAGE_SIZE))
  end.

Definition check_device g (bus device function segment_group_base : Z) : res (option VirtAddr * Paging P) :=
  phys_addr ← get_base_address bus device function segment_group_base;
  '(r, g) ← PagingManager_map_pages hhdm cr3_top_pml g phys_addr 1 pcie_flags size_4kb;
  ptr ← unwrap_ok r;
  v ← config_read (tables g) ptr (StandardHeader.offset StandardHeader.DeviceVendorId);
  let vendor_id := Z.land v 0xffff in
  if vendor_id =? VENDOR_ID_INVALID then
    '(r, s) ← unmap_pages hhdm cr3_top_pml (tables g) ptr 1 size_4kb;
    _ ← unwrap_ok r;
    Done (None, mkPaging s (vaa g))
  else Done (Some ptr, g).

(** [for function in 1..=7], from [function] on with [n] left. *)
Fixpoint check_functions m (bus device function base : Z) (n : nat) : res (PcieManager P) :=
  match n with
  | O => Done m
  | S n =>
      '(o, g) ← check_device (pcie_paging m) bus device function base;
      let m := match o with
               | Some a => mkPcieManager (devices m ++ [mkPcieDevice a]) g
               | None => mkPcieManager (devices m) g
               end in
      check_functions m bus device (function + 1) base n
  end.

Definition discover_device_functions m (bus device : Z) (segment_group : ConfigSpace) : res (PcieManager P) :=
  let base := base_address segment_group in
  '(o, g) ← check_device (pcie_paging m) bus device 0 base;
  match o with
  | None => Done (mkPcieManager (devices m) g)
  | Some a =>
      let m := mkPcieManager (devices m ++ [mkPcieDevice a]) g in
      d ← unwrap (list.last (devices m));
      v ← config_read (tables g) (config_space d) (StandardHeader.offset StandardHeader.BistHeaderLatencyCache);
      let header_type := Z.land (Z.shiftr v 16) 0xff in
      if negb (Z.land header_type 0x80 =? 0) then check_functions m bus device 1 base 7 else Done m
  end.

(** [for device in 0..=31] *)
Fixpoint discover_devices m (bus device : Z) (segment_group : ConfigSpace) (n : nat) : res (PcieManager P) :=
  match n with
  | O => Done m
  | S n =>
      m ← discover_device_functions m bus device segment_group;
      discover_devices m bus (device + 1) segment_group n
  end.

(** [for bus in start..=end] *)
Fixpoint discover_buses m (bus : Z) (segment_group : ConfigSpace) (n : nat) : res (PcieManager P) :=
  match n with
  | O => Done m
  | S n =>
      m ← discover_devices m bus 0 segment_group 32;
      discover_buses m (bus + 1) segment_group n
  end.

Fixpoint brute_force_discover m (segment_groups : list ConfigSpace) : res (PcieManager P) :=
  match segment_groups with
  | [] => Done m
  | sg :: segment_groups =>
      m ← discover_buses m (start_bus_number sg) sg (Z.to_nat (end_bus_number sg - start_bus_number sg + 1));
      brute_force_discover m segment_groups
  end.

(** The devices for which "Found NVMe" is logged. *)
Fixpoint find_nvme (s : PtState P) (ds : list PcieDevice) : res (list PcieDevice) :=
  match ds with
  | [] => Done []
  | d :: ds =>
      v1 ← config_read s (config_space d) (StandardHeader.offset StandardHeader.ClassRevision);
      v2 ← config_read s (config_space d) (StandardHeader.offset StandardHeader.ClassRevision);
      v3 ← config_read s (config_space d) (StandardHeader.offset StandardHeader.ClassRevision);
      let class_code := Z.shiftr v1 24 in
      let subclass := Z.land (Z.shiftr v2 16) 0xff in
      let prog_if := Z.land (Z.shiftr v3 8) 0xff in
      rest ← find_nvme s ds;
      Done (if (class_code =? 0x1) && (subclass =? 0x8) && (prog_if =? 0x2) then d :: rest else rest)
  end.

Definition load_device_drivers m : res (list PcieDevice) := find_nvme (tables (pcie_paging m)) (devices m).

(** [init] always returns [Ok(())]; the devices named in the log come with it. *)
Definition PcieManager_init m (segment_groups : list ConfigSpace) : res (list PcieDevice * PcieManager P) :=
  m ← brute_force_discover m segment_groups;
  found ← load_device_drivers m;
  Done (found, m).

Definition PcieDevice_drop g (d : PcieDevice) : res (Paging P) :=
  '(r, s) ← unmap_pages hhdm cr3_top_pml (tables g) (config_space d) 1 size_4kb;
  _ ← unwrap_ok r;
  Done (mkPaging s (vaa g)).

(** ** The MCFG table *)
Definition size_of_Mcfg : Z := 44.
Definition size_of_ConfigSpace : Z := 16.

Definition determine_entries_count (mem : bytes_mem) (self : Z) : res Z :=
  total_size ← usize_sub (SdtHeader_length mem self) size_of_Mcfg;
  _ ← assert_ (total_size mod size_of_ConfigSpace =? 0);
  Done (total_size / size_of_ConfigSpace).

Definition read_ConfigSpace (mem : bytes_mem) (a : Z) : ConfigSpace :=
  mkConfigSpace (read_u64 mem a) (read_u16 mem (a + 8)) (read_u8 mem (a + 10)) (read_u8 mem (a + 11)).

Fixpoint read_entries (mem : bytes_mem) (a : Z) (n : nat) : list ConfigSpace :=
  match n with O => [] | S n => read_ConfigSpace mem a :: read_entries mem (a + size_of_ConfigSpace) n end.

Definition Mcfg_parse (mem : bytes_mem) (self : Z) m : res (result (list PcieDevice) AcpiError * PcieManager P) :=
  r ← validate_checksum mem self;
  match r with
  | Err e => Done (Err e, m)
  | Ok _ =>
      count ← determine_entries_count mem self;
      let entries := read_entries mem (self + size_of_Mcfg) (Z.to_nat count) in
      '(found, m) ← PcieManager_init m entries;
      Done (Ok found, m)
  end.
End pcie.
