(* ===== verification/PcieTheorems.v ===== *)
(** * Theorems on PCI Express discovery

    The addresses of the configuration spaces, the discovery as a refinement
    of a scan of the configuration space by physical address, and the drop of
    a device. *)

From S2P Require Import Prelude Ids Pmm PageFlags Pages PageTable PageTableCorrect PageTableTheorems Paging BootMap BootTheorems KernelPages KernelPagesTheorems DevicePages Bitfield Layouts IoApic Acpi AcpiTheorems Pcie.

(** ** Addresses *)
Definition function_addr (base bus device function : Z) : Z := base + (bus * 256 + device * 8 + function) * BASIC_PAGE_SIZE.

Definition function_ok (bus device function : Z) : Prop := 0 <= bus < 256 /\ 0 <= device < 32 /\ 0 <= function < 8.

Lemma get_base_address_ok base bus device function : function_ok bus device function -> 0 <= base < 2 ^ 62 ->
  get_base_address bus device function base = Done (function_addr base bus device function).
Proof.
  intros (Hb & Hd & Hf) Hbase. unfold get_base_address.
  assert (Z.shiftl device 15 = 2 ^ 15 * device) as Ed by (rewrite Z.shiftl_mul_pow2 by lia; lia).
  assert (Z.shiftl function 12 = 2 ^ 12 * function) as Ef by (rewrite Z.shiftl_mul_pow2 by lia; lia).
  rewrite (lor_parts bus _ 20) by (rewrite ?Ed; lia). rewrite Ed.
  replace (2 ^ 15 * device + 2 ^ 20 * bus) with (Z.shiftl (bus * 32 + device) 15) by (rewrite Z.shiftl_mul_pow2 by lia; lia).
  rewrite (lor_parts _ _ 15) by (rewrite ?Ef; lia). rewrite Ef.
  rewrite usize_add_ok by (unfold usize_MAX; lia). f_equal. unfold function_addr, BASIC_PAGE_SIZE. lia.
Qed.

(** Every function has a page of its own. *)
Lemma function_addr_inj base b d f b' d' f' : function_ok b d f -> function_ok b' d' f' ->
  function_addr base b d f = function_addr base b' d' f' -> b = b' /\ d = d' /\ f = f'.
Proof. unfold function_addr, function_ok, BASIC_PAGE_SIZE. lia. Qed.

(** ** The scan, by physical address *)
Section scan.
Context (cfg : Z -> Z).

Definition function_present (a : Z) : bool := negb (Z.land (cfg a) 0xffff =? VENDOR_ID_INVALID).
Definition multi_function (a : Z) : bool := Z.testbit (cfg (a + 0x0C)) 23.

(** The addresses of the functions of a device that answer: none unless
    function 0 does, and the others only of a multi-function device. *)
Definition device_functions (base bus device : Z) : list Z :=
  let f := function_addr base bus device in
  if function_present (f 0) then
    f 0 :: (if multi_function (f 0) then List.filter function_present (f <$> seqZ 1 7) else [])
  else [].

Definition bus_functions (base bus : Z) : list Z := mjoin (device_functions base bus <$> seqZ 0 32).

Definition group_functions (sg : ConfigSpace) : list Z :=
  mjoin (bus_functions (base_address sg) <$> seqZ (start_bus_number sg) (end_bus_number sg - start_bus_number sg + 1)).

Definition all_functions (sgs : list ConfigSpace) : list Z := mjoin (group_functions <$> sgs).

Definition is_nvme (a : Z) : bool :=
  let v := cfg (a + 0x08) in
  (Z.shiftr v 24 =? 0x1) && (Z.land (Z.shiftr v 16) 0xff =? 0x8) && (Z.land (Z.shiftr v 8) 0xff =? 0x2).
End scan.

Definition group_ok (sg : ConfigSpace) : Prop :=
  0 <= start_bus_number sg /\ end_bus_number sg < 256 /\ (BASIC_PAGE_SIZE | base_address sg) /\ 0 <= base_address sg < 2 ^ 62.

(** Pages asked for at most: one per function that could exist. *)
Definition group_probes (sg : ConfigSpace) : nat := Z.to_nat (end_bus_number sg - start_bus_number sg + 1) * 256.
Definition probes (sgs : list ConfigSpace) : nat := sum_list_with group_probes sgs.

Section discovery.
Context {P : Type} `{PmmLaws P} (hhdm cr3_top_pml : Z) (cfg : Z -> Z).
Implicit Types (g : Paging P) (m : PcieManager P).

#[local] Notation inv := (paging_inv hhdm cr3_top_pml).

(** The devices, each mapped at a page of its own to the configuration space
    at the physical address the list pairs it with. *)
Record pcie_repr m (held : list VirtAddr) (ms : list (Z * PhysAddr)) (k : nat) : Prop := {
  pr_inv : inv (pcie_paging m) held k;
  pr_devices : devices m = (fun p : Z * PhysAddr => mkPcieDevice (page_va p.1)) <$> ms;
  pr_nodup : NoDup ms.*1;
  pr_mapped i phys : (i, phys) ∈ ms ->
    0 < i < next_page (pcie_paging m) /\ (page_va i ∉ held) /\ (BASIC_PAGE_SIZE | phys) /\
    device_slot cr3_top_pml (tables (pcie_paging m)) (page_va i) phys;
}.

Lemma config_read_ok (s : PtState P) i phys reg : pt_inv hhdm (pml cr3_top_pml) s -> 0 <= i < 2 ^ 35 -> 0 <= reg < 4096 ->
  device_slot cr3_top_pml s (page_va i) phys -> config_read hhdm cr3_top_pml cfg s (page_va i) reg = Done (cfg (phys + reg)).
Proof.
  intros Hi Hb Hr Hs. unfold config_read. rewrite translate_ok, bind_Done by done.
  rewrite (device_slot_translate _ _ _ _ _ Hs) by (apply page_va_offset; unfold BASIC_PAGE_SIZE; lia).
  do 3 f_equal. unfold page_va. rewrite (Z.add_comm (_ * _)), Z.mod_add by done. unfold BASIC_PAGE_SIZE. by rewrite Z.mod_small by lia.
Qed.

Lemma page_va_not_held g held k : inv g held k -> page_va (next_page g) ∉ held.
Proof.
  intros Hi Hin. destruct (gi_held _ _ _ _ _ Hi) as (hps & Hp & _ & _ & Hh). rewrite <- Hp in Hin.
  apply list_elem_of_fmap in Hin as ([va phys] & Ev & Hin). destruct (Hh va phys Hin) as (_ & j & Ej & Hj).
  cbn in Ev. unfold page_va, BASIC_PAGE_SIZE in *. lia.
Qed.

Lemma pcie_flags_ok : device_flags pcie_flags.
Proof. by vm_compute. Qed.

Definition looks_up g (va : VirtAddr) : option PhysAddr := pt_translate (frames (tables g)) (pml cr3_top_pml) va.

(** One probe: a function that answers stays mapped, one that does not is
    unmapped again. *)
Lemma check_device_ok m held ms k bus device function base : pcie_repr m held ms (S k) ->
  function_ok bus device function -> (BASIC_PAGE_SIZE | base) -> 0 <= base < 2 ^ 62 ->
  let a := function_addr base bus device function in
  let i := next_page (pcie_paging m) in
  exists g', check_device hhdm cr3_top_pml cfg (pcie_paging m) bus device function base =
      Done (if function_present cfg a then Some (page_va i) else None, g') /\
    (if function_present cfg a
     then pcie_repr (mkPcieManager (devices m ++ [mkPcieDevice (page_va i)]) g') held (ms ++ [(i, a)]) k
     else pcie_repr (mkPcieManager (devices m) g') held ms k) /\
    (forall va, (function_present cfg a = true -> ~ same_slot 0 va (page_va i)) -> looks_up g' va = looks_up (pcie_paging m) va).
Proof.
  intros [Hi Hd Hnd Hm] Hf Hba Hb a i. unfold check_device. rewrite get_base_address_ok, bind_Done by done. fold a.
  assert (BASIC_PAGE_SIZE | a) as Hda by (unfold a, function_addr; apply Z.divide_add_r; [done | by eexists]).
  assert (0 <= a < 2 ^ 63) as Ha by (destruct Hf as (? & ? & ?); unfold a, function_addr, BASIC_PAGE_SIZE; lia).
  destruct (map_device_ok hhdm cr3_top_pml (pcie_paging m) held k a pcie_flags Hi Hda Ha pcie_flags_ok)
    as (g' & -> & Hi' & Hn' & Hs & Hlv & Hnone & Hsame). fold i in Hn', Hs, Hlv, Hnone, Hsame. rewrite bind_Done. cbn [unwrap_ok]. rewrite bind_Done.
  destruct (gi_next _ _ _ _ _ Hi) as [Hn0 Hn]. fold i in Hn0, Hn.
  pose proof (page_va_not_held _ _ _ Hi) as Hni. fold i in Hni.
  rewrite (config_read_ok _ i a) by (apply Hi' || done || lia). rewrite bind_Done. cbn zeta. rewrite Z.add_0_r.
  assert (forall g2 j phys, (j, phys) ∈ ms -> next_page g2 = i + 1 ->
    (forall e, leaf_at (frames (tables g')) (pml cr3_top_pml) 0 (vpath (page_va j) 0) (next_level_index (page_va j) 0) e ->
       leaf_at (frames (tables g2)) (pml cr3_top_pml) 0 (vpath (page_va j) 0) (next_level_index (page_va j) 0) e) ->
    0 < j < next_page g2 /\ (page_va j ∉ held) /\ (BASIC_PAGE_SIZE | phys) /\ device_slot cr3_top_pml (tables g2) (page_va j) phys) as Hold.
  { intros g2 j phys (Hj & Hjn & Hjd & (e & He & He'))%Hm Hn2 Hl. fold i in Hj. split_and!; [lia | lia | done | done |].
    exists e. split; [| done]. apply Hl, Hlv; [| done]. apply slot_at_other; lia. }
  fold i. unfold function_present. destruct (Z.eqb_spec (Z.land (cfg a) 0xffff) VENDOR_ID_INVALID) as [E | E]; cbn [negb].
  - destruct (unmap_device_ok hhdm cr3_top_pml g' held k i a Hi' ltac:(lia) Hni Hs) as (s' & -> & Hi2 & Hlv2 & Hnone2 & Hsame2).
    rewrite bind_Done. cbn [unwrap_ok]. rewrite bind_Done. exists (mkPaging s' (vaa g')). split; [done |]. split.
    2: { intros va _. unfold looks_up. cbn [tables]. destruct (decide (same_slot 0 va (page_va i))) as [Hsl | Hsl].
      - by rewrite Hnone2, Hnone.
      - by rewrite Hsame2, Hsame. }
    split; [exact Hi2 | exact Hd | exact Hnd |]. cbn [pcie_paging]. intros j phys Hj. apply (Hold _ j phys Hj); [exact Hn' |].
    intros e He. apply Hlv2. split; [done |]. destruct (Hm _ _ Hj) as [Hj' _]. fold i in Hj'. apply slot_at_other; lia.
  - exists g'. split; [done |]. split; [| intros va Hva; by apply Hsame, Hva]. assert (i ∉ ms.*1) as Hi1.
    { intros ([j ph] & Ej & (Hj & _)%Hm)%list_elem_of_fmap. cbn in Ej. subst j. lia. }
    split; cbn [pcie_paging devices]; [done | by rewrite Hd, fmap_app | |].
    + rewrite fmap_app. apply NoDup_app. split_and!; [done | | apply NoDup_singleton]. intros j Hj ->%list_elem_of_singleton. done.
    + intros j phys [Hj | [= -> ->]%list_elem_of_singleton]%elem_of_app; [by apply Hold |]. split_and!; [lia | lia | done | done | done].
Qed.

(** [step] finds the functions [spec], with at most [cost] pages. *)
Definition discovers (step : PcieManager P -> res (PcieManager P)) (spec : list Z) (cost : nat) : Prop :=
  forall m held ms k, pcie_repr m held ms (k + cost) ->
    exists m' new, step m = Done m' /\ pcie_repr m' held (ms ++ new) k /\ new.*2 = spec /\
      forall va, (forall i phys, (i, phys) ∈ new -> ~ same_slot 0 va (page_va i)) ->
        looks_up (pcie_paging m') va = looks_up (pcie_paging m) va.

Lemma pcie_repr_le m held ms k k' : (k' <= k)%nat -> pcie_repr m held ms k -> pcie_repr m held ms k'.
Proof. intros Hk [Hi Hd Hn Hm]. split; try done. by apply (paging_inv_le _ _ _ _ k). Qed.

Lemma discovers_none : discovers Done [] 0.
Proof. intros m held ms k HR. exists m, []. rewrite app_nil_r. rewrite Nat.add_0_r in HR. by split_and!. Qed.

Lemma discovers_seq s1 s2 l1 l2 c1 c2 : discovers s1 l1 c1 -> discovers s2 l2 c2 ->
  discovers (fun m => s1 m ≫= s2) (l1 ++ l2) (c1 + c2).
Proof.
  intros D1 D2 m held ms k HR. destruct (D1 m held ms (k + c2)%nat) as (m1 & n1 & -> & HR1 & E1 & F1).
  { by replace (k + c2 + c1)%nat with (k + (c1 + c2))%nat by lia. }
  destruct (D2 m1 held _ k HR1) as (m2 & n2 & E2 & HR2 & E3 & F2). exists m2, (n1 ++ n2)%list. rewrite bind_Done.
  split_and!; [done | by rewrite app_assoc | by rewrite fmap_app, E1, E3 |]. intros va Hva.
  rewrite F2, F1; [done | |]; intros i phys Hin; apply (Hva i phys), elem_of_app; auto.
Qed.

Lemma discovers_cost s l c c' : (c <= c')%nat -> discovers s l c -> discovers s l c'.
Proof. intros Hc D m held ms k HR. apply D. revert HR. apply pcie_repr_le. lia. Qed.

Lemma frame_cons (g1 g2 g3 : Paging P) i (a : PhysAddr) (new : list (Z * PhysAddr)) (b : bool) :
  (forall va, (forall j phys, (j, phys) ∈ new -> ~ same_slot 0 va (page_va j)) -> looks_up g3 va = looks_up g2 va) ->
  (forall va, (b = true -> ~ same_slot 0 va (page_va i)) -> looks_up g2 va = looks_up g1 va) ->
  forall va, (forall j phys, (j, phys) ∈ (i, a) :: new -> ~ same_slot 0 va (page_va j)) -> looks_up g3 va = looks_up g1 va.
Proof.
  intros F2 F va Hva. rewrite F2, F; [done | intros _; apply (Hva i a); by left |].
  intros j phys Hin. apply (Hva j phys). by right.
Qed.

Section group.
Context (bus : Z) (base : Z).
Hypothesis Hbus : 0 <= bus < 256.
Hypothesis Hba : (BASIC_PAGE_SIZE | base).
Hypothesis Hb : 0 <= base < 2 ^ 62.

Lemma check_functions_ok device n : 0 <= device < 32 -> forall function, 0 <= function -> function + Z.of_nat n <= 8 ->
  discovers (fun m => check_functions hhdm cr3_top_pml cfg m bus device function base n)
    (List.filter (function_present cfg) (function_addr base bus device <$> seqZ function (Z.of_nat n))) n.
Proof.
  intros Hd. induction n as [| n IH]; intros function Hf0 Hf; [apply discovers_none |]. cbn [check_functions].
  rewrite (seqZ_cons function) by lia. replace (Z.pred (Z.of_nat (S n))) with (Z.of_nat n) by lia. cbn [fmap list_fmap List.filter].
  intros m held ms k HR. rewrite Nat.add_succ_r in HR.
  destruct (check_device_ok m held ms _ bus device function base HR ltac:(split_and!; lia) Hba Hb) as (g' & -> & HR' & F).
  rewrite bind_Done. fold (Z.succ function). destruct (function_present cfg (function_addr base bus device function)).
  - destruct (IH (Z.succ function) ltac:(lia) ltac:(lia) _ _ _ _ HR') as (m' & new & E & HR2 & Es & F2).
    exists m', ((next_page (pcie_paging m), function_addr base bus device function) :: new).
    split_and!; [exact E | by rewrite <- app_assoc in HR2 | cbn; by f_equal |]. exact (frame_cons _ _ _ _ _ _ _ F2 F).
  - destruct (IH (Z.succ function) ltac:(lia) ltac:(lia) _ _ _ _ HR') as (m' & new & E & HR2 & Es & F2).
    exists m', new. split_and!; [done | done | done |]. intros va Hva. rewrite F2 by done. by apply F.
Qed.

Lemma header_bit v : negb (Z.land (Z.land (Z.shiftr v 16) 0xff) 0x80 =? 0) = Z.testbit v 23.
Proof.
  change 0x80 with (Z.shiftl 1 7). rewrite bit_test by lia. rewrite Z.land_spec, Z.shiftr_spec by lia.
  change (Z.testbit 0xff 7) with true. by rewrite andb_true_r.
Qed.

Lemma discover_device_ok sg device : base_address sg = base -> 0 <= device < 32 ->
  discovers (fun m => discover_device_functions hhdm cr3_top_pml cfg m bus device sg) (device_functions cfg base bus device) 8.
Proof.
  intros Eb Hd m held ms k HR. unfold discover_device_functions, device_functions. rewrite Eb.
  change 8%nat with (S 7) in HR. rewrite Nat.add_succ_r in HR.
  destruct (check_device_ok m held ms _ bus device 0 base HR ltac:(split_and!; lia) Hba Hb) as (g' & -> & HR' & F).
  rewrite bind_Done. set (a := function_addr base bus device 0) in *. set (i := next_page (pcie_paging m)) in *.
  destruct (function_present cfg a); cbv iota.
  2: { exists (mkPcieManager (devices m) g'), []. rewrite app_nil_r. split_and!; [done | | done |]; [revert HR'; apply pcie_repr_le; lia |].
       intros va _. by apply F. }
  cbn zeta. cbn [devices]. rewrite list.last_snoc. cbn [unwrap]. rewrite bind_Done. cbn [config_space].
  destruct (pr_mapped _ _ _ _ HR' i a) as (Hi & _ & _ & Hs); [apply elem_of_app; right; by left |]. cbn [pcie_paging] in Hi, Hs.
  pose proof (pr_inv _ _ _ _ HR') as Hinv. cbn [pcie_paging] in Hinv. destruct (gi_next _ _ _ _ _ Hinv) as [_ Hn].
  rewrite (config_read_ok _ i a) by (apply Hinv || done || lia). rewrite bind_Done, header_bit.
  change (StandardHeader.offset StandardHeader.BistHeaderLatencyCache) with 0x0C.
  change (Z.testbit (cfg (a + 0x0C)) 23) with (multi_function cfg a). destruct (multi_function cfg a).
  - destruct (check_functions_ok device 7 Hd 1 ltac:(lia) ltac:(lia) _ _ _ _ HR') as (m' & new & E & HR2 & Es & F2).
    exists m', ((i, a) :: new). split_and!; [exact E | by rewrite <- app_assoc in HR2 | cbn; by f_equal |]. exact (frame_cons _ _ _ _ _ _ _ F2 F).
  - eexists _, [(i, a)]. split_and!; [done | | done |]; [revert HR'; apply pcie_repr_le; lia |].
    intros va Hva. apply F. intros _. apply (Hva i a). by left.
Qed.

Lemma discover_devices_ok sg n : base_address sg = base -> forall device, 0 <= device -> device + Z.of_nat n <= 32 ->
  discovers (fun m => discover_devices hhdm cr3_top_pml cfg m bus device sg n)
    (mjoin (device_functions cfg base bus <$> seqZ device (Z.of_nat n))) (n * 8).
Proof.
  intros Eb. induction n as [| n IH]; intros device Hd0 Hd; [apply discovers_none |]. cbn [discover_devices].
  rewrite (seqZ_cons device) by lia. replace (Z.pred (Z.of_nat (S n))) with (Z.of_nat n) by lia.
  apply (discovers_seq _ _ _ _ 8 (n * 8)); [apply discover_device_ok; [done | lia] | apply IH; lia].
Qed.
End group.

Lemma discover_buses_ok sg n : (BASIC_PAGE_SIZE | base_address sg) -> 0 <= base_address sg < 2 ^ 62 ->
  forall bus, 0 <= bus -> bus + Z.of_nat n <= 256 ->
  discovers (fun m => discover_buses hhdm cr3_top_pml cfg m bus sg n)
    (mjoin (bus_functions cfg (base_address sg) <$> seqZ bus (Z.of_nat n))) (n * 256).
Proof.
  intros Hba Hb. induction n as [| n IH]; intros bus Hb0 Hb1; [apply discovers_none |]. cbn [discover_buses].
  rewrite (seqZ_cons bus) by lia. replace (Z.pred (Z.of_nat (S n))) with (Z.of_nat n) by lia.
  apply (discovers_seq _ _ _ _ 256 (n * 256)); [| apply IH; lia].
  apply (discover_devices_ok bus (base_address sg)); done || lia.
Qed.

Lemma brute_force_ok sgs : Forall group_ok sgs ->
  discovers (fun m => brute_force_discover hhdm cr3_top_pml cfg m sgs) (all_functions cfg sgs) (probes sgs).
Proof.
  induction 1 as [| sg sgs (H1 & H2 & H3 & H4) _ IH]; [apply discovers_none |]. cbn [brute_force_discover].
  apply (discovers_seq _ _ _ _ (group_probes sg) (probes sgs)); [| exact IH]. unfold group_functions, group_probes.
  destruct (Z_lt_le_dec (end_bus_number sg) (start_bus_number sg)) as [Hlt | Hge].
  - replace (Z.to_nat (end_bus_number sg - start_bus_number sg + 1)) with 0%nat by lia.
    rewrite seqZ_nil by lia. apply discovers_none.
  - pose proof (discover_buses_ok sg (Z.to_nat (end_bus_number sg - start_bus_number sg + 1)) H3 H4 (start_bus_number sg) H1 ltac:(lia)) as D.
    by rewrite Z2Nat.id in D by lia.
Qed.

Lemma find_nvme_ok m held ms k : pcie_repr m held ms k -> forall ms', ms' ⊆ ms ->
  find_nvme hhdm cr3_top_pml cfg (tables (pcie_paging m)) ((fun p : Z * PhysAddr => mkPcieDevice (page_va p.1)) <$> ms') =
    Done ((fun p : Z * PhysAddr => mkPcieDevice (page_va p.1)) <$> List.filter (fun p : Z * PhysAddr => is_nvme cfg p.2) ms').
Proof.
  intros HR ms'. pose proof (pr_inv _ _ _ _ HR) as Hinv. destruct (gi_next _ _ _ _ _ Hinv) as [_ Hn].
  induction ms' as [| [i a] ms' IH]; intros Hsub; [done |]. cbn [fmap list_fmap find_nvme config_space fst].
  destruct (pr_mapped _ _ _ _ HR i a) as (Hi & _ & _ & Hs); [apply Hsub; by left |].
  rewrite (config_read_ok _ i a) by (apply Hinv || done || lia). rewrite !bind_Done. rewrite IH by (intros x Hx; apply Hsub; by right).
  rewrite bind_Done. cbn [List.filter snd]. change (StandardHeader.offset StandardHeader.ClassRevision) with 8. cbn zeta.
  fold (is_nvme cfg a). by destruct (is_nvme cfg a).
Qed.

Lemma init_ok sgs m held ms k : Forall group_ok sgs -> pcie_repr m held ms (k + probes sgs) ->
  exists m' new, PcieManager_init hhdm cr3_top_pml cfg m sgs =
      Done ((fun p : Z * PhysAddr => mkPcieDevice (page_va p.1)) <$> List.filter (fun p : Z * PhysAddr => is_nvme cfg p.2) (ms ++ new)%list, m') /\
    pcie_repr m' held (ms ++ new) k /\ new.*2 = all_functions cfg sgs /\
    forall va, (forall i phys, (i, phys) ∈ new -> ~ same_slot 0 va (page_va i)) ->
      looks_up (pcie_paging m') va = looks_up (pcie_paging m) va.
Proof.
  intros Hg HR. destruct (brute_force_ok sgs Hg m held ms k HR) as (m' & new & E & HR' & Es & F).
  exists m', new. split_and!; try done. unfold PcieManager_init. rewrite E, bind_Done. unfold load_device_drivers.
  rewrite (pr_devices _ _ _ _ HR'). by rewrite (find_nvme_ok m' held (ms ++ new)%list k HR').
Qed.

(** Dropping a device unmaps its page. *)
Lemma device_drop_ok m held ms k i a : pcie_repr m held ms k -> (i, a) ∈ ms ->
  exists g', PcieDevice_drop hhdm cr3_top_pml (pcie_paging m) (mkPcieDevice (page_va i)) = Done g' /\ inv g' held k /\
    forall va, looks_up g' va = if decide (same_slot 0 va (page_va i)) then None else looks_up (pcie_paging m) va.
Proof.
  intros HR Hin. destruct (pr_mapped _ _ _ _ HR i a Hin) as (Hi & Hni & _ & Hs).
  destruct (unmap_device_ok hhdm cr3_top_pml _ held k i a (pr_inv _ _ _ _ HR) Hi Hni Hs) as (s' & E & Hinv & _ & H1 & H2).
  unfold PcieDevice_drop. cbn [config_space]. rewrite E, bind_Done. cbn [unwrap_ok]. rewrite bind_Done.
  eexists. split; [done |]. split; [done |]. intros va. unfold looks_up. cbn [tables].
  destruct (decide _) as [Hsl | Hsl]; [by apply H1 | by apply H2].
Qed.

(** ** The MCFG table *)
Definition encode_config (sg : ConfigSpace) : list Z :=
  (le 8 (base_address sg) ++ le 2 (segment_group_number sg) ++ [start_bus_number sg; end_bus_number sg] ++ le 4 0)%list.

Definition config_ok (sg : ConfigSpace) : Prop :=
  u64v (base_address sg) /\ u16v (segment_group_number sg) /\ is_byte (start_bus_number sg) /\ is_byte (end_bus_number sg).

Lemma read_ConfigSpace_ok mem a sg : config_ok sg -> holds mem a (encode_config sg) -> read_ConfigSpace mem a = sg.
Proof.
  intros (H1 & H2 & H3 & H4) Hh. unfold read_ConfigSpace, read_u64, read_u16. destruct sg as [b g s e].
  unfold encode_config in Hh. cbn [base_address segment_group_number start_bus_number end_bus_number] in *.
  rewrite (byte_at mem a _ 10 s 10 Hh), (byte_at mem a _ 11 e 11 Hh) by done.
  rewrite <- (Z.add_0_r a) at 1.
  rewrite (field_at mem a _ [] 8 b (le 2 g ++ [s; e] ++ le 4 0) 0 Hh) by done.
  by rewrite (field_at mem a _ (le 8 b) 2 g ([s; e] ++ le 4 0) 8 Hh) by done.
Qed.

Lemma encode_config_length sg : length (encode_config sg) = 16%nat.
Proof. done. Qed.

Lemma read_entries_ok mem sgs : Forall config_ok sgs -> forall a, holds mem a (mjoin (encode_config <$> sgs)) ->
  read_entries mem a (length sgs) = sgs.
Proof.
  induction 1 as [| sg sgs Hc _ IH]; intros a Hh; [done |]. cbn [length read_entries fmap list_fmap mjoin list_join] in *.
  apply holds_app in Hh as [H1 H2]. rewrite (read_ConfigSpace_ok mem a sg Hc H1). f_equal. apply IH. by rewrite encode_config_length in H2.
Qed.

(** The parse of a table in memory, its entries as the list they encode. *)
Lemma Mcfg_parse_ok mem self header sgs m : table_at mem self (header ++ mjoin (encode_config <$> sgs)) ->
  length header = 44%nat -> Forall config_ok sgs ->
  Mcfg_parse hhdm cr3_top_pml cfg mem self m =
    (if byte_sum (header ++ mjoin (encode_config <$> sgs)) mod 256 =? 0 then
       '(found, m) ← PcieManager_init hhdm cr3_top_pml cfg m sgs; Done (Ok found, m)
     else Done (Err InvalidChecksum, m)).
Proof.
  intros Ht Hl Hc. unfold Mcfg_parse. rewrite (validate_checksum_ok mem self _ Ht), bind_Done.
  destruct (_ =? 0); [| done]. cbv iota. unfold determine_entries_count, size_of_Mcfg, size_of_ConfigSpace. rewrite (tb_length _ _ _ Ht).
  assert (length (mjoin (encode_config <$> sgs)) = 16 * length sgs)%nat as Hlen.
  { clear. induction sgs as [| sg sgs IH]; [done |].
    change (mjoin (encode_config <$> sg :: sgs)) with (encode_config sg ++ mjoin (encode_config <$> sgs))%list.
    rewrite length_app, encode_config_length, IH. cbn [length]. lia. }
  rewrite length_app, Hl, Hlen. rewrite usize_sub_ok, bind_Done by lia.
  replace (Z.of_nat (44 + 16 * length sgs) - 44) with (Z.of_nat (length sgs) * 16) by lia.
  rewrite Z.mod_mul by lia. cbn [Z.eqb assert_]. rewrite bind_Done, Z.div_mul, bind_Done, Nat2Z.id by lia.
  destruct (holds_app _ _ _ _ (tb_holds _ _ _ Ht)) as [_ Hh]. rewrite Hl in Hh. change (Z.of_nat 44) with 44 in Hh.
  cbn zeta. rewrite (read_entries_ok mem sgs Hc _ Hh). done.
Qed.

(** C26: a valid MCFG table maps the configuration space of exactly the
    functions that answer, in the order of the scan, each at a page of its
    own; everything else translates as before and the page service keeps its
    invariant.  The NVMe controllers among them are reported.  A table with a
    wrong checksum changes nothing. *)
Theorem mcfg_discovery_correct mem self header sgs m held ms k :
  table_at mem self (header ++ mjoin (encode_config <$> sgs)) -> length header = 44%nat ->
  Forall config_ok sgs -> Forall group_ok sgs -> pcie_repr m held ms (k + probes sgs) ->
  if byte_sum (header ++ mjoin (encode_config <$> sgs)) mod 256 =? 0 then
    exists m' new, Mcfg_parse hhdm cr3_top_pml cfg mem self m =
        Done (Ok ((fun p : Z * PhysAddr => mkPcieDevice (page_va p.1)) <$> List.filter (fun p : Z * PhysAddr => is_nvme cfg p.2) (ms ++ new)%list), m') /\
      pcie_repr m' held (ms ++ new) k /\ new.*2 = all_functions cfg sgs /\
      forall va, (forall i phys, (i, phys) ∈ new -> ~ same_slot 0 va (page_va i)) ->
        looks_up (pcie_paging m') va = looks_up (pcie_paging m) va
  else Mcfg_parse hhdm cr3_top_pml cfg mem self m = Done (Err InvalidChecksum, m).
Proof.
  intros Ht Hl Hc Hg HR. rewrite (Mcfg_parse_ok mem self header sgs m Ht Hl Hc). destruct (_ =? 0); [| done].
  destruct (init_ok sgs m held ms k Hg HR) as (m' & new & -> & Hrest). rewrite bind_Done. by exists m', new.
Qed.
End discovery.

(** ** Witness: a bus with an NVMe controller as its second device, which has two functions *)
Definition ex_cfg (a : Z) : Z :=
  if a =? 0xb0008000 then 0x12348086 else if a =? 0xb000800c then 0x00800000 else if a =? 0xb0008008 then 0x01080200
  else if a =? 0xb0009000 then 0x56788086 else 0xffffffff.

Definition ex_segment : ConfigSpace := mkConfigSpace 0xb0000000 0 0 0.
Definition ex_mcfg_header : list Z := ([0x4d; 0x43; 0x46; 0x47] ++ le 4 60 ++ [1; 0xf6] ++ replicate 34 0)%list.
Definition ex_mcfg : list Z := (ex_mcfg_header ++ mjoin (encode_config <$> [ex_segment]))%list.
Definition ex_mcfg_mem (a : Z) : Z := nth (Z.to_nat (a - 0x5000)) ex_mcfg 0.

Lemma ex_mcfg_table : table_at ex_mcfg_mem 0x5000 ex_mcfg.
Proof.
  assert (holds ex_mcfg_mem 0x5000 ex_mcfg) as Hh.
  { intros i b E. unfold ex_mcfg_mem. replace (Z.to_nat (0x5000 + Z.of_nat i - 0x5000)) with i by lia. by apply nth_lookup_Some. }
  split; [done | | by vm_compute | by vm_compute].
  assert (forallb (fun b => (0 <=? b) && (b <? 256)) ex_mcfg = true) as Hb by (by vm_compute).
  apply Forall_forall. intros b Hin%list_elem_of_In. apply (proj1 (forallb_forall _ _) Hb) in Hin. unfold is_byte. lia.
Qed.

Lemma mcfg_discovery_correct_witness : exists found m',
  Mcfg_parse ex_boot_hhdm 6 ex_cfg ex_mcfg_mem 0x5000 (mkPcieManager [] (fresh_paging 1100)) = Done (Ok found, m') /\
  length (devices m') = 2%nat /\ length found = 1%nat.
Proof.
  assert (pcie_repr ex_boot_hhdm 6 (mkPcieManager [] (fresh_paging 1100)) [] [] (0 + probes [ex_segment])) as HR.
  { split; [apply fresh_paging_inv; [vm_compute; lia | lia] | done | by apply NoDup_nil | by intros i phys []%not_elem_of_nil]. }
  pose proof (mcfg_discovery_correct ex_boot_hhdm 6 ex_cfg ex_mcfg_mem 0x5000 ex_mcfg_header [ex_segment]
    (mkPcieManager [] (fresh_paging 1100)) [] [] 0 ex_mcfg_table eq_refl) as Hc.
  assert (byte_sum (ex_mcfg_header ++ mjoin (encode_config <$> [ex_segment])) mod 256 = 0) as Es by (by vm_compute).
  rewrite Es in Hc. destruct Hc as (m' & new & E & HR' & En & _).
  - repeat constructor; by vm_compute.
  - constructor; [| constructor]. split_and!; [by vm_compute | by vm_compute | by exists 0xb0000 | by vm_compute | by vm_compute].
  - exact HR.
  - destruct HR' as [_ Hdev _ _]. eexists _, m'. split; [exact E |]. rewrite Hdev. clear E HR Hdev.
    assert (new.*2 = [0xb0008000; 0xb0009000]) as En' by (rewrite En; by vm_compute).
    destruct new as [| [i1 a1] [| [i2 a2] [| ? ?]]]; try done. injection En' as -> ->. done.
Defined.
