(* ===== verification/Xsdt.v ===== *)
(** * The walk over the ACPI tables

    [acpi::init] of boot/src/acpi/mod.rs, the RSDP of rsdp.rs and the XSDT of
    xsdt.rs: each table is mapped by its first page, read through the page
    tables and handed to its parser, which drives the APICs, the HPET and PCIe.
    [phys] gives the bytes of physical memory that the firmware left. *)

From S2P Require Import Prelude Ids Pmm PageFlags PageTable Paging Bitfield IoApic Idt Hpet Lapic Acpi Pcie.

(** What walking the tables sets up. *)
Record AcpiState (W P : Type) := mkAcpiState {
  acpi_apics : Apics W P;
  acpi_hpet : option Hpet;
  acpi_pcie : list PcieDevice;
}.
Arguments mkAcpiState {W P}.
Arguments acpi_apics {W P}.
Arguments acpi_hpet {W P}.
Arguments acpi_pcie {W P}.

Definition acpi_paging {W P} (st : AcpiState W P) : Paging P := ap_paging (acpi_apics st).
Definition acpi_world {W P} (st : AcpiState W P) : W := world (ap_io (acpi_apics st)).

Definition with_paging {W P} (st : AcpiState W P) (g : Paging P) : AcpiState W P :=
  let a := acpi_apics st in
  mkAcpiState (mkApics (ap_io a) (ap_lapics a) (ap_cpu a) g) (acpi_hpet st) (acpi_pcie st).

Definition with_hpet {W P} (st : AcpiState W P) (h : Hpet) (w : W) (g : Paging P) : AcpiState W P :=
  let a := acpi_apics st in
  mkAcpiState (mkApics (with_world (ap_io a) w) (ap_lapics a) (ap_cpu a) g) (Some h) (acpi_pcie st).

Definition with_pcie {W P} (st : AcpiState W P) (m : PcieManager P) : AcpiState W P :=
  let st := with_paging st (pcie_paging m) in
  mkAcpiState (acpi_apics st) (acpi_hpet st) (devices m).

Definition MADT_SIGNATURE : list Z := [0x41; 0x50; 0x49; 0x43].
Definition HPET_SIGNATURE : list Z := [0x48; 0x50; 0x45; 0x54].
Definition MCFG_SIGNATURE : list Z := [0x4d; 0x43; 0x46; 0x47].

Section walk.
Context {W P : Type} `{Mmio32 W} `{Mmio64 W} `{PortIo W} `{Bitfields} `{PmmAllocator P}.
Variables (hhdm root : Z) (phys cfg : Z -> Z).
Implicit Types (st : AcpiState W P) (s : PtState P).

(** ** Reading through the page tables

    The byte at a virtual address, and the page fault of a read of [n] bytes
    when one of them is not mapped. *)
Definition view s : bytes_mem := fun a =>
  match translate hhdm root s a with Done (Some p) => phys (p + a mod BASIC_PAGE_SIZE) | _ => 0 end.

Fixpoint touch s (a : Z) (n : nat) : res unit :=
  match n with
  | O => Done ()
  | S n => o ← translate hhdm root s a; match o with None => Panic BadPointer | Some _ => touch s (a + 1) n end
  end.

(** The header, then all the bytes that [validate_checksum] sums. *)
Definition read_table s (self : Z) : res bytes_mem :=
  _ ← touch s self 8;
  let mem := view s in
  _ ← touch s self (Z.to_nat (SdtHeader_length mem self));
  Done mem.

(** A pointer to the physical address [addr], through a new mapping of its page. *)
Definition map_table (g : Paging P) (addr : PhysAddr) : res (VirtAddr * Paging P) :=
  let diff := addr mod BASIC_PAGE_SIZE in
  '(r, g) ← PagingManager_map_pages hhdm root g (addr - diff) 1 Flags_new size_4kb;
  ptr ← unwrap_ok r;
  Done (ptr + diff, g).

(** ** The XSDT *)
Definition read_signature (mem : bytes_mem) (a : Z) : list Z := (fun i => mem (a + i)) <$> [0; 1; 2; 3].

(** The signature behind an entry, which must be aligned as a header is. *)
Definition entry_signature s (entry : Z) : res (list Z) :=
  _ ← (if entry mod 4 =? 0 then Done () else Panic BadPointer);
  _ ← touch s entry 4;
  Done (read_signature (view s) entry).

(** One round of the loop in [parse_tables]; [n] bounds the entries of a MADT. *)
Definition parse_table (n : nat) st (entry : Z) : option (res (result unit AcpiError * AcpiState W P)) :=
  let s := tables (acpi_paging st) in
  let* signature := Some (entry_signature s entry) in
  if bool_decide (signature = MADT_SIGNATURE) then
    let* mem := Some (read_table s entry) in
    let* (r, a) := Madt_parse hhdm root n mem entry (acpi_apics st) in
    Some (Done (r, mkAcpiState a (acpi_hpet st) (acpi_pcie st)))
  else if bool_decide (signature = HPET_SIGNATURE) then
    let* mem := Some (read_table s entry) in
    let* (r, w, g) := Some (setup_hpet hhdm root mem entry (acpi_world st) (acpi_paging st)) in
    match r with
    | Err e => Some (Done (Err e, st))
    | Ok h => Some (Done (Ok (), with_hpet st h w g))
    end
  else if bool_decide (signature = MCFG_SIGNATURE) then
    let* mem := Some (read_table s entry) in
    let* (r, m) := Some (Mcfg_parse hhdm root cfg mem entry (mkPcieManager (acpi_pcie st) (acpi_paging st))) in
    match r with
    | Err e => Some (Done (Err e, st))
    | Ok _ => Some (Done (Ok (), with_pcie st m))
    end
  else Some (Done (Ok (), st)).

Record XsdtIter := mkXsdtIter { xi_ptr : Z; xi_count : Z }.

Definition Xsdt_iter (mem : bytes_mem) (self : Z) : res XsdtIter :=
  count ← entry_count mem self 8;
  Done (mkXsdtIter (self + size_of_SdtHeader) count).

(** [Iter::next]: the table the next entry points at, mapped. *)
Definition XsdtIter_next (mem : bytes_mem) (it : XsdtIter) (g : Paging P) : res (option VirtAddr * XsdtIter * Paging P) :=
  if xi_count it =? 0 then Done (None, it, g)
  else
    '(entry, g) ← map_table g (read_u64 mem (xi_ptr it));
    Done (Some entry, mkXsdtIter (xi_ptr it + 8) (xi_count it - 1), g).

(** The loop of [parse_tables], at most [fuel] rounds of it. *)
Fixpoint parse_xsdt (n fuel : nat) (mem : bytes_mem) st (it : XsdtIter)
    : option (res (result unit AcpiError * AcpiState W P)) :=
  match fuel with
  | O => None
  | S fuel =>
      let* (o, it, g) := Some (XsdtIter_next mem it (acpi_paging st)) in
      match o with
      | None => Some (Done (Ok (), st))
      | Some entry =>
          let* (r, st) := parse_table n (with_paging st g) entry in
          match r with Err e => Some (Done (Err e, st)) | Ok _ => parse_xsdt n fuel mem st it end
      end
  end.

Definition parse_tables (n : nat) st (self : Z) : option (res (result unit AcpiError * AcpiState W P)) :=
  let* mem := Some (read_table (tables (acpi_paging st)) self) in
  let* r := Some (validate_checksum mem self) in
  match r with
  | Err e => Some (Done (Err e, st))
  | Ok _ =>
      let* it := Some (Xsdt_iter mem self) in
      parse_xsdt n (S (Z.to_nat (xi_count it))) mem st it
  end.

(** ** The RSDP *)
(** The second part is read only when the first has the right sum. *)
Definition rsdp_read_len (mem : bytes_mem) (self : Z) : nat :=
  match sum_bytes mem self size_of_Rsdp 0 with
  | Done sum => if Z.land sum 0xff =? 0 then size_of_Rsdp2 else size_of_Rsdp
  | Panic _ => size_of_Rsdp
  end.

Definition xsdt_address (mem : bytes_mem) (self : Z) : PhysAddr := read_u64 mem (self + 24).

Definition get_xsdt (mem : bytes_mem) (self : Z) (g : Paging P) : res (VirtAddr * Paging P) :=
  '(ptr, g) ← map_table g (xsdt_address mem self);
  _ ← assert_ (ptr mod 4 =? 0);
  Done (ptr, g).

Definition acpi_init (n : nat) st (rsdp_addr : PhysAddr) : option (res (result unit AcpiError * AcpiState W P)) :=
  let* (rsdp, g) := Some (map_table (acpi_paging st) rsdp_addr) in
  let s := tables g in
  let mem := view s in
  let* _ := Some (touch s rsdp size_of_Rsdp) in
  let* _ := Some (touch s rsdp (rsdp_read_len mem rsdp)) in
  let* r := Some (Rsdp2_validate_checksum mem rsdp) in
  match r with
  | Err e => Some (Done (Err e, with_paging st g))
  | Ok _ =>
      let* (xsdt, g) := Some (get_xsdt mem rsdp g) in
      parse_tables n (with_paging st g) xsdt
  end.
End walk.
