(* ===== verification/XsdtTheorems.v ===== *)
(** * Theorems on the walk over the ACPI tables

    [acpi::init] on tables in physical memory refines the initialisers of the
    drivers applied to the contents of the tables, in the order of the XSDT. *)

From S2P Require Import Prelude Ids Pmm PageFlags Pages PageTable PageTableCorrect PageTableTheorems Paging BootMap BootTheorems KernelPages KernelPagesTheorems DevicePages Bitfield IoApic IoApicCorrect Idt IrqTheorems Hpet HpetTheorems Lapic Acpi AcpiTheorems Pcie PcieTheorems Xsdt.

(** ** Bytes *)
Definition mem_of (bs : list Z) : bytes_mem := fun a => nth (Z.to_nat a) bs 0.

Lemma read_le_mem_of mem a bs : holds mem a bs -> forall n off, 0 <= off -> off + Z.of_nat n <= Z.of_nat (length bs) ->
  read_le mem (a + off) n = read_le (mem_of bs) off n.
Proof.
  intros Hh n. induction n as [| n IH]; intros off H0 Hn; [done |]. cbn [read_le]. rewrite <- Z.add_assoc, IH by lia. f_equal.
  unfold mem_of. destruct (lookup_lt_is_Some_2 bs (Z.to_nat off)) as [b Eb]; [lia |].
  rewrite (nth_lookup_Some _ _ _ _ Eb). by rewrite <- (Hh _ b Eb), Z2Nat.id by lia.
Qed.

Lemma read_le_ext mem mem' n : forall a a', (forall j, 0 <= j < Z.of_nat n -> mem (a + j) = mem' (a' + j)) ->
  read_le mem a n = read_le mem' a' n.
Proof.
  induction n as [| n IH]; intros a a' Hm; [done |]. cbn [read_le].
  pose proof (Hm 0 ltac:(lia)) as H0. rewrite !Z.add_0_r in H0. rewrite H0. do 2 f_equal. apply IH.
  intros j Hj. rewrite <- !Z.add_assoc. apply Hm. lia.
Qed.

Lemma read_signature_of mem a bs : holds mem a bs -> (4 <= length bs)%nat -> read_signature mem a = take 4 bs.
Proof.
  intros Hh Hl. destruct bs as [| b0 [| b1 [| b2 [| b3 bs]]]]; cbn in Hl; try lia. unfold read_signature.
  cbn [fmap list_fmap take]. rewrite (Hh 0%nat b0 eq_refl : mem (a + 0) = b0), (Hh 1%nat b1 eq_refl : mem (a + 1) = b1).
  by rewrite (Hh 2%nat b2 eq_refl : mem (a + 2) = b2), (Hh 3%nat b3 eq_refl : mem (a + 3) = b3), take_0.
Qed.

(** ** Tables *)
Inductive Content :=
  | CMadt (header : list Z) (es : list MadtEntry)
  | CHpet (bs : list Z)
  | CMcfg (header : list Z) (sgs : list ConfigSpace)
  | COther (bs : list Z).

Definition content_bytes (c : Content) : list Z :=
  match c with
  | CMadt header es => header ++ concat (map encode es)
  | CHpet bs | COther bs => bs
  | CMcfg header sgs => header ++ mjoin (encode_config <$> sgs)
  end.

Record Table := mkTable { t_addr : PhysAddr; t_content : Content }.

(** The bytes of a table at a physical address: they fit into its page. *)
Record placed (phys : Z -> Z) (a : PhysAddr) (bs : list Z) : Prop := {
  pl_holds : holds phys a bs;
  pl_bytes : Forall is_byte bs;
  pl_header : (36 <= length bs)%nat;
  pl_length : SdtHeader_length (mem_of bs) 0 = Z.of_nat (length bs);
  pl_addr : 0 <= a < 2 ^ 52;
  pl_aligned : a mod 4 = 0;
  pl_fits : a mod BASIC_PAGE_SIZE + Z.of_nat (length bs) <= BASIC_PAGE_SIZE;
}.

(** The registers that a table names begin at a page. *)
Definition entry_maps (lapic_addr : Z) (e : MadtEntry) : Prop :=
  match e with
  | ELocalApic _ _ _ | EX2Apic _ _ _ => (BASIC_PAGE_SIZE | lapic_addr) /\ 0 <= lapic_addr < 2 ^ 52
  | EIoApic _ addr _ | EAddrOverride addr => (BASIC_PAGE_SIZE | addr) /\ 0 <= addr < 2 ^ 52
  | _ => True
  end.

Definition madt_lapic_addr (header : list Z) : Z := read_u32 (mem_of header) 36.
Definition hpet_base (bs : list Z) : Z := read_u64 (mem_of bs) 44.

Definition content_ok (c : Content) : Prop :=
  match c with
  | CMadt header es =>
      length header = 44%nat /\ take 4 header = MADT_SIGNATURE /\ Forall entry_ok es /\
      Forall (entry_maps (madt_lapic_addr header)) es
  | CHpet bs =>
      (54 <= length bs)%nat /\ take 4 bs = HPET_SIGNATURE /\ (BASIC_PAGE_SIZE | hpet_base bs) /\ 0 <= hpet_base bs < 2 ^ 52
  | CMcfg header sgs =>
      length header = 44%nat /\ take 4 header = MCFG_SIGNATURE /\ Forall config_ok sgs /\ Forall group_ok sgs
  | COther bs => take 4 bs ∉ [MADT_SIGNATURE; HPET_SIGNATURE; MCFG_SIGNATURE]
  end.

(** Entries of MADTs: the loop over a MADT needs one round for each and one
    more. *)
Definition content_entries (c : Content) : nat := match c with CMadt _ es => length es | _ => 0%nat end.

(** Pages that a table asks for at most, without the one it is mapped at. *)
Definition content_pages (c : Content) : nat :=
  match c with CMadt _ es => length es | CHpet _ => 1%nat | CMcfg _ sgs => probes sgs | COther _ => 0%nat end.

Definition tables_pages (ts : list Table) : nat := sum_list_with (fun t => S (content_pages (t_content t))) ts.

Definition table_ok (phys : Z -> Z) (t : Table) : Prop :=
  placed phys (t_addr t) (content_bytes (t_content t)) /\ content_ok (t_content t).

(** ** What the tables ask for, without the bytes *)
Section spec.
Context {W P : Type} `{Mmio32 W} `{Mmio64 W} `{PortIo W} `{Bitfields} `{PmmAllocator P}.
Variables (hhdm root : Z) (cfg : Z -> Z).
Implicit Types (st : AcpiState W P).

Definition checked {A} (bs : list Z) (ok : res A) (refused : A) : res A :=
  if byte_sum bs mod 256 =? 0 then ok else Done refused.

Definition do_content (c : Content) st : res (result unit AcpiError * AcpiState W P) :=
  match c with
  | CMadt header es => checked (content_bytes c) (
      a ← apply_entries hhdm root (madt_lapic_addr header) (pic_masked (acpi_apics st)) es;
      io ← init_irq_allocator (ap_io a);
      Done (Ok (), mkAcpiState (mkApics io (ap_lapics a) (ap_cpu a) (ap_paging a)) (acpi_hpet st) (acpi_pcie st)))
      (Err InvalidChecksum, st)
  | CHpet bs => checked bs (
      '(r, g) ← PagingManager_map_pages hhdm root (acpi_paging st) (hpet_base bs) 1 (set_read_write Flags_new true) size_4kb;
      ptr ← unwrap_ok r;
      '(h, w) ← Hpet_init (acpi_world st) ptr (read_u16 (mem_of bs) 52) Legacy;
      Done (Ok (), with_hpet st h w g)) (Err InvalidChecksum, st)
  | CMcfg header sgs => checked (content_bytes c) (
      '(_, m) ← PcieManager_init hhdm root cfg (mkPcieManager (acpi_pcie st) (acpi_paging st)) sgs;
      Done (Ok (), with_pcie st m)) (Err InvalidChecksum, st)
  | COther _ => Done (Ok (), st)
  end.

Fixpoint do_tables (ts : list Table) st : res (result unit AcpiError * AcpiState W P) :=
  match ts with
  | [] => Done (Ok (), st)
  | t :: ts =>
      '(_, g) ← map_table hhdm root (acpi_paging st) (t_addr t);
      '(r, st) ← do_content (t_content t) (with_paging st g);
      match r with Err e => Done (Err e, st) | Ok _ => do_tables ts st end
  end.

(** The RSDP at [rsdp_addr] with the bytes [rsdp], the XSDT at [xsdt_addr] with
    the bytes [xsdt], and the tables it lists. *)
Definition do_init (rsdp_addr xsdt_addr : PhysAddr) (rsdp xsdt : list Z) (ts : list Table) st
    : res (result unit AcpiError * AcpiState W P) :=
  '(_, g) ← map_table hhdm root (acpi_paging st) rsdp_addr;
  let st := with_paging st g in
  checked (take 20 rsdp) (
    checked (drop 20 rsdp) (
      '(_, g) ← map_table hhdm root (acpi_paging st) xsdt_addr;
      let st := with_paging st g in
      checked xsdt (do_tables ts st) (Err InvalidChecksum, st))
      (Err InvalidChecksum, st))
    (Err InvalidChecksum, st).
End spec.

Section walk.
Context {W P : Type} `{Mmio32 W} `{Mmio64 W} `{PortIo W} `{Bitfields} `{PmmLaws P}.
Variables (hhdm root : Z) (phys cfg : Z -> Z).
Implicit Types (st : AcpiState W P) (g : Paging P) (s : PtState P).

#[local] Notation repr := (pcie_repr hhdm root).

(** ** Mapped pages *)
Lemma map_page_ok m held ms k a flags : repr m held ms (S k) -> (BASIC_PAGE_SIZE | a) -> 0 <= a < 2 ^ 63 -> device_flags flags ->
  exists g' i, PagingManager_map_pages hhdm root (pcie_paging m) a 1 flags size_4kb = Done (Ok (page_va i), g') /\
    repr (mkPcieManager (devices m) g') held ms k /\ 0 < i < 2 ^ 35 /\ i + 1 = next_page g' /\
    device_slot root (tables g') (page_va i) a.
Proof.
  intros [Hi Hd Hnd Hm] Ha Hb Hf.
  destruct (map_device_ok hhdm root (pcie_paging m) held k a flags Hi Ha Hb Hf) as (g' & E & Hi' & Hn' & Hs & Hlv & _ & _).
  destruct (gi_next _ _ _ _ _ Hi) as [Hn0 Hn]. exists g', (next_page (pcie_paging m)). split_and!; try done || lia.
  split; cbn [pcie_paging devices]; try done. intros j ph (Hj & Hjn & Hjd & (e & He & He'))%Hm. split_and!; [lia | lia | done | done |].
  exists e. split; [| done]. apply Hlv; [| done]. apply slot_at_other; lia.
Qed.

Lemma flags_new_device : device_flags Flags_new.
Proof. by vm_compute. Qed.
Lemma flags_rw_device : device_flags (set_read_write Flags_new true).
Proof. by vm_compute. Qed.

Lemma map_table_ok m held ms k a : repr m held ms (S k) -> 0 <= a < 2 ^ 52 ->
  exists g' i, map_table hhdm root (pcie_paging m) a = Done (page_va i + a mod BASIC_PAGE_SIZE, g') /\
    repr (mkPcieManager (devices m) g') held ms k /\ 0 < i < 2 ^ 35 /\ i + 1 = next_page g' /\
    device_slot root (tables g') (page_va i) (a - a mod BASIC_PAGE_SIZE).
Proof.
  intros HR Ha. pose proof (Z.mod_pos_bound a BASIC_PAGE_SIZE ltac:(done)).
  pose proof (Z.div_mod a BASIC_PAGE_SIZE ltac:(done)) as Ed. pose proof (Z.div_pos a BASIC_PAGE_SIZE ltac:(lia) ltac:(done)).
  destruct (map_page_ok m held ms k (a - a mod BASIC_PAGE_SIZE) Flags_new HR) as (g' & i & E & Hrest).
  { exists (a / BASIC_PAGE_SIZE). lia. } { unfold BASIC_PAGE_SIZE in *. lia. } { exact flags_new_device. }
  exists g', i. split; [| done]. unfold map_table. by rewrite E, bind_Done.
Qed.

(** ** Reading a mapped page *)
Lemma page_translates s i a r : pt_inv hhdm (pml root) s -> 0 <= i < 2 ^ 35 -> device_slot root s (page_va i) a ->
  0 <= r < BASIC_PAGE_SIZE -> translate hhdm root s (page_va i + r) = Done (Some a).
Proof.
  intros Hi Hb Hs Hr. rewrite (translate_ok hhdm root) by done. f_equal.
  apply (device_slot_translate _ _ _ _ _ Hs). apply page_va_offset; lia.
Qed.

Lemma touch_ok s i a : pt_inv hhdm (pml root) s -> 0 <= i < 2 ^ 35 -> device_slot root s (page_va i) a ->
  forall n off, 0 <= off -> off + Z.of_nat n <= BASIC_PAGE_SIZE -> touch hhdm root s (page_va i + off) n = Done ().
Proof.
  intros Hi Hb Hs n. induction n as [| n IH]; intros off H0' Hn; [done |]. cbn [touch].
  rewrite (page_translates s i a) by (done || lia). rewrite bind_Done, <- Z.add_assoc. apply IH; lia.
Qed.

Lemma view_holds s i a off bs : pt_inv hhdm (pml root) s -> 0 <= i < 2 ^ 35 -> device_slot root s (page_va i) a ->
  0 <= off -> off + Z.of_nat (length bs) <= BASIC_PAGE_SIZE -> holds phys (a + off) bs ->
  holds (view hhdm root phys s) (page_va i + off) bs.
Proof.
  intros Hi Hb Hs H0' Hl Hh j b Ej. pose proof (lookup_lt_Some _ _ _ Ej). unfold view. rewrite <- Z.add_assoc.
  rewrite (page_translates s i a) by (done || lia). rewrite <- (Hh j b Ej). f_equal.
  unfold page_va. rewrite (Z.add_comm (_ * _)), Z.mod_add by done. rewrite Z.mod_small by lia. lia.
Qed.

(** A page keeps the alignment of what is mapped to it. *)
Lemma page_va_mod4 i a : (page_va i + a mod BASIC_PAGE_SIZE) mod 4 = a mod 4.
Proof.
  unfold page_va, BASIC_PAGE_SIZE. replace (i * 4096) with (i * 1024 * 4) by lia.
  by rewrite Z.add_comm, Z.mod_add, Z.mod_mod_divide by (done || by exists 1024).
Qed.

(** A placed table that has been mapped. *)
Record readable s (va : Z) (bs : list Z) : Prop := {
  rd_holds : holds (view hhdm root phys s) va bs;
  rd_touch n : (n <= length bs)%nat -> touch hhdm root s va n = Done ();
  rd_aligned : va mod 4 = 0;
}.

Lemma placed_readable m held ms k a bs : repr m held ms (S k) -> placed phys a bs ->
  exists g' va, map_table hhdm root (pcie_paging m) a = Done (va, g') /\
    repr (mkPcieManager (devices m) g') held ms k /\ readable (tables g') va bs.
Proof.
  intros HR [Hh _ _ _ Ha Hal Hf]. destruct (map_table_ok m held ms k a HR Ha) as (g' & i & E & HR' & Hi & _ & Hs).
  exists g', (page_va i + a mod BASIC_PAGE_SIZE). split; [done |]. split; [done |].
  pose proof (gi_pt _ _ _ _ _ (pr_inv _ _ _ _ _ _ HR')) as Hpt. pose proof (Z.mod_pos_bound a BASIC_PAGE_SIZE ltac:(done)).
  split.
  - apply (view_holds _ i _ _ bs Hpt ltac:(lia) Hs); [lia | done | by replace (a - a mod BASIC_PAGE_SIZE + a mod BASIC_PAGE_SIZE) with a by lia].
  - intros n Hn. apply (touch_ok _ i _ Hpt ltac:(lia) Hs); lia.
  - by rewrite page_va_mod4.
Qed.

Lemma readable_table s va a bs : placed phys a bs -> readable s va bs ->
  table_at (view hhdm root phys s) va bs /\ read_table hhdm root phys s va = Done (view hhdm root phys s).
Proof.
  intros [_ Hb Hl Hlen _ _ Hf] [Hh Ht _]. pose proof (Z.mod_pos_bound a BASIC_PAGE_SIZE ltac:(done)).
  assert (SdtHeader_length (view hhdm root phys s) va = Z.of_nat (length bs)) as El.
  { unfold SdtHeader_length, read_u32. rewrite (read_le_mem_of _ _ bs Hh) by lia. exact Hlen. }
  split; [split; [done | done | done | unfold BASIC_PAGE_SIZE in *; lia] |].
  unfold read_table. rewrite (Ht 8%nat), bind_Done by lia. cbn zeta. by rewrite El, Nat2Z.id, (Ht (length bs)), bind_Done by lia.
Qed.

(** ** The pages that the drivers map *)
Lemma map_pages_keep ds g held ms k a flags r g' : repr (mkPcieManager ds g) held ms (S k) ->
  (BASIC_PAGE_SIZE | a) -> 0 <= a < 2 ^ 52 -> device_flags flags ->
  PagingManager_map_pages hhdm root g a 1 flags size_4kb = Done (r, g') -> repr (mkPcieManager ds g') held ms k.
Proof.
  intros HR Ha Hb Hf E. destruct (map_page_ok _ held ms k a flags HR Ha ltac:(lia) Hf) as (g2 & i & E2 & HR2 & _).
  cbn [pcie_paging devices] in *. rewrite E in E2. by injection E2 as -> ->.
Qed.

Lemma lapic_add_keep ds g w c l base acpi_id apic_id flags g' w' c' l' held ms k :
  repr (mkPcieManager ds g) held ms (S k) -> (BASIC_PAGE_SIZE | base) /\ 0 <= base < 2 ^ 52 ->
  lapic_add hhdm root g w c l base acpi_id apic_id flags = Done (g', w', c', l') -> repr (mkPcieManager ds g') held ms k.
Proof.
  intros HR [Ha Hb]. unfold lapic_add. case_if; intros E.
  - injection E as <- _ _ _. revert HR. apply pcie_repr_le. lia.
  - res_inv. destruct v as [r g2]. res_inv. destruct v0 as [[a w2] c2]. res_inv.
    eapply map_pages_keep; [exact HR | done | done | exact flags_rw_device | eassumption].
Qed.

Lemma apply_entry_keep ds lapic_addr (a a' : Apics W P) e held ms k : repr (mkPcieManager ds (ap_paging a)) held ms (S k) ->
  entry_maps lapic_addr e -> apply_entry hhdm root lapic_addr a e = Done a' -> repr (mkPcieManager ds (ap_paging a')) held ms k.
Proof.
  intros HR He E. destruct e; cbn [apply_entry entry_maps] in *;
    unfold add_lapic, add_ioapic, add_override, set_lints, move_lapics in E; res_inv.
  - destruct v as [[[g w] c] l]. res_inv. by apply (lapic_add_keep _ _ _ _ _ _ _ _ _ _ _ _ _ _ _ _ HR He Hm).
  - destruct v as [g io]. res_inv. unfold ioapic_add in Hm. res_inv. destruct v as [r g2]. res_inv. destruct v0 as [a2 w2]. res_inv.
    eapply map_pages_keep; [exact HR | apply He | apply He | exact flags_rw_device | eassumption].
  - revert HR. apply pcie_repr_le. lia.
  - revert HR. apply pcie_repr_le. lia.
  - revert HR. apply pcie_repr_le. lia.
  - destruct v as [r g2]. res_inv. eapply map_pages_keep; [exact HR | apply He | apply He | exact flags_rw_device | eassumption].
  - destruct v as [[[g w] c] l]. res_inv. by apply (lapic_add_keep _ _ _ _ _ _ _ _ _ _ _ _ _ _ _ _ HR He Hm).
  - revert HR. apply pcie_repr_le. lia.
Qed.

Lemma apply_entries_keep ds lapic_addr es held ms k : Forall (entry_maps lapic_addr) es -> forall a a' : Apics W P,
  repr (mkPcieManager ds (ap_paging a)) held ms (length es + k) -> apply_entries hhdm root lapic_addr a es = Done a' ->
  repr (mkPcieManager ds (ap_paging a')) held ms k.
Proof.
  induction 1 as [| e es He _ IH]; intros a a' HR E; cbn [apply_entries] in E; res_inv; [done |].
  apply (IH v a'); [| done]. by apply (apply_entry_keep ds lapic_addr a v e).
Qed.

(** The invariant of the walk: that of the page service, with the devices
    found so far mapped. *)
Definition walk_inv st held ms k : Prop := repr (mkPcieManager (acpi_pcie st) (acpi_paging st)) held ms k.

Lemma do_content_keep c st st' r held ms k : content_ok c -> walk_inv st held ms (content_pages c + k) ->
  do_content hhdm root cfg c st = Done (r, st') -> exists ms', walk_inv st' held ms' k.
Proof.
  intros Hc HR E. assert (walk_inv st held ms k) as HR0 by (revert HR; apply pcie_repr_le; lia).
  destruct c as [header es | bs | header sgs | bs]; cbn [do_content content_pages content_ok] in *; unfold checked in E.
  - destruct Hc as (_ & _ & _ & He). destruct (_ =? 0); [| injection E as _ <-; by exists ms]. res_inv. exists ms.
    unfold walk_inv, acpi_paging. cbn [acpi_apics ap_paging acpi_pcie].
    by apply (apply_entries_keep _ _ _ _ _ _ He (pic_masked (acpi_apics st)) _ HR Hm).
  - destruct Hc as (_ & _ & Ha & Hb). destruct (_ =? 0); [| injection E as _ <-; by exists ms].
    res_inv. destruct v as [r1 g1]. res_inv. destruct v0 as [h w]. res_inv. exists ms.
    eapply map_pages_keep; [exact HR | done | done | exact flags_rw_device | eassumption].
  - destruct Hc as (_ & _ & _ & Hg). destruct (_ =? 0); [| injection E as _ <-; by exists ms].
    rewrite Nat.add_comm in HR. destruct (init_ok hhdm root cfg sgs _ held ms k Hg HR) as (m' & new & E2 & HR2 & _).
    res_inv. rewrite Hm in E2. injection E2 as ->. res_inv. exists (ms ++ new)%list. by destruct m'.
  - injection E as _ <-. by exists ms.
Qed.

(** ** One table *)
Lemma readable_signature s va bs sig : readable s va bs -> (36 <= length bs)%nat -> take 4 bs = sig ->
  entry_signature hhdm root phys s va = Done sig.
Proof.
  intros [Hh Ht Ha] Hl <-. unfold entry_signature. rewrite Ha, Ht by lia. cbn [Z.eqb]. rewrite !bind_Done.
  by rewrite (read_signature_of _ _ _ Hh) by lia.
Qed.

Lemma setup_hpet_ok (mem : bytes_mem) va bs (w : W) g : table_at mem va bs -> (54 <= length bs)%nat ->
  setup_hpet hhdm root mem va w g =
    checked bs (
      '(r, g) ← PagingManager_map_pages hhdm root g (hpet_base bs) 1 (set_read_write Flags_new true) size_4kb;
      ptr ← unwrap_ok r;
      '(h, w) ← Hpet_init w ptr (read_u16 (mem_of bs) 52) Legacy;
      Done (Ok h, w, g)) (Err InvalidChecksum, w, g).
Proof.
  intros Ht Hl. unfold setup_hpet, checked, hpet_base, read_u64, read_u16. rewrite (validate_checksum_ok mem va _ Ht), bind_Done.
  by rewrite !(read_le_mem_of mem va bs (tb_holds _ _ _ Ht)) by lia; destruct (_ =? 0).
Qed.

Lemma parse_table_ok n st va a c : placed phys a (content_bytes c) -> content_ok c -> (content_entries c < n)%nat ->
  readable (tables (acpi_paging st)) va (content_bytes c) ->
  parse_table hhdm root phys cfg n st va = Some (do_content hhdm root cfg c st).
Proof.
  intros Hp Hc Hn Hr. destruct (readable_table _ _ _ _ Hp Hr) as [Ht Erd]. pose proof (pl_header _ _ _ Hp) as Hl.
  unfold parse_table. cbn zeta. rewrite (readable_signature _ _ _ (take 4 (content_bytes c)) Hr Hl eq_refl).
  assert (forall (l l' : list Z), (44 <= length l)%nat -> take 4 (l ++ l') = take 4 l) as Ht4.
  { intros l l' Hll. by rewrite take_app_le by lia. }
  destruct c as [header es | bs | header sgs | bs]; cbn [content_bytes content_ok content_entries do_content] in *.
  - destruct Hc as (Hh & Hs & He & _). rewrite Ht4, Hs by lia. rewrite bool_decide_true by done.
    rewrite Erd. rewrite (Madt_parse_ok hhdm root _ va header es _ n) by done. unfold checked.
    destruct (_ =? 0); [| by destruct st].
    assert (read_u32 (view hhdm root phys (tables (acpi_paging st))) (va + 36) = madt_lapic_addr header) as ->.
    { apply (read_le_mem_of _ _ header); [| lia | lia]. by apply (holds_app _ _ _ (concat (map encode es))), Ht. }
    destruct (apply_entries _ _ _ _ _) as [a' |]; [| done]. cbn. by destruct (init_irq_allocator _).
  - destruct Hc as (Hh & Hs & _). rewrite Hs. rewrite bool_decide_false by done. rewrite bool_decide_true by done.
    rewrite Erd, (setup_hpet_ok _ _ _ _ _ Ht) by done. unfold checked. destruct (_ =? 0); [| done].
    destruct (PagingManager_map_pages _ _ _ _ _ _ _) as [[r g] |]; [| done]. cbn. destruct (unwrap_ok r); [| done]. cbn.
    by destruct (Hpet_init _ _ _ _) as [[h w] |].
  - destruct Hc as (Hh & Hs & Hcf & _). rewrite Ht4, Hs by lia. rewrite !bool_decide_false by done. rewrite bool_decide_true by done.
    rewrite Erd, (Mcfg_parse_ok hhdm root cfg _ _ header sgs _ Ht Hh Hcf). unfold checked. destruct (_ =? 0); [| done].
    by destruct (PcieManager_init _ _ _ _ _) as [[f m] |].
  - rewrite !not_elem_of_cons in Hc. destruct Hc as (H1' & H2' & H3' & _). by rewrite !bool_decide_false by done.
Qed.

(** ** The XSDT *)
Definition xsdt_bytes (header : list Z) (ts : list Table) : list Z := header ++ mjoin (le 8 <$> (t_addr <$> ts)).

Lemma entries_length (l : list Z) : length (mjoin (le 8 <$> l)) = (8 * length l)%nat.
Proof.
  induction l as [| a l IH]; [done |]. change (mjoin (le 8 <$> a :: l)) with (le 8 a ++ mjoin (le 8 <$> l)).
  rewrite length_app, le_length, IH. cbn [length]. lia.
Qed.

(** The walk from the [i]-th entry on: [mem] is the XSDT as it was read. *)
Lemma parse_xsdt_ok mem n ts : Forall (table_ok phys) ts -> Forall (fun t => content_entries (t_content t) < n)%nat ts ->
  forall st held ms k ptr fuel, walk_inv st held ms (tables_pages ts + k) ->
  holds mem ptr (mjoin (le 8 <$> (t_addr <$> ts))) -> (length ts < fuel)%nat ->
  parse_xsdt hhdm root phys cfg n fuel mem st (mkXsdtIter ptr (Z.of_nat (length ts))) = Some (do_tables hhdm root cfg ts st) /\
  (forall st', do_tables hhdm root cfg ts st = Done (Ok (), st') -> exists ms', walk_inv st' held ms' k).
Proof.
  induction 1 as [| t ts [Hp Hc] _ IH]; intros Hn st held ms k ptr fuel HR Hh Hf; (destruct fuel as [| fuel]; [cbn in Hf; lia |]).
  { cbn [parse_xsdt length]. split; [done |]. intros st' [= <-]. by exists ms. }
  apply Forall_cons in Hn as [Hn0 Hn]. cbn [fmap list_fmap mjoin list_join] in Hh. apply holds_app in Hh as [Hh1 Hh2].
  rewrite le_length in Hh2. cbn [length] in *. cbn [parse_xsdt do_tables]. unfold XsdtIter_next. cbn [xi_count xi_ptr].
  rewrite (proj2 (Z.eqb_neq _ _)) by lia.
  assert (read_u64 mem ptr = t_addr t) as ->.
  { apply read_le_ok; [| done]. destruct (pl_addr _ _ _ Hp). lia. }
  unfold tables_pages in HR. cbn [sum_list_with] in HR. fold (tables_pages ts) in HR.
  replace (S (content_pages (t_content t)) + tables_pages ts + k)%nat
    with (S (content_pages (t_content t) + (tables_pages ts + k)))%nat in HR by lia.
  destruct (placed_readable _ _ _ _ _ _ HR Hp) as (g' & va & E & HR' & Hrd). cbn [pcie_paging devices] in *. rewrite E, !bind_Done.
  assert (walk_inv (with_paging st g') held ms (content_pages (t_content t) + (tables_pages ts + k))) as HR2 by done.
  rewrite (parse_table_ok n (with_paging st g') va _ _ Hp Hc Hn0 Hrd).
  destruct (do_content hhdm root cfg (t_content t) (with_paging st g')) as [[[[] | e] st1] | p] eqn:E1; [| done | done].
  destruct (do_content_keep _ _ _ _ _ _ _ Hc HR2 E1) as [ms1 HR1]. rewrite bind_Done.
  replace (Z.of_nat (S (length ts)) - 1) with (Z.of_nat (length ts)) by lia.
  apply (IH Hn st1 held ms1 k); [done | done | lia].
Qed.

Lemma parse_tables_ok n st va a header ts held ms k : placed phys a (xsdt_bytes header ts) -> length header = 36%nat ->
  Forall (table_ok phys) ts -> Forall (fun t => content_entries (t_content t) < n)%nat ts ->
  readable (tables (acpi_paging st)) va (xsdt_bytes header ts) -> walk_inv st held ms (tables_pages ts + k) ->
  parse_tables hhdm root phys cfg n st va =
    Some (checked (xsdt_bytes header ts) (do_tables hhdm root cfg ts st) (Err InvalidChecksum, st)) /\
  (forall st', do_tables hhdm root cfg ts st = Done (Ok (), st') -> exists ms', walk_inv st' held ms' k).
Proof.
  intros Hp Hl Hts Hn Hr HR. destruct (readable_table _ _ _ _ Hp Hr) as [Ht Erd]. pose proof (tb_length _ _ _ Ht) as El.
  pose proof (tb_holds _ _ _ Ht) as Hh. unfold xsdt_bytes in Hh. apply holds_app in Hh as [_ Hh]. rewrite Hl in Hh.
  destruct (parse_xsdt_ok _ n ts Hts Hn st held ms k _ (S (length ts)) HR Hh ltac:(lia)) as [E Hk]. split; [| done].
  unfold parse_tables, checked. rewrite Erd, (validate_checksum_ok _ _ _ Ht).
  destruct (_ =? 0); [| done]. unfold Xsdt_iter, entry_count, size_of_SdtHeader. rewrite El. unfold xsdt_bytes.
  rewrite length_app, Hl, entries_length, length_fmap. rewrite usize_sub_ok, bind_Done by lia.
  replace (Z.of_nat (36 + 8 * length ts) - 36) with (Z.of_nat (length ts) * 8) by lia.
  rewrite usize_rem_ok, bind_Done, Z.mod_mul by lia. cbn [Z.eqb assert_]. rewrite bind_Done, Z.div_mul, bind_Done by lia.
  cbn [xi_count]. by rewrite Nat2Z.id.
Qed.

(** ** The RSDP *)
Record rsdp_placed (a : PhysAddr) (bs : list Z) (xsdt_addr : PhysAddr) : Prop := {
  rp_holds : holds phys a bs;
  rp_bytes : Forall is_byte bs;
  rp_length : length bs = 36%nat;
  rp_xsdt : read_u64 (mem_of bs) 24 = xsdt_addr;
  rp_addr : 0 <= a < 2 ^ 52;
  rp_fits : a mod BASIC_PAGE_SIZE + 36 <= BASIC_PAGE_SIZE;
}.

Lemma land_ff v : 0 <= v -> Z.land v 0xff = v mod 256.
Proof. intros Hv. change 0xff with (Z.ones 8). by rewrite Z.land_ones by lia. Qed.

Lemma rsdp_checksum_ok (mem : bytes_mem) va bs : holds mem va bs -> Forall is_byte bs -> length bs = 36%nat ->
  Rsdp2_validate_checksum mem va =
    checked (take 20 bs) (checked (drop 20 bs) (Done (Ok ())) (Err InvalidChecksum)) (Err InvalidChecksum) /\
  rsdp_read_len mem va = (if byte_sum (take 20 bs) mod 256 =? 0 then 36%nat else 20%nat).
Proof.
  intros Hh Hb Hl. rewrite <- (take_drop 20 bs) in Hh, Hb. apply holds_app in Hh as [Hh1 Hh2]. apply Forall_app in Hb as [Hb1 Hb2].
  assert (length (take 20 bs) = 20%nat) as L1 by (rewrite length_take; lia).
  assert (length (drop 20 bs) = 16%nat) as L2 by (rewrite length_drop; lia). rewrite L1 in Hh2.
  pose proof (byte_sum_bound _ Hb1) as B1. pose proof (byte_sum_bound _ Hb2) as B2. rewrite L1 in B1. rewrite L2 in B2.
  assert (sum_bytes mem va size_of_Rsdp 0 = Done (byte_sum (take 20 bs))) as E1.
  { unfold size_of_Rsdp. rewrite <- L1 at 1. rewrite sum_bytes_ok by (done || (unfold usize_MAX; lia)). by rewrite Z.add_0_l. }
  assert (sum_bytes mem (va + Z.of_nat size_of_Rsdp) (size_of_Rsdp2 - size_of_Rsdp) 0 = Done (byte_sum (drop 20 bs))) as E2.
  { change (size_of_Rsdp2 - size_of_Rsdp)%nat with 16%nat. rewrite <- L2 at 1.
    rewrite sum_bytes_ok by (done || (unfold usize_MAX; lia)). by rewrite Z.add_0_l. }
  unfold Rsdp2_validate_checksum, rsdp_read_len, checked. rewrite E1, bind_Done, land_ff by lia.
  split; [| by destruct (_ =? 0)]. destruct (byte_sum (take 20 bs) mod 256 =? 0); [| done]. cbn [negb].
  rewrite E2, bind_Done, land_ff by lia. by destruct (byte_sum (drop 20 bs) mod 256 =? 0).
Qed.

(** The tables, from the RSDP on. *)
Lemma acpi_init_ok n st rsdp_addr rsdp xsdt_addr header ts held ms k :
  rsdp_placed rsdp_addr rsdp xsdt_addr -> placed phys xsdt_addr (xsdt_bytes header ts) -> length header = 36%nat ->
  Forall (table_ok phys) ts -> Forall (fun t => content_entries (t_content t) < n)%nat ts ->
  walk_inv st held ms (2 + tables_pages ts + k) ->
  let spec := do_init hhdm root cfg rsdp_addr xsdt_addr rsdp (xsdt_bytes header ts) ts st in
  acpi_init hhdm root phys cfg n st rsdp_addr = Some spec /\
  (forall st', spec = Done (Ok (), st') -> exists ms', walk_inv st' held ms' k).
Proof.
  intros [Hh Hb Hl Hx Ha Hf] Hxp Hlh Hts Hn HR spec. unfold spec, acpi_init, do_init.
  destruct (map_table_ok _ _ _ _ _ HR Ha) as (g' & i & E & HR' & Hi & _ & Hs). cbn [pcie_paging devices] in *.
  rewrite E, !bind_Done. cbn zeta. pose proof (gi_pt _ _ _ _ _ (pr_inv _ _ _ _ _ _ HR')) as Hpt. cbn [pcie_paging] in Hpt.
  pose proof (Z.mod_pos_bound rsdp_addr BASIC_PAGE_SIZE ltac:(done)). set (va := page_va i + rsdp_addr mod BASIC_PAGE_SIZE).
  assert (holds (view hhdm root phys (tables g')) va rsdp) as Hv.
  { apply (view_holds _ i _ _ _ Hpt ltac:(lia) Hs); [lia | lia |].
    by replace (rsdp_addr - rsdp_addr mod BASIC_PAGE_SIZE + rsdp_addr mod BASIC_PAGE_SIZE) with rsdp_addr by lia. }
  destruct (rsdp_checksum_ok _ _ _ Hv Hb Hl) as [Ec El].
  assert (forall m, (m <= 36)%nat -> touch hhdm root (tables g') va m = Done ()) as Ht.
  { intros m Hm. apply (touch_ok _ i _ Hpt ltac:(lia) Hs); lia. }
  rewrite (Ht size_of_Rsdp) by (unfold size_of_Rsdp; lia). rewrite (Ht (rsdp_read_len _ _)) by (rewrite El; case_if; lia).
  rewrite Ec. unfold checked. destruct (_ =? 0); [| done]. destruct (_ =? 0); [| done]. unfold get_xsdt, xsdt_address.
  assert (read_u64 (view hhdm root phys (tables g')) (va + 24) = xsdt_addr) as ->.
  { unfold read_u64. rewrite (read_le_mem_of _ _ _ Hv) by (rewrite ?Hl; lia). exact Hx. }
  assert (walk_inv (with_paging st g') held ms (S (tables_pages ts + k))) as HR2 by done.
  destruct (placed_readable _ _ _ _ _ _ HR2 Hxp) as (g2 & vx & E2 & HR3 & Hrd). cbn [pcie_paging devices] in *.
  change (acpi_paging (with_paging st g')) with g' in E2. rewrite E2, !bind_Done, (rd_aligned _ _ _ Hrd). cbn [Z.eqb assert_]. rewrite bind_Done.
  change (acpi_paging (with_paging st g')) with g'. rewrite E2, bind_Done.
  destruct (parse_tables_ok n (with_paging (with_paging st g') g2) vx _ header ts held ms k Hxp Hlh Hts Hn Hrd HR3) as [E3 Hk].
  change (with_paging (with_paging st g') g2) with (with_paging st g2) in *. rewrite E3. unfold checked.
  split; [done |]. intros st'. destruct (_ =? 0); [apply Hk | done].
Qed.

(** C24: [acpi::init] ends, and does what the tables that the XSDT lists ask
    for, one after the other, each after a page of virtual memory was mapped to
    it; it stops at the first wrong checksum.  The invariant of the page service
    holds after it. *)
Theorem acpi_init_refines n st rsdp_addr rsdp xsdt_addr header ts held ms k :
  rsdp_placed rsdp_addr rsdp xsdt_addr -> placed phys xsdt_addr (xsdt_bytes header ts) -> length header = 36%nat ->
  Forall (table_ok phys) ts -> Forall (fun t => content_entries (t_content t) < n)%nat ts ->
  walk_inv st held ms (2 + tables_pages ts + k) ->
  let spec := do_init hhdm root cfg rsdp_addr xsdt_addr rsdp (xsdt_bytes header ts) ts st in
  acpi_init hhdm root phys cfg n st rsdp_addr = Some spec /\
  (forall st', spec = Done (Ok (), st') -> exists ms', walk_inv st' held ms' k).
Proof. exact (acpi_init_ok n st rsdp_addr rsdp xsdt_addr header ts held ms k). Qed.

(** ** Tables that do not fit into their page *)
Lemma next_page_unmapped g held k i : paging_inv hhdm root g held (S k) -> i = next_page g ->
  translate hhdm root (tables g) (page_va i) = Done None.
Proof.
  intros Hi ->. destruct (gi_next _ _ _ _ _ Hi) as [H1' H2']. rewrite (translate_ok hhdm root) by apply Hi. f_equal.
  apply (unmapped_none hhdm (pml root) (tables g) 0 (page_va (next_page g)) 1 0); [apply Hi | lia | lia | | | lia].
  - apply (vacant_unmapped hhdm); [apply Hi | apply (gi_vacant _ _ _ _ _ Hi); lia].
  - done.
Qed.

Lemma touch_crossing s i a : pt_inv hhdm (pml root) s -> 0 <= i < 2 ^ 35 -> device_slot root s (page_va i) a ->
  translate hhdm root s (page_va (i + 1)) = Done None ->
  forall n off, 0 <= off <= BASIC_PAGE_SIZE -> BASIC_PAGE_SIZE < off + Z.of_nat n -> touch hhdm root s (page_va i + off) n = Panic BadPointer.
Proof.
  intros Hi Hb Hs Hno n. induction n as [| n IH]; intros off Ho Hn; [lia |]. cbn [touch].
  destruct (decide (off = BASIC_PAGE_SIZE)) as [-> | Hne].
  - replace (page_va i + BASIC_PAGE_SIZE) with (page_va (i + 1)) by (unfold page_va; lia). by rewrite Hno.
  - rewrite (page_translates s i a) by (done || lia). rewrite bind_Done, <- Z.add_assoc. apply IH; lia.
Qed.

(** C25: a table that goes over the end of its page stops the boot: one page is
    mapped for it, and summing its bytes reads the next one. *)
Theorem crossing_table_faults n st held ms k a : walk_inv st held ms (S (S k)) -> 0 <= a < 2 ^ 52 -> a mod 4 = 0 ->
  a mod BASIC_PAGE_SIZE + 8 <= BASIC_PAGE_SIZE -> read_signature phys a ∈ [MADT_SIGNATURE; HPET_SIGNATURE; MCFG_SIGNATURE] ->
  BASIC_PAGE_SIZE < a mod BASIC_PAGE_SIZE + SdtHeader_length phys a ->
  (let* (entry, g) := Some (map_table hhdm root (acpi_paging st) a) in
   parse_table hhdm root phys cfg n (with_paging st g) entry) = Some (Panic BadPointer).
Proof.
  intros HR Ha Hal Hh Hsig Hcross. destruct (map_table_ok _ _ _ _ _ HR Ha) as (g & i & E & HR' & Hi & Hin & Hs).
  cbn [pcie_paging devices] in *. rewrite E. pose proof (pr_inv _ _ _ _ _ _ HR') as Hinv. cbn [pcie_paging] in Hinv.
  pose proof (gi_pt _ _ _ _ _ Hinv) as Hpt. pose proof (next_page_unmapped _ _ _ _ Hinv Hin) as Hno.
  pose proof (Z.mod_pos_bound a BASIC_PAGE_SIZE ltac:(done)). set (off := a mod BASIC_PAGE_SIZE) in *.
  assert (0 <= SdtHeader_length phys a) as Hlen by (unfold BASIC_PAGE_SIZE in *; lia).
  assert (holds (view hhdm root phys (tables g)) (page_va i + off) ((fun j => phys (a + j)) <$> seqZ 0 8)) as Hv.
  { apply (view_holds _ i (a - off) _ _ Hpt ltac:(lia) Hs); [lia | rewrite length_fmap, length_seqZ; lia |].
    replace (a - off + off) with a by lia. intros j b Ej. apply list_lookup_fmap_Some in Ej as (x & -> & [-> _]%lookup_seqZ). f_equal; lia. }
  assert (forall j, 0 <= j < 8 -> view hhdm root phys (tables g) (page_va i + off + j) = phys (a + j)) as Hb.
  { intros j Hj. replace j with (Z.of_nat (Z.to_nat j)) by lia. apply Hv. rewrite list_lookup_fmap.
    by rewrite lookup_seqZ_lt by lia. }
  assert ((page_va i + off) mod 4 = 0) as Hal2 by (unfold off; by rewrite page_va_mod4).
  unfold parse_table, entry_signature. change (acpi_paging (with_paging st g)) with g. rewrite Hal2. cbn [Z.eqb].
  rewrite (touch_ok _ i _ Hpt ltac:(lia) Hs) by lia. rewrite !bind_Done.
  assert (read_signature (view hhdm root phys (tables g)) (page_va i + off) = read_signature phys a) as ->.
  { unfold read_signature. cbn [fmap list_fmap]. by rewrite !Hb by lia. }
  assert (read_table hhdm root phys (tables g) (page_va i + off) = Panic BadPointer) as ->.
  { unfold read_table. rewrite (touch_ok _ i _ Hpt ltac:(lia) Hs 8) by lia. rewrite bind_Done. cbn zeta.
    assert (SdtHeader_length (view hhdm root phys (tables g)) (page_va i + off) = SdtHeader_length phys a) as ->.
    { apply read_le_ext. intros j Hj. rewrite <- !Z.add_assoc, (Z.add_assoc (page_va i)). apply Hb. lia. }
    by rewrite (touch_crossing _ i _ Hpt ltac:(lia) Hs Hno) by lia. }
  rewrite !elem_of_cons in Hsig. destruct Hsig as [-> | [-> | [-> | []%not_elem_of_nil]]]; by repeat case_bool_decide.
Qed.
End walk.

(** ** Witness: an RSDP, an XSDT, a MADT with an override and an MCFG of one bus *)
#[local] Existing Instance machine_mmio64.
#[local] Existing Instance machine_ports.
#[local] Existing Instance plain_bitfields.

Definition ex_rsdp : list Z :=
  [0x52; 0x53; 0x44; 0x20; 0x50; 0x54; 0x52; 0x20; 0xdf] ++ replicate 6 0 ++ [2] ++ replicate 4 0 ++
  le 4 36 ++ le 8 0x2000 ++ [0xbc; 0; 0; 0].
Definition ex_xsdt_header : list Z := [0x58; 0x53; 0x44; 0x54] ++ le 4 52 ++ [1; 0x18] ++ replicate 26 0.
Definition ex_tables : list Table :=
  [mkTable 0x3000 (CMadt ex_header ex_entries); mkTable 0x4000 (CMcfg ex_mcfg_header [ex_segment])].
Definition ex_xsdt : list Z := xsdt_bytes ex_xsdt_header ex_tables.
Definition ex_phys : bytes_mem := fun a =>
  mem_of (nth (Z.to_nat (a / 4096 - 1)) [ex_rsdp; ex_xsdt; ex_table; ex_mcfg] []) (a mod 4096).

Definition ex_acpi : AcpiState Machine (list PhysAddr) :=
  mkAcpiState (mkApics ex_ioapics [] (mkApicCpu 0 (mkMsrData 0 0)) (fresh_paging 1100)) None [].

Lemma ex_holds (i : nat) bs : nth i [ex_rsdp; ex_xsdt; ex_table; ex_mcfg] [] = bs -> Z.of_nat (length bs) <= 4096 ->
  holds ex_phys ((Z.of_nat i + 1) * 4096) bs.
Proof.
  intros Ei Hl j b Ej. pose proof (lookup_lt_Some _ _ _ Ej). unfold ex_phys, mem_of.
  rewrite Z.add_comm, Z.div_add, Z.mod_add, Z.div_small, Z.mod_small by lia.
  replace (Z.to_nat (0 + (Z.of_nat i + 1) - 1)) with i by lia. rewrite Ei, Nat2Z.id. by apply nth_lookup_Some.
Qed.

Lemma bytes_ok (bs : list Z) : forallb (fun b => (0 <=? b) && (b <? 256)) bs = true -> Forall is_byte bs.
Proof.
  intros Hb. apply Forall_forall. intros b Hin%list_elem_of_In. apply (proj1 (forallb_forall _ _) Hb) in Hin. unfold is_byte. lia.
Qed.

Lemma ex_placed (i : nat) bs : nth i [ex_rsdp; ex_xsdt; ex_table; ex_mcfg] [] = bs -> (36 <= length bs)%nat ->
  Z.of_nat (length bs) <= 4096 -> (i < 4)%nat -> forallb (fun b => (0 <=? b) && (b <? 256)) bs = true ->
  SdtHeader_length (mem_of bs) 0 = Z.of_nat (length bs) -> placed ex_phys ((Z.of_nat i + 1) * 4096) bs.
Proof.
  intros E Hl Hl2 Hi Hb Hlen. split; [by apply ex_holds | by apply bytes_ok | done | done | lia | |].
  - replace ((Z.of_nat i + 1) * 4096) with ((Z.of_nat i + 1) * 1024 * 4) by lia. by apply Z.mod_mul.
  - unfold BASIC_PAGE_SIZE. rewrite Z.mod_mul by done. lia.
Qed.

Lemma ex_tables_ok : Forall (table_ok ex_phys) ex_tables.
Proof.
  unfold ex_tables. apply Forall_cons_2; [split | apply Forall_cons_2; [split | apply Forall_nil_2]]; cbn [t_addr t_content content_bytes content_ok].
  - apply (ex_placed 2); solve [by vm_compute | apply (bool_decide_unpack _); by vm_compute].
  - split_and!; [by vm_compute | by vm_compute | exact (ma_entries _ _ _ _ ex_madt) | by repeat constructor].
  - apply (ex_placed 3); solve [by vm_compute | apply (bool_decide_unpack _); by vm_compute].
  - split_and!; [by vm_compute | by vm_compute | repeat constructor; by vm_compute |].
    constructor; [| constructor]. split_and!; [by vm_compute | by vm_compute | by exists 0xb0000 | by vm_compute | by vm_compute].
Qed.

Lemma ex_walk_inv : walk_inv ex_boot_hhdm 6 ex_acpi [] [] (2 + tables_pages ex_tables + 0).
Proof. split; [apply fresh_paging_inv; [vm_compute; lia | lia] | done | by apply NoDup_nil | by intros i phys []%not_elem_of_nil]. Qed.

Lemma acpi_init_refines_witness :
  match acpi_init ex_boot_hhdm 6 ex_phys ex_cfg 3 ex_acpi 0x1000 with
  | Some (Done (Ok _, st)) => Some (length (acpi_pcie st), IRQ_OVERRIDES (ap_io (acpi_apics st)))
  | _ => None
  end = Some (2%nat, [mkIrqOverride 0 2; mkIrqOverride 9 9]).
Proof.
  destruct (acpi_init_refines ex_boot_hhdm 6 ex_phys ex_cfg 3 ex_acpi 0x1000 ex_rsdp 0x2000 ex_xsdt_header ex_tables [] [] 0) as [E _].
  - split; [by apply (ex_holds 0) | by apply bytes_ok | done | by vm_compute | by vm_compute | by vm_compute].
  - apply (ex_placed 1); solve [by vm_compute | apply (bool_decide_unpack _); by vm_compute].
  - done.
  - exact ex_tables_ok.
  - apply (bool_decide_unpack _). by vm_compute.
  - exact ex_walk_inv.
  - rewrite E. by vm_compute.
Defined.

(** The same MADT with its first 32 bytes at the end of a page. *)
Definition ex_late (a : Z) : Z := mem_of ex_table (a - 0x3fe0).

Lemma crossing_table_faults_witness :
  (let* (entry, g) := Some (map_table ex_boot_hhdm 6 (acpi_paging ex_acpi) 0x3fe0) in
   parse_table ex_boot_hhdm 6 ex_late ex_cfg 3 (with_paging ex_acpi g) entry) = Some (Panic BadPointer).
Proof.
  pose proof (crossing_table_faults ex_boot_hhdm 6 ex_late ex_cfg 3 ex_acpi [] [] 2 0x3fe0) as Hc.
  apply Hc; [| lia | done | done | apply (bool_decide_unpack _); by vm_compute | by vm_compute].
  apply (pcie_repr_le ex_boot_hhdm 6 _ [] [] (2 + tables_pages ex_tables + 0)); [| exact ex_walk_inv].
  apply (bool_decide_unpack _). by vm_compute.
Defined.
