(* ===== verification/Font.v ===== *)
(** * The font of the framebuffer log

    The bitmap font of logger/src/framebuffer.rs: for each of the 256 codes
    sixteen rows of eight pixels, bit [x] of a row for the pixel [x]. *)

From Stdlib Require Import String Ascii.
From S2P Require Import Prelude.

(** ** Rows in hexadecimal digits *)
Definition hex_digit (c : ascii) : option Z :=
  let n := Z.of_nat (nat_of_ascii c) in
  if (48 <=? n) && (n <=? 57) then Some (n - 48) else if (97 <=? n) && (n <=? 102) then Some (n - 87) else None.

(** The bytes of a text of pairs of digits; [hi] is the first of a pair. *)
Fixpoint hex_bytes (s : string) (hi : option Z) : list Z :=
  match s with
  | EmptyString => []
  | String c s =>
      match hex_digit c, hi with
      | None, _ => hex_bytes s None
      | Some d, None => hex_bytes s (Some d)
      | Some d, Some h => (16 * h + d) :: hex_bytes s None
      end
  end.

(** Sixteen bytes for each of [n] glyphs. *)
Fixpoint glyphs (n : nat) (bytes : list Z) : list (list Z) :=
  match n with
  | O => []
  | S n => take 16 bytes :: glyphs n (drop 16 bytes)
  end.

(** The lines of the table in the source, a glyph each. *)
Definition font_table : string := "
   00 00 00 00 00 00 00 00 00 00 00 00 00 00 00 00
   00 00 00 00 00 00 00 00 00 00 00 00 00 00 00 00
   00 00 00 00 00 00 00 00 00 00 00 00 00 00 00 00
   00 00 00 00 00 00 00 00 00 00 00 00 00 00 00 00
   00 00 00 00 00 00 00 00 00 00 00 00 00 00 00 00
   00 00 00 00 00 00 00 00 00 00 00 00 00 00 00 00
   00 00 00 00 00 00 00 00 00 00 00 00 00 00 00 00
   00 00 00 00 00 00 00 00 00 00 00 00 00 00 00 00
   00 00 00 00 00 00 00 00 00 00 00 00 00 00 00 00
   00 00 00 00 00 00 00 00 00 00 00 00 00 00 00 00
   00 00 00 00 00 00 00 00 00 00 00 00 00 00 00 00
   00 00 00 00 00 00 00 00 00 00 00 00 00 00 00 00
   00 00 00 00 00 00 00 00 00 00 00 00 00 00 00 00
   00 00 00 00 00 00 00 00 00 00 00 00 00 00 00 00
   00 00 00 00 00 00 00 00 00 00 00 00 00 00 00 00
   00 00 00 00 00 00 00 00 00 00 00 00 00 00 00 00
   00 00 00 00 00 00 00 00 00 00 00 00 00 00 00 00
   00 00 00 00 00 00 00 00 00 00 00 00 00 00 00 00
   00 00 00 00 00 00 00 00 00 00 00 00 00 00 00 00
   00 00 00 00 00 00 00 00 00 00 00 00 00 00 00 00
   00 00 00 00 00 00 00 00 00 00 00 00 00 00 00 00
   00 00 00 00 00 00 00 00 00 00 00 00 00 00 00 00
   00 00 00 00 00 00 00 00 00 00 00 00 00 00 00 00
   00 00 00 00 00 00 00 00 00 00 00 00 00 00 00 00
   00 00 00 00 00 00 00 00 00 00 00 00 00 00 00 00
   00 00 00 00 00 00 00 00 00 00 00 00 00 00 00 00
   00 00 00 00 00 00 00 00 00 00 00 00 00 00 00 00
   00 00 00 00 00 00 00 00 00 00 00 00 00 00 00 00
   00 00 00 00 00 00 00 00 00 00 00 00 00 00 00 00
   00 00 00 00 00 00 00 00 00 00 00 00 00 00 00 00
   00 00 00 00 00 00 00 00 00 00 00 00 00 00 00 00
   00 00 00 00 00 00 00 00 00 00 00 00 00 00 00 00
   00 00 00 00 00 00 00 00 00 00 00 00 00 00 00 00
   00 00 18 18 18 18 18 18 18 00 18 18 00 00 00 00
   00 00 6c 6c 36 00 00 00 00 00 00 00 00 00 00 00
   00 00 00 36 36 7f 36 36 7f 36 36 00 00 00 00 00
   00 08 08 3e 6b 0b 0b 3e 68 68 6b 3e 08 08 00 00
   00 00 00 33 13 18 08 0c 04 06 32 33 00 00 00 00
   00 00 1c 36 36 1c 6c 3e 33 33 7b ce 00 00 00 00
   00 00 18 18 0c 00 00 00 00 00 00 00 00 00 00 00
   00 00 30 18 18 0c 0c 0c 0c 0c 18 18 30 00 00 00
   00 00 0c 18 18 30 30 30 30 30 18 18 0c 00 00 00
   00 00 00 00 00 36 1c 7f 1c 36 00 00 00 00 00 00
   00 00 00 00 00 18 18 7e 18 18 00 00 00 00 00 00
   00 00 00 00 00 00 00 00 00 00 18 18 0c 00 00 00
   00 00 00 00 00 00 00 7e 00 00 00 00 00 00 00 00
   00 00 00 00 00 00 00 00 00 00 18 18 00 00 00 00
   00 00 60 20 30 10 18 08 0c 04 06 02 03 00 00 00
   00 00 3e 63 63 63 6b 6b 63 63 63 3e 00 00 00 00
   00 00 18 1e 18 18 18 18 18 18 18 18 00 00 00 00
   00 00 3e 63 60 60 30 18 0c 06 03 7f 00 00 00 00
   00 00 3e 63 60 60 3c 60 60 60 63 3e 00 00 00 00
   00 00 30 38 3c 36 33 7f 30 30 30 30 00 00 00 00
   00 00 7f 03 03 3f 60 60 60 60 63 3e 00 00 00 00
   00 00 3c 06 03 03 3f 63 63 63 63 3e 00 00 00 00
   00 00 7f 60 30 30 18 18 18 0c 0c 0c 00 00 00 00
   00 00 3e 63 63 63 3e 63 63 63 63 3e 00 00 00 00
   00 00 3e 63 63 63 7e 60 60 60 30 1e 00 00 00 00
   00 00 00 00 00 18 18 00 00 00 18 18 00 00 00 00
   00 00 00 00 00 18 18 00 00 00 18 18 0c 00 00 00
   00 00 60 30 18 0c 06 06 0c 18 30 60 00 00 00 00
   00 00 00 00 00 7e 00 00 7e 00 00 00 00 00 00 00
   00 00 06 0c 18 30 60 60 30 18 0c 06 00 00 00 00
   00 00 3e 63 60 30 30 18 18 00 18 18 00 00 00 00
   00 00 3c 66 73 7b 6b 6b 7b 33 06 3c 00 00 00 00
   00 00 3e 63 63 63 7f 63 63 63 63 63 00 00 00 00
   00 00 3f 63 63 63 3f 63 63 63 63 3f 00 00 00 00
   00 00 3c 66 03 03 03 03 03 03 66 3c 00 00 00 00
   00 00 1f 33 63 63 63 63 63 63 33 1f 00 00 00 00
   00 00 7f 03 03 03 3f 03 03 03 03 7f 00 00 00 00
   00 00 7f 03 03 03 3f 03 03 03 03 03 00 00 00 00
   00 00 3c 66 03 03 03 73 63 63 66 7c 00 00 00 00
   00 00 63 63 63 63 7f 63 63 63 63 63 00 00 00 00
   00 00 3c 18 18 18 18 18 18 18 18 3c 00 00 00 00
   00 00 30 30 30 30 30 30 30 30 33 1e 00 00 00 00
   00 00 63 33 1b 0f 07 07 0f 1b 33 63 00 00 00 00
   00 00 03 03 03 03 03 03 03 03 03 7f 00 00 00 00
   00 00 63 63 77 7f 7f 6b 6b 63 63 63 00 00 00 00
   00 00 63 63 67 6f 6f 7b 7b 73 63 63 00 00 00 00
   00 00 3e 63 63 63 63 63 63 63 63 3e 00 00 00 00
   00 00 3f 63 63 63 63 3f 03 03 03 03 00 00 00 00
   00 00 3e 63 63 63 63 63 63 6f 7b 3e 30 60 00 00
   00 00 3f 63 63 63 63 3f 1b 33 63 63 00 00 00 00
   00 00 3e 63 03 03 0e 38 60 60 63 3e 00 00 00 00
   00 00 7e 18 18 18 18 18 18 18 18 18 00 00 00 00
   00 00 63 63 63 63 63 63 63 63 63 3e 00 00 00 00
   00 00 63 63 63 63 63 36 36 1c 1c 08 00 00 00 00
   00 00 63 63 6b 6b 6b 6b 7f 36 36 36 00 00 00 00
   00 00 63 63 36 36 1c 1c 36 36 63 63 00 00 00 00
   00 00 c3 c3 66 66 3c 3c 18 18 18 18 00 00 00 00
   00 00 7f 30 30 18 18 0c 0c 06 06 7f 00 00 00 00
   00 00 3c 0c 0c 0c 0c 0c 0c 0c 0c 3c 00 00 00 00
   00 00 03 02 06 04 0c 08 18 10 30 20 60 00 00 00
   00 00 3c 30 30 30 30 30 30 30 30 3c 00 00 00 00
   00 08 1c 36 63 00 00 00 00 00 00 00 00 00 00 00
   00 00 00 00 00 00 00 00 00 00 00 00 00 ff 00 00
   00 00 0c 0c 18 00 00 00 00 00 00 00 00 00 00 00
   00 00 00 00 00 3e 60 7e 63 63 73 6e 00 00 00 00
   00 00 03 03 03 3b 67 63 63 63 67 3b 00 00 00 00
   00 00 00 00 00 3e 63 03 03 03 63 3e 00 00 00 00
   00 00 60 60 60 6e 73 63 63 63 73 6e 00 00 00 00
   00 00 00 00 00 3e 63 63 7f 03 63 3e 00 00 00 00
   00 00 3c 66 06 1f 06 06 06 06 06 06 00 00 00 00
   00 00 00 00 00 6e 73 63 63 63 73 6e 60 63 3e 00
   00 00 03 03 03 3b 67 63 63 63 63 63 00 00 00 00
   00 00 0c 0c 00 0c 0c 0c 0c 0c 0c 38 00 00 00 00
   00 00 30 30 00 30 30 30 30 30 30 30 30 33 1e 00
   00 00 03 03 03 63 33 1b 0f 1f 33 63 00 00 00 00
   00 00 0c 0c 0c 0c 0c 0c 0c 0c 0c 38 00 00 00 00
   00 00 00 00 00 35 6b 6b 6b 6b 6b 6b 00 00 00 00
   00 00 00 00 00 3b 67 63 63 63 63 63 00 00 00 00
   00 00 00 00 00 3e 63 63 63 63 63 3e 00 00 00 00
   00 00 00 00 00 3b 67 63 63 63 67 3b 03 03 03 00
   00 00 00 00 00 6e 73 63 63 63 73 6e 60 e0 60 00
   00 00 00 00 00 3b 67 03 03 03 03 03 00 00 00 00
   00 00 00 00 00 3e 63 0e 38 60 63 3e 00 00 00 00
   00 00 00 0c 0c 3e 0c 0c 0c 0c 0c 38 00 00 00 00
   00 00 00 00 00 63 63 63 63 63 73 6e 00 00 00 00
   00 00 00 00 00 63 63 36 36 1c 1c 08 00 00 00 00
   00 00 00 00 00 63 6b 6b 6b 3e 36 36 00 00 00 00
   00 00 00 00 00 63 36 1c 1c 1c 36 63 00 00 00 00
   00 00 00 00 00 63 63 36 36 1c 1c 0c 0c 06 03 00
   00 00 00 00 00 7f 60 30 18 0c 06 7f 00 00 00 00
   00 00 70 18 18 18 18 0e 18 18 18 18 70 00 00 00
   00 18 18 18 18 18 18 18 18 18 18 18 18 00 00 00
   00 00 0e 18 18 18 18 70 18 18 18 18 0e 00 00 00
   00 00 00 00 00 00 6e 3b 00 00 00 00 00 00 00 00
   00 00 00 00 00 00 00 00 00 00 00 00 00 00 00 00
   00 00 00 00 00 00 00 00 00 00 00 00 00 00 00 00
   00 00 00 00 00 00 00 00 00 00 00 00 00 00 00 00
   00 00 00 00 00 00 00 00 00 00 00 00 00 00 00 00
   00 00 00 00 00 00 00 00 00 00 00 00 00 00 00 00
   00 00 00 00 00 00 00 00 00 00 00 00 00 00 00 00
   00 00 00 00 00 00 00 00 00 00 00 00 00 00 00 00
   00 00 00 00 00 00 00 00 00 00 00 00 00 00 00 00
   00 00 00 00 00 00 00 00 00 00 00 00 00 00 00 00
   00 00 00 00 00 00 00 00 00 00 00 00 00 00 00 00
   00 00 00 00 00 00 00 00 00 00 00 00 00 00 00 00
   00 00 00 00 00 00 00 00 00 00 00 00 00 00 00 00
   00 00 00 00 00 00 00 00 00 00 00 00 00 00 00 00
   00 00 00 00 00 00 00 00 00 00 00 00 00 00 00 00
   00 00 00 00 00 00 00 00 00 00 00 00 00 00 00 00
   00 00 00 00 00 00 00 00 00 00 00 00 00 00 00 00
   00 00 00 00 00 00 00 00 00 00 00 00 00 00 00 00
   00 00 00 00 00 00 00 00 00 00 00 00 00 00 00 00
   00 00 00 00 00 00 00 00 00 00 00 00 00 00 00 00
   00 00 00 00 00 00 00 00 00 00 00 00 00 00 00 00
   00 00 00 00 00 00 00 00 00 00 00 00 00 00 00 00
   00 00 00 00 00 00 00 00 00 00 00 00 00 00 00 00
   00 00 00 00 00 00 00 00 00 00 00 00 00 00 00 00
   00 00 00 00 00 00 00 00 00 00 00 00 00 00 00 00
   00 00 00 00 00 00 00 00 00 00 00 00 00 00 00 00
   00 00 00 00 00 00 00 00 00 00 00 00 00 00 00 00
   00 00 00 00 00 00 00 00 00 00 00 00 00 00 00 00
   00 00 00 00 00 00 00 00 00 00 00 00 00 00 00 00
   00 00 00 00 00 00 00 00 00 00 00 00 00 00 00 00
   00 00 00 00 00 00 00 00 00 00 00 00 00 00 00 00
   00 00 00 00 00 00 00 00 00 00 00 00 00 00 00 00
   00 00 00 00 00 00 00 00 00 00 00 00 00 00 00 00
   00 00 00 00 00 00 00 00 00 00 00 00 00 00 00 00
   00 00 00 00 00 00 00 00 00 00 00 00 00 00 00 00
   00 00 00 00 18 18 00 18 18 18 18 18 18 18 00 00
   00 00 00 08 08 3e 6b 0b 0b 0b 6b 3e 08 08 00 00
   00 00 1c 36 06 06 1f 06 06 07 6f 3b 00 00 00 00
   00 00 00 00 66 3c 66 66 66 3c 66 00 00 00 00 00
   00 00 c3 c3 66 66 3c 7e 18 7e 18 18 00 00 00 00
   00 00 18 18 18 18 00 00 18 18 18 18 00 00 00 00
   00 3c 66 0c 1e 33 63 66 3c 18 33 1e 00 00 00 00
   00 00 36 36 00 00 00 00 00 00 00 00 00 00 00 00
   00 00 3c 42 99 a5 85 a5 99 42 3c 00 00 00 00 00
   00 1e 30 3e 33 3b 36 00 3f 00 00 00 00 00 00 00
   00 00 00 00 00 6c 36 1b 1b 36 6c 00 00 00 00 00
   00 00 00 00 00 00 7f 60 60 60 00 00 00 00 00 00
   00 00 00 00 00 00 00 3c 00 00 00 00 00 00 00 00
   00 00 3c 42 9d a5 9d a5 a5 42 3c 00 00 00 00 00
   00 7e 00 00 00 00 00 00 00 00 00 00 00 00 00 00
   00 00 1c 36 36 1c 00 00 00 00 00 00 00 00 00 00
   00 00 00 00 18 18 7e 18 18 00 7e 00 00 00 00 00
   00 1e 33 18 0c 06 3f 00 00 00 00 00 00 00 00 00
   00 1e 33 18 30 33 1e 00 00 00 00 00 00 00 00 00
   00 30 18 0c 00 00 00 00 00 00 00 00 00 00 00 00
   00 00 00 00 00 66 66 66 66 66 76 6e 06 06 03 00
   00 00 7e 2f 2f 2f 2e 28 28 28 28 28 00 00 00 00
   00 00 00 00 00 00 00 18 18 00 00 00 00 00 00 00
   00 00 00 00 00 00 00 00 00 00 00 00 18 30 1e 00
   00 0c 0e 0c 0c 0c 1e 00 00 00 00 00 00 00 00 00
   00 1e 33 33 33 33 1e 00 3f 00 00 00 00 00 00 00
   00 00 00 00 00 1b 36 6c 6c 36 1b 00 00 00 00 00
   00 10 1c 18 18 18 00 7f 00 18 1c 1a 3e 18 00 00
   00 10 1c 18 18 18 00 7f 00 1c 36 18 0c 3e 00 00
   00 1c 36 18 36 1c 00 7f 00 18 1c 1a 3e 18 00 00
   00 00 00 00 0c 0c 00 0c 0c 06 06 03 63 3e 00 00
   0c 18 3e 63 63 63 7f 63 63 63 63 63 00 00 00 00
   18 0c 3e 63 63 63 7f 63 63 63 63 63 00 00 00 00
   08 14 3e 63 63 63 7f 63 63 63 63 63 00 00 00 00
   6e 3b 3e 63 63 63 7f 63 63 63 63 63 00 00 00 00
   36 00 3e 63 63 63 7f 63 63 63 63 63 00 00 00 00
   1c 36 3e 63 63 63 7f 63 63 63 63 63 00 00 00 00
   00 00 fe 33 33 33 ff 33 33 33 33 f3 00 00 00 00
   00 00 3c 66 03 03 03 03 03 03 66 3c 18 30 1e 00
   0c 18 7f 03 03 03 3f 03 03 03 03 7f 00 00 00 00
   18 0c 7f 03 03 03 3f 03 03 03 03 7f 00 00 00 00
   08 14 7f 03 03 03 3f 03 03 03 03 7f 00 00 00 00
   36 00 7f 03 03 03 3f 03 03 03 03 7f 00 00 00 00
   0c 18 3c 18 18 18 18 18 18 18 18 3c 00 00 00 00
   30 18 3c 18 18 18 18 18 18 18 18 3c 00 00 00 00
   18 24 3c 18 18 18 18 18 18 18 18 3c 00 00 00 00
   66 00 3c 18 18 18 18 18 18 18 18 3c 00 00 00 00
   00 00 1e 36 66 66 6f 66 66 66 36 1e 00 00 00 00
   6e 3b 63 63 67 6f 6f 7b 7b 73 63 63 00 00 00 00
   06 0c 3e 63 63 63 63 63 63 63 63 3e 00 00 00 00
   30 18 3e 63 63 63 63 63 63 63 63 3e 00 00 00 00
   08 14 3e 63 63 63 63 63 63 63 63 3e 00 00 00 00
   6e 3b 3e 63 63 63 63 63 63 63 63 3e 00 00 00 00
   36 00 3e 63 63 63 63 63 63 63 63 3e 00 00 00 00
   00 00 00 00 00 66 3c 18 3c 66 00 00 00 00 00 00
   00 20 3e 73 73 6b 6b 6b 6b 67 67 3e 02 00 00 00
   0c 18 63 63 63 63 63 63 63 63 63 3e 00 00 00 00
   18 0c 63 63 63 63 63 63 63 63 63 3e 00 00 00 00
   08 14 63 63 63 63 63 63 63 63 63 3e 00 00 00 00
   36 00 63 63 63 63 63 63 63 63 63 3e 00 00 00 00
   30 18 c3 c3 66 66 3c 3c 18 18 18 18 00 00 00 00
   00 00 0f 06 3e 66 66 66 66 3e 06 0f 00 00 00 00
   00 00 1e 33 33 1b 33 63 63 63 63 3b 00 00 00 00
   00 0c 18 30 00 3e 60 7e 63 63 73 6e 00 00 00 00
   00 30 18 0c 00 3e 60 7e 63 63 73 6e 00 00 00 00
   00 08 1c 36 00 3e 60 7e 63 63 73 6e 00 00 00 00
   00 00 6e 3b 00 3e 60 7e 63 63 73 6e 00 00 00 00
   00 00 36 36 00 3e 60 7e 63 63 73 6e 00 00 00 00
   00 1c 36 1c 00 3e 60 7e 63 63 73 6e 00 00 00 00
   00 00 00 00 00 6e db d8 fe 1b db 76 00 00 00 00
   00 00 00 00 00 3e 63 03 03 03 63 3e 18 30 1e 00
   00 0c 18 30 00 3e 63 63 7f 03 63 3e 00 00 00 00
   00 30 18 0c 00 3e 63 63 7f 03 63 3e 00 00 00 00
   00 08 1c 36 00 3e 63 63 7f 03 63 3e 00 00 00 00
   00 00 36 36 00 3e 63 63 7f 03 63 3e 00 00 00 00
   00 06 0c 18 00 0c 0c 0c 0c 0c 0c 38 00 00 00 00
   00 18 0c 06 00 0c 0c 0c 0c 0c 0c 38 00 00 00 00
   00 08 1c 36 00 0c 0c 0c 0c 0c 0c 38 00 00 00 00
   00 00 36 36 00 0c 0c 0c 0c 0c 0c 38 00 00 00 00
   00 00 2c 18 34 60 7c 66 66 66 66 3c 00 00 00 00
   00 00 6e 3b 00 3b 67 63 63 63 63 63 00 00 00 00
   00 06 0c 18 00 3e 63 63 63 63 63 3e 00 00 00 00
   00 30 18 0c 00 3e 63 63 63 63 63 3e 00 00 00 00
   00 08 1c 36 00 3e 63 63 63 63 63 3e 00 00 00 00
   00 00 6e 3b 00 3e 63 63 63 63 63 3e 00 00 00 00
   00 00 36 36 00 3e 63 63 63 63 63 3e 00 00 00 00
   00 00 00 00 18 18 00 7e 00 18 18 00 00 00 00 00
   00 00 00 00 20 3e 73 6b 6b 6b 67 3e 02 00 00 00
   00 06 0c 18 00 63 63 63 63 63 73 6e 00 00 00 00
   00 30 18 0c 00 63 63 63 63 63 73 6e 00 00 00 00
   00 08 1c 36 00 63 63 63 63 63 73 6e 00 00 00 00
   00 00 36 36 00 63 63 63 63 63 73 6e 00 00 00 00
   00 30 18 0c 00 63 63 36 36 1c 1c 0c 0c 06 03 00
   00 00 0f 06 06 3e 66 66 66 66 66 3e 06 06 0f 00
   00 00 36 36 00 63 63 36 36 1c 1c 0c 0c 06 03 00"%string.

Definition BITMAP_FONT_8X16 : list (list Z) := Eval vm_compute in glyphs 256 (hex_bytes font_table None).
