(* ===== verification/Logger.v ===== *)
(** * The log: serial ports and framebuffer

    Models logger/src/serial.rs, framebuffer.rs and the writer of lib.rs that
    sends every byte of a message to both.  The memory of the framebuffer is
    the 32-bit word at each aligned address; a write through a null or a
    misaligned pointer stops, as the checks of the debug profile do. *)

From stdpp Require Import functions.
From S2P Require Import Prelude Font.

(** ** Serial ports *)
Class Ports (W : Type) := {
  port_out : W -> Z -> Z -> W;
  port_in : W -> Z -> Z * W;
}.

Inductive SerialPort := Comm1 | Comm2 | Comm3 | Comm4 | Comm5 | Comm6 | Comm7 | Comm8.
Definition SerialPort_repr (p : SerialPort) : Z :=
  match p with
  | Comm1 => 0x3f8 | Comm2 => 0x2f8 | Comm3 => 0x3e8 | Comm4 => 0x2e8
  | Comm5 => 0x5f8 | Comm6 => 0x4f8 | Comm7 => 0x5e8 | Comm8 => 0x4e8
  end.

Inductive SerialError := FaultySerialPort.

Record SerialWriter := mkSerialWriter { ports : list (option SerialPort) }.
Definition SERIAL_WRITER : SerialWriter :=
  mkSerialWriter (Some <$> [Comm1; Comm2; Comm3; Comm4; Comm5; Comm6; Comm7; Comm8]).

Section serial.
Context {W : Type} `{Ports W}.
Implicit Types (w : W).

Definition SerialPort_init (p : SerialPort) w : result unit SerialError * W :=
  let base := SerialPort_repr p in
  let w := port_out w (base + 1) 0x00 in
  let w := port_out w (base + 3) 0x80 in
  let w := port_out w base 0x03 in
  let w := port_out w (base + 1) 0x00 in
  let w := port_out w (base + 3) 0x03 in
  let w := port_out w (base + 2) 0xC7 in
  let w := port_out w (base + 4) 0x0B in
  let w := port_out w (base + 4) 0x1E in
  let w := port_out w base 0xAE in
  let (v, w) := port_in w base in
  if negb (v =? 0xae) then (Err FaultySerialPort, w)
  else (Ok (), port_out w (base + 4) 0xf).

Definition write_byte (p : SerialPort) (byte : Z) w : W :=
  let base := SerialPort_repr p in
  let w := if byte =? 10 then port_out w base 13 else w in
  port_out w base byte.

(** The loop of [init] over a copy of the array: what it sets to [None] is an
    element of the copy, which is dropped. *)
Fixpoint init_ports (copy : list (option SerialPort)) w : list (option SerialPort) * W :=
  match copy with
  | [] => ([], w)
  | o :: copy =>
      let '(o, w) := match o with
                     | Some port => let (r, w) := SerialPort_init port w in
                                    (match r with Err _ => None | Ok _ => Some port end, w)
                     | None => (None, w)
                     end in
      let '(copy, w) := init_ports copy w in
      (o :: copy, w)
  end.

Definition SerialWriter_init (s : SerialWriter) w : SerialWriter * W :=
  let '(_, w) := init_ports (ports s) w in (s, w).

Definition write_byte_all (s : SerialWriter) (byte : Z) w : W :=
  fold_left (fun w p => write_byte p byte w) (omap id (ports s)) w.
End serial.

(** ** Framebuffer *)
Inductive FramebufferError := InvalidCharacter.

Record RawFramebuffer := mkRawFramebuffer { fb_ptr : Z; width : Z; height : Z; pitch : Z; bpp : Z }.
Record FramebufferWriter := mkFramebufferWriter { framebuffer : RawFramebuffer; curr_y : Z; curr_x : Z; disabled : bool }.

Definition FRAMEBUFFER_WRITER : FramebufferWriter := mkFramebufferWriter (mkRawFramebuffer 0 0 0 0 0) 0 0 false.
Definition FramebufferWriter_new (ptr width height pitch bpp : Z) : FramebufferWriter :=
  mkFramebufferWriter (mkRawFramebuffer ptr width height pitch bpp) 0 0 false.

(** Words of memory by their address. *)
Abbreviation words := (Z -> Z).

Definition write_word (mem : words) (a v : Z) : res words :=
  if (a =? 0) || negb (a mod 4 =? 0) then Panic BadPointer else Done (<[a := v]> mem).

Definition WHITE : Z := 0x00ffffff.

Definition draw_pixel (f : FramebufferWriter) (mem : words) (x y color : Z) : res words :=
  y ← usize_mul y (pitch (framebuffer f));
  x ← usize_mul x (bpp (framebuffer f) / 8);
  o ← usize_add x y;
  a ← usize_add (fb_ptr (framebuffer f)) o;
  write_word mem a color.

Definition scroll_y (f : FramebufferWriter) : res FramebufferWriter :=
  y ← usize_add (curr_y f) 16;
  Done (mkFramebufferWriter (framebuffer f) y (curr_x f) (disabled f || (height (framebuffer f) <=? y))).

Definition scroll_x (f : FramebufferWriter) (character : Z) : res FramebufferWriter :=
  x ← usize_add (curr_x f) 8;
  let f := mkFramebufferWriter (framebuffer f) (curr_y f) x (disabled f) in
  if (width (framebuffer f) <=? x) || (character =? 10) then
    scroll_y (mkFramebufferWriter (framebuffer f) (curr_y f) 0 (disabled f))
  else Done f.

(** [for x in 0..8], from [x] on with [n] left. *)
Fixpoint draw_row (f : FramebufferWriter) (mem : words) (char_bit x y : Z) (n : nat) : res words :=
  match n with
  | O => Done mem
  | S n =>
      mem ← (if negb (Z.land (Z.shiftr char_bit x) 1 =? 0) then
               px ← usize_add x (curr_x f);
               py ← usize_add y (curr_y f);
               draw_pixel f mem px py WHITE
             else Done mem);
      draw_row f mem char_bit (x + 1) y n
  end.

(** [for y in 0..16], from [y] on with [n] left. *)
Fixpoint draw_rows (f : FramebufferWriter) (mem : words) (glyph : list Z) (y : nat) (n : nat) : res words :=
  match n with
  | O => Done mem
  | S n =>
      char_bit ← index glyph y;
      mem ← draw_row f mem char_bit 0 (Z.of_nat y) 8;
      draw_rows f mem glyph (S y) n
  end.

Definition draw_char (f : FramebufferWriter) (mem : words) (character : Z)
    : res (result unit FramebufferError * FramebufferWriter * words) :=
  if disabled f then Done (Ok (), f, mem)
  else if Z.of_nat (length BITMAP_FONT_8X16) <=? character then Done (Err InvalidCharacter, f, mem)
  else
    glyph ← index BITMAP_FONT_8X16 (Z.to_nat character);
    mem ← draw_rows f mem glyph 0 16;
    f ← scroll_x f character;
    Done (Ok (), f, mem).

(** ** The writer behind the log macros *)
Record Log (W : Type) := mkLog { log_world : W; log_serial : SerialWriter; log_fb : FramebufferWriter; log_mem : words }.
Arguments mkLog {W}.
Arguments log_world {W}.
Arguments log_serial {W}.
Arguments log_fb {W}.
Arguments log_mem {W}.

Section writer.
Context {W : Type} `{Ports W} (serial framebuffer : bool).

Fixpoint write_str (l : Log W) (s : list Z) : res (Log W) :=
  match s with
  | [] => Done l
  | byte :: s =>
      let w := if serial then write_byte_all (log_serial l) byte (log_world l) else log_world l in
      '(f, mem) ← (if framebuffer then
                     '(r, f, mem) ← draw_char (log_fb l) (log_mem l) byte;
                     _ ← unwrap_ok r;
                     Done (f, mem)
                   else Done (log_fb l, log_mem l));
      write_str (mkLog w (log_serial l) f mem) s
  end.
End writer.
