(* ===== verification/LoggerTheorems.v ===== *)
(** * Theorems on the log

    A text written to a framebuffer of whole character cells sets exactly the
    pixels of its glyphs, each character in the cell that comes next, and
    writes nothing else; the ports of the serial log. *)

From stdpp Require Import functions.
From S2P Require Import Prelude Bitfield Font Logger.

(** ** What a text looks like

    Cells are 8 by 16 pixels.  Each character takes the next cell of its row; a
    newline or the end of the row begins the next row, and nothing is drawn
    after the last row. *)
Section text.
Context (cols rows : Z).

Fixpoint cells (row col : Z) (s : list Z) : list (Z * Z * Z) :=
  match s with
  | [] => []
  | c :: s =>
      if rows <=? row then []
      else (col, row, c) :: (if (cols <=? col + 1) || (c =? 10) then cells (row + 1) 0 s else cells row (col + 1) s)
  end.
End text.

Definition glyph_bit (c px py : Z) : bool :=
  Z.testbit (nth (Z.to_nat py) (nth (Z.to_nat c) BITMAP_FONT_8X16 []) 0) px.

Definition pixel_lit (l : list (Z * Z * Z)) (px py : Z) : bool :=
  existsb (fun '(cx, cy, c) => (px / 8 =? cx) && (py / 16 =? cy) && glyph_bit c (px mod 8) (py mod 16)) l.

(** ** The font *)
Lemma font_shape : length BITMAP_FONT_8X16 = 256%nat /\ Forall (fun g => length g = 16%nat) BITMAP_FONT_8X16.
Proof. split; [done |]. apply (bool_decide_unpack _). by vm_compute. Qed.

Lemma glyph_row c y : 0 <= c < 256 -> (y < 16)%nat -> exists g b, BITMAP_FONT_8X16 !! Z.to_nat c = Some g /\ g !! y = Some b /\
  forall px, glyph_bit c px (Z.of_nat y) = Z.testbit b px.
Proof.
  intros Hc Hy. destruct font_shape as [Hl Hf]. destruct (lookup_lt_is_Some_2 BITMAP_FONT_8X16 (Z.to_nat c)) as [g Eg]; [lia |].
  pose proof (proj1 (Forall_lookup _ _) Hf _ _ Eg) as Hg. cbn beta in Hg.
  destruct (lookup_lt_is_Some_2 g y) as [b Eb]; [lia |]. exists g, b. split; [done |]. split; [done |].
  intros px. unfold glyph_bit. by rewrite (nth_lookup_Some _ _ _ _ Eg), Nat2Z.id, (nth_lookup_Some _ _ _ _ Eb).
Qed.

Lemma row_bit b x : 0 <= x -> negb (Z.land (Z.shiftr b x) 1 =? 0) = Z.testbit b x.
Proof.
  intros Hx. change 1 with (Z.shiftl 1 0). rewrite bit_test by lia. by rewrite Z.shiftr_spec, Z.add_0_l by lia.
Qed.

(** ** Drawing *)
Definition painted (P : Z -> bool) (mem mem' : Z -> Z) : Prop := forall a, mem' a = if P a then WHITE else mem a.

Lemma painted_none mem : painted (fun _ => false) mem mem.
Proof. by intros a. Qed.

Lemma painted_trans P Q m1 m2 m3 : painted P m1 m2 -> painted Q m2 m3 -> painted (fun a => P a || Q a) m1 m3.
Proof. intros H1 H2 a. rewrite H2, H1. by destruct (P a), (Q a). Qed.

Lemma painted_ext P Q m m' : (forall a, P a = Q a) -> painted P m m' -> painted Q m m'.
Proof. intros E Hp a. by rewrite Hp, E. Qed.

(** A framebuffer of 32-bit pixels and whole cells, below the end of memory. *)
Record fb_ok (f : RawFramebuffer) : Prop := {
  fo_ptr : 0 < fb_ptr f /\ fb_ptr f mod 4 = 0;
  fo_bpp : bpp f = 32;
  fo_width : 0 < width f /\ width f mod 8 = 0 /\ 4 * width f <= pitch f;
  fo_height : 0 < height f /\ height f mod 16 = 0;
  fo_pitch : pitch f mod 4 = 0;
  fo_end : fb_ptr f + pitch f * height f <= usize_MAX;
}.

Definition pixel_addr (f : RawFramebuffer) (x y : Z) : Z := fb_ptr f + (4 * x + y * pitch f).
Definition in_fb (f : RawFramebuffer) (x y : Z) : Prop := 0 <= x < width f /\ 0 <= y < height f.

Lemma pixel_addr_bound f x y : fb_ok f -> in_fb f x y ->
  4 * x + y * pitch f + 4 <= pitch f * height f /\ pixel_addr f x y mod 4 = 0 /\ 0 <= y * pitch f.
Proof.
  intros [[Hp0 Hp] _ (Hw & _ & Hwp) _ Hpi _] [Hx Hy]. split; [nia |]. split; [| nia].
  unfold pixel_addr. rewrite (Z.div_mod (fb_ptr f) 4), (Z.div_mod (pitch f) 4), Hp, Hpi by done.
  replace (4 * (fb_ptr f / 4) + 0 + (4 * x + y * (4 * (pitch f / 4) + 0))) with ((fb_ptr f / 4 + x + y * (pitch f / 4)) * 4) by lia.
  by apply Z.mod_mul.
Qed.

Lemma pixel_addr_inj f x y x' y' : fb_ok f -> in_fb f x y -> in_fb f x' y' ->
  pixel_addr f x y = pixel_addr f x' y' -> x = x' /\ y = y'.
Proof.
  intros [_ _ (Hw & _ & Hwp) _ _ _] [Hx Hy] [Hx' Hy'] E. unfold pixel_addr in E. assert (y = y') as -> by nia. lia.
Qed.

Lemma draw_pixel_ok f mem x y : fb_ok (framebuffer f) -> in_fb (framebuffer f) x y ->
  exists mem', draw_pixel f mem x y WHITE = Done mem' /\ painted (fun a => a =? pixel_addr (framebuffer f) x y) mem mem'.
Proof.
  intros Hf Hin. destruct (pixel_addr_bound _ _ _ Hf Hin) as (Hb & Hal & Hy). destruct Hin as [Hx Hy0].
  pose proof Hf as [[Hp0 _] Ebpp _ _ _ He]. unfold draw_pixel, write_word. rewrite Ebpp. change (32 / 8) with 4.
  rewrite (usize_mul_ok y), bind_Done, (usize_mul_ok x), bind_Done by lia. rewrite (usize_add_ok (x * 4)), bind_Done by lia.
  rewrite usize_add_ok, bind_Done by lia. replace (x * 4 + y * pitch (framebuffer f)) with (4 * x + y * pitch (framebuffer f)) by lia.
  fold (pixel_addr (framebuffer f) x y). rewrite Hal, (proj2 (Z.eqb_neq _ 0)) by (unfold pixel_addr; lia). cbn [Z.eqb negb orb].
  eexists. split; [done |]. intros a. destruct (Z.eqb_spec a (pixel_addr (framebuffer f) x y)) as [-> | Hne].
  - by rewrite fn_lookup_insert.
  - by rewrite fn_lookup_insert_ne by congruence.
Qed.

Lemma existsb_same {A} (f g : A -> bool) l : (forall x, f x = g x) -> existsb f l = existsb g l.
Proof. intros E. induction l as [| x l IH]; [done |]. cbn [existsb]. by rewrite E, IH. Qed.

(** The address of a pixel of a glyph drawn in the cell [cx], [cy]. *)
Definition row_paints (f : RawFramebuffer) (b cx cy y : Z) (xs : list Z) (a : Z) : bool :=
  existsb (fun px => Z.testbit b px && (a =? pixel_addr f (8 * cx + px) (16 * cy + y))) xs.
Definition cell_paints (f : RawFramebuffer) (cell : Z * Z * Z) (ys : list Z) (a : Z) : bool :=
  existsb (fun py => existsb (fun px => glyph_bit cell.2 px py && (a =? pixel_addr f (8 * cell.1.1 + px) (16 * cell.1.2 + py))) (seqZ 0 8)) ys.

Definition cell_in (f : RawFramebuffer) (cx cy : Z) : Prop := 0 <= cx < width f / 8 /\ 0 <= cy < height f / 16.

Lemma cell_in_fb f cx cy px py : fb_ok f -> cell_in f cx cy -> 0 <= px < 8 -> 0 <= py < 16 ->
  in_fb f (8 * cx + px) (16 * cy + py).
Proof.
  intros [_ _ (_ & Hw & _) (_ & Hh) _ _] [Hx Hy] Hpx Hpy.
  pose proof (Z.div_mod (width f) 8). pose proof (Z.div_mod (height f) 16). split; lia.
Qed.

(** A writer whose cursor is at a cell. *)
Record at_cell (f : FramebufferWriter) (cx cy : Z) : Prop := {
  ac_fb : fb_ok (framebuffer f);
  ac_in : cell_in (framebuffer f) cx cy;
  ac_x : curr_x f = 8 * cx;
  ac_y : curr_y f = 16 * cy;
  ac_on : disabled f = false;
}.

Lemma fb_small f x y : fb_ok f -> in_fb f x y -> x <= usize_MAX /\ y <= usize_MAX.
Proof. intros [[Hp _] _ (Hw & _ & Hwp) _ _ He] [Hx Hy]. split; nia. Qed.

Lemma draw_row_ok f cx cy b y n : at_cell f cx cy -> 0 <= y < 16 -> forall x mem, 0 <= x -> x + Z.of_nat n <= 8 ->
  exists mem', draw_row f mem b x y n = Done mem' /\
    painted (row_paints (framebuffer f) b cx cy y (seqZ x (Z.of_nat n))) mem mem'.
Proof.
  intros [Hf Hin Hx Hy _] Hyb. induction n as [| n IH]; intros x mem Hx0 Hn; cbn [draw_row]; [exists mem; split; [done | exact (painted_none mem)] |].
  rewrite (seqZ_cons x) by lia. replace (Z.pred (Z.of_nat (S n))) with (Z.of_nat n) by lia.
  pose proof (cell_in_fb _ _ _ x y Hf Hin ltac:(lia) Hyb) as Hpx. destruct (fb_small _ _ _ Hf Hpx).
  rewrite row_bit by lia. destruct (Z.testbit b x) eqn:Eb.
  - rewrite (usize_add_ok x), bind_Done, (usize_add_ok y), bind_Done by lia.
    replace (x + curr_x f) with (8 * cx + x) by lia. replace (y + curr_y f) with (16 * cy + y) by lia.
    destruct (draw_pixel_ok f mem _ _ Hf Hpx) as (m1 & -> & P1). rewrite bind_Done.
    destruct (IH (x + 1) m1 ltac:(lia) ltac:(lia)) as (m2 & -> & P2). exists m2. split; [done |].
    eapply painted_ext; [| exact (painted_trans _ _ _ _ _ P1 P2)]. intros a. unfold row_paints. cbn [existsb]. by rewrite Eb.
  - rewrite bind_Done. destruct (IH (x + 1) mem ltac:(lia) ltac:(lia)) as (m2 & -> & P2). exists m2. split; [done |].
    eapply painted_ext; [| exact P2]. intros a. unfold row_paints. cbn [existsb]. by rewrite Eb.
Qed.

Lemma draw_rows_ok f cx cy c g n : at_cell f cx cy -> 0 <= c < 256 -> BITMAP_FONT_8X16 !! Z.to_nat c = Some g ->
  forall y mem, (y + n <= 16)%nat ->
  exists mem', draw_rows f mem g y n = Done mem' /\
    painted (cell_paints (framebuffer f) (cx, cy, c) (seqZ (Z.of_nat y) (Z.of_nat n))) mem mem'.
Proof.
  intros Hc Hcb Eg. induction n as [| n IH]; intros y mem Hn; cbn [draw_rows]; [exists mem; split; [done | exact (painted_none mem)] |].
  destruct (glyph_row c y Hcb ltac:(lia)) as (g' & b & Eg' & Eb & Hbit). rewrite Eg in Eg'. injection Eg' as <-.
  rewrite (proj2 (index_Done g y b) Eb), bind_Done.
  destruct (draw_row_ok f cx cy b (Z.of_nat y) 8 Hc ltac:(lia) 0 mem ltac:(lia) ltac:(lia)) as (m1 & -> & P1). rewrite bind_Done.
  destruct (IH (S y) m1 ltac:(lia)) as (m2 & -> & P2). exists m2. split; [done |].
  rewrite (seqZ_cons (Z.of_nat y)) by lia. replace (Z.pred (Z.of_nat (S n))) with (Z.of_nat n) by lia.
  replace (Z.succ (Z.of_nat y)) with (Z.of_nat (S y)) by lia.
  eapply painted_ext; [| exact (painted_trans _ _ _ _ _ P1 P2)]. intros a. unfold cell_paints, row_paints.
  cbn [fst snd existsb]. f_equal. apply existsb_same. intros px. by rewrite Hbit.
Qed.

(** The cell after a character; none after the last row. *)
Definition next_cell (f : RawFramebuffer) (cx cy c : Z) : Z * Z :=
  if (width f / 8 <=? cx + 1) || (c =? 10) then (0, cy + 1) else (cx + 1, cy).

Lemma draw_char_ok f cx cy c mem : at_cell f cx cy -> 0 <= c < 256 ->
  exists f' mem', draw_char f mem c = Done (Ok (), f', mem') /\ framebuffer f' = framebuffer f /\
    painted (cell_paints (framebuffer f) (cx, cy, c) (seqZ 0 16)) mem mem' /\
    let next := next_cell (framebuffer f) cx cy c in
    if height (framebuffer f) / 16 <=? next.2 then disabled f' = true else at_cell f' next.1 next.2.
Proof.
  intros Hat Hc. pose proof Hat as [Hf [Hcx Hcy] Hx Hy Hon]. destruct (glyph_row c 0 Hc ltac:(lia)) as (g & _ & Eg & _).
  unfold draw_char. rewrite Hon. rewrite (proj1 font_shape), (proj2 (Z.leb_gt _ _)) by lia.
  rewrite (proj2 (index_Done BITMAP_FONT_8X16 (Z.to_nat c) g) Eg), bind_Done.
  destruct (draw_rows_ok f cx cy c g 16 Hat Hc Eg 0 mem ltac:(lia)) as (m1 & -> & P1). rewrite bind_Done.
  pose proof Hf as [[Hp0 _] _ (Hw0 & Hw & Hwp) (Hh0 & Hh) _ He].
  pose proof (Z.div_mod (width (framebuffer f)) 8 ltac:(lia)) as Dw. pose proof (Z.div_mod (height (framebuffer f)) 16 ltac:(lia)) as Dh.
  assert (width (framebuffer f) <= usize_MAX - 16 /\ height (framebuffer f) <= usize_MAX - 16) as [Hws Hhs].
  { assert (pitch (framebuffer f) * height (framebuffer f) >= 32 * height (framebuffer f)) by nia.
    assert (pitch (framebuffer f) * height (framebuffer f) >= 4 * width (framebuffer f) * 16) by nia. lia. }
  unfold scroll_x. rewrite usize_add_ok, bind_Done by lia. cbn zeta. cbn [width framebuffer curr_y disabled]. unfold next_cell.
  replace (width (framebuffer f) <=? curr_x f + 8) with (width (framebuffer f) / 8 <=? cx + 1).
  2: { destruct (Z.leb_spec (width (framebuffer f) / 8) (cx + 1)), (Z.leb_spec (width (framebuffer f)) (curr_x f + 8)); lia. }
  destruct ((_ <=? _) || (_ =? _)) eqn:En; cbn [fst snd].
  - unfold scroll_y. cbn [curr_y framebuffer curr_x disabled]. rewrite usize_add_ok, !bind_Done by lia.
    eexists _, m1. split; [done |]. split; [done |]. split; [exact P1 |]. rewrite Hon. cbn [orb disabled].
    destruct (Z.leb_spec (height (framebuffer f) / 16) (cy + 1)) as [Hl | Hl]; [apply Z.leb_le; lia |].
    split; cbn [framebuffer curr_x curr_y disabled]; [done | split; [lia | lia] | lia | lia | apply Z.leb_gt; lia].
  - rewrite bind_Done. eexists _, m1. split; [done |]. split; [done |]. split; [exact P1 |].
    apply orb_false_elim in En as [En _]. apply Z.leb_gt in En. rewrite (proj2 (Z.leb_gt _ _)) by lia.
    split; cbn [framebuffer curr_x curr_y disabled]; [done | split; lia | lia | done | done].
Qed.

(** ** Texts *)
Section texts.
Context {W : Type} `{Ports W}.

Lemma write_str_disabled s : forall (l : Log W), disabled (log_fb l) = true -> exists l', write_str true true l s = Done l' /\ log_mem l' = log_mem l.
Proof.
  induction s as [| c s IH]; intros l Hd; cbn [write_str]; [by exists l |]. unfold draw_char. rewrite Hd, !bind_Done.
  cbn [unwrap_ok]. rewrite !bind_Done. by apply (IH (mkLog _ (log_serial l) (log_fb l) (log_mem l))).
Qed.

Definition text_paints (f : RawFramebuffer) (l : list (Z * Z * Z)) (a : Z) : bool :=
  existsb (fun cell => cell_paints f cell (seqZ 0 16) a) l.

Lemma write_cells_ok s : Forall (fun c => 0 <= c < 256) s -> forall (l : Log W) cx cy, at_cell (log_fb l) cx cy ->
  let f := framebuffer (log_fb l) in
  exists l', write_str true true l s = Done l' /\
    painted (text_paints f (cells (width f / 8) (height f / 16) cy cx s)) (log_mem l) (log_mem l').
Proof.
  induction 1 as [| c s Hc _ IH]; intros l cx cy Hat f; cbn [write_str cells]; [exists l; split; [done | exact (painted_none _)] |].
  pose proof Hat as [_ [_ Hcy] _ _ _]. fold f in Hcy. rewrite (proj2 (Z.leb_gt _ _)) by lia.
  destruct (draw_char_ok _ _ _ c (log_mem l) Hat Hc) as (f' & m1 & -> & Ef & P1 & Hnext). rewrite !bind_Done. cbn [unwrap_ok].
  rewrite !bind_Done. fold f in P1, Hnext, Ef. cbn zeta in Hnext.
  set (l1 := mkLog (write_byte_all (log_serial l) c (log_world l)) (log_serial l) f' m1).
  assert (exists l', write_str true true l1 s = Done l' /\
    painted (text_paints f (cells (width f / 8) (height f / 16) (next_cell f cx cy c).2 (next_cell f cx cy c).1 s)) m1 (log_mem l')) as (l' & E & P2).
  { destruct (Z.leb_spec (height f / 16) (next_cell f cx cy c).2) as [Hl | Hl].
    - destruct (write_str_disabled s l1 Hnext) as (l' & E & Em). exists l'. split; [done |]. intros a. rewrite Em.
      destruct s; cbn [cells text_paints existsb]; [done |]. by rewrite (proj2 (Z.leb_le _ _) Hl).
    - destruct (IH l1 _ _ Hnext) as (l' & E & P). exists l'. split; [done |]. cbn [l1 log_fb log_mem] in P. by rewrite Ef in P. }
  exists l'. split; [done |]. eapply painted_ext; [| exact (painted_trans _ _ _ _ _ P1 P2)]. intros a.
  unfold text_paints. cbn [existsb]. f_equal. unfold next_cell. by destruct (_ || _).
Qed.
End texts.

(** ** Pixels *)
Lemma cells_in cols rows s : 0 < cols -> forall row col, 0 <= row -> 0 <= col < cols ->
  Forall (fun cell : Z * Z * Z => 0 <= cell.1.1 < cols /\ 0 <= cell.1.2 < rows) (cells cols rows row col s).
Proof.
  intros Hcols. induction s as [| c s IH]; intros row col Hr Hc; cbn [cells]; [done |].
  destruct (Z.leb_spec rows row) as [Hl | Hl]; [done |]. apply Forall_cons_2; [cbn [fst snd]; lia |].
  destruct (Z.leb_spec cols (col + 1)); cbn [orb]; [apply IH; lia |]. destruct (c =? 10); apply IH; lia.
Qed.

Lemma cell_paints_spec f cx cy c a : cell_paints f (cx, cy, c) (seqZ 0 16) a = true <->
  exists px py, 0 <= px < 8 /\ 0 <= py < 16 /\ glyph_bit c px py = true /\ a = pixel_addr f (8 * cx + px) (16 * cy + py).
Proof.
  unfold cell_paints. rewrite existsb_exists. cbn [fst snd]. split.
  - intros (py & Hpy & Hx). apply existsb_exists in Hx as (px & Hpx & Hg). apply list_elem_of_In, elem_of_seqZ in Hpx, Hpy.
    apply andb_prop in Hg as [Hg Ha]. apply Z.eqb_eq in Ha. exists px, py. by split_and!; try lia.
  - intros (px & py & Hpx & Hpy & Hg & ->). exists py. split; [apply list_elem_of_In, elem_of_seqZ; lia |].
    apply existsb_exists. exists px. split; [apply list_elem_of_In, elem_of_seqZ; lia |]. by rewrite Hg, Z.eqb_refl.
Qed.

Lemma cell_paints_pixel f cx cy c px py : fb_ok f -> cell_in f cx cy -> in_fb f px py ->
  cell_paints f (cx, cy, c) (seqZ 0 16) (pixel_addr f px py) = (px / 8 =? cx) && (py / 16 =? cy) && glyph_bit c (px mod 8) (py mod 16).
Proof.
  intros Hf Hc Hin. apply eq_true_iff_eq. rewrite cell_paints_spec, !andb_true_iff, !Z.eqb_eq. split.
  - intros (x & y & Hx & Hy & Hg & E). pose proof (cell_in_fb f cx cy x y Hf Hc Hx Hy) as Hin2.
    destruct (pixel_addr_inj f _ _ _ _ Hf Hin Hin2 E) as [-> ->]. rewrite !(Z.mul_comm _ cx), !(Z.mul_comm _ cy).
    assert (forall d q r, 0 <= r < d -> (q * d + r) / d = q /\ (q * d + r) mod d = r) as Hdm.
    { intros d q r Hr. split; symmetry; [apply Z.div_unique with r | apply Z.mod_unique with q]; lia. }
    destruct (Hdm 8 cx x Hx) as [-> ->], (Hdm 16 cy y Hy) as [-> ->]. done.
  - intros [[<- <-] Hg]. exists (px mod 8), (py mod 16). pose proof (Z.mod_pos_bound px 8 ltac:(lia)).
    pose proof (Z.mod_pos_bound py 16 ltac:(lia)). split_and!; try done || lia. f_equal; [pose proof (Z.div_mod px 8) | pose proof (Z.div_mod py 16)]; lia.
Qed.

Section claims.
Context {W : Type} `{Ports W}.

(** The serial log gets every byte, on every port. *)
Lemma write_str_serial fbf s : forall (l l' : Log W), write_str true fbf l s = Done l' ->
  log_serial l' = log_serial l /\ log_world l' = fold_left (fun w c => write_byte_all (log_serial l) c w) s (log_world l).
Proof.
  induction s as [| c s IH]; intros l l' E; cbn [write_str] in E; [by injection E as <- |]. res_inv. destruct v as [f m].
  by apply IH in E as [E1 E2].
Qed.

(** C30: a text on a fresh framebuffer of whole cells never stops the kernel:
    it turns exactly the pixels of its characters white, each character in the
    cell that is next, as long as there is one, writes nowhere outside the
    pixels, and sends every byte to the serial ports. *)
Theorem text_drawn (l : Log W) ptr w h pi s : let f := mkRawFramebuffer ptr w h pi 32 in
  fb_ok f -> log_fb l = FramebufferWriter_new ptr w h pi 32 -> Forall (fun c => 0 <= c < 256) s ->
  exists l', write_str true true l s = Done l' /\
    (forall px py, in_fb f px py -> log_mem l' (pixel_addr f px py) =
       if pixel_lit (cells (w / 8) (h / 16) 0 0 s) px py then WHITE else log_mem l (pixel_addr f px py)) /\
    (forall a, (forall px py, in_fb f px py -> a <> pixel_addr f px py) -> log_mem l' a = log_mem l a) /\
    log_world l' = fold_left (fun v c => write_byte_all (log_serial l) c v) s (log_world l).
Proof.
  intros f Hf El Hs. pose proof Hf as [_ _ (Hw0 & Hw & _) (Hh0 & Hh) _ _]. cbn [f width height] in *.
  assert (0 < w / 8 /\ 0 < h / 16) as [Hcols Hrows] by (pose proof (Z.div_mod w 8); pose proof (Z.div_mod h 16); lia).
  assert (at_cell (log_fb l) 0 0) as Hat by (rewrite El; split; [done | split; cbn [framebuffer FramebufferWriter_new width height]; lia | done ..]).
  destruct (write_cells_ok s Hs l 0 0 Hat) as (l' & E & P). rewrite El in P. cbn [framebuffer FramebufferWriter_new width height] in P. fold f in P.
  pose proof (cells_in (w / 8) (h / 16) s Hcols 0 0 ltac:(lia) ltac:(lia)) as Hcs. rewrite Forall_forall in Hcs.
  exists l'. split; [done |]. split; [| split].
  - intros px py Hin. rewrite P. replace (text_paints f _ _) with (pixel_lit (cells (w / 8) (h / 16) 0 0 s) px py); [done |].
    unfold pixel_lit, text_paints. apply eq_true_iff_eq. rewrite !existsb_exists.
    split; intros ([[cx cy] c] & Hc & Hp); exists (cx, cy, c); (split; [done |]).
    all: apply list_elem_of_In, Hcs in Hc; cbn [fst snd] in Hc. by rewrite cell_paints_pixel. by rewrite cell_paints_pixel in Hp.
  - intros a Ha. rewrite P. destruct (text_paints f _ a) eqn:Ep; [| done]. apply existsb_exists in Ep as ([[cx cy] c] & Hc & Hp).
    apply list_elem_of_In, Hcs in Hc. cbn [fst snd] in Hc. apply cell_paints_spec in Hp as (px & py & Hpx & Hpy & _ & ->).
    destruct (Ha (8 * cx + px) (16 * cy + py)); [| done]. by apply cell_in_fb.
  - by apply (write_str_serial true s l l' E).
Qed.

(** Initialising the serial log never takes a faulty port out of it. *)
Lemma serial_init_keeps_ports (s : SerialWriter) (w : W) : (SerialWriter_init s w).1 = s.
Proof. unfold SerialWriter_init. by destruct (init_ports _ w). Qed.
End claims.

(** ** Examples *)
#[local] Instance null_ports : Ports unit := {| port_out w _ _ := w; port_in w _ := (0xff, w) |}.

Definition ex_log (w h : Z) : Log unit :=
  mkLog () SERIAL_WRITER (FramebufferWriter_new 0x10000 w h (4 * w) 32) (fun _ => 0).

(** "Hi" on a screen of two cells: the H takes the first. *)
Lemma text_drawn_witness : exists l', write_str true true (ex_log 16 16) [72; 105; 33] = Done l' /\
  log_mem l' (0x10000 + 4 * 16 * 2) = WHITE /\ log_mem l' (0x10000 + 4 * (16 * 2 + 7)) = 0.
Proof.
  destruct (text_drawn (ex_log 16 16) 0x10000 16 16 64 [72; 105; 33]) as (l' & E & Hp & _ & _).
  - split; done.
  - done.
  - repeat constructor; lia.
  - exists l'. split; [done |]. split.
    + change (0x10000 + 4 * 16 * 2) with (pixel_addr (mkRawFramebuffer 0x10000 16 16 64 32) 0 2). rewrite (Hp 0 2); [by vm_compute | split; cbn; lia].
    + change (0x10000 + 4 * (16 * 2 + 7)) with (pixel_addr (mkRawFramebuffer 0x10000 16 16 64 32) 7 2). rewrite (Hp 7 2); [by vm_compute | split; cbn; lia].
Defined.

(** A height that is no multiple of 16: the last row of characters is drawn
    below the framebuffer, which ends at 0x10000 + 64 * 20. *)
Example framebuffer_overrun :
  match write_str true true (ex_log 16 20) [10; 72] with
  | Done l' => log_mem l' (0x10000 + 64 * 20) = WHITE
  | Panic _ => False
  end.
Proof. by vm_compute. Qed.

(** Pixels of 24 bits are written as misaligned words. *)
Example framebuffer_24_bits :
  write_str true true (mkLog () SERIAL_WRITER (FramebufferWriter_new 0x10000 16 16 48 24) (fun _ => 0)) [72] = Panic BadPointer.
Proof. by vm_compute. Qed.
