(* ===== verification/Kmain.v ===== *)
(** * The boot of the kernel

    [kmain] of boot/src/boot/limine.rs, with [early_boot_init] and
    [find_cpu_vendor] of kernel/src/arch/x86_64/mod.rs, [Idt::init] of
    interrupts.rs and the statics they set (utils/src/collections/
    fast_lazy_static.rs): from the responses of the boot loader to the state in
    which [funderberker_start] halts the processor. *)

From S2P Require Import Prelude LinkedList Pmm Buddy BuddyInit PageFlags PageTable Paging Bitfield IoApic Idt Hpet Lapic Acpi Registers Pcie Xsdt Logger.

(** ** Statics that are set once *)
Record FastLazyStatic (T : Type) := mkFastLazyStatic { fls_data : T }.
Arguments mkFastLazyStatic {T}.
Arguments fls_data {T}.

Definition FastLazyStatic_new {T} (uninit : T) : FastLazyStatic T := mkFastLazyStatic uninit.
Definition FastLazyStatic_set {T} (s : FastLazyStatic T) (value : T) : FastLazyStatic T := mkFastLazyStatic value.
Definition FastLazyStatic_get {T} (s : FastLazyStatic T) : T := fls_data s.

(** ** The vendor of the processor *)
Inductive CpuVendor := Amd | Intel | Invalid.
#[export] Instance CpuVendor_eq_dec : EqDecision CpuVendor.
Proof. solve_decision. Defined.

Definition CPU_VENDOR : FastLazyStatic CpuVendor := FastLazyStatic_new Invalid.

(** [u32::from_le_bytes] of the three parts of a vendor string. *)
Definition from_le_bytes (bs : list Z) : Z := foldr (fun b acc => b + 256 * acc) 0 bs.
Definition INTEL_STRING : Z * Z * Z :=
  (from_le_bytes [0x47; 0x65; 0x6e; 0x75], from_le_bytes [0x69; 0x6e; 0x65; 0x49], from_le_bytes [0x6e; 0x74; 0x65; 0x6c]).
Definition AMD_STRING : Z * Z * Z :=
  (from_le_bytes [0x41; 0x75; 0x74; 0x68], from_le_bytes [0x65; 0x6e; 0x74; 0x69], from_le_bytes [0x63; 0x41; 0x4d; 0x44]).

Definition find_cpu_vendor (cpuid : Z -> Z -> CpuidResult) (vendor : FastLazyStatic CpuVendor) : res (FastLazyStatic CpuVendor) :=
  _ ← assert_ (bool_decide (FastLazyStatic_get vendor = Invalid));
  let r := cpuid 0 0 in
  let string := (cpuid_ebx r, cpuid_edx r, cpuid_ecx r) in
  if bool_decide (string = INTEL_STRING) then Done (FastLazyStatic_set vendor Intel)
  else if bool_decide (string = AMD_STRING) then Done (FastLazyStatic_set vendor Amd)
  else Panic Asserted.

(** ** The interrupt descriptor table *)
Definition size_of_Idt : Z := Z.of_nat IDT_ENTRIES_NUM * 16.

(** [lidt] of the table at the address [idt]. *)
Definition Idt_load (idt : Z) (c : Processor) : Processor :=
  mkProcessor (regs c) (gdtr c) (mkTablePtr ((size_of_Idt - 1) mod 2 ^ 16) idt).
Definition read_idtr (c : Processor) : DescriptorTablePtr := idtr c.

Section start.
Context `{Bitfields}.

(** What the linker places: the entry points of the exceptions and of the
    generic handler, and the static [IDT]. *)
Record Symbols := mkSymbols { isr_stub_exception : nat -> Z; isr_stub_generic_irq_isr : Z; idt_static : Z }.

Definition Idt_init (y : Symbols) (c : Processor) (idt : Idt) : res (Processor * Idt) :=
  let c := cli c in
  idt ← install_exception_isrs (isr_stub_exception y) (isr_stub_generic_irq_isr y) (cs_sel (read c)) idt;
  let c := Idt_load (idt_static y) c in
  Done (sti c, idt).

Definition early_boot_init (y : Symbols) (cpuid : Z -> Z -> CpuidResult) (c : Processor) (idt : Idt)
    (vendor : FastLazyStatic CpuVendor) : res (Processor * Idt * FastLazyStatic CpuVendor) :=
  '(c, idt) ← Idt_init y c idt;
  vendor ← find_cpu_vendor cpuid vendor;
  Done (c, idt, vendor).
End start.

(** ** The kernel's entry *)
(** What the boot loader answers. *)
Record Responses := mkResponses {
  base_revision_supported : bool;
  framebuffers : option (list RawFramebuffer);
  hhdm_offset : option Z;
  memory_map : option (list MemEntry);
  kernel_address : option (VirtAddr * PhysAddr);
  rsdp_address : option PhysAddr;
}.

(** The state that [kmain] finds: the registers of the processor (those that
    paging and the local APIC use are their own part of it), the statics of the
    kernel, and the memory, as the frames of page tables and as the nodes of
    the allocator. *)
Record Kernel (W : Type) := mkKernel {
  k_processor : Processor;
  k_idt : Idt;
  k_vendor : FastLazyStatic CpuVendor;
  k_hhdm : FastLazyStatic Z;
  k_framebuffer : FramebufferWriter;
  k_cpu : Cpu;
  k_ioapics : IoApics W;
  k_lapics : list LocalApic;
  k_lapic_cpu : ApicCpu;
  k_hpet : option Hpet;
  k_pcie : list PcieDevice;
}.
Arguments mkKernel {W}.
Arguments k_processor {W}.
Arguments k_idt {W}.
Arguments k_vendor {W}.
Arguments k_hhdm {W}.
Arguments k_framebuffer {W}.
Arguments k_cpu {W}.
Arguments k_ioapics {W}.
Arguments k_lapics {W}.
Arguments k_lapic_cpu {W}.
Arguments k_hpet {W}.
Arguments k_pcie {W}.

(** The running kernel, with its paging. *)
Definition running {W P} (k : Kernel W) (st : AcpiState W P) : Kernel W * Paging P :=
  let a := acpi_apics st in
  (mkKernel (k_processor k) (k_idt k) (k_vendor k) (k_hhdm k) (k_framebuffer k) (k_cpu k)
     (ap_io a) (ap_lapics a) (ap_cpu a) (acpi_hpet st) (acpi_pcie st), ap_paging a).

(** [logger::framebuffer::init_from_limine] of the first framebuffer. *)
Definition framebuffer_init_from_limine (fb : RawFramebuffer) : FramebufferWriter :=
  FramebufferWriter_new (fb_ptr fb) (width fb) (height fb) (pitch fb) (bpp fb).

Section kmain.
Context {W : Type} `{Mmio32 W} `{Mmio64 W} `{PortIo W} `{Bitfields}.
(** The feature [framebuffer], the linker's symbols, CPUID, the bytes of
    physical memory and of the PCIe configuration space that the kernel reads,
    the frames and the nodes of memory, and a bound on the entries of a MADT. *)
Variables (framebuffer_feature : bool) (y : Symbols) (cpuid : Z -> Z -> CpuidResult) (phys cfg : Z -> Z)
  (fr : gmap Z (list Z)) (h : heap PhysAddr) (n : nat).

Definition framebuffer_start (r : Responses) (old : FramebufferWriter) : res FramebufferWriter :=
  if framebuffer_feature then
    fbs ← unwrap (framebuffers r);
    fb ← unwrap (hd_error fbs);
    Done (framebuffer_init_from_limine fb)
  else Done old.

Definition kmain (r : Responses) (k : Kernel W) : option (res (Kernel W * Paging BuddyAllocator)) :=
  let* _ := Some (assert_ (base_revision_supported r)) in
  let* fb := Some (framebuffer_start r (k_framebuffer k)) in
  let* hhdm := Some (unwrap (hhdm_offset r)) in
  let* mem_map := Some (unwrap (memory_map r)) in
  let* (kernel_virt, kernel_phys) := Some (unwrap (kernel_address r)) in
  let* rsdp := Some (unwrap (rsdp_address r)) in
  let HHDM_OFFSET := FastLazyStatic_set (k_hhdm k) hhdm in
  let* (c, idt, vendor) := Some (early_boot_init y cpuid (k_processor k) (k_idt k) (k_vendor k)) in
  let hhdm := FastLazyStatic_get HHDM_OFFSET in
  let* (g, cpu) := Some (boot_paging hhdm framebuffer_feature fr (init_from_limine hhdm h mem_map) (k_cpu k)
                           mem_map kernel_virt kernel_phys) in
  let st := mkAcpiState (mkApics (k_ioapics k) (k_lapics k) (k_lapic_cpu k) g) (k_hpet k) (k_pcie k) in
  let* (r, st) := acpi_init hhdm (top_pml cpu) phys cfg n st rsdp in
  let* _ := Some (unwrap_ok r) in
  let k := mkKernel c idt vendor HHDM_OFFSET fb cpu (k_ioapics k) (k_lapics k) (k_lapic_cpu k) (k_hpet k) (k_pcie k) in
  Some (Done (running k st)).
End kmain.
