(* ===== verification/KmainTheorems.v ===== *)
(** * Theorems on the boot of the kernel

    [kmain] composed of its parts: the buddy allocator built from the memory
    map is the physical memory of the page tables, whose page service maps the
    ACPI tables and the devices they name. *)

From stdpp Require Import functions.
From S2P Require Import Prelude LinkedList Pmm Buddy BuddySim BuddyBlocks BuddyCorrect BuddyInit BuddyTheorems BuddyLaws PageFlags Pages PageTable PageTableCorrect PageTableTheorems Paging BootMap BootTheorems KernelPages KernelPagesTheorems DevicePages Bitfield Layouts IoApic IoApicCorrect Idt IrqTheorems Hpet HpetTheorems Lapic Acpi AcpiTheorems Registers Svm Pcie PcieTheorems Xsdt XsdtTheorems Logger Kmain.

(** ** The pages of the memory map *)
Definition pages_of (f : MemEntry) : list PhysAddr :=
  if decide (entry_type f = USABLE) then (fun i => base f + i * BASIC_PAGE_SIZE) <$> seqZ 0 (length_ f / BASIC_PAGE_SIZE) else [].
Definition usable_pages (mem_map : list MemEntry) : list PhysAddr := concat (pages_of <$> mem_map).
Definition buffer_pages (p : Z) : Z := div_ceil (total_buffer_size (ilog2 p + 1)) BASIC_PAGE_SIZE.
Definition in_buffer (p : Z) (e : MemEntry) (a : Z) : Prop := base e <= a < base e + buffer_pages p * BASIC_PAGE_SIZE.

#[local] Instance in_buffer_dec p e a : Decision (in_buffer p e a).
Proof. unfold in_buffer. apply _. Defined.

Lemma elem_of_pages_of limit f a : BuddyInit.entry_ok limit f ->
  a ∈ pages_of f <-> usable_at f a /\ (BASIC_PAGE_SIZE | a).
Proof.
  intros [[b Hb] [l Hl] _ _ _]. unfold pages_of, usable_at. rewrite Hb, Hl, Z.div_mul by done. unfold BASIC_PAGE_SIZE. case_decide as Hu.
  - rewrite list_elem_of_fmap. split.
    + intros (i & -> & Hi%elem_of_seqZ). split; [split; [done | lia] | exists (b + i); lia].
    + intros [[_ Ha] [q ->]]. exists (q - b). split; [lia |]. apply elem_of_seqZ. lia.
  - split; [by intros []%not_elem_of_nil | tauto].
Qed.

Lemma pages_of_nodup f : NoDup (pages_of f).
Proof.
  unfold pages_of. case_decide; [| by apply NoDup_nil]. apply NoDup_fmap_2; [| apply NoDup_seqZ].
  intros i j. unfold BASIC_PAGE_SIZE. lia.
Qed.

Lemma elem_of_usable_pages limit mm a : Forall (BuddyInit.entry_ok limit) mm ->
  a ∈ usable_pages mm <-> (exists f, In f mm /\ usable_at f a) /\ (BASIC_PAGE_SIZE | a).
Proof.
  intros Hok. unfold usable_pages. induction Hok as [| f mm Hf _ IH]; cbn [fmap list_fmap concat In].
  - split; [by intros []%not_elem_of_nil | by intros [(f & [] & _) _]].
  - rewrite elem_of_app, (elem_of_pages_of limit), IH by done. naive_solver.
Qed.

Lemma usable_pages_nodup limit mm : mem_map_ok limit mm -> NoDup (usable_pages mm).
Proof.
  intros [Hok Hdj]. unfold usable_pages. induction Hdj as [| f mm Hd _ IH]; [by apply NoDup_nil |].
  apply Forall_cons in Hok as [Hf Hok]. cbn [fmap list_fmap concat]. apply NoDup_app. split_and!; [apply pages_of_nodup | | by apply IH].
  intros a [Ha _]%(elem_of_pages_of limit); [| done]. intros [(f' & Hin & Ha') _]%(elem_of_usable_pages limit); [| done].
  rewrite List.Forall_forall in Hd. by apply (Hd f' Hin a).
Qed.

Lemma length_filter_split {A} (P : A -> Prop) `{forall x, Decision (P x)} l :
  (length (filter P l) + length (filter (fun x => ~ P x) l) = length l)%nat.
Proof.
  induction l as [| x l IH]; [done |]. rewrite !filter_cons. cbn [length]. destruct (decide (P x)); [rewrite decide_False by tauto | rewrite decide_True by done]; cbn [length]; lia.
Qed.

(** Of the usable pages, those outside the allocator's own buffer. *)
Lemma pages_beside_buffer limit p e mm : mem_map_ok limit mm -> 0 <= buffer_pages p -> (BASIC_PAGE_SIZE | base e) ->
  exists ps, NoDup ps /\ length ps = (length (usable_pages mm) - Z.to_nat (buffer_pages p))%nat /\
    forall a, a ∈ ps -> a ∈ usable_pages mm /\ ~ in_buffer p e a.
Proof.
  intros Hmm Hp [b Hb]. pose proof (usable_pages_nodup _ _ Hmm) as Hnd.
  set (out := filter (fun a => ~ in_buffer p e a) (usable_pages mm)).
  exists (take (length (usable_pages mm) - Z.to_nat (buffer_pages p)) out).
  assert (length (filter (in_buffer p e) (usable_pages mm)) <= Z.to_nat (buffer_pages p))%nat as Hl.
  { replace (Z.to_nat (buffer_pages p)) with (length ((fun i => base e + i * BASIC_PAGE_SIZE) <$> seqZ 0 (buffer_pages p)))
      by (rewrite length_fmap, length_seqZ; done).
    apply submseteq_length, NoDup_submseteq; [by apply NoDup_filter |]. intros a [Hin Ha]%list_elem_of_filter.
    apply (elem_of_usable_pages limit) in Ha as [_ [q ->]]; [| apply Hmm]. apply list_elem_of_fmap. unfold in_buffer, BASIC_PAGE_SIZE in *.
    exists (q - b). split; [lia |]. apply elem_of_seqZ. lia. }
  pose proof (length_filter_split (in_buffer p e) (usable_pages mm)) as Hs. fold out in Hs. split_and!.
  - eapply sublist_NoDup; [| apply sublist_take]. by apply NoDup_filter.
  - rewrite length_take. unfold out in *. lia.
  - intros a Ha%(subseteq_take _ _). by apply list_elem_of_filter in Ha as [? ?].
Qed.

(** ** The allocator after its initialisation *)
(** Memory for which the nodes of the freelist are always enough. *)
Definition enough_nodes (p : Z) : Prop := (Z.to_nat p + (ilog2 p + 1) <= buckets_count)%nat.

Lemma buddy_init_ready hhdm h mem_map p e : boot_ok hhdm h mem_map p e -> enough_nodes p ->
  exists b, init_from_limine hhdm h mem_map = Done (b, e) /\ pmm_ready b /\
    (forall a, pmm_free_page b a -> 0 <= a < p * BASIC_PAGE_SIZE) /\
    free_pages b (length (usable_pages mem_map) - Z.to_nat (buffer_pages p)).
Proof.
  intros Hb Hn. destruct (buddy_init_ok _ _ _ _ _ Hb) as (b & m & E & HR & Hwf & Hl & Hc & Hf). exists b.
  assert (buddy_at (p * BASIC_PAGE_SIZE) b m) as Hat.
  { split_and!; [done | done | lia |]. rewrite Z.div_mul by done. unfold enough_nodes in Hn. lia. }
  pose proof (bo_entry _ _ _ _ _ Hb) as He. apply find_some in He as [Hin _]. pose proof (bo_map _ _ _ _ _ Hb) as Hmm.
  pose proof (proj1 (List.Forall_forall _ _) (proj1 Hmm) e Hin) as Heok.
  assert (0 <= buffer_pages p) as Hbp.
  { pose proof (total_buffer_pos (ilog2 p + 1)). apply Z.div_pos; [unfold BASIC_PAGE_SIZE; lia | done]. }
  split_and!; [done | by exists (p * BASIC_PAGE_SIZE), m | |].
  - intros a (_ & m' & HR' & Hfree). rewrite (buddy_repr_functional _ _ _ HR' HR) in Hfree.
    exact (is_free_bound _ m a Hwf (Hfree a (page_start a))).
  - destruct (pages_beside_buffer _ p e _ Hmm Hbp (BuddyInit.eo_base _ _ Heok)) as (ps & Hnd & Hlen & Hps).
    exists ps. split_and!; [done | done |]. intros a [Ha Hout]%Hps.
    apply (elem_of_usable_pages (p * BASIC_PAGE_SIZE)) in Ha as [(f & Hif & Hu & Hfa) Hd]; [| apply Hmm].
    pose proof (proj1 (List.Forall_forall _ _) (proj1 Hmm) f Hif) as Hfok.
    split; [done |]. exists m. split; [done |]. intros x Hx. apply Hf. unfold in_block in Hx. change (bsize 0) with BASIC_PAGE_SIZE in Hx.
    unfold in_buffer in Hout. fold (buffer_pages p). destruct Hd as [q ->].
    destruct (BuddyInit.eo_base _ _ Hfok) as [fb Hfb], (BuddyInit.eo_length _ _ Hfok) as [fl Hfl], (BuddyInit.eo_base _ _ Heok) as [eb Heb].
    unfold BASIC_PAGE_SIZE in *. split; [exists f; split; [done |]; split; [done | lia] | lia].
Qed.

(** ** Early boot *)
Definition vendor_of (r : CpuidResult) : CpuVendor :=
  let string := (cpuid_ebx r, cpuid_edx r, cpuid_ecx r) in
  if bool_decide (string = INTEL_STRING) then Intel else if bool_decide (string = AMD_STRING) then Amd else Invalid.

Lemma find_cpu_vendor_ok cpuid :
  find_cpu_vendor cpuid CPU_VENDOR =
    if bool_decide (vendor_of (cpuid 0 0) = Invalid) then Panic Asserted else Done (FastLazyStatic_new (vendor_of (cpuid 0 0))).
Proof.
  unfold find_cpu_vendor, vendor_of, CPU_VENDOR. cbn [FastLazyStatic_get FastLazyStatic_new fls_data]. rewrite (bool_decide_true (Invalid = Invalid)) by done.
  cbn [assert_]. rewrite bind_Done. set (v := (_, _, _)).
  by destruct (bool_decide (v = INTEL_STRING)), (bool_decide (v = AMD_STRING)).
Qed.

(** The handlers that the processor finds once [Idt::init] has run. *)
Record handlers_installed (y : Symbols) (cs : Z) (c : Processor) (idt : Idt) : Prop := {
  hi_idtr : idtr c = mkTablePtr 4095 (idt_static y);
  hi_exceptions i : (i < 32)%nat -> exists g, idt !! i = Some g /\ gate_is g (isr_stub_exception y i) cs 0 Trap KernelDpl PresentGate;
  hi_generic : exists g, idt !! GENERIC_ISR_VECTOR = Some g /\
    gate_is g (isr_stub_generic_irq_isr y) cs 0 Interrupt KernelDpl PresentGate;
}.

Record symbols_ok (y : Symbols) : Prop := {
  sy_exception i : 0 <= isr_stub_exception y i < 2 ^ 64;
  sy_generic : 0 <= isr_stub_generic_irq_isr y < 2 ^ 64;
}.

Lemma Idt_init_ok `{BitfieldLaws} y c idt : symbols_ok y -> idt_wf idt -> 0 <= regs c CS < 2 ^ 16 -> 0 <= regs c RFLAGS ->
  exists c' idt', Idt_init y c idt = Done (c', idt') /\ idt_ready idt' /\ handlers_installed y (regs c CS) c' idt' /\
    load (at_ Rflags "if_enable") (regs c' RFLAGS) = 1 /\ (forall r, r <> RFLAGS -> regs c' r = regs c r).
Proof.
  intros [Hst Hgen] Hwf Hcs Hfl. unfold Idt_init. cbn [read cs_sel Cs_Register]. unfold cli at 1 2, set_reg at 1 2. cbn [regs].
  rewrite (fn_lookup_insert_ne (regs c) RFLAGS CS) by done.
  destruct (exception_isrs_installed idt (isr_stub_exception y) (isr_stub_generic_irq_isr y) (regs c CS) Hwf Hcs Hst Hgen)
    as (idt' & -> & Hr & He & Hg & _). rewrite bind_Done. eexists _, idt'. split; [done |]. split_and!; [done | by split | |].
  - unfold sti, set_reg, Idt_load. cbn [regs]. rewrite fn_lookup_insert. by rewrite load_store by by vm_compute.
  - intros r Hne. unfold sti, set_reg, Idt_load. cbn [regs]. by rewrite !fn_lookup_insert_ne by congruence.
Qed.

(** ** The whole boot *)
Section boot.
Context {W : Type} `{Mmio32 W} `{Mmio64 W} `{PortIo W} `{BitfieldLaws}.
Variables (fb : bool) (y : Symbols) (cpuid : Z -> Z -> CpuidResult) (phys cfg : Z -> Z) (fr : gmap Z (list Z)) (h : heap PhysAddr) (n : nat).

(** What the boot loader and the machine have to offer: every response, a known
    processor with the features that paging needs, a memory map that the
    allocator can be built from, ranges that do not overlap once mapped, and
    physical pages for the tables and for [room] pages of the page service. *)
Record boots (r : Responses) (k : Kernel W) (hhdm : Z) (mem_map : list MemEntry) (kv : VirtAddr) (kp : PhysAddr)
    (p : Z) (e : MemEntry) (room : nat) : Prop := {
  bs_revision : base_revision_supported r = true;
  bs_framebuffer : fb = true -> exists f fs, framebuffers r = Some (f :: fs);
  bs_hhdm : hhdm_offset r = Some hhdm;
  bs_map : memory_map r = Some mem_map;
  bs_kernel : kernel_address r = Some (kv, kp);
  bs_symbols : symbols_ok y;
  bs_statics : k_vendor k = CPU_VENDOR /\ k_pcie k = [] /\ idt_wf (k_idt k);
  bs_registers : 0 <= regs (k_processor k) CS < 2 ^ 16 /\ 0 <= regs (k_processor k) RFLAGS;
  bs_vendor : vendor_of (cpuid 0 0) <> Invalid;
  bs_cpu : cpu_supports (k_cpu k) /\ is_usize (ia32_pat (k_cpu k));
  bs_memory : boot_ok hhdm h mem_map p e;
  bs_nodes : enough_nodes p;
  bs_end : p * BASIC_PAGE_SIZE + hhdm <= usize_MAX;
  bs_no_framebuffer : fb = true -> Forall (fun e => entry_type e <> FRAMEBUFFER) mem_map;
  bs_ranges : Forall r_ok (boot_ranges hhdm mem_map kv kp e);
  bs_disjoint : ForallOrdPairs r_disjoint (boot_ranges hhdm mem_map kv kp e);
  bs_room : room_for hhdm mem_map (boot_ranges hhdm mem_map kv kp e) room;
  bs_pages : (S (tables_of (boot_ranges hhdm mem_map kv kp e) + 4 * room) <=
    length (usable_pages mem_map) - Z.to_nat (buffer_pages p))%nat;
}.

Lemma framebuffer_start_ok r old : (fb = true -> exists f fs, framebuffers r = Some (f :: fs)) ->
  exists f, framebuffer_start fb r old = Done f.
Proof.
  intros Hf. unfold framebuffer_start. destruct fb; [| by exists old]. destruct (Hf eq_refl) as (f & fs & ->).
  by eexists.
Qed.

Lemma early_boot_ok (k : Kernel W) : symbols_ok y -> k_vendor k = CPU_VENDOR -> idt_wf (k_idt k) -> 0 <= regs (k_processor k) CS < 2 ^ 16 ->
  0 <= regs (k_processor k) RFLAGS -> vendor_of (cpuid 0 0) <> Invalid ->
  exists c idt, early_boot_init y cpuid (k_processor k) (k_idt k) (k_vendor k) =
      Done (c, idt, FastLazyStatic_new (vendor_of (cpuid 0 0))) /\
    idt_ready idt /\ handlers_installed y (regs (k_processor k) CS) c idt /\ load (at_ Rflags "if_enable") (regs c RFLAGS) = 1.
Proof.
  intros Hy Hv Hw Hcs Hfl Hn. unfold early_boot_init.
  destruct (Idt_init_ok y (k_processor k) (k_idt k) Hy Hw Hcs Hfl) as (c & idt & -> & Hr & Hh & Hif & _). rewrite bind_Done, Hv.
  rewrite find_cpu_vendor_ok, bool_decide_false, bind_Done by done. by exists c, idt.
Qed.

(** The memory of the kernel: the buddy allocator below the page tables below
    the page service. *)
Lemma boot_memory_ok r (k : Kernel W) hhdm mem_map kv kp p e room : boots r k hhdm mem_map kv kp p e room ->
  exists g cpu, boot_paging hhdm fb fr (init_from_limine hhdm h mem_map) (k_cpu k) mem_map kv kp = Done (g, cpu) /\
    paging_inv hhdm (top_pml cpu) g [] room.
Proof.
  intros Hb. destruct (buddy_init_ready _ _ _ _ _ (bs_memory _ _ _ _ _ _ _ _ _ Hb) (bs_nodes _ _ _ _ _ _ _ _ _ Hb))
    as (b & Eb & Hready & Hbnd & Hfree).
  pose proof (bs_room _ _ _ _ _ _ _ _ _ Hb) as Hroom. pose proof (bs_pages _ _ _ _ _ _ _ _ _ Hb) as Hpg.
  destruct (boot_paging_ok hhdm fb (mkPtState fr b) (k_cpu k) mem_map kv kp e room) as (g & c' & E & Hi).
  - split; [done | | apply Hb | apply Hb |]; cbn [pmm].
    + intros a Ha. apply Hbnd in Ha. pose proof (bs_end _ _ _ _ _ _ _ _ _ Hb). pose proof (rf_span _ _ _ _ Hroom). lia.
    + eapply free_pages_le; [| exact Hfree]. lia.
  - apply Hb.
  - apply Hb.
  - apply Hb.
  - done.
  - cbn [pmm]. eapply free_pages_le; [| exact Hfree]. lia.
  - cbn [frames pmm] in E. rewrite <- Eb in E. by exists g, c'.
Qed.

(** The state in which the ACPI tables are walked. *)
Definition mapped (k : Kernel W) (g : Paging BuddyAllocator) : AcpiState W BuddyAllocator :=
  mkAcpiState (mkApics (k_ioapics k) (k_lapics k) (k_lapic_cpu k) g) (k_hpet k) (k_pcie k).

(** C10: on a machine that has what [boots] says, [kmain] comes to its halt: the
    handlers of all exceptions are loaded, with interrupts enabled; the buddy
    allocator built from the memory map serves the page tables; and then it does
    what the ACPI tables ask for, on the page service that they leave in order,
    with [j] pages to allocate.  It stops before that only where the
    initialisation of a device does, or at a wrong checksum. *)
Theorem kmain_starts r (k : Kernel W) hhdm mem_map kv kp p e rsdp_addr rsdp xsdt_addr header ts j :
  boots r k hhdm mem_map kv kp p e (2 + tables_pages ts + j) -> rsdp_address r = Some rsdp_addr ->
  rsdp_placed phys rsdp_addr rsdp xsdt_addr -> placed phys xsdt_addr (xsdt_bytes header ts) -> length header = 36%nat ->
  Forall (table_ok phys) ts -> Forall (fun t => content_entries (t_content t) < n)%nat ts ->
  exists c idt f g cpu,
    kmain fb y cpuid phys cfg fr h n r k = Some (
      '(x, st) ← do_init hhdm (top_pml cpu) cfg rsdp_addr xsdt_addr rsdp (xsdt_bytes header ts) ts (mapped k g);
      _ ← unwrap_ok x;
      Done (running (mkKernel c idt (FastLazyStatic_new (vendor_of (cpuid 0 0))) (FastLazyStatic_new hhdm) f cpu
                       (k_ioapics k) (k_lapics k) (k_lapic_cpu k) (k_hpet k) (k_pcie k)) st)) /\
    handlers_installed y (regs (k_processor k) CS) c idt /\ load (at_ Rflags "if_enable") (regs c RFLAGS) = 1 /\
    paging_inv hhdm (top_pml cpu) g [] (2 + tables_pages ts + j) /\
    (forall k' g', kmain fb y cpuid phys cfg fr h n r k = Some (Done (k', g')) ->
       exists ms, pcie_repr hhdm (top_pml (k_cpu k')) (mkPcieManager (k_pcie k') g') [] ms j).
Proof.
  intros Hb Er Hrsdp Hx Hl Hts Hn. destruct (framebuffer_start_ok r (k_framebuffer k) (bs_framebuffer _ _ _ _ _ _ _ _ _ Hb)) as [f Ef].
  pose proof Hb as [Hrev _ Eh Em Ek Hy (Hv & Hp & Hidt) [Hcs Hfl] Hven _ _ _ _ _ _ _ _ _].
  destruct (early_boot_ok k Hy Hv Hidt Hcs Hfl Hven) as (c & idt & Ee & _ & Hh & Hif).
  destruct (boot_memory_ok _ _ _ _ _ _ _ _ _ Hb) as (g & cpu & Eg & Hi).
  assert (walk_inv hhdm (top_pml cpu) (mapped k g) [] [] (2 + tables_pages ts + j)) as Hwi.
  { split; cbn; rewrite ?Hp; [done | done | by apply NoDup_nil | by intros i ph []%not_elem_of_nil]. }
  destruct (acpi_init_ok hhdm (top_pml cpu) phys cfg n (mapped k g) rsdp_addr rsdp xsdt_addr header ts [] [] j
    Hrsdp Hx Hl Hts Hn Hwi) as [Ea Hk]. cbn zeta in Ea.
  assert (kmain fb y cpuid phys cfg fr h n r k = Some (
      '(x, st) ← do_init hhdm (top_pml cpu) cfg rsdp_addr xsdt_addr rsdp (xsdt_bytes header ts) ts (mapped k g);
      _ ← unwrap_ok x;
      Done (running (mkKernel c idt (FastLazyStatic_new (vendor_of (cpuid 0 0))) (FastLazyStatic_new hhdm) f cpu
                       (k_ioapics k) (k_lapics k) (k_lapic_cpu k) (k_hpet k) (k_pcie k)) st))) as E.
  { unfold kmain. rewrite Hrev, Ef, Eh, Em, Ek, Er. cbn [assert_ unwrap]. rewrite Ee.
    cbn [FastLazyStatic_get FastLazyStatic_set fls_data]. rewrite Eg. fold (mapped k g). rewrite Ea.
    destruct (do_init _ _ _ _ _ _ _ _ _) as [[[[] | er] st] | pn]; done. }
  exists c, idt, f, g, cpu. split_and!; try done. intros k' g'. rewrite E. intros [= Ed].
  destruct (do_init _ _ _ _ _ _ _ _ _) as [[[[] | er] st] | pn]; [| done | done].
  destruct (Hk st eq_refl) as [ms Hms]. injection Ed as <- <-. by exists ms.
Qed.
End boot.

(** ** Witness: a machine with 32MB of usable memory *)
#[local] Existing Instance machine_mmio64.
#[local] Existing Instance machine_ports.
#[local] Existing Instance plain_bitfields.
#[local] Existing Instance plain_bitfield_laws.

Definition ex_free : MemEntry := mkMemEntry 0x400000 0x2000000 USABLE.
Definition ex_mem_map : list MemEntry :=
  [mkMemEntry 0x1000 0x4000 ACPI_RECLAIMABLE; mkMemEntry 0x200000 0x200000 EXECUTABLE_AND_MODULES; ex_free].
Definition ex_responses : Responses :=
  mkResponses true None (Some ex_boot_hhdm) (Some ex_mem_map) (Some (ex_kernel_virt, 0x200000)) (Some 0x1000).
Definition ex_kernel : Kernel Machine :=
  mkKernel (mkProcessor (fun r => match r with CS => 0x28 | _ => 2 end) (mkTablePtr 0 0) (mkTablePtr 0 0)) IDT_new CPU_VENDOR
    (FastLazyStatic_new 0) FRAMEBUFFER_WRITER ex_cpu ex_ioapics [] (mkApicCpu 0 (mkMsrData 0 0)) None [].
Definition ex_symbols : Symbols := mkSymbols ex_stubs 0xffffffff80002000 0xffffffff80010000.
Definition ex_cpuid (leaf sub : Z) : CpuidResult := mkCpuid 0 0x68747541 0x444d4163 0x69746e65.
Definition ex_nodes : heap PhysAddr := raw_nodes (freelist_start (0x400000 + ex_boot_hhdm) (ilog2 9216 + 1)) buckets_count.

Lemma ex_kranges : boot_ranges ex_boot_hhdm ex_mem_map ex_kernel_virt 0x200000 ex_free =
  [mkRange 0xffff800000400000 0x400000 0x2000000; mkRange 0xffff800000001000 0x1000 0x4000; mkRange ex_kernel_virt 0x200000 0x200000].
Proof. done. Qed.

Lemma ex_boot_ok : boot_ok ex_boot_hhdm ex_nodes ex_mem_map 9216 ex_free.
Proof.
  split.
  - by vm_compute.
  - lia.
  - vm_compute. lia.
  - split; [| repeat constructor; intros x [? ?] [? ?]; done]. repeat constructor; cbn; try (intros; vm_compute); try done;
      [by exists 1 | by exists 4 | by exists 512 | by exists 512 | by exists 1024 | by exists 8192].
  - by vm_compute.
  - by vm_compute.
  - apply raw_nodes_mapped.
  - apply Nat.leb_le. by vm_compute.
Qed.

Definition ex_room : nat := 2 + tables_pages ex_tables + 0.

Lemma ex_room_for : room_for ex_boot_hhdm ex_mem_map (boot_ranges ex_boot_hhdm ex_mem_map ex_kernel_virt 0x200000 ex_free) ex_room.
Proof.
  rewrite ex_kranges. split.
  - intros r Hr. repeat apply elem_of_cons in Hr as [-> | Hr]; [by vm_compute .. |]. by apply not_elem_of_nil in Hr.
  - exists ex_free. split_and!; [done | by exists 9216 | by vm_compute | by vm_compute].
  - by vm_compute.
Qed.

Lemma ex_boots : boots false ex_symbols ex_cpuid ex_nodes ex_responses ex_kernel ex_boot_hhdm ex_mem_map ex_kernel_virt 0x200000
  9216 ex_free ex_room.
Proof.
  split; try done.
  - split; [exact ex_stubs_ok | cbn; lia].
  - split_and!; [done | done | exact idt_new_wf].
  - exact ex_boot_ok.
  - apply Nat.leb_le. by vm_compute.
  - rewrite ex_kranges. unfold ex_kernel_virt. repeat (apply Forall_cons_2; [range_okay |]). done.
  - rewrite ex_kranges. assert (low48 0xffff800000400000 = 0x800000400000) as E1 by done.
    assert (low48 0xffff800000001000 = 0x800000001000) as E2 by done. assert (low48 ex_kernel_virt = 0xffff80000000) as E3 by done.
    repeat constructor; intros va [H1 H2]; unfold r_in, in_range in *; cbn [r_virt r_size] in *; rewrite ?E1, ?E2, ?E3 in *; lia.
  - exact ex_room_for.
  - apply Nat.leb_le. by vm_compute.
Qed.

Lemma kmain_starts_witness : exists c idt f g cpu,
  kmain false ex_symbols ex_cpuid ex_phys ex_cfg ∅ ex_nodes 3 ex_responses ex_kernel = Some (
    '(x, st) ← do_init ex_boot_hhdm (top_pml cpu) ex_cfg 0x1000 0x2000 ex_rsdp ex_xsdt ex_tables (mapped ex_kernel g);
    _ ← unwrap_ok x;
    Done (running (mkKernel c idt (FastLazyStatic_new Amd) (FastLazyStatic_new ex_boot_hhdm) f cpu
                     ex_ioapics [] (mkApicCpu 0 (mkMsrData 0 0)) None []) st)) /\
  handlers_installed ex_symbols 0x28 c idt /\ paging_inv ex_boot_hhdm (top_pml cpu) g [] ex_room.
Proof.
  destruct (kmain_starts false ex_symbols ex_cpuid ex_phys ex_cfg ∅ ex_nodes 3 ex_responses ex_kernel ex_boot_hhdm ex_mem_map
    ex_kernel_virt 0x200000 9216 ex_free 0x1000 ex_rsdp 0x2000 ex_xsdt_header ex_tables 0 ex_boots eq_refl)
    as (c & idt & f & g & cpu & E & Hh & _ & Hi & _).
  - split; [by apply (ex_holds 0) | by apply bytes_ok | done | by vm_compute | by vm_compute | by vm_compute].
  - apply (ex_placed 1); solve [by vm_compute | apply (bool_decide_unpack _); by vm_compute].
  - done.
  - exact ex_tables_ok.
  - apply (bool_decide_unpack _). by vm_compute.
  - exists c, idt, f, g, cpu. split; [exact E |]. split; [exact Hh | exact Hi].
Defined.
