(* ===== verification/Events.v ===== *)
(** * Interrupt handlers and the measurement of the local APIC timer

    Models kernel/src/arch/x86_64/event.rs, [LocalApic::get_this_apic_id] of
    apic/lapic.rs, and [ApicTimer::new] of drivers/src/timer/apic.rs, which
    measures the frequency of the timer against the HPET. *)

From Stdlib Require Import String.
From S2P Require Import Prelude Ids Bitfield IoApic Idt Hpet PageTable Paging Lapic Registers.

(** ** Exceptions *)
Definition EXCEPTION_MESSAGES : list string := [
  "Divide-by-zero Error"; "Debug"; "Non-maskable Interrupt"; "Breakpoint"; "Overflow"; "Bound Range Exceeded";
  "Invalid Opcode"; "Device Not Available"; "Double Fault"; "Coprocessor Segment Overrun"; "Invalid TSS";
  "Segment Not Present"; "Stack-Segment Fault"; "General Protection Fault"; "Page Fault"; "Unknown";
  "x87 Floating-Point Exception"; "Alignment Check"; "Machine Check"; "SIMD Floating-Point Exception";
  "Virtualization Exception"; "Unknown"; "Unknown"; "Unknown"; "Unknown"; "Unknown"; "Unknown"; "Unknown"; "Unknown";
  "Unknown"; "Security Exception"; "Unknown"]%string.

(** What the handler of an exception panics with: its message, and the address
    for a page fault. *)
Definition exception_isr (c : Processor) (vec : nat) : res (string * option Z) :=
  message ← index EXCEPTION_MESSAGES vec;
  Done (message, if Nat.eqb vec 14 then Some (cr2_addr (read c)) else None).

(** ** Interrupts *)
Definition get_this_apic_id (cpuid : Z -> Z -> CpuidResult) : Z := Z.land (Z.shiftr (cpuid_ebx (cpuid 1 0)) 24) 0xff.

Definition generic_irq_isr {W} `{Mmio32 W} (cpuid : Z -> Z -> CpuidResult) (lapics : list LocalApic) (w : W) : res W :=
  lapic ← get_apic lapics (get_this_apic_id cpuid);
  Done (signal_eoi w lapic).

(** ** The frequency of the local APIC timer *)
Section measure.
Context {W : Type} `{Mmio32 W} `{Mmio64 W} `{Bitfields}.
(** Time passes from one round of a spin loop to the next: [tick]. *)
Variables (tick : W -> W) (cpuid : Z -> Z -> CpuidResult).

(** The polling loop, at most [fuel] rounds of it. *)
Fixpoint poll (fuel : nat) (apic : LocalApic) (t : HpetTimer) (ticks : Z) (w : W) : option (res W) :=
  match fuel with
  | O => None
  | S fuel =>
      let w := tick w in
      if ticks <=? read_main_counter w t then
        Some (w ← set_timer_disabled w apic true; HpetTimer_set_disabled w t true)
      else poll fuel apic t ticks w
  end.

(** Durations are in nanoseconds. *)
Definition MEASURED : Z := 1000 * 1000000.
Definition NOT_IN_THE_WAY : Z := 5000 * 1000000000.

Definition with_w (s : Timers W) (w : W) : Timers W := with_irqs s (with_world (irqs s) w).

Definition find_base_frequency (fuel : nat) (s : Timers W) (lapics : list LocalApic) (cs generic_stub apic_id : Z)
    : option (res (Z * Timers W)) :=
  let r := cpuid 0x15 0 in
  if negb (cpuid_ecx r =? 0) && negb (cpuid_ebx r =? 0) then Some (Done (cpuid_ecx r, s))
  else
    let* (r, h) := Some (HpetTimer_new (world (irqs s)) (t_hpet s)) in
    let* hpet_timer := Some (unwrap_ok r) in
    let s := mkTimers (irqs s) (t_idt s) h in
    let* ticks := Some (time_to_cycles (t_hpet s) MEASURED) in
    let* apic := Some (get_apic lapics apic_id) in
    let w := set_timer_divider_config (world (irqs s)) apic Div1 in
    let* w := Some (config_timer w apic u32_MAX ApicOneShot) in
    let* (r, s) := Some (HpetTimer_configure (with_w s w) cs hpet_timer NOT_IN_THE_WAY OneShot
                           (mkAdditionalConfig false (HpetInterrupt generic_stub Hpet.EdgeTriggered))) in
    let* _ := Some (unwrap_ok r) in
    let* w := Some (set_timer_disabled (world (irqs s)) apic false) in
    let* w := poll fuel apic hpet_timer ticks w in
    let* ticks_delta := Some (u32_sub u32_MAX (read_current_timer_count w apic)) in
    Some (Done (ticks_delta / 1000000, with_w s w)).

Definition ApicTimer_new (fuel : nat) (s : Timers W) (lapics : list LocalApic) (cs generic_stub : Z)
    : option (res (ApicTimer * Timers W)) :=
  let apic_id := get_this_apic_id cpuid in
  let* (base_frequency, s) := find_base_frequency fuel s lapics cs generic_stub apic_id in
  let tsc_deadline_supported := Z.land (Z.shiftr (cpuid_ecx (cpuid 1 0)) 24) 1 =? 1 in
  Some (Done (mkApicTimer base_frequency tsc_deadline_supported apic_id, s)).
End measure.
