(* ===== verification/EventsTheorems.v ===== *)
(** * Theorems on the interrupt handlers and the timer measurement *)

From S2P Require Import Prelude Ids Bitfield IoApic Idt Hpet PageTable Paging Lapic Registers Events.

(** Every vector of an exception has a message. *)
Lemma exception_isr_total c vec : (vec < 32)%nat -> exists message addr, exception_isr c vec = Done (message, addr) /\
  (addr = Some (regs c CR2) <-> vec = 14%nat).
Proof.
  intros Hv. unfold exception_isr. destruct (lookup_lt_is_Some_2 EXCEPTION_MESSAGES vec) as [m Em]; [exact Hv |].
  rewrite (proj2 (index_Done _ _ _) Em), bind_Done. exists m. destruct (Nat.eqb_spec vec 14); eexists; split; [done | done | done |].
  by split.
Qed.

(** The generic handler acknowledges the interrupt at the local APIC of the
    processor it runs on, and does nothing else. *)
Lemma generic_irq_isr_ok {W} `{Mmio32 W} cpuid lapics a (w : W) : List.find (fun a => lapic_id a =? get_this_apic_id cpuid) lapics = Some a ->
  generic_irq_isr cpuid lapics w = Done (mmio_write w (lapic_area a + EndOfInterrupt) 0).
Proof. intros E. unfold generic_irq_isr, get_apic. by rewrite E. Qed.

(** ** The polling loop *)
Section poll.
Context {W : Type} `{Mmio32 W} `{Mmio64 W} `{Bitfields}.
Variables (tick : W -> W) (apic : LocalApic) (t : HpetTimer) (ticks : Z).
Implicit Types (w : W).

(** Both timers stopped. *)
Definition stop w : res W := w ← set_timer_disabled w apic true; HpetTimer_set_disabled w t true.

Abbreviation counter := (fun w => read_main_counter w t).

(** When the counter advances in every round, the loop ends at the first round
    in which it has reached [ticks]. *)
Lemma poll_ends fuel : (forall w, counter w <= ticks -> counter w < counter (tick w)) -> forall w,
  counter w <= ticks -> (Z.to_nat (ticks - counter w) < fuel)%nat ->
  exists k, poll tick fuel apic t ticks w = Some (stop (Nat.iter (S k) tick w)) /\
    ticks <= counter (Nat.iter (S k) tick w) /\ (forall i, (0 < i <= k)%nat -> counter (Nat.iter i tick w) < ticks).
Proof.
  intros Hadv. induction fuel as [| fuel IH]; intros w Hw Hf; [lia |]. cbn [poll].
  destruct (Z.leb_spec ticks (read_main_counter (tick w) t)) as [Hle | Hlt].
  - exists 0%nat. split_and!; [done | exact Hle | lia].
  - pose proof (Hadv w Hw) as Ha. cbn beta in *.
    destruct (IH (tick w) ltac:(lia) ltac:(lia)) as (k & E & Hk & Hi). exists (S k).
    assert (forall j, Nat.iter j tick (tick w) = Nat.iter (S j) tick w) as Hit by (intros j; by rewrite Nat.iter_succ_r).
    rewrite E, Hit in *. split_and!; [done | exact Hk |]. intros i [Hi0 Hik]. destruct i as [| i]; [lia |].
    destruct i as [| i]; [exact Hlt |]. rewrite <- Hit. apply Hi. lia.
Qed.

(** The counter is not reset before: when it is past [ticks] already, which it
    is one second after the HPET was started, the loop measures one round. *)
Lemma poll_late fuel w : ticks <= counter (tick w) -> poll tick (S fuel) apic t ticks w = Some (stop (tick w)).
Proof. intros Hl. cbn [poll]. by rewrite (proj2 (Z.leb_le _ _) Hl). Qed.
End poll.

(** ** The frequency that CPUID reports *)
Section cpuid.
Context {W : Type} `{Mmio32 W} `{Mmio64 W} `{Bitfields}.
Variables (tick : W -> W) (cpuid : Z -> Z -> CpuidResult).

Lemma this_apic_id : 0 <= cpuid_ebx (cpuid 1 0) < 2 ^ 32 -> get_this_apic_id cpuid = cpuid_ebx (cpuid 1 0) / 2 ^ 24.
Proof.
  intros Hb. unfold get_this_apic_id. change 0xff with (Z.ones 8). rewrite Z.land_ones, Z.shiftr_div_pow2 by lia.
  apply Z.mod_small. split; [apply Z.div_pos; lia | apply Z.div_lt_upper_bound; lia].
Qed.

Lemma tsc_bit x : (Z.land (Z.shiftr x 24) 1 =? 1) = Z.testbit x 24.
Proof.
  change 1 with (Z.ones 1) at 1. rewrite Z.land_ones by lia. change (2 ^ 1) with 2. rewrite <- Z.bit0_mod, Z.shiftr_spec by lia.
  change (0 + 24) with 24. by destruct (Z.testbit x 24).
Qed.

(** The modes that [configure] refuses. *)
Definition unsupported (mode : LapicTimerMode) : bool :=
  match mode with ApicReserved => true | ApicTsc => negb (Z.testbit (cpuid_ecx (cpuid 1 0)) 24) | _ => false end.

(** C28: leaf 0x15 of CPUID reports the frequency in Hz and the driver takes it
    for MHz.  On a processor that reports one, creating the timer succeeds
    without a measurement, with that number, the APIC id in bits 24 to 31 of
    EBX of leaf 1, and the TSC deadline mode if bit 24 of ECX of leaf 1 is set.
    Configuring that timer then answers [UnsupportedTimerMode] for the reserved
    mode, and for the TSC deadline mode without support; and in every other
    mode it overflows, whatever the duration, if the frequency is 4295 Hz or
    more, as that of every crystal is. *)
Theorem cpuid_timer_unusable fuel (s : Timers W) lapics cs stub :
  cpuid_ecx (cpuid 0x15 0) <> 0 -> cpuid_ebx (cpuid 0x15 0) <> 0 -> 0 <= cpuid_ebx (cpuid 1 0) < 2 ^ 32 ->
  exists t, ApicTimer_new tick cpuid fuel s lapics cs stub = Some (Done (t, s)) /\
    base_frequency t = cpuid_ecx (cpuid 0x15 0) /\ at_apic_id t = cpuid_ebx (cpuid 1 0) / 2 ^ 24 /\
    tsc_deadline_supported t = Z.testbit (cpuid_ecx (cpuid 1 0)) 24 /\
    forall w micros mode,
      (unsupported mode = true -> ApicTimer_configure w lapics t micros mode = Done (Err UnsupportedTimerMode, w)) /\
      (unsupported mode = false -> 4295 <= cpuid_ecx (cpuid 0x15 0) ->
         ApicTimer_configure w lapics t micros mode = Panic Overflow).
Proof.
  intros Hc Hb Hid. unfold ApicTimer_new, find_base_frequency. cbn zeta.
  rewrite (proj2 (Z.eqb_neq (cpuid_ecx _) 0)), (proj2 (Z.eqb_neq (cpuid_ebx _) 0)) by done.
  cbn [negb andb]. eexists. split; [done |]. cbn [base_frequency at_apic_id tsc_deadline_supported]. rewrite tsc_bit, this_apic_id by done.
  split_and!; [done .. |]. intros w micros mode. unfold ApicTimer_configure, time_to_ticks, unsupported.
  cbn [base_frequency tsc_deadline_supported]. split; [by intros -> | intros -> Hf].
  unfold u32_mul. by rewrite (proj2 (Z.leb_gt _ _)) by (unfold u32_MAX; lia).
Qed.
End cpuid.

#[local] Instance silent_mmio32 : Mmio32 unit := {| mmio_read _ _ := 0; mmio_write w _ _ := w |}.
#[local] Instance silent_mmio64 : Mmio64 unit := {| mmio_read64 _ _ := 0; mmio_write64 w _ _ := w |}.
#[local] Existing Instance plain_bitfields.

(** A crystal of 24 MHz, on the processor with APIC id 3. *)
Definition ex_crystal (leaf sub : Z) : CpuidResult :=
  if leaf =? 0x15 then mkCpuid 2 168 24000000 0 else mkCpuid 0 0x03000800 0x01000000 0.
Definition ex_timers : Timers unit := mkTimers (mkIoApics () [] [] IdTracker_uninit) [] (mkHpet 0 0 0 IdTracker_uninit Legacy false).

Lemma cpuid_timer_unusable_witness : exists t, ApicTimer_new (fun w => w) ex_crystal 1 ex_timers [mkLocalApic 0x1000 3 0] 8 0 =
    Some (Done (t, ex_timers)) /\ at_apic_id t = 3 /\
  ApicTimer_configure () [mkLocalApic 0x1000 3 0] t 1000 ApicPeriodic = Panic Overflow /\
  ApicTimer_configure () [mkLocalApic 0x1000 3 0] t 1000 ApicTsc = Panic Overflow /\
  ApicTimer_configure () [mkLocalApic 0x1000 3 0] t 1000 ApicReserved = Done (Err UnsupportedTimerMode, ()).
Proof.
  assert (4295 <= cpuid_ecx (ex_crystal 0x15 0)) as Hf by (apply Z.leb_le; by vm_compute).
  destruct (cpuid_timer_unusable (fun w => w) ex_crystal 1 ex_timers [mkLocalApic 0x1000 3 0] 8 0) as (t & E & _ & Hid & _ & Hc).
  - by vm_compute.
  - by vm_compute.
  - split; vm_compute; [discriminate | reflexivity].
  - exists t. split; [exact E |]. split; [exact Hid |].
    split; [exact (proj2 (Hc () 1000 ApicPeriodic) eq_refl Hf) |]. split; [exact (proj2 (Hc () 1000 ApicTsc) eq_refl Hf) |].
    exact (proj1 (Hc () 1000 ApicReserved) eq_refl).
Defined.
