(* ===== verification/LegacyTimers.v ===== *)
(** * The legacy timers and the CMOS memory

    Models drivers/src/timer/pit.rs, drivers/src/clock/rtc.rs and
    drivers/src/cmos.rs, which are kept in the repository but are not part of
    the build.  The closure runner [do_inside_interrupts_disabled_window] that
    they call does not exist in the repository and is a parameter. *)

From S2P Require Import Prelude Bitfield IoApic Idt Hpet Logger.

(** ** CMOS *)
Inductive CmosIndex :=
  | Seconds | Minutes | Hours | DayOfWeek | DayOfMonth | Month | Year | Century | StatusA | StatusB | StatusC | FloppyDiskDrive.
Definition CmosIndex_repr (i : CmosIndex) : Z :=
  match i with
  | Seconds => 0x00 | Minutes => 0x02 | Hours => 0x04 | DayOfWeek => 0x06 | DayOfMonth => 0x07 | Month => 0x08
  | Year => 0x09 | Century => 0x32 | StatusA => 0x0a | StatusB => 0x0b | StatusC => 0x0c | FloppyDiskDrive => 0x10
  end.

Inductive NmiStatus := NmiEnabled | NmiDisabled.
Definition NmiStatus_repr (n : NmiStatus) : Z := match n with NmiEnabled => 0x80 | NmiDisabled => 0x00 end.

Inductive CmosPort := CmosRead | CmosWrite.
Definition CmosPort_repr (p : CmosPort) : Z := match p with CmosRead => 0x70 | CmosWrite => 0x71 end.

Section cmos.
Context {W : Type} `{Ports W}.
Variable window : forall A : Type, (W -> A * W) -> W -> A * W.

Definition read_cmos (index : CmosIndex) (nmi_status : NmiStatus) (w : W) : Z * W :=
  window _ (fun w =>
    let w := port_out w (CmosPort_repr CmosRead) (Z.lor (CmosIndex_repr index) (NmiStatus_repr nmi_status)) in
    port_in w (CmosPort_repr CmosWrite)) w.

Definition write_cmos (index : CmosIndex) (value : Z) (nmi_status : NmiStatus) (w : W) : unit * W :=
  window _ (fun w =>
    let w := port_out w (CmosPort_repr CmosRead) (Z.lor (CmosIndex_repr index) (NmiStatus_repr nmi_status)) in
    ((), port_out w (CmosPort_repr CmosWrite) value)) w.

(** ** The real time clock *)
Definition change_rate (rate : Z) (nmi_status : NmiStatus) (w : W) : res W :=
  _ ← assert_ ((2 <? rate) && (rate <? 15));
  Done (snd (window _ (fun w =>
    let '(status_a, w) := read_cmos StatusA nmi_status w in
    write_cmos StatusA (Z.lor (Z.land status_a 0xf0) rate) nmi_status w) w)).

Definition rate_to_frequency (rate : Z) : res Z :=
  _ ← assert_ ((2 <? rate) && (rate <? 15));
  Done (Z.shiftr 32768 (rate - 1)).

Context `{Mmio32 W} `{Bitfields}.

Definition Rtc_set_disabled (s : IoApics W) (status : bool) : res (IoApics W) :=
  '(r, s) ← set_disabled s RTC_IRQ status;
  _ ← unwrap_ok r;
  Done s.

Definition new_periodic_interrupts (nmi_status : NmiStatus) (s : IoApics W) : res (IoApics W) :=
  s ← override_irq s RTC_IRQ RTC_IRQ 0 None;
  s ← Rtc_set_disabled s false;
  Done (with_world s (snd (window _ (fun w =>
    let '(status_b, w) := read_cmos StatusB nmi_status w in
    write_cmos StatusB (Z.lor status_b 0x40) nmi_status w) (world s)))).
End cmos.

(** ** The programmable interval timer *)
Inductive Channel := Channel0 | Channel1 | Channel2 | ReadBack.
Definition Channel_repr (c : Channel) : Z := match c with Channel0 => 0 | Channel1 => 1 | Channel2 => 2 | ReadBack => 3 end.

Inductive AccessMode := Latch | LowByte | HighByte | LowAndHighByte.
Definition AccessMode_repr (a : AccessMode) : Z := match a with Latch => 0 | LowByte => 1 | HighByte => 2 | LowAndHighByte => 3 end.

Inductive OperatingMode :=
  | InterruptOnTerminalCount | HardwareRetriggerableOneShot | RateGenerator | SquareWaveGenerator
  | SoftwareTriggeredStrobe | HardwareTriggeredStrobe | RateGenerator2 | SquareWaveGenerator2.
Definition OperatingMode_repr (m : OperatingMode) : Z :=
  match m with
  | InterruptOnTerminalCount => 0 | HardwareRetriggerableOneShot => 1 | RateGenerator => 2 | SquareWaveGenerator => 3
  | SoftwareTriggeredStrobe => 4 | HardwareTriggeredStrobe => 5 | RateGenerator2 => 6 | SquareWaveGenerator2 => 7
  end.

Inductive ChannelPort := Port0 | Port1 | Port2 | PortCommand.
Definition ChannelPort_repr (p : ChannelPort) : Z := match p with Port0 => 0x40 | Port1 => 0x41 | Port2 => 0x42 | PortCommand => 0x43 end.

Section pit.
Context {W : Type} `{Ports W} `{Mmio32 W} `{Bitfields}.

(** [Command::new()] with its four fields, from the lowest bits on. *)
Definition pit_command (channel : Channel) (access_mode : AccessMode) (operating_mode : OperatingMode) (bcd : bool) : res Z :=
  c ← bf_set 0 2 0 (Channel_repr channel);
  c ← bf_set 2 2 c (AccessMode_repr access_mode);
  c ← bf_set 4 3 c (OperatingMode_repr operating_mode);
  bf_set 7 1 c (Z.b2z bcd).

Definition BASE_FREQUENCY : Z := 1193182.

(** [micros] is [period.as_micros()], of which the low 32 bits are used. *)
Definition pit_time_to_cycles (micros : Z) (operating_mode : OperatingMode) : res (result Z TimerError) :=
  let repeats := match operating_mode with
                 | RateGenerator | SquareWaveGenerator | RateGenerator2 | SquareWaveGenerator2 => true
                 | _ => false
                 end in
  if repeats && (micros =? 0) then Done (Err InvalidTimePeriod)
  else if micros mod 2 ^ 32 =? 0 then Panic DivByZero
  else Done (Ok ((BASE_FREQUENCY / (micros mod 2 ^ 32)) mod 2 ^ 16)).

Definition pit_write (w : W) (command divisor : Z) : W :=
  let w := port_out w (ChannelPort_repr PortCommand) command in
  let w := port_out w (ChannelPort_repr Port0) (Z.land divisor 0xff) in
  port_out w (ChannelPort_repr Port0) (Z.land (Z.shiftr divisor 8) 0xff).

Definition Pit_configure (s : IoApics W) (idt : Idt) (cs isr_stub micros : Z) (operating_mode : OperatingMode)
    : res (result Z TimerError * IoApics W * Idt) :=
  '(s, idt) ← register_irq s idt cs PIT_IRQ isr_stub;
  command ← pit_command Channel0 LowAndHighByte operating_mode false;
  cycles ← pit_time_to_cycles micros operating_mode;
  match cycles with
  | Err e => Done (Err e, s, idt)
  | Ok cycles => Done (Ok cycles, with_world s (pit_write (world s) command cycles), idt)
  end.

Definition Pit_set_disabled (s : IoApics W) (status : bool) : res (IoApics W) :=
  '(r, s) ← set_disabled s PIT_IRQ status;
  _ ← unwrap_ok r;
  Done s.

(** [custom_unlock], which runs when the lock of the timer is released. *)
Definition Pit_custom_unlock (s : IoApics W) : res (IoApics W) := Pit_set_disabled s true.
End pit.
