(* ===== verification/LegacyTimersTheorems.v ===== *)
(** * Theorems on the legacy timers *)

From stdpp Require Import functions.
From S2P Require Import Prelude Bitfield IoApic IoApicCorrect Idt IrqTheorems Hpet Logger LegacyTimers.

(** ** The real time clock
    What the data sheet says of the CMOS memory: writing port 0x70 selects a
    register by its low seven bits, and port 0x71 reads and writes it. *)
Class CmosHw (W : Type) `{Ports W} := {
  cmos : W -> Z -> Z;
  selected : W -> Z;
  cmos_select w v : selected (port_out w 0x70 v) = Z.land v 0x7f /\ cmos (port_out w 0x70 v) = cmos w;
  cmos_in w : fst (port_in w 0x71) = cmos w (selected w) /\ cmos (snd (port_in w 0x71)) = cmos w;
  cmos_out w v i : cmos (port_out w 0x71 v) i = if i =? selected w then v else cmos w i;
}.

Section rtc.
Context {W : Type} `{CmosHw W}.
Variable window : forall A : Type, (W -> A * W) -> W -> A * W.
(** The window runs its closure, and does nothing else to the memory. *)
Hypothesis window_runs : forall A (f : W -> A * W) w, window A f w = f w.

Lemma CmosIndex_low i n : Z.land (Z.lor (CmosIndex_repr i) (NmiStatus_repr n)) 0x7f = CmosIndex_repr i.
Proof. by destruct i, n. Qed.

Lemma read_cmos_ok i n w : fst (read_cmos window i n w) = cmos w (CmosIndex_repr i) /\ cmos (snd (read_cmos window i n w)) = cmos w.
Proof.
  unfold read_cmos. rewrite window_runs. cbn [CmosPort_repr]. destruct (cmos_in (port_out w 0x70 (Z.lor (CmosIndex_repr i) (NmiStatus_repr n)))) as [-> ->].
  destruct (cmos_select w (Z.lor (CmosIndex_repr i) (NmiStatus_repr n))) as [-> ->]. by rewrite CmosIndex_low.
Qed.

Lemma write_cmos_ok i v n w j : cmos (snd (write_cmos window i v n w)) j = if j =? CmosIndex_repr i then v else cmos w j.
Proof.
  unfold write_cmos. rewrite window_runs. cbn [CmosPort_repr snd]. rewrite cmos_out.
  destruct (cmos_select w (Z.lor (CmosIndex_repr i) (NmiStatus_repr n))) as [-> ->]. by rewrite CmosIndex_low.
Qed.

(** A new rate replaces the low half of status register A and nothing else. *)
Lemma change_rate_ok rate n w : 2 < rate < 15 -> exists w', change_rate window rate n w = Done w' /\
  forall j, cmos w' j = if j =? CmosIndex_repr StatusA then Z.lor (Z.land (cmos w j) 0xf0) rate else cmos w j.
Proof.
  intros Hr. unfold change_rate. rewrite (proj2 (Z.ltb_lt _ _)), (proj2 (Z.ltb_lt _ _)) by lia. cbn [andb assert_]. rewrite bind_Done.
  eexists. split; [done |]. intros j. rewrite window_runs.
  pose proof (read_cmos_ok StatusA n w) as [E1 E2]. destruct (read_cmos window StatusA n w) as [v w1]. cbn [fst snd] in E1, E2.
  rewrite write_cmos_ok, E1, E2. by destruct (Z.eqb_spec j (CmosIndex_repr StatusA)) as [-> |].
Qed.
End rtc.

(** A memory that keeps these laws. *)
#[local] Instance cmos_ports : Ports (Z * (Z -> Z)) := {|
  port_out w p v := if p =? 0x70 then (Z.land v 0x7f, snd w) else if p =? 0x71 then (fst w, <[fst w := v]> (snd w)) else w;
  port_in w p := (if p =? 0x71 then snd w (fst w) else 0xff, w) |}.

#[local] Instance cmos_hw : CmosHw (Z * (Z -> Z)).
Proof.
  refine {| cmos := snd; selected := fst |}; [done | done |]. intros w v i. cbn. destruct (Z.eqb_spec i (fst w)) as [-> | Hne].
  - by rewrite fn_lookup_insert.
  - by rewrite fn_lookup_insert_ne by congruence.
Defined.

Example change_rate_witness : exists w', change_rate (fun _ f w => f w) 6 NmiDisabled (0, fun _ => 0x2a) = Done w' /\ snd w' 0x0a = 0x26.
Proof.
  destruct (change_rate_ok (fun _ f w => f w) (fun _ _ _ => eq_refl) 6 NmiDisabled (0, fun _ => 0x2a) ltac:(lia)) as (w' & E & Hw).
  exists w'. split; [exact E |]. exact (Hw 0x0a).
Qed.

Lemma rate_to_frequency_ok rate : 2 < rate < 15 -> rate_to_frequency rate = Done (2 ^ (16 - rate)).
Proof.
  intros Hr. unfold rate_to_frequency. rewrite (proj2 (Z.ltb_lt _ _)), (proj2 (Z.ltb_lt _ _)) by lia. cbn [andb assert_]. rewrite bind_Done.
  f_equal. change 32768 with (2 ^ 15). rewrite Z.shiftr_div_pow2, <- Z.pow_sub_r by lia. f_equal. lia.
Qed.

(** ** The interval timer *)
#[local] Existing Instance plain_bitfields.

(** The processor's manual puts the channel in bits 6 and 7 of a command, the
    access mode in bits 4 and 5, the operating mode in bits 1 to 3; the
    structure has them from the other end.  The timer takes the command of the
    driver for one with a high byte only. *)
Example pit_command_reversed : exists c, pit_command Channel0 LowAndHighByte RateGenerator false = Done c /\
  bits_at 4 2 c = AccessMode_repr HighByte.
Proof. eexists. split; [by vm_compute | done]. Qed.

(** The divisor is a number of cycles, so a longer period needs a larger one;
    the driver divides by the period and gets a smaller one, 0 from 1.2 seconds
    on. *)
Lemma pit_cycles_antitone m micros1 micros2 c1 c2 : 18 < micros1 <= micros2 -> micros2 < 2 ^ 32 ->
  pit_time_to_cycles micros1 m = Done (Ok c1) -> pit_time_to_cycles micros2 m = Done (Ok c2) -> c2 <= c1.
Proof.
  intros Hm Hb. unfold pit_time_to_cycles. rewrite !(Z.mod_small _ (2 ^ 32)) by lia.
  rewrite !(proj2 (Z.eqb_neq _ 0)), andb_false_r by lia. intros [= <-] [= <-].
  assert (forall x, 18 < x -> 0 <= BASE_FREQUENCY / x < 2 ^ 16) as Hs.
  { intros x Hx. split; [apply Z.div_pos; unfold BASE_FREQUENCY; lia | apply Z.div_lt_upper_bound; unfold BASE_FREQUENCY; lia]. }
  rewrite !Z.mod_small by (apply Hs; lia). apply Z.div_le_compat_l; unfold BASE_FREQUENCY; lia.
Qed.

Example pit_slow_periods : pit_time_to_cycles 1200000 RateGenerator = Done (Ok 0).
Proof. done. Qed.

(** A period of 0 is refused after the handler was registered and its line
    unmasked. *)
Lemma pit_refuses_late {W} `{Ports W} `{Mmio32 W} (s s' : IoApics W) idt idt' cs stub :
  register_irq s idt cs PIT_IRQ stub = Done (s', idt') ->
  Pit_configure s idt cs stub 0 RateGenerator = Done (Err InvalidTimePeriod, s', idt').
Proof. intros E. unfold Pit_configure. by rewrite E. Qed.
