(* ===== verification/MemCopy.v ===== *)
(** * Copying memory

    [memcpy] of utils/src/mem/mod.rs ([memset] is with the code that uses it,
    in [Svm]), on the bytes of virtual memory. *)

From stdpp Require Import functions.
From S2P Require Import Prelude.

(** [for i in 0..len], from [i] on with [n] left. *)
Fixpoint memcpy_from (mem : Z -> Z) (dst src : Z) (i : Z) (n : nat) : Z -> Z :=
  match n with
  | O => mem
  | S n => memcpy_from (<[dst + i := mem (src + i)]> mem) dst src (i + 1) n
  end.

Definition memcpy (mem : Z -> Z) (dst src len : Z) : Z -> Z := memcpy_from mem dst src 0 (Z.to_nat len).

(** The byte that ends up at [dst + i]: when the destination begins inside the
    source, the bytes before it are repeated. *)
Definition copied (dst src i : Z) : Z := src + (if src <? dst then i mod (dst - src) else i).

(** [m] after the first [k] bytes have been copied in [mem]. *)
Record copied_to (mem : Z -> Z) (dst src k : Z) (m : Z -> Z) : Prop := {
  ct_in i : 0 <= i < k -> m (dst + i) = mem (copied dst src i);
  ct_out a : ~ dst <= a < dst + k -> m a = mem a;
}.

Lemma copied_step mem dst src k m : 0 <= k -> copied_to mem dst src k m -> copied_to mem dst src (k + 1) (<[dst + k := m (src + k)]> m).
Proof.
  intros Hk [Hin Hout]. split.
  - intros i Hi. destruct (Z.eq_dec i k) as [-> | Hne]; [| rewrite fn_lookup_insert_ne by lia; apply Hin; lia].
    rewrite fn_lookup_insert. unfold copied. destruct (Z.ltb_spec src dst) as [Hd | Hd]; [| apply Hout; lia].
    destruct (Z_lt_le_dec k (dst - src)) as [Hlt | Hle]; [rewrite Z.mod_small by lia; apply Hout; lia |].
    replace (src + k) with (dst + (k - (dst - src))) by lia. rewrite Hin by lia. unfold copied. rewrite (proj2 (Z.ltb_lt _ _) Hd).
    do 2 f_equal. replace (k mod (dst - src)) with ((k - (dst - src) + 1 * (dst - src)) mod (dst - src)) by (f_equal; lia).
    by rewrite Z.mod_add by lia.
  - intros a Ha. rewrite fn_lookup_insert_ne by lia. apply Hout. lia.
Qed.

Lemma memcpy_from_copies mem dst src n : forall k m, 0 <= k -> copied_to mem dst src k m ->
  copied_to mem dst src (k + Z.of_nat n) (memcpy_from m dst src k n).
Proof.
  induction n as [| n IH]; intros k m Hk Hc; cbn [memcpy_from]; [by rewrite Z.add_0_r |].
  replace (k + Z.of_nat (S n)) with (k + 1 + Z.of_nat n) by lia. apply IH; [lia |]. by apply copied_step.
Qed.

(** [memcpy] copies byte by byte from the front: every byte outside the
    destination keeps its value, and the destination gets the source unless it
    begins inside it. *)
Theorem memcpy_copies mem dst src len : 0 <= len -> copied_to mem dst src len (memcpy mem dst src len).
Proof.
  intros Hl. pose proof (memcpy_from_copies mem dst src (Z.to_nat len) 0 mem ltac:(lia)) as Hc.
  rewrite Z.add_0_l, Z2Nat.id in Hc by done. apply Hc. split; [lia | done].
Qed.

(** A destination that does not begin inside the source is a copy of it. *)
Corollary memcpy_disjoint mem dst src len i : 0 <= i < len -> dst <= src \/ src + len <= dst ->
  memcpy mem dst src len (dst + i) = mem (src + i).
Proof.
  intros Hi Hd. rewrite (ct_in _ _ _ _ _ (memcpy_copies mem dst src len ltac:(lia))) by done. unfold copied.
  destruct (Z.ltb_spec src dst); [| done]. by rewrite Z.mod_small by lia.
Qed.

(** Three bytes onto the second of them: the first is repeated. *)
Example memcpy_overlap : (fun i => memcpy (fun a => a) 11 10 3 (11 + i)) <$> [0; 1; 2] = [10; 10; 10].
Proof. done. Qed.
