(* ===== verification/Scheduler.v ===== *)
(** * The constant scheduler

    Models scheduler/src/lib.rs and constant.rs, the only scheduler there is,
    and the vessel as what it schedules (hypervisor/src/lib.rs). *)

From S2P Require Import Prelude Ids Pmm PageTable Bitfield Layouts Registers Vmcb Svm.

(** The trait: [run] may change the schedulable and the state [S] around it. *)
Class Schedulable (T S : Type) := {
  schedulable_id : T -> Id;
  schedulable_run : T -> S -> res (T * S);
}.

Record Constant (T : Type) := mkConstant { scheduable : option T }.
Arguments mkConstant {T}.
Arguments scheduable {T}.

Section constant.
Context {T S : Type} `{Schedulable T S}.

Definition Constant_new_const : Constant T := mkConstant None.
Definition Constant_new (params : option T) : Constant T := mkConstant params.

Definition Constant_add (c : Constant T) (vessel : T) : res (Constant T) :=
  _ ← assert_ (match scheduable c with None => true | Some _ => false end);
  Done (mkConstant (Some vessel)).

Definition Constant_remove (c : Constant T) : res (T * Constant T) :=
  vessel ← unwrap (scheduable c);
  Done (vessel, mkConstant None).

(** The first [n] rounds of the [loop]. *)
Fixpoint rounds (n : nat) (vessel : T) (s : S) : res (T * S) :=
  match n with
  | O => Done (vessel, s)
  | Datatypes.S n => '(vessel, s) ← schedulable_run vessel s; rounds n vessel s
  end.

(** [operation_loop] after [n] rounds; it never returns. *)
Definition operation_loop (n : nat) (c : Constant T) (s : S) : res (Constant T * S) :=
  match scheduable c with
  | Some vessel => '(vessel, s) ← rounds n vessel s; Done (mkConstant (Some vessel), s)
  | None => Panic Asserted
  end.
End constant.

(** ** Vessels
    The state around a vessel is the control block it points at and the log. *)
Section vessel.
Context {P : Type} `{PmmAllocator P} `{Bitfields} (hhdm cr3_top_pml : Z) (vmrun_ : Z -> Z -> Z) (s : PtState P).

Definition Vessel_run (v : Vessel) (st : Z * list log_line) : res (Vessel * (Z * list log_line)) :=
  '(vmcb, lines) ← Vmcb_run hhdm cr3_top_pml vmrun_ s (vessel_control v) (fst st);
  Done (v, (vmcb, (snd st ++ lines)%list)).

Definition vessel_schedulable : Schedulable Vessel (Z * list log_line) :=
  {| schedulable_id := vessel_id; schedulable_run := Vessel_run |}.
End vessel.

(** ** Theorems *)
Section theorems.
Context {T S : Type} `{Schedulable T S}.

Lemma rounds_plus n m v (s : S) : rounds (n + m) v s = ('(v, s) ← rounds n v s; rounds m v s).
Proof.
  revert v s. induction n as [| n IH]; intros v s; [done |]. cbn [rounds Nat.add].
  destruct (schedulable_run v s) as [[v1 s1] | p]; [| done]. apply IH.
Qed.

(** One schedulable at a time: [add] and [remove] undo each other, and each
    refuses the state the other leaves. *)
Lemma constant_add_remove (v : T) :
  (c ← Constant_add Constant_new_const v; Constant_remove c) = Done (v, Constant_new_const) /\
  (forall c v', scheduable c = Some v' -> Constant_add c v = Panic Asserted) /\
  Constant_remove (@Constant_new_const T) = Panic Unwrapped.
Proof. split; [done |]. split; [| done]. intros c v' E. unfold Constant_add. by rewrite E. Qed.
End theorems.
