(* ===== verification/SchedulerTheorems.v ===== *)
(** * Theorems on the scheduler

    A vessel under the constant scheduler, through the run of its control block
    and the page tables that map it. *)

From S2P Require Import Prelude Ids Pmm PageFlags Pages PageTable PageTableCorrect Paging BootMap BootTheorems KernelPages KernelPagesTheorems Bitfield Layouts Registers Vmcb Svm SvmTheorems Scheduler.

Section vessel.
Context {P : Type} `{PmmAllocator P} `{BitfieldLaws} (hhdm cr3_top_pml : Z) (vmrun_ : Z -> Z -> Z) (s : PtState P).

#[local] Instance the_vessels : Schedulable Vessel (Z * list log_line) := vessel_schedulable hhdm cr3_top_pml vmrun_ s.

(** A guest that the processor brings back to the same state, with an exit
    that the hypervisor handles. *)
Record exits_again (phys vmcb : Z) (code : Code.InterceptCode) (line : log_line) : Prop := {
  ea_same : vmrun_ phys vmcb = vmcb;
  ea_code : load (control "exitcode") vmcb = i64_bits (Code.InterceptCode_repr code);
  ea_handled : handled code = Some line;
  ea_quiet : load (inside (control "exitintinfo") (at_ ExitIntInfo "valid")) vmcb = 0;
}.

Lemma Vessel_run_again v phys vmcb code line log : translate hhdm cr3_top_pml s (vessel_control v) = Done (Some phys) ->
  phys mod BASIC_PAGE_SIZE = 0 -> exits_again phys vmcb code line ->
  schedulable_run v (vmcb, log) = Done (v, (vmcb, (log ++ [VmexitWith code; line])%list)).
Proof.
  intros Et Ha [Es Ec Eh Eq]. cbn. unfold Vessel_run. cbn [fst snd].
  rewrite (Vmcb_run_ok hhdm cr3_top_pml vmrun_ s _ vmcb _ code Et).
  - by rewrite Ha, Es, Eq, Eh.
  - intros p [= <-]. by rewrite Es.
Qed.

Lemma rounds_again v phys vmcb code line n : translate hhdm cr3_top_pml s (vessel_control v) = Done (Some phys) ->
  phys mod BASIC_PAGE_SIZE = 0 -> exits_again phys vmcb code line -> forall log,
  rounds n v (vmcb, log) = Done (v, (vmcb, (log ++ concat (replicate n [VmexitWith code; line]))%list)).
Proof.
  intros Et Ha He. induction n as [| n IH]; intros log; [by rewrite app_nil_r |]. cbn [rounds replicate concat].
  rewrite (Vessel_run_again v phys vmcb code line log Et Ha He), bind_Done, IH. by rewrite <- (assoc_L (++)%list).
Qed.

(** The constant scheduler runs the vessel that was added to it for ever:
    once the guest reaches an instruction that is intercepted and whose exit is
    handled, every later round ends in the same exit with the same guest state,
    since the handler does not move the guest past the instruction.  The loop
    neither stops nor returns, and the guest makes no progress. *)
Theorem constant_loop_stays v phys vmcb0 vmcb code line lines log n :
  translate hhdm cr3_top_pml s (vessel_control v) = Done (Some phys) -> phys mod BASIC_PAGE_SIZE = 0 ->
  Vmcb_run hhdm cr3_top_pml vmrun_ s (vessel_control v) vmcb0 = Done (vmcb, lines) -> exits_again phys vmcb code line ->
  (c ← Constant_add Constant_new_const v; operation_loop (S n) c (vmcb0, log)) =
    Done (mkConstant (Some v), (vmcb, (log ++ lines ++ concat (replicate n [VmexitWith code; line]))%list)).
Proof.
  intros Et Ha Er He. unfold Constant_add, operation_loop. cbn [scheduable Constant_new_const assert_]. rewrite !bind_Done.
  cbn [scheduable rounds]. cbn [schedulable_run the_vessels vessel_schedulable]. unfold Vessel_run at 1. cbn [fst snd].
  rewrite Er, !bind_Done. rewrite (rounds_again v phys vmcb code line n Et Ha He), bind_Done. by rewrite <- (assoc_L (++)%list).
Qed.
End vessel.

(** A guest at a HLT, whose control block is on a page of the kernel. *)
#[local] Existing Instance plain_bitfields.
#[local] Existing Instance plain_bitfield_laws.

Definition ex_halts (phys vmcb : Z) : Z := store (control "exitcode") 0x78 vmcb.

Lemma constant_loop_stays_witness : exists g va,
  PagingManager_allocate_pages ex_boot_hhdm 6 ex_paging 1 rw size_4kb = Done (Ok va, g) /\
  (c ← Constant_add Constant_new_const (mkVessel 7 va);
   operation_loop (H := vessel_schedulable ex_boot_hhdm 6 ex_halts (tables g)) 3 c (0, [])) =
    Done (mkConstant (Some (mkVessel 7 va)), (store (control "exitcode") 0x78 0,
      [VmexitWith Code.Hlt; HltIntercept; VmexitWith Code.Hlt; HltIntercept; VmexitWith Code.Hlt; HltIntercept])).
Proof.
  destruct (kernel_allocate_page ex_boot_hhdm 6 ex_paging [] 3 (ex_paging_inv 4 ltac:(lia))) as (va & phys & g & E & Et & Hd).
  exists g, va. split; [exact E |].
  pose proof (proj2 (Z.mod_divide phys BASIC_PAGE_SIZE ltac:(done)) Hd) as Ha.
  apply (constant_loop_stays ex_boot_hhdm 6 ex_halts (tables g) (mkVessel 7 va) phys 0 _ Code.Hlt HltIntercept
    [VmexitWith Code.Hlt; HltIntercept] [] 2 Et Ha).
  - cbn [vessel_control]. pose proof (Vmcb_run_ok ex_boot_hhdm 6 ex_halts (tables g) va 0 _ Code.Hlt Et ltac:(by vm_compute)) as E1.
    cbn beta iota in E1. rewrite Ha in E1. exact E1.
  - split; by vm_compute.
Defined.
